(* ===== verification/_CoqProject ===== *)
-Q . S2P
Prelude.v
Lru.v
Model.v
Sql.v
StoreSql.v
Supplier.v
Workers.v
Jobs.v
AppQueue.v
Queue.v
TaskChannel.v
Resource.v
Json.v
JsonFacts.v
Unmarshal.v
UnmarshalFacts.v
Settings.v
Attempt.v
Calls.v
World.v
Sessions.v
Agents.v
Events.v
Schema.v
Manager.v
Team.v
Calling.v
CallInbound.v
CallDial.v
CallPredict.v
Chat.v
ChatQueue.v
Im.v
CallManager.v
SwitchConn.v
Broker.v
Distribute.v
Messages.v
ImQueue.v
Dialing.v
Api.v
Rpc.v
StoreOps.v
Payloads.v
PayloadFacts.v
Store.v
StoreFacts.v
Frame.v
Invariant.v
MembersCache.v
Lifecycle.v
RpcFacts.v
LeaveRace.v
ChatFacts.v
RunFrame.v
CallRuns.v
SessionFrame.v
SessionRuns.v
RunFacts.v
Histories.v
SessionFacts.v
ChatRunFacts.v
BrokerFacts.v
BrokerLoop.v
Boot.v
BootFacts.v
ManagerFacts.v
TeamFacts.v
JobFacts.v
Witnesses.v
JsonWitnesses.v
RunWitnesses.v
ApiFacts.v
ApiWitnesses.v
StoreRuns.v
StoreWitnesses.v
CallFacts.v
CallWitnesses.v
SwitchFacts.v
