(* ===== verification/Prelude.v ===== *)
(** * Verification library of the call_center server

    The server distributes the members of queues (people to call, callers, chats, instant
    message threads, tasks) to agents. A member in a queue is an attempt; the queue manager
    creates attempts, hands them to the goroutine of their queue, and takes them out when
    they end. The source is written in Go, under src/.

    ** Parts of the program and the files that model them

    - Lru: utils/lru.go and model/lru.go, the generational LRU cache behind every object
      cache. State [Cache]; one definition per method. [LruFacts] proves it against a bounded
      recency list.
    - Model: the records and pure functions of the package model.
    - Queue: queue/queue.go and queue/hook.go, the constructors and settings of the thirteen
      kinds of queue objects ([QueueKind]); the decoding of the settings is the class [Decoders].
    - TaskChannel: queue/task_channel.go. Resource: queue/resource.go, with the decoding of
      UTF-8 that [range] performs. Attempt: queue/attempt.go, the operations on one attempt.
    - Json: what encoding/json writes and reads, on bytes: [print] and [parse]. JsonFacts: that
      they are inverse on UTF-8. Unmarshal: json.Unmarshal into Go values, one decoder per
      type, and structs as lists of fields. UnmarshalFacts: what was written is read. Settings:
      the [*FromBytes] functions of the packages queue and model, the instance of [Decoders].
      Payloads: destinations, variables, parameters and
      errors as JSON (model/member.go, model/utils.go, model/task.go, queue/im_inbound.go), the
      instances [json_services] and [json_store] of the classes the other parts are written
      against. PayloadFacts and JsonWitnesses: their theorems on these and on examples.
    - World: the shared memory of the goroutines (heap of attempts, agents, task channels and
      resources, the object caches, the wait group), the monad [M] of the operations, the
      calls to the outside ([Effect]) with their answers ([Services]), and the interface of
      the object caches ([ObjectCache] with its laws [ObjectCacheLaws]).
    - Agents: agent_manager. Events: queue/events.go and SetState. Schema: queue/schema.go.
      Manager: queue/queue_manager.go and queue/resource_manager.go. Team: queue/team.go.
      Distribute and Messages: the entry points of queue/queue_manager.go that create
      attempts, and DistributeAttempt of every queue kind. Dialing: queue/dialing.go,
      app/agent.go and the goroutines of the task queues.
    - Calls: call_manager/call.go, the call object and its state machine ([CallImpl]).
      CallManager: call_manager/call_manager.go and call_events.go, the manager ([CMState])
      with the cache of calls, the commands sent to the switch ([SwitchCmd], answered by
      [Switch]) and the handling of its events. The queue manager reaches calls through the
      effects of World; the call manager has a state and a monad ([CM]) of its own.
    - Calling: queue/call.go, the requests of the calls a queue makes. CallInbound, CallDial
      and CallPredict: the goroutines of the call queues (the files queue/call_*.go).
    - Chat: the package chat, with its store of conversations. ChatQueue: the goroutine of
      queue/chat_inbound.go. Im: the package im. ImQueue: the goroutine of
      queue/im_inbound.go. The two goroutines run on the state of the manager and on that of
      the other package; Sessions is the monad for that.
    - SwitchConn: external_commands/grpc/call_connection.go, the connection to a switch: its
      commands, and what the answer to an origination means. SwitchFacts: its theorems.
    - Workers: utils/watcher.go and utils/pool.go, as state machines over every interleaving.
      Jobs: what the watchers call (trigger/manager.go, queue/expired.go, queue/statistics.go,
      queue/manual.go, the packages engine and cluster), with the trigger manager and the
      dialing as state machines. JobFacts: their theorems.
    - Broker: mq/rabbit/client.go, the streams to the consumers, the reading of deliveries and
      the connection. BrokerFacts: its theorems, with the im package behind the stream.
      BrokerLoop: the loop of the listener, the decoding of the messages and what is published
      (mq/rabbit/agent.go and queue.go), with the theorem about lost connections.
    - AppQueue: app/queue.go, the setting that all calls are recorded, with the requests, the
      shared questions to the store and the events in any order; and the notifications.
    - Api: grpc_api/member.go and agent.go, the requests and the streams that follow an
      attempt. ApiFacts and ApiWitnesses: their theorems. Rpc: the unary requests with the
      interceptor of app/grpc_server.go. RpcFacts: their theorems.
    - Sql: statements, parameters, errors and the words that write. StoreSql: the texts of the
      statements of store/sqlstore. StoreOps: every method of the store, as a function of the
      answers of the database ([Database]). Store: the interface of store/store.go
      ([StoreCall]), and the services of World and Jobs answered by these methods. StoreFacts:
      the theorems about the store. StoreRuns and StoreWitnesses: the queue manager and the
      gRPC interface on it. Supplier: store/sqlstore/supplier.go, connections and scanners.
    - Boot: app/app.go, app/config.go and main.go: New, Shutdown and the Start of the parts, on
      Supplier, Broker, Jobs and CallManager; wakeUp of the call manager. BootFacts: theorems.
    - CallFacts: the theorems about the calls. CallWitnesses: a concrete switch, histories
      played on it, and the theorems applied to them. ChatFacts: the theorems about the
      package chat.
    - Frame, Invariant, Lifecycle, LeaveRace, ManagerFacts, TeamFacts: the theorems about the
      manager. RunFrame, CallRuns, SessionFrame and SessionRuns carry the frame over to the
      goroutines; RunFacts, SessionFacts and ChatRunFacts are the theorems about them, and
      Histories those about requests and goroutines in any order. MembersCache: the LRU cache
      discharges the laws of the cache interface, and a concrete manager. Witnesses and
      RunWitnesses: the theorems applied to it.

    ** How the code is modelled

    A pure function is a function; a method on a shared object is a value of [M]: state
    passing over [World], with an [outcome] that is a result, a panic (with its message) or
    a blocked channel operation. A pointer is a location of the heap where several parts
    share the object, and the value itself where nothing writes to it after its creation
    (queues, teams). A call to the store, the broker, the flow service, the call, chat and
    message managers or the app is recorded in the trace, and its answer is a function of
    the trace, so that it may depend on everything that happened before; the clock too.
    Nothing is assumed of the answers except where a theorem says so. A [go] statement is an
    effect; an operation runs to its end before the next one starts, except in the files
    LeaveRace and AppQueue and in the state machines of Workers and Jobs. A stream of the gRPC
    interface receives each hook with what the others did to the manager before it. Integers have the width of the source where it matters (u16, u32, i64).
    Logging is left out.

    The goroutine of an attempt is a function of the list of events its selects receive, so
    the list is the schedule and the theorems hold for all of them. For a call an event
    says which channel was ready, and the call is read as the call manager answers at that
    moment. For a chat and for a message the events also say what the other goroutines do to
    the conversation, to the session and to the task between two steps.

    ** What the theorems show

    - The cache: histories of the LRU cache are histories of a bounded recency list; its
      list, map, counter and generations agree; what an addition evicts; get after add.
    - JSON: the destination of an instant message comes back as it was written, and the member
      of its attempt has the thread byte for byte; variables come back.
    - The count of attempts: whatever the requests, ticks and goroutines do one after the
      other, the wait group is never negative and covers the members cache (an abstract
      invariant over the cache interface, discharged by the LRU cache). Leaving an attempt returns,
      and leaving it again changes no attempt, no cache and no count. Two leavers that interleave can break it.
    - The goroutines: how each of them ends (it leaves its attempt once, hands it to the end
      of the conversation, or drops it, and which queues never drop one); that the retries
      of a predictive call end; the cases in which an attempt is left behind.
    - Chats: every history of the package runs without a panic and keeps the conversations
      well formed, their states arrive in order; a conversation leaves the store with its
      attempt. Instant messages: which messages of the gateway cancel a session, the length
      of a preview, that every preview that was granted is
      asked to be removed or made a membership before the next agent is looked for, when an agent counts as idle.
    - The life of an attempt: what distributing, reporting (final and draft), timing out,
      the end of a conversation and shutdown do to it: what is still cached after
      a shutdown had its report refused, unless reports wait for channels.
    - Calls: over every history of events, requests, timers and goroutines, a call ends once,
      for good, and without a panic; the ring timer; joining a queue from the switch; the
      events and orders of events that do panic or hang up an answered call; what the
      registration of a connection changes.
    - Guards: requests of another domain, the acceptance of tasks, the pause of agents.
    - Freshness of queues and agents; the error accounting of resources; the break of an
      agent that misses attempts; the deadline of the wrap up event.
    - Task channels send each state once; transfers of a conversation are exclusive; exported
      variables do not depend on the iteration order of maps; what NewQueue builds; error
      masks; hooks; unions of variables; routing keys.

    - The periodic jobs: a watcher that was started and told to stop can end, no round
      starts after, and no channel is closed twice; a pool runs each job at most once, and,
      unless it was shrunk to no workers, every one before a Wait after Close returns; a trigger job that was fetched is in one place and runs at most
      once; the orders of stopping that panic.
    - The broker: whatever arrives and however slow the consumers are, each stream is delivered
      in order and a message is sent, buffered or dropped once; when deliveries are
      acknowledged; connecting ends; the listener reads on after a lost connection.
    - gRPC: the status of every unary request, and that no sequence of them breaks the count
      of attempts; the shape of the stream of a call, from joined to leaving; the streams that never
      end or panic; the answers of the switch to an origination.
    - The setting that all calls are recorded: where each answer to a request comes from.
    - The store: each method sends one or two statements (or none for absent form fields) whose parameters and arguments fit,
      none with a word that writes on replicas, and fails with the codes 400, 404 or 500. With the queue manager
      on top: a report that is refused, stored, or stored in part; a full queue.
    - The process: every part that was created, but the gRPC server, is stopped once and in
      order, after a failed start too, with the two exceptions that BootFacts states; replicas in turn; the pings of a new connection; what the connections to the
      switches keep.

    ** Bounds and fuel

    Recursion is structural, on lists of keys, events and bytes, with these exceptions. The
    decoding of a string into runes has the length of the string as fuel: every step
    consumes a byte. So it is for the strings of JSON; the parser of a text of n bytes has fuel
    2n+1, and more changes nothing ([parse_fuel]): between two values it reads a byte. The retries of a predictive call have maxRetryCount as fuel, which is
    the bound of the source, and more fuel gives the same result. Connecting to the broker has
    fuel 101: the source dials at most 100 times, and more fuel changes nothing. The pings of a
    database connection count down from DB_PING_ATTEMPTS, the bound of the source. The loop
    around a select runs over the events it is given and blocks when they run out, as the
    select does.

    ** Not modelled

    What the statements of the store do inside PostgreSQL, in particular the functions of its
    schema: the answers of the database are a parameter ([Database]). The gateway of instant
    messages, the flow and chat services, FreeSWITCH, consul and the AMQP library: parameters.
    Of JSON: the decoding of call events ([CallJson]) and of the body of a chat event, which are
    maps of any values, of the rows of the database and of a form of the flow service, and the
    texts of its errors ([JsonErrors]). The library of the rate limiters, the SQL log,
    telemetry and health checks, accessors that return a field, and generated code. Mutexes are
    not modelled: an operation is atomic except in the files LeaveRace and AppQueue. Of
    singleflight, AppQueue uses what it documents; elsewhere it runs its function. A send on the channel of a conversation that waits for a slow reader while
    the goroutine that reads it runs is modelled in Chat, not in ChatQueue, where the events
    of the chat service are handled while the channel has room. *)

From stdpp Require Export base gmap strings list fin_maps pretty.
From Stdlib Require Export ZArith Lia Ascii.

#[export] Set Warnings "-clear-no-such-hyp".

Declare Scope go_scope.
Delimit Scope go_scope with go.
#[global] Open Scope Z_scope.

(** ** Record update

    [r <| f := v |>] is the record [r] with field [f] replaced. A record type opts in
    with an instance of [Eta] that lists its projections; the update function of a
    projection is then found by abstracting it in the eta expansion. *)

Class Eta (R : Type) := eta : R -> R.

Class Upd {R T : Type} (p : R -> T) := upd : (T -> T) -> R -> R.

Ltac derive_upd :=
  match goal with
  | |- @Upd ?R ?T ?p =>
      let i := constr:(_ : Eta R) in
      let e := eval red in i in
      match eval pattern p in e with
      | ?k _ => exact (fun (f : T -> T) => k (fun r : R => f (p r)))
      end
  end.

#[global] Hint Extern 0 (@Upd _ _ _) => derive_upd : typeclass_instances.

Notation "r <| p := v |>" := (@upd _ _ p _ (fun _ => v) r)
  (at level 1, left associativity, p at level 9, v at level 200, format "r  <| p  :=  v |>") : go_scope.
#[global] Open Scope go_scope.

(** ** Machine integers

    An integer of the source is a [Z]; where an arithmetic operation of the source can
    leave the range of its type, the wrap around is written with one of these. *)

Definition u16 (z : Z) : Z := z `mod` 2 ^ 16.

Definition u32 (z : Z) : Z := z `mod` 2 ^ 32.

Definition i64 (z : Z) : Z := (z + 2 ^ 63) `mod` 2 ^ 64 - 2 ^ 63.

Lemma u16_small (z : Z) : 0 <= z < 65536 -> u16 z = z.
Proof. intros. unfold u16. apply Z.mod_small. lia. Qed.

Lemma u32_small (z : Z) : 0 <= z < 2 ^ 32 -> u32 z = z.
Proof. intros. unfold u32. apply Z.mod_small. lia. Qed.

Lemma u16_range (z : Z) : 0 <= u16 z < 65536.
Proof. unfold u16. apply (Z.mod_pos_bound z (2 ^ 16)). lia. Qed.

Lemma i64_small (z : Z) : - 2 ^ 63 <= z < 2 ^ 63 -> i64 z = z.
Proof. intros. unfold i64. rewrite Z.mod_small; lia. Qed.

(** ** Lists *)

(** Filters that agree on the elements of a list. *)
Lemma filter_ext_in {A} (P Q : A -> Prop) `{!forall x, Decision (P x)}
    `{!forall x, Decision (Q x)} (l : list A) :
  (forall x, x ∈ l -> P x <-> Q x) -> filter P l = filter Q l.
Proof.
  induction l as [|x l IH]; intros HP; [done|].
  assert (filter P l = filter Q l) as E.
  { apply IH. intros y Hy. apply HP. by right. }
  rewrite !filter_cons, E.
  assert (P x <-> Q x) as [HPQ HQP] by (apply HP; left).
  destruct (decide (P x)), (decide (Q x)); done || (exfalso; auto).
Qed.

(** A filter that keeps every element. *)
Lemma filter_all {A} (P : A -> Prop) `{!forall x, Decision (P x)} (l : list A) :
  (forall x, x ∈ l -> P x) -> filter P l = l.
Proof.
  induction l as [|x l IH]; intros HP; [done|].
  rewrite filter_cons_True by (apply HP; left).
  f_equal. apply IH. intros y Hy. apply HP. by right.
Qed.

(** A filter that keeps no element. *)
Lemma filter_none {A} (P : A -> Prop) `{!forall x, Decision (P x)} (l : list A) :
  (forall x, x ∈ l -> ~ P x) -> filter P l = [].
Proof.
  induction l as [|x l IH]; intros HP; [done|].
  rewrite filter_cons_False by (apply HP; left).
  apply IH. intros y Hy. apply HP. by right.
Qed.

Lemma filter_comm {A} (P Q : A -> Prop) `{!forall x, Decision (P x)}
    `{!forall x, Decision (Q x)} (l : list A) :
  filter P (filter Q l) = filter Q (filter P l).
Proof.
  rewrite !list_filter_filter. apply filter_ext_in. intros ? _. tauto.
Qed.

(** Two pairs of a list without duplicate first components that share their first
    component are the same pair. *)
Lemma NoDup_fst_inj {A B} (l : list (A * B)) a b b' :
  NoDup l.*1 -> (a, b) ∈ l -> (a, b') ∈ l -> b = b'.
Proof.
  induction l as [|[x y] l IH]; simpl; intros ND H1 H2.
  { by apply not_elem_of_nil in H1. }
  apply NoDup_cons in ND as [Hx ND].
  apply elem_of_cons in H1 as [H1|H1], H2 as [H2|H2]; simplify_eq; try done.
  - destruct Hx. apply (list_elem_of_fmap_2 fst _ _ H2).
  - destruct Hx. apply (list_elem_of_fmap_2 fst _ _ H1).
  - by apply IH.
Qed.

Lemma NoDup_fmap_filter {A B} (f : A -> B) (P : A -> Prop)
    `{!forall x, Decision (P x)} (l : list A) :
  NoDup (f <$> l) -> NoDup (f <$> filter P l).
Proof.
  induction l as [|x l IH]; [done|].
  rewrite fmap_cons, NoDup_cons. intros [Hx ND].
  destruct (decide (P x)).
  - rewrite filter_cons_True by done. rewrite fmap_cons, NoDup_cons. split; [|auto].
    intros (y & E & Hy)%list_elem_of_fmap. apply list_elem_of_filter in Hy as [_ Hy].
    apply Hx. rewrite E. apply list_elem_of_fmap_2, Hy.
  - rewrite filter_cons_False by done. auto.
Qed.

Lemma length_filter_le {A} (P : A -> Prop) `{!forall x, Decision (P x)} (l : list A) :
  (length (filter P l) <= length l)%nat.
Proof.
  induction l as [|x l IH]; [done|].
  rewrite filter_cons. case_decide; simpl; lia.
Qed.

(** Removing a duplicate-free element shortens the list by one. *)
Lemma length_filter_remove {A B} (f : A -> B) `{!EqDecision B} (l : list A) x :
  NoDup (f <$> l) -> x ∈ l ->
  length l = S (length (filter (fun y => f y <> f x) l)).
Proof.
  induction l as [|y l IH]; simpl; intros ND H.
  { by apply not_elem_of_nil in H. }
  apply NoDup_cons in ND as [Hy ND].
  destruct (decide (f y = f x)) as [E|E].
  - rewrite filter_cons_False by naive_solver.
    rewrite filter_all; [done|]. intros z Hz E'.
    apply Hy. rewrite E, <- E'. by apply list_elem_of_fmap_2.
  - rewrite filter_cons_True by done. simpl. f_equal. apply IH; [done|].
    apply elem_of_cons in H as [->|H]; [done|done].
Qed.

(** ** Go maps and outcomes *)

(** What a Go function call can do besides returning: a run time panic, or waiting on a
    channel that nothing will serve in the state at hand. *)
Inductive outcome (A : Type) :=
| Ret (a : A)
| Panic (why : string)
| Block (on : string).

Arguments Ret {A} a.
Arguments Panic {A} why.
Arguments Block {A} on.

#[global] Instance outcome_ret : MRet outcome := fun A a => Ret a.

#[global] Instance outcome_bind : MBind outcome := fun A B f m =>
  match m with Ret a => f a | Panic w => Panic w | Block w => Block w end.

(** The value of an option that passes a test. *)
Definition keep_if {A} (test : A -> bool) (o : option A) : option A :=
  match o with
  | Some a => if test a then Some a else None
  | None => None
  end.

(** The tactic that closes a goal by case analysis on every match and decision in it. *)
Ltac crush :=
  repeat (simplify_eq/= || case_match || case_decide || case_bool_decide
          || destruct_and!); try done; try lia; try congruence.

Create HintDb callcenter.
#[export] Hint Resolve u16_range : callcenter.
