(* ===== verification/Lru.v ===== *)
(** * The LRU cache: utils/lru.go and model/lru.go

    [Cache] is the struct of the two packages (their code is the same, model/lru.go adds
    [RemoveFunc]). The doubly linked [evictList] is the list of its elements, front
    first; an element is its address (a [nat] drawn from [nextElem]) with the entry it
    points to, and [items] maps a key to an element address, so the two structures can
    only be consistent by an invariant, [wf], which every operation preserves.

    [live] is the abstract contents: the entries of the current generation, most
    recently used first. [Spec] is a bounded recency list; every operation refines its
    counterpart there. The clock is an argument, in seconds. *)

From S2P Require Import Prelude.

(** ** Data *)

Record entry (K V : Type) := Entry {
  key : K;
  value : V;
  expireAtSecs : Z;
  generation : Z;
}.

Arguments Entry {K V}.
Arguments key {K V}.
Arguments value {K V}.
Arguments expireAtSecs {K V}.
Arguments generation {K V}.

Record Cache (K V : Type) `{Countable K} := MkCache {
  size : Z;
  evictList : list (nat * entry K V);
  items : gmap K nat;
  name : string;
  defaultExpiry : Z;
  invalidateClusterEvent : string;
  currentGeneration : Z;
  len : Z;
  nextElem : nat;
}.

Arguments MkCache {K V _ _}.
Arguments size {K V _ _}.
Arguments evictList {K V _ _}.
Arguments items {K V _ _}.
Arguments name {K V _ _}.
Arguments defaultExpiry {K V _ _}.
Arguments invalidateClusterEvent {K V _ _}.
Arguments currentGeneration {K V _ _}.
Arguments len {K V _ _}.
Arguments nextElem {K V _ _}.

#[export] Instance eta_entry K V : Eta (entry K V) := fun e =>
  Entry (key e) (value e) (expireAtSecs e) (generation e).

#[export] Instance eta_Cache K V `{Countable K} : Eta (Cache K V) := fun c =>
  MkCache (size c) (evictList c) (items c) (name c) (defaultExpiry c)
    (invalidateClusterEvent c) (currentGeneration c) (len c) (nextElem c).

(** ** Operations *)

Module Lru.
Section Lru.
Context {K V : Type} `{Countable K}.

(** container/list: the element at an address, and the list without it. *)
Fixpoint find_elem (id : nat) (l : list (nat * entry K V)) : option (entry K V) :=
  match l with
  | [] => None
  | (i, e) :: l => if decide (i = id) then Some e else find_elem id l
  end.

Definition remove_elem (id : nat) (l : list (nat * entry K V)) :=
  filter (fun p => p.1 <> id) l.

(** [ent, ok := c.items[key]], with the entry the element holds. *)
Definition elem_at (k : K) (c : Cache K V) : option (nat * entry K V) :=
  items c !! k ≫= fun id => pair id <$> find_elem id (evictList c).

Definition NewLru (sz : Z) : Cache K V := {|
  size := sz; evictList := []; items := ∅; name := ""; defaultExpiry := 0;
  invalidateClusterEvent := ""; currentGeneration := 0; len := 0; nextElem := 0;
|}.

Definition NewLruWithParams (sz : Z) (nm : string) (expiry : Z) (inv : string)
    : Cache K V :=
  (NewLru sz) <| name := nm |> <| defaultExpiry := expiry |>
            <| invalidateClusterEvent := inv |>.

Definition Purge (c : Cache K V) : Cache K V :=
  c <| len := 0 |> <| currentGeneration := (currentGeneration c + 1) |>.

(** [removeElement] gets the list element, that is its address and what it points to. *)
Definition removeElement (el : nat * entry K V) (c : Cache K V) : Cache K V :=
  let '(id, kv) := el in
  let c := c <| evictList := (remove_elem id (evictList c)) |> in
  let c := if decide (generation kv = currentGeneration c)
           then c <| len := (len c - 1) |> else c in
  c <| items := (delete (key kv) (items c)) |>.

Definition AddWithExpiresInSecs (now : Z) (k : K) (v : V) (expire : Z) (c : Cache K V)
    : Cache K V :=
  let expire := if 0 <? expire then now + expire else expire in
  match elem_at k c with
  | Some (id, e) =>
      let e' := e <| value := v |> <| expireAtSecs := expire |>
                  <| generation := (currentGeneration c) |> in
      let c' := c <| evictList := ((id, e') :: remove_elem id (evictList c)) |> in
      if decide (generation e <> currentGeneration c)
      then c' <| len := (len c + 1) |> else c'
  | None =>
      let ent := Entry k v expire (currentGeneration c) in
      let c' := c <| evictList := ((nextElem c, ent) :: evictList c) |>
                  <| items := (<[k := nextElem c]> (items c)) |>
                  <| nextElem := (S (nextElem c)) |>
                  <| len := (len c + 1) |> in
      if size c' <? Z.of_nat (length (evictList c'))
      then match last (evictList c') with
           | Some el => removeElement el c'
           | None => c'
           end
      else c'
  end.

Definition Add (now : Z) (k : K) (v : V) (c : Cache K V) : Cache K V :=
  AddWithExpiresInSecs now k v 0 c.

Definition AddWithDefaultExpires (now : Z) (k : K) (v : V) (c : Cache K V) : Cache K V :=
  AddWithExpiresInSecs now k v (defaultExpiry c) c.

Definition Get (now : Z) (k : K) (c : Cache K V) : option V * Cache K V :=
  match elem_at k c with
  | Some (id, e) =>
      if decide (generation e <> currentGeneration c \/
                 (0 < expireAtSecs e /\ expireAtSecs e < now))
      then (None, removeElement (id, e) c)
      else (Some (value e), c <| evictList := ((id, e) :: remove_elem id (evictList c)) |>)
  | None => (None, c)
  end.

Definition Remove (k : K) (c : Cache K V) : Cache K V :=
  match elem_at k c with
  | Some el => removeElement el c
  | None => c
  end.

Definition RemoveFunc (k : K) (pred : V -> bool) (c : Cache K V) : bool * Cache K V :=
  match elem_at k c with
  | Some (id, e) =>
      if pred (value e) then (true, removeElement (id, e) c) else (false, c)
  | None => (false, c)
  end.

(** [keys[i] = e.key; i++] for the elements of the current generation, from the back;
    an index outside the slice panics. *)
Fixpoint keys_loop (gen : Z) (l : list (nat * entry K V)) (i : nat)
    (keys : list (option K)) : outcome (list (option K)) :=
  match l with
  | [] => Ret keys
  | (_, e) :: l =>
      if decide (generation e = gen) then
        if decide (i < length keys)%nat
        then keys_loop gen l (S i) (<[i := Some (key e)]> keys)
        else Panic "index out of range"
      else keys_loop gen l i keys
  end.

Definition Keys (c : Cache K V) : outcome (list (option K)) :=
  if decide (len c < 0) then Panic "makeslice: len out of range"
  else keys_loop (currentGeneration c) (reverse (evictList c)) 0
         (replicate (Z.to_nat (len c)) None).

Definition Len (c : Cache K V) : Z := len c.

End Lru.

#[global] Arguments removeElement : simpl never.
End Lru.

(** ** Abstract specification: a bounded recency list

    A list of bindings, most recently used first, with at most one binding per key. *)

Module Spec.
Section Spec.
Context {K V : Type} `{EqDecision K}.

Abbreviation bindings := (list (K * (V * Z))).

Fixpoint find (k : K) (l : bindings) : option (V * Z) :=
  match l with
  | [] => None
  | (k', ve) :: l => if decide (k' = k) then Some ve else find k l
  end.

Definition remove (k : K) (l : bindings) : bindings := filter (fun b => b.1 <> k) l.

Definition add (cap : nat) (k : K) (v : V) (exp : Z) (l : bindings) : bindings :=
  take cap ((k, (v, exp)) :: remove k l).

Definition expired (now exp : Z) : Prop := 0 < exp /\ exp < now.

#[global] Instance expired_dec now exp : Decision (expired now exp).
Proof. unfold expired. apply _. Defined.

Definition get (now : Z) (k : K) (l : bindings) : option V * bindings :=
  match find k l with
  | Some (v, exp) =>
      if decide (expired now exp) then (None, remove k l)
      else (Some v, (k, (v, exp)) :: remove k l)
  | None => (None, l)
  end.

Lemma find_remove_ne k k' (l : bindings) : k <> k' -> find k' (remove k l) = find k' l.
Proof.
  intros Hne. unfold remove. induction l as [|[k0 ve] l IH]; [done|].
  rewrite filter_cons. simpl. repeat case_decide; simplify_eq/=; try done.
  - rewrite decide_True by done. done.
  - rewrite decide_False by done. done.
Qed.

Lemma find_remove_eq k (l : bindings) : find k (remove k l) = None.
Proof.
  unfold remove. induction l as [|[k0 ve] l IH]; [done|].
  rewrite filter_cons. simpl. case_decide; [|done]. simpl. by rewrite decide_False.
Qed.

Lemma find_take (cap : nat) k ve (l : bindings) :
  find k (take cap l) = Some ve -> find k l = Some ve.
Proof.
  revert cap. induction l as [|[k0 ve0] l IH]; intros [|cap]; simpl; try done.
  case_decide; [done|]. apply IH.
Qed.

Lemma find_None (k : K) (l : bindings) : (forall b, b ∈ l -> b.1 <> k) -> find k l = None.
Proof.
  induction l as [|[k0 ve] l IH]; intros Hl; [done|]. simpl.
  rewrite decide_False by (apply (Hl (k0, ve)); left).
  apply IH. intros b Hb. apply Hl. by right.
Qed.

(** An addition that drops another key's binding was made to a full list, without the
    key, and dropped the last binding. *)
Lemma add_loses (n : nat) k k' v e ve (l : bindings) :
  (length l <= n)%nat -> k <> k' -> find k' l = Some ve -> find k' (add n k v e l) = None ->
  find k l = None /\ length l = n /\ exists m, l = m ++ [(k', ve)].
Proof.
  intros Hle Hne Hin Hout. unfold add in Hout.
  assert (length (remove k l) >= n)%nat as Hge.
  { destruct (decide (length (remove k l) < n)%nat); [|lia].
    rewrite take_ge in Hout by (simpl; lia). simpl in Hout.
    rewrite decide_False, find_remove_ne in Hout by done. congruence. }
  assert (remove k l = l) as Hr.
  { unfold remove in *.
    clear -Hle Hge. assert (length l <= length (filter (fun b => b.1 <> k) l))%nat as Hl by lia.
    clear Hle Hge. induction l as [|b l IH]; [done|].
    rewrite filter_cons in *. case_decide; simpl in *; [f_equal; apply IH; lia|].
    pose proof (length_filter_le (fun b => b.1 <> k) l). lia. }
  rewrite Hr in *. split; [by rewrite <- Hr, find_remove_eq|]. split; [lia|].
  destruct l as [|b m _] using rev_ind; [done|].
  rewrite length_app in *. simpl in *. replace n with (S (length m)) in Hout by lia.
  simpl in Hout. rewrite decide_False, take_app_length in Hout by done.
  exists m. do 2 f_equal. clear -Hin Hout. induction m as [|[k0 ve0] m IH]; simpl in *.
  - destruct b. simpl in Hin. case_decide; by simplify_eq.
  - case_decide; [done|]. by apply IH.
Qed.

End Spec.
End Spec.

(** ** Invariant *)

Module LruFacts.
Import Lru.
Section Facts.
Context {K V : Type} `{Countable K}.
Implicit Types (c : Cache K V) (el : nat * entry K V) (k : K).

Definition is_live (gen : Z) el : Prop := generation el.2 = gen.

#[global] Instance is_live_dec gen el : Decision (is_live gen el).
Proof. unfold is_live. apply _. Defined.

Definition live_elems c : list (nat * entry K V) :=
  filter (is_live (currentGeneration c)) (evictList c).

Definition stale_elems c : list (nat * entry K V) :=
  filter (fun el => ~ is_live (currentGeneration c) el) (evictList c).

Definition binding el : K * (V * Z) := (key el.2, (value el.2, expireAtSecs el.2)).

(** The abstract contents of a cache. *)
Definition live c : list (K * (V * Z)) := binding <$> live_elems c.

Definition cap c : nat := Z.to_nat (size c).

(** What holds between operations, but for the bound on the number of elements. *)
Record wf_core c : Prop := WfCore {
  wf_ids : NoDup (evictList c).*1;
  wf_fresh : forall el, el ∈ evictList c -> (el.1 < nextElem c)%nat;
  wf_items : forall k id,
    items c !! k = Some id <-> exists e, (id, e) ∈ evictList c /\ key e = k;
  wf_len : len c = Z.of_nat (length (live_elems c));
  wf_split : evictList c = live_elems c ++ stale_elems c;
  wf_gen : forall el, el ∈ evictList c -> generation el.2 <= currentGeneration c;
}.

Record wf c : Prop := Wf {
  wf_wf_core : wf_core c;
  wf_cap : (length (evictList c) <= cap c)%nat;
}.

Lemma find_elem_Some id e (l : list (nat * entry K V)) :
  NoDup l.*1 -> (id, e) ∈ l -> find_elem id l = Some e.
Proof.
  induction l as [|[i e'] l IH]; simpl; intros ND Hin.
  { by apply not_elem_of_nil in Hin. }
  apply NoDup_cons in ND as [Hi ND]. apply elem_of_cons in Hin as [?|Hin].
  - simplify_eq. by rewrite decide_True.
  - rewrite decide_False; [by apply IH|]. intros ->.
    apply Hi. apply (list_elem_of_fmap_2 fst _ _ Hin).
Qed.

Lemma elem_at_Some c k id e :
  wf_core c -> elem_at k c = Some (id, e) <-> (id, e) ∈ evictList c /\ key e = k.
Proof.
  intros W. unfold elem_at. split.
  - intros Hat. destruct (items c !! k) as [id'|] eqn:E; [|done].
    apply (wf_items _ W) in E as (e' & Hin & <-). simpl in Hat.
    rewrite (find_elem_Some id' e') in Hat by (done || apply (wf_ids _ W)).
    by simplify_eq/=.
  - intros [Hin Hk].
    assert (items c !! k = Some id) as -> by (apply (wf_items _ W); eauto).
    simpl. by rewrite (find_elem_Some id e) by (done || apply (wf_ids _ W)).
Qed.

Lemma elem_at_None c k :
  wf_core c -> elem_at k c = None -> forall el, el ∈ evictList c -> key el.2 <> k.
Proof.
  intros W Hat [id e] Hin Hk.
  assert (elem_at k c = Some (id, e)) by (by apply elem_at_Some). congruence.
Qed.

(** No two elements hold the same key. *)
Lemma key_inj c id e id' e' :
  wf_core c -> (id, e) ∈ evictList c -> (id', e') ∈ evictList c -> key e = key e' ->
  id = id' /\ e = e'.
Proof.
  intros W H1 H2 E.
  assert (elem_at (key e) c = Some (id, e)) as A1 by (by apply elem_at_Some).
  assert (elem_at (key e) c = Some (id', e')) as A2 by (by apply elem_at_Some).
  rewrite A1 in A2. by simplify_eq.
Qed.

(** Dropping an element by address is dropping it by key. *)
Lemma remove_elem_key c id e :
  wf_core c -> (id, e) ∈ evictList c ->
  remove_elem id (evictList c) = filter (fun el => key el.2 <> key e) (evictList c).
Proof.
  intros W Hin. apply filter_ext_in. intros [id' e'] Hin'. simpl.
  split; intros Hne; contradict Hne.
  - by eapply (key_inj c id' e' id e).
  - subst id'. by rewrite (NoDup_fst_inj _ _ _ _ (wf_ids _ W) Hin' Hin).
Qed.

Lemma remove_elem_notin id (l : list (nat * entry K V)) :
  id ∉ l.*1 -> remove_elem id l = l.
Proof.
  intros Hn. apply filter_all. intros el Hel <-. by apply Hn, list_elem_of_fmap_2.
Qed.

Lemma binding_remove k (l : list (nat * entry K V)) :
  binding <$> filter (fun el => key el.2 <> k) l = Spec.remove k (binding <$> l).
Proof.
  unfold Spec.remove. induction l as [|el l IH]; [done|].
  rewrite fmap_cons, !filter_cons. simpl. case_decide; by rewrite ?fmap_cons, IH.
Qed.

Lemma elem_of_live_elems c el :
  el ∈ live_elems c <-> generation el.2 = currentGeneration c /\ el ∈ evictList c.
Proof. unfold live_elems. by rewrite list_elem_of_filter. Qed.

Lemma length_live_le c : (length (live_elems c) <= length (evictList c))%nat.
Proof. apply length_filter_le. Qed.

(** *** Removing an element *)

Lemma remove_elem_filter id (P : nat * entry K V -> Prop) `{!forall x, Decision (P x)} l :
  filter P (remove_elem id l) = remove_elem id (filter P l).
Proof. apply filter_comm. Qed.

Lemma remove_elem_app id (l l' : list (nat * entry K V)) :
  remove_elem id (l ++ l') = remove_elem id l ++ remove_elem id l'.
Proof. unfold remove_elem. apply filter_app. Qed.

Lemma removeElement_evictList el c :
  evictList (removeElement el c) = remove_elem el.1 (evictList c).
Proof. destruct el. unfold removeElement. crush. Qed.

Lemma removeElement_items el c :
  items (removeElement el c) = delete (key el.2) (items c).
Proof. destruct el. unfold removeElement. crush. Qed.

Lemma removeElement_gen el c :
  currentGeneration (removeElement el c) = currentGeneration c.
Proof. destruct el. unfold removeElement. crush. Qed.

Lemma removeElement_size el c : size (removeElement el c) = size c.
Proof. destruct el. unfold removeElement. crush. Qed.

Lemma removeElement_live_elems el c :
  live_elems (removeElement el c) = remove_elem el.1 (live_elems c).
Proof.
  unfold live_elems. rewrite removeElement_evictList, removeElement_gen.
  apply remove_elem_filter.
Qed.

Lemma removeElement_length el c :
  wf_core c -> el ∈ evictList c ->
  length (evictList c) = S (length (evictList (removeElement el c))).
Proof.
  intros W Hin. rewrite removeElement_evictList. unfold remove_elem.
  by apply (length_filter_remove fst), Hin; apply (wf_ids _ W).
Qed.

Lemma stale_not_live el c :
  el ∈ evictList c -> wf_core c -> generation el.2 <> currentGeneration c ->
  remove_elem el.1 (live_elems c) = live_elems c.
Proof.
  intros Hin W Hst. apply remove_elem_notin. intros (el' & E & Hel')%list_elem_of_fmap.
  apply elem_of_live_elems in Hel' as [Hl Hel'].
  destruct el as [i e], el' as [i' e']. simpl in *. subst i'.
  by rewrite (NoDup_fst_inj _ _ _ _ (wf_ids _ W) Hin Hel') in Hst.
Qed.

Lemma length_remove_live el c :
  wf_core c -> el ∈ live_elems c ->
  length (live_elems c) = S (length (remove_elem el.1 (live_elems c))).
Proof.
  intros W Hin. apply (length_filter_remove fst); [|done].
  apply NoDup_fmap_filter, (wf_ids _ W).
Qed.

Lemma removeElement_len el c :
  wf_core c -> el ∈ evictList c ->
  len (removeElement el c) = Z.of_nat (length (live_elems (removeElement el c))).
Proof.
  intros W Hin. rewrite removeElement_live_elems.
  assert (len (removeElement el c) =
          if decide (generation el.2 = currentGeneration c) then len c - 1 else len c)
    as -> by (destruct el; unfold removeElement; crush).
  rewrite (wf_len _ W). case_decide as Hl.
  - rewrite (length_remove_live el c) by (done || by apply elem_of_live_elems). lia.
  - by rewrite stale_not_live.
Qed.

Lemma removeElement_wf_core el c :
  wf_core c -> el ∈ evictList c -> wf_core (removeElement el c).
Proof.
  intros W Hin. split.
  - rewrite removeElement_evictList. apply NoDup_fmap_filter, (wf_ids _ W).
  - intros el'. rewrite removeElement_evictList.
    intros [_ Hel']%list_elem_of_filter. destruct el.
    assert (nextElem (removeElement (n, e) c) = nextElem c) as ->
      by (unfold removeElement; crush).
    by apply (wf_fresh _ W).
  - intros k id. rewrite removeElement_evictList, removeElement_items.
    destruct el as [i e]. simpl. rewrite lookup_delete_Some, (wf_items _ W). setoid_rewrite list_elem_of_filter. simpl.
    split.
    + intros (Hk & e' & He' & <-). exists e'. split; [|done]. split; [|done].
      intros ->. by rewrite (NoDup_fst_inj _ _ _ _ (wf_ids _ W) Hin He') in Hk.
    + intros (e' & [Hi He'] & <-). split; [|eauto]. intros Hk.
      by destruct (key_inj c _ _ _ _ W He' Hin (eq_sym Hk)).
  - by apply removeElement_len.
  - rewrite removeElement_evictList, removeElement_live_elems.
    unfold stale_elems. rewrite removeElement_gen, removeElement_evictList.
    rewrite remove_elem_filter, <- remove_elem_app. f_equal. apply (wf_split _ W).
  - intros el'. rewrite removeElement_evictList, removeElement_gen.
    intros [_ Hel']%list_elem_of_filter. by apply (wf_gen _ W).
Qed.

Lemma removeElement_wf el c : wf c -> el ∈ evictList c -> wf (removeElement el c).
Proof.
  intros [W Hcap] Hin. split; [by apply removeElement_wf_core|].
  pose proof (removeElement_length el c W Hin). unfold cap in *.
  rewrite removeElement_size. lia.
Qed.

Lemma removeElement_live el c :
  wf_core c -> el ∈ evictList c -> live (removeElement el c) = Spec.remove (key el.2) (live c).
Proof.
  intros W Hin. destruct el as [i e]. unfold live.
  rewrite <- binding_remove. f_equal. rewrite removeElement_live_elems. simpl.
  unfold live_elems. rewrite <- remove_elem_filter, (remove_elem_key c i e) by done.
  apply filter_comm.
Qed.

(** *** Moving an element to the front, with its new entry *)

Definition touch (id : nat) (e' : entry K V) (n : Z) c : Cache K V :=
  c <| evictList := ((id, e') :: remove_elem id (evictList c)) |> <| len := n |>.

Definition touched_len (e : entry K V) c : Z :=
  if decide (generation e = currentGeneration c) then len c else len c + 1.

Lemma touch_live_elems id e' n c :
  generation e' = currentGeneration c ->
  live_elems (touch id e' n c) = (id, e') :: remove_elem id (live_elems c).
Proof.
  intros Hg. unfold live_elems. simpl. rewrite filter_cons_True by done.
  f_equal. apply remove_elem_filter.
Qed.

Lemma touch_live id e e' n c :
  wf_core c -> (id, e) ∈ evictList c -> key e' = key e ->
  generation e' = currentGeneration c ->
  live (touch id e' n c) = binding (id, e') :: Spec.remove (key e) (live c).
Proof.
  intros W Hin Hk Hg. unfold live. rewrite touch_live_elems by done.
  rewrite fmap_cons. f_equal. rewrite <- binding_remove. f_equal.
  unfold live_elems. rewrite <- remove_elem_filter, (remove_elem_key c id e) by done.
  apply filter_comm.
Qed.

Lemma touch_wf_core id e e' c :
  wf_core c -> (id, e) ∈ evictList c -> key e' = key e ->
  generation e' = currentGeneration c -> wf_core (touch id e' (touched_len e c) c).
Proof.
  intros W Hin Hk Hg.
  assert (forall i x, (i, x) ∈ remove_elem id (evictList c) -> (i, x) ∈ evictList c) as Hsub
    by (intros i x [_ Hx]%list_elem_of_filter; done).
  split.
  - simpl. constructor.
    + intros (el & -> & Hel)%list_elem_of_fmap. by apply list_elem_of_filter in Hel as [? _].
    + apply NoDup_fmap_filter, (wf_ids _ W).
  - simpl. intros [i x] [?|Hx]%elem_of_cons; simplify_eq/=.
    + apply (wf_fresh _ W _ Hin).
    + apply (wf_fresh _ W _ (Hsub _ _ Hx)).
  - intros k i. simpl. rewrite (wf_items _ W). split.
    + intros (x & Hx & <-). destruct (decide (i = id)) as [->|Hne].
      * exists e'. rewrite (NoDup_fst_inj _ _ _ _ (wf_ids _ W) Hx Hin). split; [left|done].
      * exists x. split; [right|done]. by apply list_elem_of_filter.
    + intros (x & [?|Hx]%elem_of_cons & <-); simplify_eq; [|by eauto].
      exists e. split; [done|]. by symmetry.
  - rewrite touch_live_elems by done. simpl.
    unfold touched_len. case_decide as Hl.
    + assert ((id, e) ∈ live_elems c) as Hl' by (by apply elem_of_live_elems).
      pose proof (length_remove_live (id, e) c W Hl') as E. simpl in E.
      rewrite (wf_len _ W). lia.
    + pose proof (stale_not_live (id, e) c Hin W Hl) as E. simpl in E.
      rewrite (wf_len _ W), E. lia.
  - rewrite touch_live_elems by done. unfold stale_elems. simpl.
    rewrite filter_cons_False by (unfold is_live; simpl; tauto).
    rewrite remove_elem_filter, <- remove_elem_app. do 2 f_equal. apply (wf_split _ W).
  - simpl. intros [i x] [?|Hx]%elem_of_cons; simplify_eq/=; [lia|].
    apply (wf_gen _ W _ (Hsub _ _ Hx)).
Qed.

Lemma touch_length id e e' n c :
  wf_core c -> (id, e) ∈ evictList c ->
  length (evictList (touch id e' n c)) = length (evictList c).
Proof.
  intros W Hin. simpl. symmetry. apply (length_filter_remove fst _ (id, e)); [|done].
  apply (wf_ids _ W).
Qed.

(** *** Pushing a new element *)

Definition pushed (k : K) (v : V) (exp : Z) c : Cache K V :=
  c <| evictList := ((nextElem c, Entry k v exp (currentGeneration c)) :: evictList c) |>
    <| items := (<[k := nextElem c]> (items c)) |>
    <| nextElem := (S (nextElem c)) |> <| len := (len c + 1) |>.

Lemma pushed_live_elems k v exp c :
  live_elems (pushed k v exp c) =
  (nextElem c, Entry k v exp (currentGeneration c)) :: live_elems c.
Proof. unfold live_elems. simpl. by rewrite filter_cons_True. Qed.

Lemma pushed_wf_core k v exp c :
  wf_core c -> elem_at k c = None -> wf_core (pushed k v exp c).
Proof.
  intros W Hn. pose proof (elem_at_None c k W Hn) as Hk. split.
  - simpl. constructor; [|apply (wf_ids _ W)].
    intros (el & E & Hel)%list_elem_of_fmap. pose proof (wf_fresh _ W _ Hel). lia.
  - simpl. intros [i x] [?|Hx]%elem_of_cons; simplify_eq/=; [lia|].
    pose proof (wf_fresh _ W _ Hx). simpl in *. lia.
  - intros k' i. simpl. rewrite lookup_insert. case_decide as E.
    + subst k'. split.
      * intros ?. simplify_eq. eexists. split; [left|done].
      * intros (x & [?|Hx]%elem_of_cons & Ek); simplify_eq; [done|].
        by destruct (Hk _ Hx).
    + rewrite (wf_items _ W). split.
      * intros (x & Hx & <-). exists x. split; [by right|done].
      * intros (x & [?|Hx]%elem_of_cons & Ek); simplify_eq/=; eauto.
  - rewrite pushed_live_elems. simpl. rewrite (wf_len _ W). lia.
  - rewrite pushed_live_elems. unfold stale_elems. simpl.
    rewrite filter_cons_False by (unfold is_live; simpl; tauto).
    f_equal. apply (wf_split _ W).
  - simpl. intros [i x] [?|Hx]%elem_of_cons; simplify_eq/=; [lia|].
    apply (wf_gen _ W _ Hx).
Qed.

Lemma pushed_live k v exp c :
  wf_core c -> elem_at k c = None ->
  live (pushed k v exp c) = (k, (v, exp)) :: Spec.remove k (live c).
Proof.
  intros W Hn. unfold live. rewrite pushed_live_elems, fmap_cons. f_equal.
  rewrite <- binding_remove, filter_all; [done|].
  intros el [_ Hel]%elem_of_live_elems. by apply (elem_at_None c k W Hn).
Qed.

(** *** Eviction: the element at the back goes, and it is stale if any element is *)

Lemma evict_last el c m :
  wf_core c -> evictList c = m ++ [el] -> evictList (removeElement el c) = m.
Proof.
  intros W E. rewrite removeElement_evictList, E, remove_elem_app.
  pose proof (wf_ids _ W) as ND. rewrite E, fmap_app in ND.
  apply NoDup_app in ND as (_ & ND & _).
  rewrite remove_elem_notin by (intros ?; apply (ND el.1); [done|left]).
  unfold remove_elem. rewrite filter_none; [apply app_nil_r|].
  intros x ->%list_elem_of_singleton. auto.
Qed.

Lemma last_live_all_live el c m :
  wf_core c -> evictList c = m ++ [el] -> generation el.2 = currentGeneration c ->
  live_elems c = m ++ [el].
Proof.
  intros W E Hl. pose proof (wf_split _ W) as Hs.
  destruct (stale_elems c) as [|el' l'] eqn:Est using rev_ind.
  { by rewrite app_nil_r, E in Hs. }
  clear IHl'. rewrite E, app_assoc in Hs. apply app_inj_2 in Hs as [_ Hs]; [|done].
  assert (el' ∈ stale_elems c) as Hin by (rewrite Est; set_solver).
  simplify_eq. apply list_elem_of_filter in Hin as [Hin _]. by destruct Hin.
Qed.

Lemma evict_spec el c :
  wf_core c -> length (evictList c) = S (cap c) -> last (evictList c) = Some el ->
  wf (removeElement el c) /\ live (removeElement el c) = take (cap c) (live c).
Proof.
  intros W Hlen [m E]%last_Some.
  assert (el ∈ evictList c) as Hin by (rewrite E; set_solver).
  pose proof (evict_last el c m W E) as Em.
  assert (length m = cap c) as Hm by (rewrite E, length_app in Hlen; simpl in *; lia).
  split.
  - split; [by apply removeElement_wf_core|].
    rewrite Em. unfold cap in *. rewrite removeElement_size. lia.
  - unfold live at 1, live_elems. rewrite Em, removeElement_gen. unfold live.
    destruct (decide (generation el.2 = currentGeneration c)) as [Hl|Hl].
    + rewrite (last_live_all_live el c m W E Hl).
      rewrite fmap_app, take_app_le, take_ge by (rewrite length_fmap; lia).
      f_equal. apply filter_all. intros x Hx.
      assert (x ∈ live_elems c) as Hx'
        by (rewrite (last_live_all_live el c m W E Hl); set_solver).
      by apply elem_of_live_elems in Hx' as [? _].
    + unfold live_elems. rewrite E, filter_app.
      rewrite (filter_none _ [el]) by (intros x Hx; by apply list_elem_of_singleton in Hx as ->).
      rewrite app_nil_r, take_ge; [done|]. rewrite length_fmap, <- Hm. apply length_filter_le.
Qed.

(** *** The operations *)

Definition deadline (now expire : Z) : Z := if 0 <? expire then now + expire else expire.

Lemma Add_Some now k v exp c id e :
  elem_at k c = Some (id, e) ->
  AddWithExpiresInSecs now k v exp c =
  touch id (Entry (key e) v (deadline now exp) (currentGeneration c)) (touched_len e c) c.
Proof.
  intros E. unfold AddWithExpiresInSecs. rewrite E. unfold touch, touched_len, deadline.
  destruct c, e; simpl in *. repeat case_decide; try reflexivity.
  all: exfalso; tauto.
Qed.

Lemma Add_None now k v exp c :
  elem_at k c = None ->
  AddWithExpiresInSecs now k v exp c =
  let c' := pushed k v (deadline now exp) c in
  if size c <? Z.of_nat (length (evictList c'))
  then match last (evictList c') with Some el => removeElement el c' | None => c' end
  else c'.
Proof. intros E. unfold AddWithExpiresInSecs. by rewrite E. Qed.

Lemma Add_spec now k v exp c :
  wf c ->
  wf (AddWithExpiresInSecs now k v exp c) /\
  live (AddWithExpiresInSecs now k v exp c) =
  Spec.add (cap c) k v (deadline now exp) (live c).
Proof.
  intros [W Hcap]. unfold Spec.add.
  destruct (elem_at k c) as [[id e]|] eqn:E.
  - rewrite (Add_Some _ _ _ _ _ _ _ E). apply elem_at_Some in E as [Hin <-]; [|done].
    set (e' := Entry _ _ _ _).
    assert (wf_core (touch id e' (touched_len e c) c)) as W' by by apply touch_wf_core.
    assert (length (evictList (touch id e' (touched_len e c) c)) <= cap c)%nat as Hl
      by (rewrite (touch_length id e); done).
    split; [by split|]. rewrite (touch_live id e) by done.
    rewrite take_ge; [done|].
    pose proof (length_live_le (touch id e' (touched_len e c) c)) as Hle.
    pose proof (touch_live id e e' (touched_len e c) c W Hin eq_refl eq_refl) as El.
    apply (f_equal length) in El. unfold live at 1 in El. rewrite length_fmap in El.
    simpl in *. lia.
  - rewrite (Add_None _ _ _ _ _ E). cbv zeta. set (c' := pushed _ _ _ _).
    assert (wf_core c') as W' by by apply pushed_wf_core.
    rewrite <- (pushed_live k v (deadline now exp) c W E). fold c'.
    change (size c) with (size c'). change (cap c) with (cap c').
    assert (length (evictList c') = S (length (evictList c))) as Hl by done.
    destruct (Z.ltb_spec (size c') (Z.of_nat (length (evictList c')))) as [Hgt|Hle].
    + assert (length (evictList c') = S (cap c')) by (unfold cap in *; simpl in *; lia).
      destruct (last (evictList c')) as [el|] eqn:Elast; [by apply evict_spec|].
      by apply last_None in Elast.
    + assert (length (evictList c') <= cap c')%nat by (unfold cap; lia).
      split; [by split|]. rewrite take_ge; [done|].
      unfold live. rewrite length_fmap. pose proof (length_live_le c'). lia.
Qed.

Lemma find_live c id e :
  wf_core c -> (id, e) ∈ evictList c ->
  Spec.find (key e) (live c) =
  if decide (generation e = currentGeneration c)
  then Some (value e, expireAtSecs e) else None.
Proof.
  intros W Hin. case_decide as Hl.
  - assert ((id, e) ∈ live_elems c) as Hin' by by apply elem_of_live_elems.
    assert (forall el, el ∈ live_elems c -> key el.2 = key e -> el = (id, e)) as Hu.
    { intros [i x] [_ Hx]%elem_of_live_elems Hk.
      by destruct (key_inj c i x id e W Hx Hin Hk) as [-> ->]. }
    unfold live. clear -Hin' Hu. induction (live_elems c) as [|el l IH].
    { by apply not_elem_of_nil in Hin'. }
    rewrite fmap_cons. simpl. case_decide as Hk.
    + rewrite (Hu el) by (done || left). done.
    + apply elem_of_cons in Hin' as [<-|Hin']; [done|].
      apply IH; [done|]. intros el' Hel'. apply Hu. by right.
  - apply Spec.find_None. intros b ([i x] & -> & Hx)%list_elem_of_fmap Hk.
    apply elem_of_live_elems in Hx as [Hg Hx]. simpl in *.
    destruct (key_inj c i x id e W Hx Hin Hk) as [_ ->]. done.
Qed.

Lemma find_live_None c k : wf_core c -> elem_at k c = None -> Spec.find k (live c) = None.
Proof.
  intros W Hn. apply Spec.find_None. intros b (el & -> & Hx)%list_elem_of_fmap.
  apply elem_of_live_elems in Hx as [_ Hx]. by apply (elem_at_None c k W Hn).
Qed.

Lemma remove_live_stale c id e :
  wf_core c -> (id, e) ∈ evictList c -> generation e <> currentGeneration c ->
  Spec.remove (key e) (live c) = live c.
Proof.
  intros W Hin Hst. rewrite <- (removeElement_live (id, e)) by done.
  unfold live. rewrite removeElement_live_elems. f_equal.
  by apply (stale_not_live (id, e) c).
Qed.

Lemma Get_spec now k c :
  wf c ->
  wf (Get now k c).2 /\
  ((Get now k c).1, live (Get now k c).2) = Spec.get now k (live c).
Proof.
  intros [W Hcap]. unfold Get, Spec.get.
  destruct (elem_at k c) as [[id e]|] eqn:E; [|by rewrite (find_live_None c k)].
  apply elem_at_Some in E as [Hin <-]; [|done]. rewrite (find_live c id e) by done.
  destruct (decide (generation e = currentGeneration c)) as [Hl|Hl].
  - destruct (decide (Spec.expired now (expireAtSecs e))) as [Hx|Hx].
    + rewrite decide_True by (unfold Spec.expired in *; tauto). simpl.
      split; [by apply removeElement_wf|]. by rewrite (removeElement_live (id, e)).
    + rewrite decide_False by (unfold Spec.expired in *; tauto). simpl.
      assert (c <| evictList := ((id, e) :: remove_elem id (evictList c)) |> =
              touch id e (touched_len e c) c) as ->.
      { unfold touch, touched_len. rewrite decide_True by done. by destruct c. }
      split; [split|].
      * by apply touch_wf_core.
      * by rewrite (touch_length id e).
      * by rewrite (touch_live id e).
  - rewrite decide_True by tauto. simpl. split; [by apply removeElement_wf|].
    rewrite (removeElement_live (id, e)) by done. simpl.
    by rewrite (remove_live_stale c id e).
Qed.

Lemma Remove_spec k c :
  wf c -> wf (Remove k c) /\ live (Remove k c) = Spec.remove k (live c).
Proof.
  intros W. pose proof W as [Wc Hcap]. unfold Remove.
  destruct (elem_at k c) as [[id e]|] eqn:E.
  - apply elem_at_Some in E as [Hin <-]; [|done].
    split; [by apply removeElement_wf|]. by rewrite (removeElement_live (id, e)).
  - split; [done|]. unfold live. rewrite <- binding_remove, filter_all; [done|].
    intros el [_ Hel]%elem_of_live_elems. by apply (elem_at_None c k Wc E).
Qed.

Lemma RemoveFunc_spec k pred c :
  wf c ->
  wf (RemoveFunc k pred c).2 /\
  live (RemoveFunc k pred c).2 =
  match Spec.find k (live c) with
  | Some (v, _) => if pred v then Spec.remove k (live c) else live c
  | None => live c
  end.
Proof.
  intros W. pose proof W as [Wc Hcap]. unfold RemoveFunc.
  destruct (elem_at k c) as [[id e]|] eqn:E; [|by rewrite (find_live_None c k)].
  apply elem_at_Some in E as [Hin <-]; [|done]. rewrite (find_live c id e) by done.
  destruct (pred (value e)) eqn:Ep; simpl.
  - split; [by apply removeElement_wf|]. rewrite (removeElement_live (id, e)) by done.
    case_decide; simpl; [by rewrite Ep|]. by rewrite (remove_live_stale c id e).
  - case_decide; by rewrite ?Ep.
Qed.

Lemma Purge_spec c : wf c -> wf (Purge c) /\ live (Purge c) = [].
Proof.
  intros [W Hcap].
  assert (forall el, el ∈ evictList c -> generation el.2 <> currentGeneration c + 1) as Hg.
  { intros el Hel. pose proof (wf_gen _ W _ Hel). lia. }
  assert (live_elems (Purge c) = []) as El by (by apply filter_none).
  split; [split; [|done]; split|unfold live; by rewrite El].
  - apply (wf_ids _ W).
  - apply (wf_fresh _ W).
  - apply (wf_items _ W).
  - by rewrite El.
  - rewrite El. unfold stale_elems. simpl. by rewrite filter_all.
  - simpl. intros el Hel. pose proof (wf_gen _ W _ Hel). lia.
Qed.

Lemma NewLru_wf sz : wf (NewLru sz : Cache K V).
Proof.
  split; [split|]; simpl; try lia; try done.
  - apply NoDup_nil_2.
  - intros el Hel. by apply not_elem_of_nil in Hel.
  - intros k id. rewrite lookup_empty. split; [done|].
    intros (e & He & _). by apply not_elem_of_nil in He.
  - intros el Hel. by apply not_elem_of_nil in Hel.
Qed.

Lemma NewLruWithParams_wf sz nm dflt inv : wf (NewLruWithParams sz nm dflt inv : Cache K V).
Proof.
  destruct (NewLru_wf sz) as [[A B C D E F] G]. split; [by split|done].
Qed.

(** *** Keys *)

Lemma keys_loop_spec gen (l : list (nat * entry K V)) (done_ : list (option K)) n :
  n = length (filter (is_live gen) l) ->
  keys_loop gen l (length done_) (done_ ++ replicate n None) =
  Ret (done_ ++ ((fun el => Some (key el.2)) <$> filter (is_live gen) l)).
Proof.
  revert done_ n. induction l as [|[i e] l IH]; intros done_ n Hn; simpl.
  - simpl in Hn. subst n. done.
  - rewrite filter_cons in Hn |- *. unfold is_live at 1 in Hn. simpl in Hn.
    unfold is_live at 1. simpl.
    destruct (decide (generation e = gen)) as [Hg|Hg]; [|by apply IH].
    simpl in Hn. destruct n as [|n]; [done|].
    rewrite decide_True by (rewrite length_app, length_replicate; lia).
    rewrite insert_app_r_alt by lia. rewrite Nat.sub_diag. simpl.
    specialize (IH (done_ ++ [Some (key e)]) n).
    rewrite length_app, Nat.add_1_r, <- !app_assoc in IH. simpl in IH.
    apply IH. lia.
Qed.

Lemma Keys_spec c :
  wf_core c -> Keys c = Ret (Some <$> reverse (live c).*1).
Proof.
  intros W. unfold Keys. rewrite (wf_len _ W).
  rewrite decide_False by lia. rewrite Nat2Z.id.
  pose proof (keys_loop_spec (currentGeneration c) (reverse (evictList c)) []
                (length (live_elems c))) as Hk.
  simpl in Hk. rewrite Hk.
  - f_equal. unfold live. rewrite filter_reverse. fold (live_elems c).
    rewrite <- fmap_reverse, <- !list_fmap_compose, <- !fmap_reverse.
    by rewrite <- !list_fmap_compose.
  - by rewrite filter_reverse, length_reverse.
Qed.

(** ** Histories of calls *)

Inductive op :=
| AddOp (k : K) (v : V) (expire : Z)
| AddDefaultOp (k : K) (v : V)
| GetOp (k : K)
| RemoveOp (k : K)
| PurgeOp
| LenOp
| KeysOp.

Inductive reply :=
| NoReply
| ValueReply (v : option V)
| LenReply (n : Z)
| KeysReply (ks : outcome (list (option K))).

Definition step (now : Z) (o : op) c : reply * Cache K V :=
  match o with
  | AddOp k v e => (NoReply, AddWithExpiresInSecs now k v e c)
  | AddDefaultOp k v => (NoReply, AddWithDefaultExpires now k v c)
  | GetOp k => let '(v, c') := Get now k c in (ValueReply v, c')
  | RemoveOp k => (NoReply, Remove k c)
  | PurgeOp => (NoReply, Purge c)
  | LenOp => (LenReply (Len c), c)
  | KeysOp => (KeysReply (Keys c), c)
  end.

Definition spec_step (n : nat) (dflt now : Z) (o : op) (l : list (K * (V * Z))) :
    reply * list (K * (V * Z)) :=
  match o with
  | AddOp k v e => (NoReply, Spec.add n k v (deadline now e) l)
  | AddDefaultOp k v => (NoReply, Spec.add n k v (deadline now dflt) l)
  | GetOp k => let '(v, l') := Spec.get now k l in (ValueReply v, l')
  | RemoveOp k => (NoReply, Spec.remove k l)
  | PurgeOp => (NoReply, [])
  | LenOp => (LenReply (Z.of_nat (length l)), l)
  | KeysOp => (KeysReply (Ret (Some <$> reverse l.*1)), l)
  end.

Fixpoint run (h : list (Z * op)) c : list reply * Cache K V :=
  match h with
  | [] => ([], c)
  | (now, o) :: h =>
      let '(r, c') := step now o c in
      let '(rs, c'') := run h c' in (r :: rs, c'')
  end.

Fixpoint spec_run (n : nat) (dflt : Z) (h : list (Z * op)) (l : list (K * (V * Z))) :
    list reply * list (K * (V * Z)) :=
  match h with
  | [] => ([], l)
  | (now, o) :: h =>
      let '(r, l') := spec_step n dflt now o l in
      let '(rs, l'') := spec_run n dflt h l' in (r :: rs, l'')
  end.

Lemma step_params now o c :
  size (step now o c).2 = size c /\ defaultExpiry (step now o c).2 = defaultExpiry c.
Proof.
  assert (forall el c', defaultExpiry (removeElement el c') = defaultExpiry c') as Hd
    by (intros [i e] c'; unfold removeElement; crush).
  assert (forall k v e, size (AddWithExpiresInSecs now k v e c) = size c /\
            defaultExpiry (AddWithExpiresInSecs now k v e c) = defaultExpiry c) as Ha.
  { intros k v e. unfold AddWithExpiresInSecs.
    repeat case_match; rewrite ?removeElement_size, ?Hd; done. }
  destruct o; simpl; unfold AddWithDefaultExpires; auto.
  - assert (size (Get now k c).2 = size c /\ defaultExpiry (Get now k c).2 = defaultExpiry c)
      as Hg by (unfold Get; repeat case_match; cbn [snd]; rewrite ?removeElement_size, ?Hd; done).
    by destruct (Get now k c).
  - unfold Remove. repeat case_match; rewrite ?removeElement_size, ?Hd; done.
Qed.

Lemma step_spec now o c :
  wf c ->
  wf (step now o c).2 /\
  ((step now o c).1, live (step now o c).2) =
  spec_step (cap c) (defaultExpiry c) now o (live c).
Proof.
  intros W. destruct o as [k v e|k v|k|k| | |]; simpl.
  - destruct (Add_spec now k v e c W) as [? E]. by rewrite E.
  - destruct (Add_spec now k v (defaultExpiry c) c W) as [? E].
    unfold AddWithDefaultExpires. by rewrite E.
  - pose proof (Get_spec now k c W) as [Hw E]. destruct (Get now k c) as [v c'].
    simpl in *. rewrite <- E. done.
  - destruct (Remove_spec k c W) as [? E]. by rewrite E.
  - destruct (Purge_spec c W) as [? E]. by rewrite E.
  - split; [done|]. unfold Len. rewrite (wf_len _ (wf_wf_core _ W)).
    unfold live. by rewrite length_fmap.
  - split; [done|]. by rewrite Keys_spec by apply W.
Qed.

Lemma run_spec h c :
  wf c ->
  wf (run h c).2 /\
  ((run h c).1, live (run h c).2) = spec_run (cap c) (defaultExpiry c) h (live c).
Proof.
  revert c. induction h as [|[now o] h IH]; intros c W; [done|]. simpl.
  destruct (step_spec now o c W) as [W' E].
  destruct (step_params now o c) as [Hs Hd].
  destruct (step now o c) as [r c'] eqn:Es. simpl in *.
  rewrite <- E. destruct (IH c' W') as [W'' E'].
  unfold cap in *. rewrite Hs, Hd in E'.
  destruct (run h c') as [rs c'']. simpl in *. by rewrite <- E'.
Qed.

Lemma run_size h c : size (run h c).2 = size c.
Proof.
  revert c. induction h as [|[now o] h IH]; intros c; [done|]. simpl.
  pose proof (step_params now o c) as [Hs _]. destruct (step now o c) as [r c'].
  specialize (IH c'). destruct (run h c') as [rs c'']. simpl in *. congruence.
Qed.

(** ** Properties *)

(** C9. Every history of calls on a cache built by NewLruWithParams gives the replies of
    the bounded recency list, and leaves the cache with its contents: additions put the
    binding in front and drop the least recently used binding over the capacity, a hit
    moves its binding to the front, expired and purged bindings are not seen again. *)
Theorem cache_refines_recency_list (sz dflt : Z) (nm inv : string) (h : list (Z * op)) :
  ((run h (NewLruWithParams sz nm dflt inv)).1,
   live (run h (NewLruWithParams sz nm dflt inv)).2) =
  spec_run (Z.to_nat sz) dflt h [].
Proof. apply (run_spec h (NewLruWithParams sz nm dflt inv)), NewLruWithParams_wf. Qed.

(** After any history the structures of the cache agree: the list holds at most
    [size] elements, the map points exactly at them, no key occurs twice, [len] counts
    the elements of the current generation and these precede the purged ones; [Keys]
    never indexes out of its slice and returns the live keys from oldest to newest. *)
Theorem cache_invariant (sz dflt : Z) (nm inv : string) (h : list (Z * op)) :
  let c := (run h (NewLruWithParams sz nm dflt inv)).2 in
  wf c /\ 0 <= Len c <= Z.max 0 sz /\
  Keys c = Ret (Some <$> reverse (live c).*1) /\
  Z.of_nat (length (live c)) = Len c.
Proof.
  intros c. assert (wf c) as W by apply run_spec, NewLruWithParams_wf.
  pose proof (run_size h (NewLruWithParams sz nm dflt inv)) as Hs. fold c in Hs.
  pose proof (length_live_le c). pose proof (wf_cap _ W) as Hc. unfold cap in Hc.
  unfold Len. rewrite (wf_len _ (wf_wf_core _ W)). simpl in Hs. rewrite Hs in Hc.
  split; [done|]. split; [lia|]. split; [by apply Keys_spec, W|].
  unfold live. by rewrite length_fmap.
Qed.

(** An addition loses another live binding only when the key was absent and the
    cache full of live bindings, and then it loses the least recently used one: purged
    entries never push a live one out. *)
Theorem add_evicts_only_lru (now : Z) (k k' : K) (v : V) (e : Z) (ve : V * Z) c :
  wf c -> k <> k' ->
  Spec.find k' (live c) = Some ve ->
  Spec.find k' (live (AddWithExpiresInSecs now k v e c)) = None ->
  Spec.find k (live c) = None /\ Z.of_nat (length (live c)) = size c /\
  exists l, live c = l ++ [(k', ve)].
Proof.
  intros W Hne Hin Hout. destruct (Add_spec now k v e c W) as [_ E]. rewrite E in Hout.
  assert (length (live c) <= cap c)%nat as Hle.
  { pose proof (wf_cap _ W). unfold live. rewrite length_fmap.
    pose proof (length_live_le c). lia. }
  destruct (Spec.add_loses _ _ _ _ _ _ _ Hle Hne Hin Hout) as (? & ? & l & El).
  unfold cap in *. split; [done|]. split; [|by exists l].
  rewrite El, length_app in *. simpl in *. lia.
Qed.

(** What was added is found until its deadline: right after an addition to a cache
    with room for an entry, [Get] returns the value, at any time when no expiry was
    asked for and up to the deadline otherwise. *)
Theorem get_after_add (now now' : Z) (k : K) (v : V) (e : Z) c :
  wf c -> 0 < size c -> (e <= 0 \/ now' <= now + e) ->
  (Get now' k (AddWithExpiresInSecs now k v e c)).1 = Some v.
Proof.
  intros W Hs He. destruct (Add_spec now k v e c W) as [W' E].
  destruct (Get_spec now' k _ W') as [_ E']. rewrite E in E'.
  unfold Spec.get, Spec.add in E'. destruct (cap c) as [|n] eqn:Ec; [unfold cap in *; lia|].
  simpl in E'. rewrite decide_True in E' by done.
  rewrite decide_False in E'; [by simplify_eq/=|].
  unfold Spec.expired, deadline. destruct (Z.ltb_spec 0 e); lia.
Qed.

End Facts.
End LruFacts.

(** Witnesses: a cache of capacity two. *)
Definition demo_cache : Cache Z Z :=
  Lru.Add 0 2 20 (Lru.Add 0 1 10 (Lru.NewLru 2)).

Lemma demo_cache_wf : LruFacts.wf demo_cache.
Proof. unfold demo_cache, Lru.Add. apply LruFacts.Add_spec, LruFacts.Add_spec, LruFacts.NewLru_wf. Qed.

Lemma add_evicts_only_lru_witness :
  LruFacts.live demo_cache = [(2, (20, 0)); (1, (10, 0))] /\
  LruFacts.live (Lru.AddWithExpiresInSecs 0 3 30 0 demo_cache) = [(3, (30, 0)); (2, (20, 0))] /\
  exists l, LruFacts.live demo_cache = l ++ [(1, (10, 0))].
Proof.
  split; [reflexivity|]. split; [reflexivity|].
  apply (LruFacts.add_evicts_only_lru 0 3 1 30 0 (10, 0) demo_cache);
    [apply demo_cache_wf|lia|reflexivity|reflexivity].
Defined.

Lemma get_after_add_witness :
  (Lru.Get 5 3 (Lru.AddWithExpiresInSecs 0 3 30 5 demo_cache)).1 = Some 30.
Proof.
  apply (LruFacts.get_after_add 0 5 3 30 5 demo_cache);
    [apply demo_cache_wf|reflexivity|right; lia].
Defined.
