(* ===== verification/Model.v ===== *)
(** * The model package: data exchanged between the components

    Records keep the fields of the Go structs (src/model) that the modelled code reads or
    writes. A Go map of strings that the code tests against nil is an [option] of a
    finite map ([None] is the nil map); where nil and empty are the same to the code it
    is the finite map itself. A pointer to a scalar is an [option]. *)

From S2P Require Import Prelude.

Abbreviation strmap := (gmap string string).
Abbreviation gomap := (option (gmap string string)).

(** Reading a Go map, nil included. *)
Definition entries (m : gomap) : strmap := default ∅ m.

(** ** Formatting: the fmt verbs the code uses *)

Definition fmt_d (z : Z) : string := pretty z.

Definition fmt_bool (b : bool) : string := if b then "true" else "false".

(** [cmp.Or] on strings: the first argument that is not the zero value. *)
Definition cmp_or (a b : string) : string := if decide (a = "") then b else a.

(** ** Errors: model/utils.go *)

Record AppError := MkAppError {
  err_Id : string;
  err_Where : string;
  err_Detail : string;
  err_StatusCode : Z;
}.

Definition NewAppError (where_ id details : string) (status : Z) : AppError :=
  {| err_Id := id; err_Where := where_; err_Detail := details; err_StatusCode := status |}.

(** Error of an AppError; NewAppError copies the id to the message. *)
Definition AppError_Error (e : AppError) : string :=
  err_Where e +:+ ": " +:+ err_Id e +:+ ", " +:+ err_Detail e.

#[export] Instance AppError_eq_dec : EqDecision AppError.
Proof. solve_decision. Defined.

(** A call that may fail with an [AppError]. *)
Abbreviation result A := (AppError + A)%type.

(** ** UnionStringMaps: model/utils.go

    The body of the two loops, on the pairs of one map in the order the runtime
    iterates them. *)
Definition union_pair (res : strmap) (kv : string * string) : strmap :=
  if decide (kv.1 = "" \/ kv.2 = "") then res else <[kv.1 := kv.2]> res.

Definition union_pairs (res : strmap) (kvs : list (string * string)) : strmap :=
  foldl union_pair res kvs.

Definition UnionStringMaps (src : list strmap) : strmap :=
  foldl (fun res m => union_pairs res (map_to_list m)) ∅ src.

(** ** Media: model/queue.go *)

Record RingtoneFile := MkRingtoneFile {
  rt_Id : Z;
  rt_Type : string;
}.

Definition RingtoneUri (domainId id : Z) (mimeType : string) : string :=
  if decide (mimeType = "audio/mp3" \/ mimeType = "audio/mpeg") then
    "shout://$${cdr_url}/sys/media/" +:+ fmt_d id +:+ "/stream?domain_id=" +:+ fmt_d domainId
      +:+ "&.mp3"
  else if decide (mimeType = "audio/wav") then
    "http_cache://http://$${cdr_url}/sys/media/" +:+ fmt_d id +:+ "/stream?domain_id="
      +:+ fmt_d domainId +:+ "&.wav"
  else "".

Definition ToneList : list (string * string) := [
  ("none", "");
  ("default", "L=1;%(500,500,1000)");
  ("at1", "v=-7;%(100,0,941.0,1477.0)");
  ("at2", "v=-7;>=2;+=.1;%(140,0,350,440)");
  ("australian", "L=1;%(200,100,400,425)");
  ("egypt", "L=1;%(200,100,475,375)");
  ("germany", "L=1;%(500,0,425)");
  ("france", "L=1;%(150,350,440)");
  ("spain", "L=1;%(150,300,425)");
  ("uk", "L=1;%(200,100,400,450)");
  ("us", "L=1;%(100,200,440,480)")].

(** ** Queues: model/queue.go, model/task.go *)

Definition QueueTypeOfflineCall : Z := 0.
Definition QueueTypeInboundCall : Z := 1.
Definition QueueTypeIVRCall : Z := 2.
Definition QueueTypePreviewCall : Z := 3.
Definition QueueTypeProgressiveCall : Z := 4.
Definition QueueTypePredictCall : Z := 5.
Definition QueueTypeInboundChat : Z := 6.
Definition QueueTypeAgentTask : Z := 7.
Definition QueueTypeOutboundTask : Z := 8.
Definition QueueTypeInboundIM : Z := 9.
Definition QueueTypeOutboundCall : Z := 10.

Definition QueueChannelCall : string := "call".
Definition QueueChannelChat : string := "chat".
Definition QueueChannelTask : string := "task".
Definition QueueChannelOutCall : string := "out_call".
Definition QueueChannelIM : string := "im".

Record QueueHook := MkQueueHook {
  qh_Event : string;
  qh_SchemaId : Z;
  qh_Properties : list string;
}.

Record Queue := MkQueue {
  q_Id : Z;
  q_DomainId : Z;
  q_DomainName : string;
  q_Type : Z;
  q_Name : string;
  q_Strategy : string;
  q_Payload : string;
  q_UpdatedAt : Z;
  q_Variables : gomap;
  q_TeamId : option Z;
  q_RingtoneId : option Z;
  q_RingtoneType : option string;
  q_SchemaId : option Z;
  q_DoSchemaId : option Z;
  q_AfterSchemaId : option Z;
  q_Processing : bool;
  q_ProcessingSec : Z;
  q_ProcessingRenewalSec : Z;
  q_ProcessingAutosave : bool;
  q_Endless : bool;
  q_Hooks : list QueueHook;
  q_GranteeId : option Z;
  q_HoldMusic : option RingtoneFile;
  q_FormSchemaId : option Z;
  q_AmdPlaybackFile : option RingtoneFile;
  q_IsProlongationEnabled : bool;
  q_ProlongationRepeats : Z;
  q_ProlongationSec : Z;
  q_IsProlongationTimeoutRetry : bool;
}.

#[export] Instance eta_Queue : Eta Queue := fun q =>
  MkQueue (q_Id q) (q_DomainId q) (q_DomainName q) (q_Type q) (q_Name q)
    (q_Strategy q) (q_Payload q) (q_UpdatedAt q) (q_Variables q) (q_TeamId q) (q_RingtoneId q) (q_RingtoneType q) (q_SchemaId q)
    (q_DoSchemaId q) (q_AfterSchemaId q) (q_Processing q) (q_ProcessingSec q)
    (q_ProcessingRenewalSec q) (q_ProcessingAutosave q) (q_Endless q) (q_Hooks q)
    (q_GranteeId q) (q_HoldMusic q) (q_FormSchemaId q) (q_AmdPlaybackFile q)
    (q_IsProlongationEnabled q) (q_ProlongationRepeats q) (q_ProlongationSec q)
    (q_IsProlongationTimeoutRetry q).

Record QueueDumpParams := MkQueueDumpParams {
  qd_HasReporting : option bool;
  qd_HasForm : option bool;
  qd_ProcessingSec : Z;
  qd_ProcessingAutosave : bool;
  qd_ProcessingRenewalSec : Z;
  qd_QueueName : string;
  qd_HasProlongation : option bool;
  qd_RemainingProlongations : Z;
  qd_ProlongationSec : Z;
  qd_IsTimeoutRetry : bool;
}.

Definition HasProlongationParams (p : QueueDumpParams) : bool :=
  match qd_HasProlongation p with Some b => b | None => false end.

Definition UseProlongationOptions (q : Queue) (dump : QueueDumpParams) : Queue :=
  q <| q_IsProlongationEnabled := true |>
    <| q_ProlongationSec := (qd_ProlongationSec dump) |>
    <| q_ProlongationRepeats := (qd_RemainingProlongations dump) |>
    <| q_IsProlongationTimeoutRetry := (qd_IsTimeoutRetry dump) |>.

Definition Queue_Channel (q : Queue) : string :=
  if decide (q_Type q = QueueTypeInboundChat) then QueueChannelChat
  else if decide (q_Type q = QueueTypeAgentTask \/ q_Type q = QueueTypeOutboundTask)
  then QueueChannelTask
  else if decide (q_Type q = QueueTypeOutboundCall) then QueueChannelOutCall
  else if decide (q_Type q = QueueTypeInboundIM) then QueueChannelIM
  else QueueChannelCall.

(** ** Answering machine detection settings: model/queue.go *)

Record QueueAmdSettings := MkAmd {
  amd_Enabled : bool;
  amd_Ai : bool;
  amd_PositiveTags : list string;
  amd_AllowNotSure : bool;
  amd_SilenceNotSure : bool;
  amd_MaxWordLength : Z;
  amd_MaxNumberOfWords : Z;
  amd_BetweenWordsSilence : Z;
  amd_MinWordLength : Z;
  amd_TotalAnalysisTime : Z;
  amd_SilenceThreshold : Z;
  amd_AfterGreetingSilence : Z;
  amd_Greeting : Z;
  amd_InitialSilence : Z;
  amd_buildString : option string;
}.

#[export] Instance eta_Amd : Eta QueueAmdSettings := fun a =>
  MkAmd (amd_Enabled a) (amd_Ai a) (amd_PositiveTags a) (amd_AllowNotSure a)
    (amd_SilenceNotSure a) (amd_MaxWordLength a) (amd_MaxNumberOfWords a)
    (amd_BetweenWordsSilence a) (amd_MinWordLength a) (amd_TotalAnalysisTime a)
    (amd_SilenceThreshold a) (amd_AfterGreetingSilence a) (amd_Greeting a)
    (amd_InitialSilence a) (amd_buildString a).

(** [if amd.F == 0 { amd.F = d }] *)
Definition dflt (d v : Z) : Z := if decide (v = 0) then d else v.

(** [ToArgs] fills in the defaults and keeps the string it built. *)
Definition ToArgs (amd : QueueAmdSettings) : string * QueueAmdSettings :=
  match amd_buildString amd with
  | Some s => (s, amd)
  | None =>
      let amd := amd
        <| amd_SilenceThreshold := (dflt 256 (amd_SilenceThreshold amd)) |>
        <| amd_MaxWordLength := (dflt 5000 (amd_MaxWordLength amd)) |>
        <| amd_MaxNumberOfWords := (dflt 3 (amd_MaxNumberOfWords amd)) |>
        <| amd_BetweenWordsSilence := (dflt 50 (amd_BetweenWordsSilence amd)) |>
        <| amd_MinWordLength := (dflt 100 (amd_MinWordLength amd)) |>
        <| amd_TotalAnalysisTime := (dflt 5000 (amd_TotalAnalysisTime amd)) |>
        <| amd_AfterGreetingSilence := (dflt 800 (amd_AfterGreetingSilence amd)) |>
        <| amd_Greeting := (dflt 1500 (amd_Greeting amd)) |>
        <| amd_InitialSilence := (dflt 2500 (amd_InitialSilence amd)) |> in
      let tmp := [
        "silence_threshold=" +:+ fmt_d (amd_SilenceThreshold amd);
        "maximum_word_length=" +:+ fmt_d (amd_MaxWordLength amd);
        "maximum_number_of_words=" +:+ fmt_d (amd_MaxNumberOfWords amd);
        "between_words_silence=" +:+ fmt_d (amd_BetweenWordsSilence amd);
        "min_word_length=" +:+ fmt_d (amd_MinWordLength amd);
        "total_analysis_time=" +:+ fmt_d (amd_TotalAnalysisTime amd);
        "after_greeting_silence=" +:+ fmt_d (amd_AfterGreetingSilence amd);
        "greeting=" +:+ fmt_d (amd_Greeting amd);
        "initial_silence=" +:+ fmt_d (amd_InitialSilence amd)] ++
        (if amd_AllowNotSure amd && amd_SilenceNotSure amd
         then ["silence_notsure=1"] else []) in
      let s := String.concat " " tmp in
      (s, amd <| amd_buildString := (Some s) |>)
  end.

Definition AiTags (amd : QueueAmdSettings) : string :=
  match amd_PositiveTags amd with
  | [] => "human"
  | tags => String.concat "," tags
  end.

(** ** Members and attempts: model/member.go *)

Record Communication := MkCommunication {
  comm_Id : Z;
  comm_Name : string;
  comm_Channel : option string;
}.

Record MemberCommunication := MkMemberCommunication {
  mc_Destination : string;
  mc_Type : Communication;
  mc_Priority : Z;
  mc_Display : option string;
  mc_Description : string;
  mc_Attempts : Z;
  mc_Dtmf : option string;
  mc_Thread : option string;
}.

#[export] Instance eta_MemberCommunication : Eta MemberCommunication := fun m =>
  MkMemberCommunication (mc_Destination m) (mc_Type m) (mc_Priority m) (mc_Display m)
    (mc_Description m) (mc_Attempts m) (mc_Dtmf m) (mc_Thread m).

Record AttemptCallback := MkAttemptCallback {
  cb_Status : string;
  cb_NextCallAt : option Z;
  cb_ExpireAt : option Z;
  cb_Description : string;
  cb_Display : bool;
  cb_Variables : gomap;
  cb_StickyAgentId : option Z;
  cb_ExcludeCurrentCommunication : option bool;
  cb_Redial : option bool;
  cb_AddCommunications : list MemberCommunication;
  cb_WaitBetweenRetries : option Z;
  cb_OnlyCurrentCommunication : option bool;
}.

#[export] Instance eta_AttemptCallback : Eta AttemptCallback := fun c =>
  MkAttemptCallback (cb_Status c) (cb_NextCallAt c) (cb_ExpireAt c) (cb_Description c)
    (cb_Display c) (cb_Variables c) (cb_StickyAgentId c)
    (cb_ExcludeCurrentCommunication c) (cb_Redial c) (cb_AddCommunications c)
    (cb_WaitBetweenRetries c) (cb_OnlyCurrentCommunication c).

(** [model.AttemptCallback{Status: s}] *)
Definition callback_of_status (s : string) : AttemptCallback := {|
  cb_Status := s; cb_NextCallAt := None; cb_ExpireAt := None; cb_Description := "";
  cb_Display := false; cb_Variables := None; cb_StickyAgentId := None;
  cb_ExcludeCurrentCommunication := None; cb_Redial := None; cb_AddCommunications := [];
  cb_WaitBetweenRetries := None; cb_OnlyCurrentCommunication := None |}.

Inductive SchemaResultType :=
| SchemaResultTypeSuccess
| SchemaResultTypeAbandoned
| SchemaResultTypeRetry.

#[export] Instance SchemaResultType_eq_dec : EqDecision SchemaResultType.
Proof. solve_decision. Defined.

Record SchemaResult := MkSchemaResult {
  sr_Type : SchemaResultType;
  sr_Status : string;
  sr_MaxAttempts : Z;
  sr_WaitBetweenRetries : Z;
  sr_ExcludeCurrentNumber : bool;
  sr_Redial : bool;
  sr_Variables : gomap;
  sr_AgentId : Z;
  sr_Display : bool;
  sr_Description : string;
  sr_RetrySleep : Z;
  sr_RetryNextResource : bool;
  sr_RetryResourceId : Z;
}.

Record AttemptLeaving := MkAttemptLeaving {
  al_Timestamp : Z;
  al_MemberStopCause : option string;
  al_Result : option string;
}.

Record MemberAttempt := MkMemberAttempt {
  ma_Id : Z;
  ma_QueueId : Z;
  ma_QueueUpdatedAt : Z;
  ma_Seq : option Z;
  ma_CommunicationIdx : option Z;
  ma_QueueCount : Z;
  ma_QueueActiveCount : Z;
  ma_QueueWaitingCount : Z;
  ma_State : Z;
  ma_MemberId : option Z;
  ma_CreatedAt : Z; (* nanoseconds since the epoch *)
  ma_HangupAt : Z;
  ma_BridgedAt : Z;
  ma_ResourceId : option Z;
  ma_ResourceUpdatedAt : option Z;
  ma_GatewayUpdatedAt : option Z;
  ma_Result : option string;
  ma_Destination : string;
  ma_ListCommunicationId : option Z;
  ma_AgentId : option Z;
  ma_AgentUpdatedAt : option Z;
  ma_TeamUpdatedAt : option Z;
  ma_Variables : gomap;
  ma_Name : string;
  ma_MemberCallId : option string;
  ma_Timezone : option string;
  ma_BucketId : option Z;
  ma_BlockAllMemberNumbersFromList : bool;
}.

#[export] Instance eta_MemberAttempt : Eta MemberAttempt := fun m =>
  MkMemberAttempt (ma_Id m) (ma_QueueId m) (ma_QueueUpdatedAt m) (ma_Seq m)
    (ma_CommunicationIdx m) (ma_QueueCount m) (ma_QueueActiveCount m)
    (ma_QueueWaitingCount m) (ma_State m) (ma_MemberId m) (ma_CreatedAt m)
    (ma_HangupAt m) (ma_BridgedAt m) (ma_ResourceId m) (ma_ResourceUpdatedAt m)
    (ma_GatewayUpdatedAt m) (ma_Result m) (ma_Destination m) (ma_ListCommunicationId m)
    (ma_AgentId m) (ma_AgentUpdatedAt m) (ma_TeamUpdatedAt m) (ma_Variables m)
    (ma_Name m) (ma_MemberCallId m) (ma_Timezone m) (ma_BucketId m)
    (ma_BlockAllMemberNumbersFromList m).

(** A literal [model.MemberAttempt{Id: id}] with the zero values of the other fields. *)
Definition zero_MemberAttempt (id : Z) : MemberAttempt := {|
  ma_Id := id; ma_QueueId := 0; ma_QueueUpdatedAt := 0; ma_Seq := None;
  ma_CommunicationIdx := None; ma_QueueCount := 0; ma_QueueActiveCount := 0;
  ma_QueueWaitingCount := 0; ma_State := 0; ma_MemberId := None; ma_CreatedAt := 0;
  ma_HangupAt := 0; ma_BridgedAt := 0; ma_ResourceId := None;
  ma_ResourceUpdatedAt := None; ma_GatewayUpdatedAt := None; ma_Result := None;
  ma_Destination := ""; ma_ListCommunicationId := None; ma_AgentId := None;
  ma_AgentUpdatedAt := None; ma_TeamUpdatedAt := None; ma_Variables := None;
  ma_Name := ""; ma_MemberCallId := None; ma_Timezone := None; ma_BucketId := None;
  ma_BlockAllMemberNumbersFromList := false |}.

Definition CALL_HANGUP_TIMEOUT : string := "TIMEOUT".

Definition MemberAttempt_IsTimeout (ma : MemberAttempt) : bool :=
  bool_decide (ma_Result ma = Some CALL_HANGUP_TIMEOUT).

Record AttemptReportingTimeout := MkAttemptReportingTimeout {
  rto_AttemptId : Z;
  rto_Timestamp : Z;
  rto_AgentId : Z;
  rto_AgentUpdatedAt : Z;
  rto_UserId : Z;
  rto_Channel : string;
  rto_DomainId : Z;
  rto_AfterSchemaId : option Z;
}.

Record AttemptFlipResource := MkAttemptFlipResource {
  fr_ResourceId : option Z;
  fr_ResourceUpdatedAt : option Z;
  fr_GatewayUpdatedAt : option Z;
  fr_AllowCall : option bool;
  fr_CallId : option string;
}.

Record RenewalProcessing := MkRenewalProcessing {
  rp_AttemptId : Z;
  rp_Timeout : Z;
  rp_Timestamp : Z;
  rp_Channel : string;
  rp_UserId : Z;
  rp_QueueId : Z;
  rp_DomainId : Z;
  rp_RenewalSec : Z;
  rp_RemainingProlongations : Z;
  rp_IsProlongationEnabled : bool;
  rp_ProlongationSec : Z;
  rp_ProcessingAutosave : bool;
}.

Record AttemptReportingResult := MkAttemptReportingResult {
  rr_Timestamp : Z;
  rr_Channel : option string;
  rr_AgentCallId : option string;
  rr_AgentId : option Z;
  rr_UserId : option Z;
  rr_DomainId : option Z;
  rr_QueueId : option Z;
  rr_AgentTimeout : option Z;
  rr_MemberStopCause : option string;
  rr_MemberId : option Z;
}.

(** Attempt and channel states: model/member.go, model/channel.go *)

Definition MemberStateIdle : string := "idle".
Definition MemberStateJoined : string := "joined".
Definition MemberStateWaitAgent : string := "wait_agent".
Definition MemberStateActive : string := "active".
Definition MemberStateOffering : string := "offering".
Definition MemberStateBridged : string := "bridged".
Definition MemberStateProcessing : string := "processing".
Definition MemberStateLeaving : string := "leaving".
Definition MemberStateCancel : string := "cancel".

Definition ChannelStateWaiting : string := "waiting".
Definition ChannelStateDistribute : string := "distribute".
Definition ChannelStateOffering : string := "offering".
Definition ChannelStateAnswered : string := "answered".
Definition ChannelStateBridged : string := "bridged".
Definition ChannelStateNextForm : string := "form".
Definition ChannelStateProcessing : string := "processing".
Definition ChannelStateMissed : string := "missed".
Definition ChannelStateWrapTime : string := "wrap_time".
Definition ChannelTransfer : string := "transfer".

(** ** Agents and teams: model/agent.go, model/team.go *)

Record Lookup := MkLookup {
  lk_Id : Z;
  lk_Name : string;
}.

Record AgentStatus := MkAgentStatus {
  as_Status : string;
  as_StatusPayload : option string;
  as_StatusComment : option string;
  as_StatusPreset : option Lookup;
}.

#[export] Instance eta_AgentStatus : Eta AgentStatus := fun s =>
  MkAgentStatus (as_Status s) (as_StatusPayload s) (as_StatusComment s) (as_StatusPreset s).

Definition AgentStatusOnline : string := "online".
Definition AgentStatusOffline : string := "offline".
Definition AgentStatusPause : string := "pause".
Definition AgentStatusBreakOut : string := "break_out".

(** [CreateAgentStatus] with the only option the code has, [WithStatusPreset]. *)
Definition WithStatusPreset (preset : option Lookup) (st : AgentStatus) : AgentStatus :=
  st <| as_StatusPreset := preset |>.

Definition CreateAgentStatus (status : string) (options : list (AgentStatus -> AgentStatus))
    : AgentStatus :=
  foldl (fun st o => o st) (MkAgentStatus status None None None) options.

Record Agent := MkAgent {
  ag_status : AgentStatus;
  ag_Id : Z;
  ag_DomainId : Z;
  ag_UserId : option Z;
  ag_Name : string;
  ag_UpdatedAt : Z;
  ag_Destination : option string;
  ag_Extension : option string;
  ag_TeamId : Z;
  ag_TeamUpdatedAt : Z;
  ag_OnDemand : bool;
  ag_GreetingMedia : option RingtoneFile;
  ag_Variables : gomap;
  ag_HasPush : bool;
  ag_ChatName : string;
}.

#[export] Instance eta_Agent : Eta Agent := fun a =>
  MkAgent (ag_status a) (ag_Id a) (ag_DomainId a) (ag_UserId a) (ag_Name a)
    (ag_UpdatedAt a) (ag_Destination a) (ag_Extension a) (ag_TeamId a)
    (ag_TeamUpdatedAt a) (ag_OnDemand a) (ag_GreetingMedia a) (ag_Variables a)
    (ag_HasPush a) (ag_ChatName a).

Definition Agent_Online (a : Agent) : bool :=
  bool_decide (as_Status (ag_status a) = AgentStatusOnline).

Definition Agent_Offline (a : Agent) : bool :=
  bool_decide (as_Status (ag_status a) = AgentStatusOffline).

Record MissedAgent := MkMissedAgent {
  mi_Timestamp : Z;
  mi_NoAnswers : option Z;
  mi_MemberStopCause : option string;
}.

Record Team := MkTeam {
  tm_Id : Z;
  tm_DomainId : Z;
  tm_Name : string;
  tm_Strategy : string;
  tm_Description : option string;
  tm_UpdatedAt : Z;
  tm_CallTimeout : Z;
  tm_InviteChatTimeout : Z;
  tm_TaskAcceptTimeout : Z;
  tm_MaxNoAnswer : Z;
  tm_WrapUpTime : Z;
  tm_NoAnswerDelayTime : Z;
  tm_Hooks : list QueueHook;
}.

(** The fields of a team that are uint16 in the source. *)
Definition team_ranges (t : Team) : Prop :=
  0 <= tm_CallTimeout t < 65536 /\ 0 <= tm_InviteChatTimeout t < 65536 /\
  0 <= tm_TaskAcceptTimeout t < 65536 /\ 0 <= tm_MaxNoAnswer t < 65536 /\
  0 <= tm_WrapUpTime t < 65536 /\ 0 <= tm_NoAnswerDelayTime t < 65536.

(** ** System settings events: model/system_settings.go *)

Record SystemSettingEvent := MkSystemSettingEvent {
  sse_Name : string;
  sse_DomainID : Z;
}.

(** strings.Split with a one byte separator. *)
Fixpoint split_on (sep : ascii) (s : string) : list string :=
  match s with
  | EmptyString => [""]
  | String a s' =>
      if decide (a = sep) then "" :: split_on sep s'
      else match split_on sep s' with
           | w :: ws => String a w :: ws
           | [] => [String a ""]
           end
  end.

Definition digit_of (a : ascii) : option Z :=
  let n := Z.of_N (N_of_ascii a) - 48 in
  if decide (0 <= n < 10) then Some n else None.

Fixpoint parse_digits (acc : Z) (s : string) : option Z :=
  match s with
  | EmptyString => Some acc
  | String a s' => d ← digit_of a; parse_digits (acc * 10 + d) s'
  end.

(** strconv.ParseUint(s, 10, _) without the range check. *)
Definition parse_uint (s : string) : option Z :=
  match s with EmptyString => None | _ => parse_digits 0 s end.

(** strconv.ParseInt(s, 10, 64): a syntax or a range error is [None]. *)
Definition ParseInt (s : string) : option Z :=
  n ← match s with
      | String a s' => if decide (a = "-"%char) then Z.opp <$> parse_uint s'
                       else if decide (a = "+"%char) then parse_uint s'
                       else parse_uint s
      | EmptyString => None
      end;
  if decide (- 2 ^ 63 <= n < 2 ^ 63) then Some n else None.

Definition NewSystemSettingEventFromRoutingKey (rk : string) : string + SystemSettingEvent :=
  match split_on "." rk with
  | p0 :: p1 :: _ :: p3 :: _ =>
      if decide (p0 <> "system_settings" \/ p1 = "")
      then inl "unexpected system settings routing key"
      else match ParseInt p3 with
           | Some d => if decide (d <= 0)
                       then inl "invalid domain id in system settings routing key"
                       else inr (MkSystemSettingEvent p1 d)
           | None => inl "invalid domain id in system settings routing key"
           end
  | _ => inl "unexpected system settings routing key"
  end.

(** ** Gateways: model/resource.go *)

Record OutboundResourceParameters := MkOutboundResourceParameters {
  orp_SipCidType : string;
  orp_IgnoreEarlyMedia : string;
}.

Record OutboundResource := MkOutboundResource {
  or_Id : Z;
  or_Name : string;
  or_Enabled : bool;
  or_Limit : Z;
  or_Rps : Z;
  or_Reserve : bool;
  or_UpdatedAt : Z;
  or_Variables : strmap; (* the values after fmt %v *)
  or_DisplayNumbers : list string;
  or_SuccessivelyErrors : Z;
  or_MaxSuccessivelyErrors : Z;
  or_ErrorIds : option (list string);
  or_GatewayId : Z;
  or_Parameters : OutboundResourceParameters;
}.

#[export] Instance eta_OutboundResource : Eta OutboundResource := fun r =>
  MkOutboundResource (or_Id r) (or_Name r) (or_Enabled r) (or_Limit r) (or_Rps r) (or_Reserve r) (or_UpdatedAt r)
    (or_Variables r) (or_DisplayNumbers r) (or_SuccessivelyErrors r) (or_MaxSuccessivelyErrors r) (or_ErrorIds r)
    (or_GatewayId r) (or_Parameters r).

Record SipGateway := MkSipGateway {
  gw_Id : Z;
  gw_Name : string;
  gw_UpdatedAt : Z;
  gw_Register : bool;
  gw_Proxy : string;
  gw_HostName : option string;
  gw_UserName : option string;
  gw_Account : option string;
  gw_Password : option string;
  gw_DomainId : Z;
  gw_UseBridgeAnswerTimeout : bool;
  gw_SipCidType : string;
  gw_IgnoreEarlyMedia : string;
}.

#[export] Instance eta_SipGateway : Eta SipGateway := fun g =>
  MkSipGateway (gw_Id g) (gw_Name g) (gw_UpdatedAt g) (gw_Register g) (gw_Proxy g)
    (gw_HostName g) (gw_UserName g) (gw_Account g) (gw_Password g) (gw_DomainId g)
    (gw_UseBridgeAnswerTimeout g) (gw_SipCidType g) (gw_IgnoreEarlyMedia g).

Definition SipGateway_Variables (g : SipGateway) : strmap :=
  let vars := {[ "sip_h_X-Webitel-Direction" := "outbound" ]} : strmap in
  let vars :=
    match gw_Register g, gw_UserName g, gw_Password g, gw_Account g with
    | true, Some u, Some p, Some a =>
        <["sip_from_uri" := a]> (<["sip_auth_password" := p]> (<["sip_auth_username" := u]> vars))
    | _, _, _, _ =>
        match gw_HostName g with
        | Some h => <["sip_invite_domain" := h]> vars
        | None => vars
        end
    end in
  let vars := if decide (gw_SipCidType g <> "")
              then <["sip_cid_type" := gw_SipCidType g]> vars else vars in
  if decide (gw_IgnoreEarlyMedia g <> "")
  then <["ignore_early_media" := gw_IgnoreEarlyMedia g]> vars else vars.

(** [strings.Replace(s, " ", "", -1)] *)
Fixpoint drop_spaces (s : string) : string :=
  match s with
  | EmptyString => EmptyString
  | String a s => if decide (a = " "%char) then drop_spaces s else String a (drop_spaces s)
  end.

Definition Endpoint (g : SipGateway) (destination : string) : string :=
  "sofia/sip/" +:+ drop_spaces destination +:+ "@" +:+ gw_Proxy g.

Record BridgeRequest := MkBridgeRequest {
  br_Id : option string;
  br_GranteeId : option Z;
  br_ParentId : string;
  br_Name : string;
  br_Destination : string;
  br_Display : string;
  br_Timeout : Z;
  br_Recordings : bool;
  br_RecordMono : bool;
  br_RecordAll : bool;
}.

(** [%v] of a bool *)
Definition fmt_b (b : bool) : string := if b then "true" else "false".

Definition CallRecordFileTemplate : string :=
  "${strepoch()}_${url_encode ${wbt_from_number}}_${url_encode ${wbt_destination}}.mp3".

(** [order] lists the variables of the gateway in the order the loop visits them. *)
Definition Gateway_Bridge (g : SipGateway) (order : list (string * string)) (p : BridgeRequest) : string :=
  let res := [
    "leg_progress_timeout=" +:+ fmt_d (br_Timeout p);
    "bridge_answer_timeout=" +:+ fmt_d (br_Timeout p);
    "wbt_parent_id=" +:+ br_ParentId p;
    "origination_caller_id_number=" +:+ br_Display p;
    "wbt_from_number=" +:+ br_Display p;
    "wbt_from_name=" +:+ br_Display p;
    "wbt_to_type=dest";
    "ignore_display_updates=true";
    "wbt_to_number='" +:+ br_Destination p +:+ "'";
    "wbt_to_name='" +:+ br_Name p +:+ "'";
    "effective_callee_id_name='" +:+ br_Name p +:+ "'";
    "sip_h_X-Webitel-Domain-Id=" +:+ fmt_d (gw_DomainId g);
    "sip_h_X-Webitel-Gateway-Id=" +:+ fmt_d (gw_Id g);
    "sip_route_uri=sip:$${outbound_sip_proxy}";
    "sip_copy_custom_headers=false"] in
  let res := match br_Id p with Some i => res ++ ["origination_uuid=" +:+ i] | None => res end in
  let res := match br_GranteeId p with
             | Some i => res ++ ["wbt_grantee_id=" +:+ fmt_d i] | None => res end in
  let res := if gw_UseBridgeAnswerTimeout g
             then res ++ ["bridge_answer_timeout=" +:+ fmt_d (br_Timeout p)] else res in
  let res := if br_Recordings p then res ++
    ["hangup_after_bridge=true,recording_follow_transfer=true,RECORD_MIN_SEC=2,RECORD_BRIDGE_REQ="
     +:+ fmt_b (br_RecordAll p) +:+ ",media_bug_answer_req=" +:+ fmt_b (br_RecordAll p)
     +:+ ",RECORD_STEREO=" +:+ fmt_b (negb (br_RecordMono p))
     +:+ ",execute_on_answer=wbt_record_session http_cache://http://$${cdr_url}/sys/recordings?domain="
     +:+ fmt_d (gw_DomainId g) +:+ "&id=" +:+ br_ParentId p +:+ "&name=" +:+ CallRecordFileTemplate
     +:+ "&.mp3"] else res in
  let res := res ++ ((fun kv => kv.1 +:+ "='" +:+ kv.2 +:+ "'") <$> order) in
  "[" +:+ String.concat "," res +:+ "]" +:+ Endpoint g (br_Destination p).

(** ** Lemmas *)

Lemma union_pair_lookup (res : strmap) kv k :
  union_pair res kv !! k =
  if decide (kv.1 = k /\ k <> "" /\ kv.2 <> "") then Some kv.2 else res !! k.
Proof.
  unfold union_pair. destruct kv as [k' v]. simpl.
  destruct (decide (k' = "" \/ v = "")) as [H|H].
  - rewrite decide_False; naive_solver.
  - rewrite lookup_insert. repeat case_decide; naive_solver.
Qed.

(** One map, iterated in any order. *)
Lemma union_pairs_lookup (res m : strmap) (l : list (string * string)) k :
  l ≡ₚ map_to_list m ->
  union_pairs res l !! k =
  match m !! k with
  | Some v => if decide (k <> "" /\ v <> "") then Some v else res !! k
  | None => res !! k
  end.
Proof.
  intros Hp. assert (NoDup l.*1) as ND by (rewrite Hp; apply NoDup_fst_map_to_list).
  assert (forall v, m !! k = Some v <-> (k, v) ∈ l) as Hm
    by (intros v; rewrite Hp, elem_of_map_to_list; done).
  clear Hp. revert res m Hm. induction l as [|[k' v'] l IH]; intros res m Hm; simpl.
  - destruct (m !! k) as [v|]; [|done].
    pose proof (proj1 (Hm v) eq_refl) as Hv. by apply not_elem_of_nil in Hv.
  - apply NoDup_cons in ND as [Hk' ND]. unfold union_pairs in *.
    destruct (decide (k' = k)) as [->|Hne].
    + assert (m !! k = Some v') as Ek by (apply Hm; left).
      assert (list_to_map (M := strmap) l !! k = None) as El
        by (by apply not_elem_of_list_to_map_1).
      rewrite (IH ND _ (list_to_map l)).
      2:{ intros v. symmetry. by apply elem_of_list_to_map. }
      rewrite El, Ek, union_pair_lookup. simpl. repeat case_decide; naive_solver.
    + rewrite (IH ND _ m).
      2:{ intros v. rewrite Hm, elem_of_cons. naive_solver. }
      rewrite union_pair_lookup. simpl.
      rewrite (decide_False (P := k' = k /\ k <> "" /\ v' <> "")) by naive_solver. done.
Qed.

(** The value a sequence of maps gives to a key: the last one that is not empty. *)
Definition last_value (k : string) (src : list strmap) : option string :=
  foldl (fun acc m => match m !! k with
                      | Some v => if decide (k <> "" /\ v <> "") then Some v else acc
                      | None => acc
                      end) None src.

Lemma union_orders (orders : list (list (string * string))) (src : list strmap) k :
  Forall2 (fun l m => l ≡ₚ map_to_list m) orders src ->
  foldl union_pairs ∅ orders !! k = last_value k src.
Proof.
  unfold last_value. rewrite <- (lookup_empty (M := gmap string) (A := string) k) at 1.
  generalize (∅ : strmap) as res. intros res HF. revert res.
  induction HF as [|l m orders src Hl HF IH]; intros res; simpl; [done|].
  rewrite IH. f_equal. by rewrite (union_pairs_lookup res m).
Qed.

Lemma UnionStringMaps_lookup (src : list strmap) k :
  UnionStringMaps src !! k = last_value k src.
Proof.
  rewrite <- (union_orders (map_to_list <$> src)).
  - unfold UnionStringMaps.
    generalize (∅ : strmap). induction src as [|m src IH]; intros res; simpl; [done|]. apply IH.
  - apply Forall2_fmap_l. apply Forall_Forall2_diag, Forall_true. intros m. unfold compose. reflexivity.
Qed.

Lemma last_value_nonempty k (src : list strmap) v :
  last_value k src = Some v -> k <> "" /\ v <> "".
Proof.
  unfold last_value. induction src as [|m src IH] using rev_ind; [done|].
  rewrite foldl_app. simpl. repeat case_match; try done. case_decide; naive_solver.
Qed.

Lemma parse_digits_pretty (x : N) (s : string) (acc : Z) :
  acc = 0 -> parse_digits acc (pretty_N_go x s) = parse_digits (Z.of_N x) s.
Proof.
  intros ->. revert s. induction (N.lt_wf_0 x) as [x _ IH]. intros s.
  destruct (decide (x = 0%N)) as [->|Hx]; [done|].
  rewrite pretty_N_go_step by lia. rewrite IH by (apply N.div_lt; lia).
  simpl. assert (digit_of (pretty_N_char (x `mod` 10)) = Some (Z.of_N (x `mod` 10))) as ->.
  { assert (x `mod` 10 < 10)%N as Hd by (apply N.mod_lt; lia).
    generalize dependent (x `mod` 10)%N. intros d Hd.
    assert (d = 0 \/ d = 1 \/ d = 2 \/ d = 3 \/ d = 4 \/ d = 5 \/ d = 6 \/ d = 7 \/ d = 8
            \/ d = 9)%N as Hc by lia.
    by repeat destruct Hc as [->|Hc]; subst. }
  simpl. f_equal. pose proof (N.div_mod x 10). lia.
Qed.

Lemma pretty_N_go_head (x : N) (s : string) :
  (0 < x)%N -> exists d s', pretty_N_go x s = String (pretty_N_char d) s' /\ (d < 10)%N.
Proof.
  revert s. induction (N.lt_wf_0 x) as [x _ IH]. intros s Hx.
  rewrite pretty_N_go_step by done.
  destruct (decide (x `div` 10 = 0)%N) as [->|Hd].
  - exists (x `mod` 10)%N, s. split; [done|]. apply N.mod_lt. lia.
  - apply IH; [apply N.div_lt; lia|]. by apply N.neq_0_lt_0.
Qed.

Lemma fmt_d_nonempty (z : Z) : fmt_d z <> "".
Proof.
  unfold fmt_d. destruct z as [|p|p]; [done| |done].
  change (pretty (Z.pos p)) with (pretty_N_go (N.pos p) "").
  by destruct (pretty_N_go_head (N.pos p) "") as (d & s' & -> & _).
Qed.

Lemma ParseInt_pretty (z : Z) : 0 < z < 2 ^ 63 -> ParseInt (pretty z) = Some z.
Proof.
  intros Hz. destruct z as [|p|p]; try lia.
  change (pretty (Z.pos p)) with (pretty_N_go (N.pos p) "").
  pose proof (parse_digits_pretty (N.pos p) "" 0 eq_refl) as Hp. simpl in Hp.
  destruct (pretty_N_go_head (N.pos p) "") as (d & s' & E & Hd); [lia|].
  rewrite E in *.
  assert (pretty_N_char d <> "-"%char /\ pretty_N_char d <> "+"%char) as [Hm Hpl].
  { assert (d = 0 \/ d = 1 \/ d = 2 \/ d = 3 \/ d = 4 \/ d = 5 \/ d = 6 \/ d = 7 \/ d = 8
            \/ d = 9)%N as Hc by lia.
    by repeat destruct Hc as [->|Hc]; subst. }
  unfold ParseInt. rewrite !decide_False by done.
  change (parse_uint (String (pretty_N_char d) s'))
    with (parse_digits 0 (String (pretty_N_char d) s')).
  rewrite Hp. simpl. by rewrite decide_True by lia.
Qed.

Lemma pretty_no_dot (z : Z) :
  0 < z -> "."%char ∉ String.list_ascii_of_string (pretty z).
Proof.
  intros Hz. destruct z as [|p|p]; try lia.
  change (pretty (Z.pos p)) with (pretty_N_go (N.pos p) "").
  assert ("."%char ∉ String.list_ascii_of_string "") as Hs by apply not_elem_of_nil.
  clear Hz. revert Hs. generalize "" as s. generalize (N.pos p) as x. clear p. intros x.
  induction (N.lt_wf_0 x) as [x _ IH]. intros s Hs.
  destruct (decide (x = 0%N)) as [->|Hx]; [done|].
  rewrite pretty_N_go_step by lia. apply IH; [apply N.div_lt; lia|].
  simpl. apply not_elem_of_cons. split; [|done].
  unfold pretty_N_char. repeat case_match; discriminate.
Qed.

Lemma split_on_app (sep : ascii) (w s : string) :
  sep ∉ String.list_ascii_of_string w ->
  split_on sep (w +:+ String sep s) = w :: split_on sep s.
Proof.
  induction w as [|a w IH]; simpl; intros Hn.
  - by rewrite decide_True.
  - rewrite not_elem_of_cons in Hn. destruct Hn as [Hne Hn].
    rewrite decide_False by done. by rewrite IH.
Qed.

Lemma split_on_dot (w s : string) :
  "."%char ∉ String.list_ascii_of_string w ->
  split_on "." (w +:+ "." +:+ s) = w :: split_on "." s.
Proof. apply (split_on_app "."). Qed.

(** ** Properties *)

(** In the union of string maps a key has the value of the last map that gives it a
    non-empty one, whatever order the runtime iterates each map in; the empty key and
    empty values never get in. *)
Theorem union_last_nonempty_wins (orders : list (list (string * string)))
    (src : list strmap) (k : string) :
  Forall2 (fun l m => l ≡ₚ map_to_list m) orders src ->
  foldl union_pairs ∅ orders = UnionStringMaps src /\
  UnionStringMaps src !! k = last_value k src /\
  (forall v, UnionStringMaps src !! k = Some v -> k <> "" /\ v <> "").
Proof.
  intros HF. split; [|split].
  - apply map_eq. intros i. by rewrite (union_orders orders src), UnionStringMaps_lookup.
  - apply UnionStringMaps_lookup.
  - intros v. rewrite UnionStringMaps_lookup. apply last_value_nonempty.
Qed.

Lemma union_last_nonempty_wins_witness :
  UnionStringMaps [{[ "a" := "1"; "b" := "2" ]}; {[ "b" := ""; "a" := "3" ]}] !! "b" = Some "2".
Proof.
  rewrite (proj1 (proj2 (union_last_nonempty_wins
    [[("b", "2"); ("a", "1")]; [("a", "3"); ("b", "")]]
    [{[ "a" := "1"; "b" := "2" ]}; {[ "b" := ""; "a" := "3" ]}] "b"
    ltac:(repeat constructor; vm_compute; first [reflexivity | by apply perm_swap])))).
  reflexivity.
Defined.

(** A system settings routing key "system_settings.name.action.domain" (with any
    further parts) is read back as the setting name and the domain, for every non-empty
    name without dots and every positive int64 domain. *)
Theorem routing_key_roundtrip (nm action rest : string) (domain : Z) :
  nm <> "" -> "."%char ∉ String.list_ascii_of_string nm ->
  "."%char ∉ String.list_ascii_of_string action ->
  0 < domain < 2 ^ 63 ->
  NewSystemSettingEventFromRoutingKey
    ("system_settings" +:+ "." +:+ nm +:+ "." +:+ action +:+ "." +:+ pretty domain +:+ "." +:+ rest) =
  inr (MkSystemSettingEvent nm domain).
Proof.
  intros Hnm Hn Ha Hr. pose proof (pretty_no_dot domain (proj1 Hr)) as Hd. unfold NewSystemSettingEventFromRoutingKey.
  rewrite (split_on_dot "system_settings") by (vm_compute; set_solver).
  rewrite !split_on_dot by done.
  rewrite decide_False by naive_solver. rewrite ParseInt_pretty by done.
  by rewrite decide_False by lia.
Qed.

Lemma routing_key_roundtrip_witness :
  NewSystemSettingEventFromRoutingKey "system_settings.record_all_calls.update.7.1" =
  inr (MkSystemSettingEvent "record_all_calls" 7).
Proof.
  apply (routing_key_roundtrip "record_all_calls" "update" "1" 7);
    try (vm_compute; set_solver); done.
Defined.
