(* ===== verification/Sql.v ===== *)
(** * Statements, databases and the supplier of connections

    store/sqlstore/supplier.go and store/sqlstore/pg_dialect.go. A statement sent through gorp
    is its text with its arguments, to the master or to a replica; the statements sent so far
    are a list, newest first, and the database answers the last of them (class [Database] of
    StoreOps). The second part says which parameters a text has, the third how the supplier
    opens its connections and hands them out, and the last how values are scanned. *)

From Stdlib Require Import Ascii.
From S2P Require Import Prelude Model.

(** ** Statements *)

(** The arguments of a statement, as the driver gets them. *)
Inductive SqlVal :=
| VNull
| VInt (z : Z)
| VBool (b : bool)
| VStr (s : string)
| VBytes (s : string)
| VTime (t : Z)
| VInts (l : list Z).

Inductive SqlArgs :=
| Named (args : list (string * SqlVal))
| Positional (args : list SqlVal).

Inductive Conn := Master | Replica.

Record Stmt := MkStmt {
  st_on : Conn;
  st_text : string;
  st_args : SqlArgs;
}.

#[export] Instance Conn_eq_dec : EqDecision Conn.
Proof. solve_decision. Defined.

#[export] Instance SqlVal_eq_dec : EqDecision SqlVal.
Proof. solve_decision. Defined.

#[export] Instance SqlArgs_eq_dec : EqDecision SqlArgs.
Proof. solve_decision. Defined.

#[export] Instance Stmt_eq_dec : EqDecision Stmt.
Proof. solve_decision. Defined.

(** Pointers as arguments: a nil pointer is NULL. *)
Definition opt_int (o : option Z) : SqlVal := from_option VInt VNull o.

Definition opt_str (o : option string) : SqlVal := from_option VStr VNull o.

Definition opt_bool (o : option bool) : SqlVal := from_option VBool VNull o.

Definition opt_time (o : option Z) : SqlVal := from_option VTime VNull o.

(** ** Errors *)

Inductive SqlErr :=
| ErrNoRows
| PqError (code message : string)
| OtherError (text : string).

#[export] Instance SqlErr_eq_dec : EqDecision SqlErr.
Proof. solve_decision. Defined.

Definition SqlErr_Error (e : SqlErr) : string :=
  match e with
  | ErrNoRows => "sql: no rows in result set"
  | PqError _ message => "pq: " +:+ message
  | OtherError text => text
  end.

Definition ForeignKeyViolationErrorCode : string := "23503".
Definition DuplicationViolationErrorCode : string := "23505".
Definition FromTriggerValidationErrorCode : string := "09000".

Definition extractCodeFromErr (e : SqlErr) : Z :=
  match e with
  | ErrNoRows => 404
  | PqError code _ =>
      if bool_decide (code ∈ [ForeignKeyViolationErrorCode; DuplicationViolationErrorCode;
                              FromTriggerValidationErrorCode]) then 400 else 500
  | OtherError _ => 500
  end.

(** ** The parameters of a text

    gorp replaces [:Name] by the value of that key; PostgreSQL reads [::type] as a cast, and
    neither inside a quoted text or a comment. [code] drops those. *)

Inductive Mode := InCode | InQuote | InIdent | InComment.

Fixpoint code_of (m : Mode) (s : string) : string :=
  match s with
  | EmptyString => ""
  | String c rest =>
      let n := nat_of_ascii c in
      match m with
      | InCode =>
          if decide (n = 39%nat) then String " " (code_of InQuote rest)
          else if decide (n = 34%nat) then String " " (code_of InIdent rest)
          else if decide (n = 45%nat) then
            match rest with
            | String d _ => if decide (nat_of_ascii d = 45%nat) then code_of InComment rest else String c (code_of InCode rest)
            | EmptyString => String c ""
            end
          else String c (code_of InCode rest)
      | InQuote => if decide (n = 39%nat) then code_of InCode rest else code_of InQuote rest
      | InIdent => if decide (n = 34%nat) then code_of InCode rest else code_of InIdent rest
      | InComment => if decide (n = 10%nat) then String c (code_of InCode rest) else code_of InComment rest
      end
  end.

Definition code (s : string) : string := code_of InCode s.

(** A character of a word: a letter, a digit or an underscore. *)
Definition word_char (c : ascii) : bool :=
  let n := nat_of_ascii c in
  (((48 <=? n) && (n <=? 57)) || ((65 <=? n) && (n <=? 90)) || ((97 <=? n) && (n <=? 122)) || (n =? 95))%nat.

Inductive NameState := Plain | Mark1 | Mark2 | Reading (name : string).

(** The words behind a single [mark]. *)
Fixpoint marked (mark : ascii) (st : NameState) (s : string) : list string :=
  match s with
  | EmptyString => match st with Reading n => [n] | _ => [] end
  | String c rest =>
      if Ascii.eqb c mark then
        match st with
        | Reading n => n :: marked mark Mark1 rest
        | Mark1 | Mark2 => marked mark Mark2 rest
        | Plain => marked mark Mark1 rest
        end
      else if word_char c then
        match st with
        | Mark1 => marked mark (Reading (String c "")) rest
        | Reading n => marked mark (Reading (n +:+ String c "")) rest
        | Plain | Mark2 => marked mark Plain rest
        end
      else
        match st with
        | Reading n => n :: marked mark Plain rest
        | _ => marked mark Plain rest
        end
  end.

Definition placeholders (text : string) : list string := marked ":" Plain (code text).

Definition positions (text : string) : list string := marked "$" Plain (code text).

(** Every parameter of the text has an argument and every argument a parameter. *)
Definition bound (s : Stmt) : Prop :=
  match st_args s with
  | Named args =>
      NoDup args.*1 /\ Forall (fun n => n ∈ args.*1) (placeholders (st_text s)) /\
      Forall (fun n => n ∈ placeholders (st_text s)) args.*1 /\ positions (st_text s) = []
  | Positional args =>
      placeholders (st_text s) = [] /\
      positions (st_text s) = (fun i => pretty (S i)) <$> seq 0 (length args)
  end.

#[export] Instance bound_dec s : Decision (bound s).
Proof. unfold bound. destruct (st_args s); apply _. Defined.

(** ** Reading and writing statements *)

(** The words of a text. *)
Fixpoint words (cur s : string) : list string :=
  match s with
  | EmptyString => if decide (cur = "") then [] else [cur]
  | String c rest =>
      if word_char c then words (cur +:+ String c "") rest
      else if decide (cur = "") then words "" rest else cur :: words "" rest
  end.

Definition write_words : list string := ["update"; "insert"; "delete"; "call"; "refresh"; "truncate"; "create"; "drop"].

(** None of these words is in the code of the text. *)
Definition no_write_word (text : string) : bool :=
  forallb (fun w => negb (bool_decide (w ∈ write_words))) (words "" (code text)).

