(* ===== verification/StoreSql.v ===== *)
(** * The statements of the store: the SQL texts of store/sqlstore

    One constant for every statement, with the text of the source byte for byte. A double
    quote of a statement is written by [quoted], which puts one between the parts. *)

From S2P Require Import Prelude.

Definition quoted (parts : list string) : string := String.concat (String (Ascii.ascii_of_nat 34) "") parts.

(** ** member_store.go *)

Definition Member_ReserveMembersByNode_sql : string := "call call_center.cc_distribute(:DisableOmnichannel::bool)".

Definition Member_UnReserveMembersByNode_sql : string := "select s as count
			from call_center.cc_un_reserve_members_with_resources($1, $2) s".

Definition Member_GetActiveMembersAttempt_sql : string := "select *
			from call_center.cc_set_active_members($1) s".

Definition Member_SetAttemptState_sql : string := "update call_center.cc_member_attempt
			set state = :State
			where id = :Id".

Definition Member_SetAttemptFindAgent_sql : string := "update call_center.cc_member_attempt
			set state = :State,
				agent_id = null,
				team_id = null
			where id = :Id and state != :CancelState and result isnull".

Definition Member_AnswerPredictAndFindAgent_sql : string := "  update call_center.cc_member_attempt m
     set state       = :State,
         answered_at = now(),
         agent_id    = case
             -- прапорець черги payload.hold_reserved_agent. Вимкнено -> агент
             -- звільняється як раніше, гард навіть не виконується.
             when :HoldAgent::bool and exists (
                 select 1
                   from call_center.cc_agent_channel ch
                        join call_center.cc_agent ag on ag.id = ch.agent_id
                  where ch.agent_id = m.agent_id
                    and ch.channel  = 'call'
                    and ch.state    = 'waiting'
                    and ag.status   = 'online'
                    -- пристрій зареєстрований: та сама перевірка, що в циклі
                    -- розподілу (cc_sql.c:1852-1855). Без неї можна зберегти
                    -- агента з відвалленим софтфоном, плече не додзвониться,
                    -- і він отримає no_answer аж до примусового break_out.
                    and exists (select 1
                                  from directory.wbt_user u
                                       inner join directory.wbt_user_presence pr
                                               on pr.user_id = u.id
                                 where u.id = ag.user_id
                                   and u.device_id notnull
                                   and pr.status = 'sip'
                                   and pr.open > 0
                                   and length(coalesce(u.extension, '')) > 0)
                    and not exists (select 1
                                      from call_center.cc_calls c
                                     where c.user_id = ag.user_id
                                       and c.hangup_at isnull)
                    and not exists (select 1
                                      from call_center.cc_agent_channel ch2
                                     where ch2.agent_id = ch.agent_id
                                       and ch2.channel <> 'call'
                                       and ch2.state not in ('waiting', 'idle'))
                    and not exists (select 1
                                      from call_center.cc_member_attempt m2
                                     where m2.agent_id = m.agent_id
                                       and m2.id      <> m.id
                                       and m2.state in ('wait_agent', 'active', 'offering'))
             ) then m.agent_id
             else null
         end
   where m.id = :Id and m.state != :CancelState and m.result isnull".

Definition Member_SetDistributeCancel_sql : string := "call call_center.cc_attempt_distribute_cancel(:Id::int8, :Desc::varchar, :NextSec::int4, :Stop::bool, :Vars::jsonb)".

Definition Member_DistributeCallToQueue_sql : string := "select *
from call_center.cc_distribute_inbound_call_to_queue(:AppId::varchar, :QueueId::int8, :CallId::varchar, :Variables::jsonb,
	:BucketId::int, :Priority::int, :StickyAgentId::int4)
as x (
    attempt_id int8,
    queue_id int,
    queue_updated_at int8,
    destination jsonb,
    variables jsonb,
    name varchar,
    team_updated_at int8,

    call_id varchar,
    call_state varchar,
    call_direction varchar,
    call_destination varchar,
    call_timestamp int8,
    call_app_id varchar,
    call_from_number varchar,
    call_from_name varchar,
    call_answered_at int8,
    call_bridged_at int8,
    call_created_at int8,
	parent_call_id varchar
);".

Definition Member_DistributeCallToAgent_sql : string := quoted ["select *
from call_center.cc_distribute_inbound_call_to_agent(:Node, :MemberCallId, :Variables, :AgentId, :Prams::jsonb)
as x (
    attempt_id int8,
    destination jsonb,
    variables jsonb,
    name varchar,
    team_id int,
    team_updated_at int8,
    agent_updated_at int8,

    call_id varchar,
    call_state varchar,
    call_direction varchar,
    call_destination varchar,
    call_timestamp int8,
    call_app_id varchar,
    call_from_number varchar,
    call_from_name varchar,
    call_answered_at int8,
    call_bridged_at int8,
    call_created_at int8,
	parent_call_id varchar
)
where :Force::bool or not exists(
	select 1
	from call_center.cc_member_attempt a
	where a.agent_id = :AgentId
	and a.state != 'leaving'
	and "; "a"; "."; "channel"; " = 'call'
	for update
)"].

Definition Member_DistributeOutboundCall_sql : string := "select *
from call_center.cc_distribute_outbound_call(:Node, :MemberCallId, :Variables, :UserId, :Prams::jsonb)
as x (
    attempt_id int8,
    destination jsonb,
    variables jsonb,
    name varchar,
    team_id int,
    team_updated_at int8,
    agent_updated_at int8,

    call_id varchar,
    call_state varchar,
    call_direction varchar,
    call_destination varchar,
    call_timestamp int8,
    call_app_id varchar,
    call_from_number varchar,
    call_from_name varchar,
    call_answered_at int8,
    call_bridged_at int8,
    call_created_at int8,
    agent_id int
)".

Definition Member_DistributeTaskToAgent_sql : string := "select *
from call_center.cc_distribute_task_to_agent(:Node, :DomainId, :AgentId, :Dest::jsonb, :Variables, :Params::jsonb)
as x (
    attempt_id int8,
    destination jsonb,
    variables jsonb,
    team_id int,
    team_updated_at int8,
    agent_updated_at int8
)
where :Force::bool or not exists(select 1 from call_center.cc_member_attempt a where a.agent_id = :AgentId and a.state != 'leaving' for update )".

Definition Member_DistributeCallToQueueCancel_sql : string := "update call_center.cc_member_attempt
set result = 'cancel',
    state = 'leaving',
    leaving_at = now()
where id = :Id".

Definition Member_DistributeChatToQueue_sql : string := "select *
		from call_center.cc_distribute_inbound_chat_to_queue(:AppId::varchar, :QueueId::int8, :ConvId::varchar, :Variables::jsonb,
	:BucketId::int, :Priority::int, :StickyAgentId::int, :ExtraChatCount::bool)
as x (
    attempt_id int8,
    queue_id int,
    queue_updated_at int8,
    destination jsonb,
    variables jsonb,
    name varchar,
    team_updated_at int8,

    conversation_id varchar,
    conversation_created_at int8,
    list_communication_id int8

);".

Definition Member_DistributeIMToQueue_sql : string := "
select *
		from call_center.cc_distribute_inbound_im_to_queue(:AppId::varchar, :QueueId::int8, :ThreadId::varchar,
		:Destination::jsonb, :Variables::jsonb, :BucketId::int, :Priority::int, :StickyAgentId::int)
as x (
    attempt_id int8,
    queue_id int,
    queue_updated_at int8,
    destination jsonb,
    variables jsonb,
    name varchar,
    team_updated_at int8,

    thread_id varchar,
    thread_created_at int8,
    list_communication_id int8
);".

Definition Member_DistributeIMToAgent_sql : string := "
select *
		from call_center.cc_distribute_im_to_agent(:AppId::varchar, :QueueId::int8, :AgentId::int, :ThreadId::varchar,
		:Destination::jsonb, :Variables::jsonb, :BucketId::int)
as x (
    attempt_id int8,
    queue_id int,
    queue_updated_at int8,
    destination jsonb,
    variables jsonb,
    name varchar,
    team_updated_at int8,

    thread_id varchar,
    thread_created_at int8,
    list_communication_id int8,
    agent_updated_at int8
);".

Definition Member_AttemptWeight_sql : string := "select coalesce(weight, 0)
from call_center.cc_member_attempt
where id = :Id".

Definition Member_DistributeDirect_sql : string := "select * from call_center.cc_distribute_direct_member_to_queue(:AppId, :MemberId, :CommunicationId, :AgentId)".

Definition Member_SetAttemptOffering_sql : string := quoted ["select call_center.cc_view_timestamp(x.last_state_change)::int8 as "; "timestamp"; "
from call_center.cc_attempt_offering(:AttemptId::int8, :AgentId::int4, :AgentCallId::varchar, :MemberCallId::varchar, :Dest::varchar, :Displ::varchar)
    as x (last_state_change timestamptz)
where x.last_state_change notnull "].

Definition Member_SetAttemptBridged_sql : string := quoted ["select call_center.cc_view_timestamp(x.last_state_change)::int8 as "; "timestamp"; "
from call_center.cc_attempt_bridged(:AttemptId)
    as x (last_state_change timestamptz)
where x.last_state_change notnull "].

Definition Member_SetAttemptAbandoned_sql : string := quoted ["select call_center.cc_view_timestamp(x.last_state_change)::int8 as "; "timestamp"; ", x.member_stop_cause, x.result
from call_center.cc_attempt_abandoned(:AttemptId)
    as x (last_state_change timestamptz, member_stop_cause varchar, result varchar)
where x.last_state_change notnull "].

Definition Member_SetAttemptAbandonedWithParams_sql : string := quoted ["select call_center.cc_view_timestamp(x.last_state_change)::int8 as "; "timestamp"; ", x.member_stop_cause, x.result
from call_center.cc_attempt_abandoned(:AttemptId, :MaxAttempts, :Sleep, :Vars::jsonb, :PerNum::bool, :ExcludeNum::bool, :Redial::bool, :Desc::varchar, :StickyAgentId::int)
    as x (last_state_change timestamptz, member_stop_cause varchar, result varchar)
where x.last_state_change notnull "].

Definition Member_SetAttemptMissedAgent_sql : string := quoted ["select call_center.cc_view_timestamp(x.last_state_change)::int8 as "; "timestamp"; ", no_answers
from call_center.cc_attempt_missed_agent(:AttemptId, :AgentHoldSec)
    as x (last_state_change timestamptz, no_answers int)
where x.last_state_change notnull "].

Definition Member_SetAttemptWaitingAgent_sql : string := "select 1 as ok
from call_center.cc_attempt_waiting_agent(:AttemptId, :AgentHoldSec)
    as x (last_state_change timestamptz, no_answers int)
where x.last_state_change notnull ".

Definition Member_SetAttemptReporting_sql : string := "with att as (
    update call_center.cc_member_attempt
    set timeout  = case when :DeadlineSec::int > 0 then  now() + (:DeadlineSec::int || ' sec')::interval end,
        leaving_at = now(),
	    last_state_change = now(),
        state = case when state <> 'leaving' then :State else state end
    where id = :Id
    returning agent_id, channel, state, leaving_at
)
update call_center.cc_agent_channel c
set state = att.state,
    joined_at = att.leaving_at
from att
where (att.agent_id, att.channel) = (c.agent_id, c.channel)
returning call_center.cc_view_timestamp(c.joined_at) as timestamp".

Definition Member_RenewalProcessing_sql : string := quoted ["
		with attempt_data as (
			select
				a.id as attempt_id,
				a.available_prolongation_quant,
				a.timeout,
				a.queue_params,
				ca.user_id,
				ca.domain_id,
				coalesce(cq.prolongation_enabled, (a.queue_params->>'has_prolongation')::bool, false) as prolongation_enabled,
				coalesce(cq.prolongation_repeats_number, (a.queue_params->>'remaining_prolongations')::int, 0) as prolongation_repeats_number,
				coalesce(cq.processing_renewal_sec, (a.queue_params->>'processing_renewal_sec')::int, 0) as processing_renewal_sec,
				coalesce(cq.prolongation_time_sec, (a.queue_params->>'prolongation_sec')::int, 0) as prolongation_time_sec,
				coalesce(cq.processing_autosave, (a.queue_params->'processing_autosave')::bool, false) as processing_autosave
			from call_center.cc_member_attempt a
			inner join call_center.cc_agent ca on ca.id = a.agent_id
			left join call_center.cc_queue cq on cq.id = a.queue_id
			where a.id = :Id::int8
				and ca.domain_id = :DomainId::int8
				and a.state = 'processing'
		)
		update call_center.cc_member_attempt a
		set
			available_prolongation_quant = case
    	    when ad.prolongation_enabled
    	    then least(a.available_prolongation_quant + 1, ad.prolongation_repeats_number)
    	    else a.available_prolongation_quant
    	end,
    	timeout = case
    	    when (ad.prolongation_enabled and a.available_prolongation_quant + 1 <= ad.prolongation_repeats_number)
    	         or not ad.prolongation_enabled
    	    then coalesce(a.timeout, now()) + (:Renewal::int || ' sec')::interval
    	    else a.timeout
    	end
		from attempt_data ad
		where a.id = ad.attempt_id
		returning
			a.id attempt_id,
    		coalesce(a.queue_id, 0) as queue_id,
    		call_center.cc_view_timestamp(a.timeout) timeout,
    		call_center.cc_view_timestamp(now()) "; "timestamp"; ",
    		coalesce(ad.processing_renewal_sec, (:Renewal::int / 2)::int) as renewal_sec,
    		a.channel,
    		ad.user_id,
    		ad.domain_id,
    		ad.prolongation_enabled,
    		ad.prolongation_time_sec,
    		case
    		    when ad.prolongation_enabled
    		    then ad.prolongation_repeats_number - a.available_prolongation_quant
    		    else 0
    		end as remaining_prolongations;
	"].

Definition Member_SetAttemptMissed_sql : string := quoted ["select call_center.cc_view_timestamp(x.last_state_change)::int8 as "; "timestamp"; ", no_answers, member_stop_cause
		from call_center.cc_attempt_leaving(:Id::int8, 'missed', :State, :AgentHoldTime, null::jsonb, :MaxAttempts::int, :WaitBetween::int, :PerNum::bool)
		as x (last_state_change timestamptz, no_answers int, member_stop_cause varchar)"].

Definition Member_CancelAgentAttempt_sql : string := quoted ["select call_center.cc_view_timestamp(x.last_state_change)::int8 as "; "timestamp"; ", no_answers
from call_center.cc_attempt_agent_cancel(:AttemptId::int8, :Result::varchar, :AgentState::varchar, :AgentHoldSec::int4)
    as x (last_state_change timestamptz, no_answers int)
where x.last_state_change notnull "].

Definition Member_SetBarred_sql : string := "with u as (
    update call_center.cc_member_attempt
        set leaving_at = now(),
            result = 'barred',
            state = 'leaving'
    where id = :AttemptId
    returning member_id, result, communication_idx::int, id, call_center.cc_view_timestamp(leaving_at) t,
        waiting_other_numbers, leaving_at
)
update call_center.cc_member m
set stop_cause = case when :BlockAllNumbers is true or u.waiting_other_numbers <= 0 then u.result else m.stop_cause end,
    stop_at = case when :BlockAllNumbers is true or u.waiting_other_numbers <= 0  then u.leaving_at else m.stop_at end,
    communications =  jsonb_set(
                m.communications,
                (array[u.communication_idx::int])::text[], m.communications->(u.communication_idx::int) ||
                                                                   jsonb_build_object('last_activity_at', u.t) ||
                                                                   jsonb_build_object('attempt_id', u.id) ||
                                                                   jsonb_build_object('attempts', coalesce((m.communications#>(format('{%s,attempts}', u.communication_idx::int)::text[]))::int, 0) + 1) ||
                                                                   jsonb_build_object('stop_at', u.t)
                )
from u
where m.id = u.member_id".

Definition Member_SetAttemptResult_sql : string := quoted ["select call_center.cc_view_timestamp(x.last_state_change)::int8 as "; "timestamp"; ", no_answers,  member_stop_cause
		from call_center.cc_attempt_leaving(:Id::int8, :Result::varchar, :State, :AgentHoldTime, :Vars::jsonb, :MaxAttempts::int, :WaitBetween::int,
			:PerNum::bool, :Desc::varchar, :StickyAgentId::int)
		as x (last_state_change timestamptz, no_answers int, member_stop_cause varchar)"].

Definition Member_GetTimeouts_sql : string := "select
       a.id attempt_id,
       call_center.cc_view_timestamp(call_center.cc_attempt_timeout(a.id, 'waiting', 0, coalesce((cq.payload->>'max_attempts')::int, 0),
			coalesce((cq.payload->>'per_numbers')::bool, false), cq.after_schema_id notnull)) as timestamp,
       a.agent_id,
       (ag.updated_at - extract(epoch from u.updated_at))::int8 agent_updated_at,
       ag.user_id,
       ag.domain_id,
       a.channel,
	   cq.after_schema_id as after_schema_id
from call_center.cc_member_attempt a
    inner join call_center.cc_agent ag on ag.id = a.agent_id
    inner join directory.wbt_user u on u.id = ag.user_id
    left join call_center.cc_queue cq on a.queue_id = cq.id
where a.timeout < now() and a.node_id = :NodeId and not a.schema_processing is true ".

Definition Member_SetTimeoutError_sql : string := "update call_center.cc_member_attempt
set schema_processing = false,
    result = 'timeout error'
where id = :Id;".

Definition Member_CallbackReporting_sql : string := "select *
from call_center.cc_attempt_end_reporting(:AttemptId::int8, :Status::varchar, :Description::varchar, :ExpireAt::timestamptz,
	:NextCallAt::timestamp, :StickyAgentId::int, :Vars::jsonb,
    :MaxAttempts::int, :WaitBetween::int, :ExcludeDest::bool, :PerNum::bool, :OnyCurr::bool) as
x (timestamp int8, channel varchar, queue_id int, agent_call_id varchar, agent_id int, user_id int8, domain_id int8, agent_timeout int8, member_stop_cause varchar, member_id int8)
where x.channel notnull".

Definition Member_SchemaResult_sql : string := quoted ["select call_center.cc_view_timestamp(x.last_state_change)::int8 as "; "timestamp"; ", x.member_stop_cause, x.result
from call_center.cc_attempt_schema_result(:AttemptId::int8, :Status::varchar, :Description::varchar, :ExpireAt::timestamptz,
	:NextCallAt::timestamptz, :StickyAgentId::int, :Vars::jsonb, :MaxAttempts::int, :WaitBetween::int, :ExcludeDest::bool, :PerNum::bool)
	as x (last_state_change timestamptz, member_stop_cause varchar, result varchar)
where x.last_state_change notnull"].

Definition Member_SaveToHistory_sql : string := "with del as materialized (
    select *
    from call_center.cc_member_attempt a
    where a.state = 'leaving' and not a.schema_processing is true
    for update skip locked
    limit 100
),
dd as (
    delete
    from call_center.cc_member_attempt m
    where m.id in (
        select del.id
        from del
    )
)
insert
into call_center.cc_member_attempt_history (id, domain_id, queue_id, member_id, weight, resource_id, result,
                                agent_id, bucket_id, destination, display, description, list_communication_id,
                                joined_at, leaving_at, agent_call_id, member_call_id, offering_at, reporting_at,
                                bridged_at, channel, seq, resource_group_id, answered_at, team_id,
								transferred_at, transferred_agent_id, transferred_attempt_id, parent_id, node_id, form_fields,
								import_id, variables, offered_agent_ids)
select a.id, a.domain_id, a.queue_id, a.member_id, a.weight, a.resource_id, a.result, a.agent_id, a.bucket_id, a.destination,
       a.display, a.description, a.list_communication_id, a.joined_at, a.leaving_at, a.agent_call_id, a.member_call_id,
       a.offering_at, a.reporting_at, a.bridged_at, a.channel, a.seq, a.resource_group_id, a.answered_at, a.team_id,
	   a.transferred_at, a.transferred_agent_id, a.transferred_attempt_id, a.parent_id, a.node_id, a.form_fields,
	   a.import_id, a.variables, a.offered_agent_ids
from del a
returning id, result".

Definition Member_CreateConversationChannel_sql : string := "insert into call_center.cc_msg_participants (name, conversation_id, attempt_id)
select :Name, parent.conversation_id, :AttemptId
from call_center.cc_msg_participants parent
    inner join call_center.cc_msg_conversation cmc on parent.conversation_id = cmc.id
where parent.channel_id = :Parent and cmc.closed_at is null
returning channel_id".

Definition Member_RefreshQueueStatsLast2H_sql : string := "refresh materialized view CONCURRENTLY call_center.cc_distribute_stats".

Definition Member_TransferredTo_sql : string := "select * from call_center.cc_attempt_transferred_to(:Id, :ToId)
			as x (last_state_change timestamptz)".

Definition Member_TransferredFrom_sql : string := "select * from call_center.cc_attempt_transferred_from(:Id::int8, :ToId::int8, :ToAgentId::int, :ToAgentSessId::varchar)
			as x (last_state_change timestamptz)".

Definition Member_TransferredIM_sql : string := "with a as (
    update call_center.cc_member_attempt
    set transferred_attempt_id = :ToId
    where id = :FromId
)
insert into call_center.cc_member_attempt_transferred (from_id, to_id, from_agent_id, to_agent_id)
values (:FromId, :ToId, :FromAgentId, :ToAgentId)".

Definition Member_CancelAgentDistribute_sql : string := "
		update call_center.cc_member_attempt att
		set result = 'cancel'
		from (
			select a.id
			from call_center.cc_member_attempt a
				inner join call_center.cc_queue q on q.id = a.queue_id
			where a.agent_id = :AgentId
			  and q.type != 5
			  and a.channel = 'call'
			  and not exists(
					select 1
					from call_center.cc_member_attempt a2
					where a2.agent_id = :AgentId
					  and a2.agent_call_id notnull
					  and a2.channel = 'call'
						for update
				)
		) t
		where t.id = att.id
		returning att.id".

Definition Member_SetExpired_sql : string := "
			with upd as (
			update call_center.cc_member m
			set stop_cause = 'expired',
				stop_at = now()
			from (select m.id,
				   case when e.id notnull  then
					   jsonb_build_object('member_name', m.name) ||
					   jsonb_build_object('member_id', m.id::text) ||
					   jsonb_build_object('member_stop_cause', 'expired') ||
					   jsonb_build_object('cc_result', 'expired') ||
					   jsonb_build_object('queue_id', m.queue_id::text) ||
					   jsonb_build_object('cc_attempt_seq', m.attempts::text) ||
					   coalesce(m.variables, '{}') ||
					   coalesce(q.variables, '{}')
					   end variables,
				  e.schema_id,
				  m.id as member_id,
				  q.domain_id
			from call_center.cc_member m
				left join call_center.cc_queue_events e on e.queue_id = m.queue_id and e.enabled and e.event = 'leaving'
				left join call_center.cc_queue q on q.id = e.queue_id
			where m.expire_at < now()
				and m.stop_at isnull
			order by m.expire_at asc
			limit :Limit) t
			where t.id = m.id
			returning t.*
		)
		select upd.variables, upd.schema_id, upd.domain_id, upd.member_id
		from upd
		where upd.variables notnull".

Definition Member_StoreForm_sql : string := "update call_center.cc_member_attempt
set form_view = :Form::jsonb,
    form_fields = coalesce(form_fields, '{}'::jsonb) || coalesce(:Fields::jsonb, '{}'::jsonb)
where id = :Id".

Definition Member_StoreFormFields_sql : string := "update call_center.cc_member_attempt
set form_fields = coalesce(form_fields, '{}'::jsonb) || :Fields::jsonb
where id = :Id".

Definition Member_StoreFormFields_sql2 : string := "update call_center.cc_member_attempt_history
set form_fields = coalesce(form_fields, '{}'::jsonb) || :Fields::jsonb
where id = :Id".

Definition Member_CleanAttempts_sql : string := "with u as (
    update call_center.cc_member_attempt a
    set result = 'restart',
        state = 'leaving',
        leaving_at = now()
    where a.node_id = :NodeId
    returning *
)
update call_center.cc_agent_channel c
    set channel = null,
        state = 'waiting'
where c.agent_id in (
    select distinct u.agent_id
    from u
    where u.agent_id notnull
)".

Definition Member_FlipResource_sql : string := "select x.resource_id,
       x.resource_updated_at,
       x.gateway_updated_at,
       x.allow_call,
	   x.call_id
from call_center.cc_attempt_flip_next_resource(:AttemptId::int8, :SkippResources::int[])
    as x(resource_id int, resource_updated_at int8, gateway_updated_at int8, allow_call bool, call_id varchar)".

Definition Member_Intercept_sql : string := "update call_center.cc_member_attempt a
set agent_id = :AgentId,
    team_id = ag.team_id
from call_center.cc_agent ag
where a.id = :Id::int8
    and a.domain_id = :DomainId
    and a.agent_id isnull
    and ag.id = :AgentId
    and a.state = 'wait_agent'
returning a.queue_id".

Definition Member_addCommunications_sql : string := "update call_center.cc_member
set communications = communications || :Comm::jsonb
where id = :Id;".

Definition Member_WaitingList_sql : string := "select domain_id, users, chats, calls from call_center.cc_manual_queue_list".

Definition Member_UpdateProcessingFormAtHistory_sql : string := quoted ["
		with upd_attempt as (
			update "; "call_center"; "."; "cc_member_attempt"; "
			set "; "form_fields"; " = coalesce("; "form_fields"; ", '{}'::jsonb) || coalesce(:FormFields::jsonb, '{}'::jsonb)
			where "; "id"; " = :ID
			returning "; "id"; "
		)
		update "; "call_center"; "."; "cc_member_attempt_history"; "
		set "; "form_fields"; " = coalesce("; "form_fields"; ", '{}'::jsonb) || coalesce(:FormFields::jsonb, '{}'::jsonb)
		where "; "id"; " = :ID
		and not exists (select 1 from upd_attempt)
	"].

Definition Member_CancelAttemptAndReleaseAgent_sql : string := "
		select 1 as ok
		from call_center.cc_attempt_cancel_release_agent(
			cast(:AttemptID as int8),
			cast(:AgentHoldSec as int8)
		) as x
	 	where x.last_state_change is not null;
	".

(** ** agent_store.go *)

Definition Agent_ReservedForAttemptByNode_sql : string := "
	update call_center.cc_member_attempt a
set state = :Active
from (
        select a.id as attempt_id,
            a.agent_id,
            (
                ca.updated_at - extract(
                    epoch
                    from u.updated_at
                )
            )::int8 as agent_updated_at,
            a.team_id,
            team.updated_at as team_updated_at
        from call_center.cc_member_attempt a
            inner join call_center.cc_agent ca on a.agent_id = ca.id
            inner join call_center.cc_team team on team.id = a.team_id
            inner join directory.wbt_user u on u.id = ca.user_id
        where a.state = :WaitAgent
            and a.agent_id notnull
            and a.node_id = :Node
        for update skip locked
    ) t
where a.id = t.attempt_id
returning t.*
".

Definition Agent_SetOnlineAtomic_sql : string := "select * from call_center.cc_set_agent_online(:AgentID::int8, :DomainID::int8, :OnDemand::boolean, :StatusID::int8, :StatusName::varchar);".

Definition Agent_GetWithContext_sql : string := "
	select a.id,
    a.user_id,
    a.domain_id,
    (
        a.updated_at - extract(
            epoch
            from u.updated_at
        )
    )::int8 as updated_at,
    coalesce((u.name)::varchar, u.username) as name,
    'sofia/sip/' || u.extension || '@' || d.name as destination,
    u.extension,
    a.status,
    a.status_payload,
    a.on_demand,
    case
        when g.id notnull then json_build_object('id', g.id, 'type', g.mime_type)::jsonb
    end as greeting_media,
    a.team_id,
    team.updated_at as team_updated_at,
    coalesce(push.config, '{}') variables,
    push.config notnull has_push,
    coalesce(nullif(u.chat_name, ''), u.name, u.username) as chat_name
from call_center.cc_agent a
    inner join directory.wbt_user u on u.id = a.user_id
    inner join directory.wbt_domain d on d.dc = a.domain_id
    inner join call_center.cc_team team on team.id = a.team_id
    left join storage.media_files g on g.id = a.greeting_media_id
    left join lateral (
        select jsonb_object(array_agg(key), array_agg(val)) as push
        from (
                SELECT case
                        when s.props->>'pn-type'::text = 'fcm' then 'wbt_push_fcm'
                        else 'wbt_push_apn'
                    end as key,
                    array_to_string(
                        array_agg(DISTINCT s.props->>'pn-rpid'::text),
                        '::'
                    ) as val
                FROM directory.wbt_session s
                WHERE s.user_id IS NOT NULL
                    AND s.access notnull
                    AND NULLIF(s.props->>'pn-rpid'::text, ''::text) IS NOT NULL
                    AND s.user_id = a.user_id
                    and s.props->>'pn-type'::text in ('fcm', 'apns')
                    AND now() at time zone 'UTC' < s.expires
                group by s.props->>'pn-type'::text = 'fcm'
            ) t
        where key notnull
            and val notnull
    ) push(config) ON true
where a.id = :Id
		".

Definition Agent_Get_sql : string := "
	select a.id,
    a.user_id,
    a.domain_id,
    (
        a.updated_at - extract(
            epoch
            from u.updated_at
        )
    )::int8 as updated_at,
    coalesce((u.name)::varchar, u.username) as name,
    'sofia/sip/' || u.extension || '@' || d.name as destination,
    u.extension,
    a.status,
    a.status_payload,
    a.on_demand,
    case
        when g.id notnull then json_build_object('id', g.id, 'type', g.mime_type)::jsonb
    end as greeting_media,
    a.team_id,
    team.updated_at as team_updated_at,
    coalesce(push.config, '{}') variables,
    push.config notnull has_push,
    coalesce(nullif(u.chat_name, ''), u.name, u.username) as chat_name
from call_center.cc_agent a
    inner join directory.wbt_user u on u.id = a.user_id
    inner join directory.wbt_domain d on d.dc = a.domain_id
    inner join call_center.cc_team team on team.id = a.team_id
    left join storage.media_files g on g.id = a.greeting_media_id
    left join lateral (
        select jsonb_object(array_agg(key), array_agg(val)) as push
        from (
                SELECT case
                        when s.props->>'pn-type'::text = 'fcm' then 'wbt_push_fcm'
                        else 'wbt_push_apn'
                    end as key,
                    array_to_string(
                        array_agg(DISTINCT s.props->>'pn-rpid'::text),
                        '::'
                    ) as val
                FROM directory.wbt_session s
                WHERE s.user_id IS NOT NULL
                    AND s.access notnull
                    AND NULLIF(s.props->>'pn-rpid'::text, ''::text) IS NOT NULL
                    AND s.user_id = a.user_id
                    and s.props->>'pn-type'::text in ('fcm', 'apns')
                    AND now() at time zone 'UTC' < s.expires
                group by s.props->>'pn-type'::text = 'fcm'
            ) t
        where key notnull
            and val notnull
    ) push(config) ON true
where a.id = :Id
		".

Definition Agent_ConfirmAttempt_sql : string := "select cnt from call_center.cc_confirm_agent_attempt(:AgentId, :AttemptId) cnt".

Definition Agent_MissedAttempt_sql : string := "insert into call_center.cc_agent_missed_attempt (attempt_id, agent_id, cause)
  values (:AttemptId, :AgentId, :Cause)".

Definition Agent_RefreshEndStateDay5Min_sql : string := "refresh materialized view call_center.cc_agent_end_state_day_5min".

Definition Agent_SetOnline_sql : string := "select timestamp, channel
		from call_center.cc_agent_set_login(:AgentId, :OnDemand) channels  (channel jsonb, timestamp int8)".

Definition Agent_SetStatus_sql : string := "
		with ag as (
			update call_center.cc_agent
			set
				status = :Status,
				status_payload = :Payload,
				status_comment = :StatusComment,
				last_state_change = now(),
				status_id = case when :Status is distinct from 'online' then null else status_id end
			where
				id = :AgentId
				and not exists (
					select 1
					from call_center.cc_member_attempt att
					where
						att.agent_id = call_center.cc_agent.id
						and att.state = 'wait_agent' for update
				)
			returning id
		)
		update call_center.cc_agent_channel c
		set online = false
		from ag
		where c.agent_id = ag.id;
	".

Definition Agent_CheckAllowPause_sql : string := "select exists(SELECT 1
FROM call_center.cc_agent a_1
    JOIN call_center.cc_queue q_1 ON q_1.domain_id = a_1.domain_id
    inner join lateral (
        SELECT array_agg(distinct csia.agent_id) xxx
          FROM call_center.cc_queue_skill qs
            JOIN call_center.cc_skill_in_agent csia ON csia.skill_id = qs.skill_id
            join call_center.cc_agent aa on aa.id = csia.agent_id
          WHERE qs.enabled
            AND csia.enabled
            AND qs.queue_id = q_1.id
            AND csia.capacity >= qs.min_capacity
            AND csia.capacity <= qs.max_capacity
            and (aa.status = 'online' or (aa.id = :AgentId::int and aa.status = 'offline') )
    ) x on true
WHERE (q_1.team_id IS NULL OR a_1.team_id = q_1.team_id)
  and q_1.enabled
  and x.xxx && array [a_1.id]
  and GREATEST(coalesce((q_1.payload->'min_online_agents')::int, 0), 0) > 0
  and array_length(x.xxx, 1) <= GREATEST((q_1.payload->'min_online_agents')::int, 0)
  and a_1.id = :AgentId::int
  and a_1.domain_id = :DomainId::int8)".

Definition Agent_GetNoAnswerChannels_sql : string := "select c.id, c.app_id, at.id attempt_id
from call_center.cc_member_attempt at
         left join call_center.cc_queue q on q.id = at.queue_id
         left join call_center.cc_calls c
                   on case when q.type = 4 then c.id::text = at.member_call_id else c.id::text = at.agent_call_id end
                       and c.answered_at isnull
                       and c.id notnull
where at.agent_id = :AgentId
  and at.channel = 'call'
  and at.state = 'offering'
  and (:QueueTypes::smallint[] isnull or q.type = any (:QueueTypes::smallint[]))".

Definition Agent_WaitingChannel_sql : string := "select call_center.cc_view_timestamp(joined_at) as timestamp
from call_center.cc_agent_set_channel_waiting(:AgentId, :Channel) as (joined_at timestamptz)".

Definition Agent_SetOnBreak_sql : string := "update call_center.cc_agent
set status = :Status,
	last_status_change = now()
where id = :Id".

Definition Agent_CreateMissed_sql : string := "insert into call_center.cc_agent_missed_attempt (attempt_id, agent_id, cause, missed_at)
values (:AttemptId, :AgentId, :Cause, :MissedAt)".

Definition Agent_GetChannelTimeout_sql : string := "update call_center.cc_agent_channel c
	set state = 'waiting',
		timeout = null,
		joined_at = now()
	from call_center.cc_agent a
	where c.timeout < now() and a.id = c.agent_id
returning a.user_id, channel, call_center.cc_view_timestamp(joined_at) as timestamp, a.domain_id".

Definition Agent_RefreshAgentPauseCauses_sql : string := "refresh materialized view CONCURRENTLY call_center.cc_agent_today_pause_cause".

Definition Agent_RefreshAgentStatistics_sql : string := "refresh materialized view CONCURRENTLY call_center.cc_agent_today_stats".

Definition Agent_OnlineWithOutActive_sql : string := "
	select
		a.id,
	    a.updated_at,
	    not exists(
	        select 1
	        from directory.wbt_user_presence p
	        where p.user_id = a.user_id
	            and p.status = 'sip'
	            and p.open > 0
	    ) sip,
		coalesce(t.screen_control or a.screen_control, false)
	    and not coalesce(sca.has, false) reason_sca,
	    not exists(
	        select 1
	        from directory.wbt_user_presence p
	        where p.user_id = a.user_id
	            and p.status = 'web'
	            and p.updated_at >= now() at time zone 'UTC' - (:Sec || ' sec')::interval
	    ) ws,
	    t.updated_at as team_updated_at,
		(lic.has_license is null) as reason_no_cc_license
	from call_center.cc_agent a
	left join call_center.cc_team t on t.id = a.team_id
	left join lateral (
	    select exists(
	            select 1
	            from call_center.socket_session ss
	            where ss.user_id = a.user_id
	                and ss.application_name = 'desc_track'
	                and now() - ss.updated_at < (:Sec + 10 || ' sec')::interval
	        ) has
	) sca on t.screen_control
	or a.screen_control
	left join lateral (
		select 1 as has_license
		from directory.license l
		join directory.product p on p.pid = l.serial
		where l.user_id = a.user_id
		  and p.name = 'CALL_CENTER'
		  and (now() at time zone 'UTC' between p.not_before and p.not_after)
		limit 1
	) lic on true
	where a.status in ('online', 'break_out')
	    and (
	    	lic.has_license is null or
	        (
	            (
	                t.screen_control
	                or a.screen_control
	            )
	            and not sca.has
	        )
	        or (
	            not exists(
	                SELECT 1
	                FROM directory.wbt_session s
	                WHERE (
	                        (user_id IS NOT NULL)
	                        AND (
	                            NULLIF((props->>'pn-rpid'::text), ''::text) IS NOT NULL
	                        )
	                    )
	                    and s.user_id = a.user_id::int8
	                    and s.access notnull
	                    AND s.expires > now() at time zone 'UTC'
	            )
	            and not exists(
	                select 1
	                from directory.wbt_user_presence p
	                where p.user_id = a.user_id
	                    and p.status in ('sip', 'web')
	                    and (
	                        p.open > 0
	                        or (
	                            p.status = 'web'
	                            and p.updated_at >= now() at time zone 'UTC' - (:Sec || ' sec')::interval
	                        )
	                    )
	            )
	        )
	    )
	for update of a skip locked
	".

Definition Agent_LosePredictAttempt_sql : string := "update call_center.cc_agent_channel
set lose_attempt = lose_attempt + 1
where agent_id = :AgentId and state != 'waiting'".

Definition Agent_AgentTriggerJob_sql : string := "select
    tr.schema_id,
    a.id as agent_id,
    coalesce(u.extension, '') extension,
    coalesce(u.email, '') email,
    coalesce(u.name::varchar, u.username) name,
    coalesce(u.profile, '{}') as variables
from directory.wbt_user u
    inner join call_center.cc_agent a on a.user_id = u.id
    inner join call_center.cc_team_trigger tr on tr.team_id = a.team_id
where tr.id = :Id and u.dc = :DomainId and u.id = :UserId".

(** ** call_store.go *)

Definition Call_Get_sql : string := "select id,
       direction,
       destination,
       parent_id,
       call_center.cc_view_timestamp(timestamp) as timestamp,
       app_id,
       from_number,
       from_name,
       domain_id,
       call_center.cc_view_timestamp(answered_at) as answered_at,
       call_center.cc_view_timestamp(bridged_at) as bridged_at,
       call_center.cc_view_timestamp(created_at) as created_at
from call_center.cc_calls c
where c.hangup_at isnull and c.Id = :Id
for update".

(** ** cluster_store.go *)

Definition Cluster_CreateOrUpdate_sql : string := "
           insert into call_center.cc_cluster (node_name, updated_at, master)
           values (:NodeId, :Time, false)
            on conflict (node_name)
              do update
               set updated_at = :Time,
                started_at = :Time,
                master = coalesce((select true
                 where not exists(select 1
                                  from call_center.cc_cluster c1
                                  where c1.master and to_timestamp((c1.updated_at::bigint/1000)::bigint) <= to_timestamp(:Time::bigint/1000) - '30s'::interval)), false)
            returning *".

Definition Cluster_UpdateClusterInfo_sql : string := "with u as (
    update call_center.cc_cluster c
         set updated_at = case when :NodeId = c.node_name then :Time else c.updated_at end,
             master = case when t.ms isnull then  t.rn = 1 else c.master end,
             started_at = case when :IsStarted then :Time else c.started_at end
    from (
        select c2.id,
               row_number() over (order by c2.updated_at desc) rn,
               c2.updated_at,
               (select 1 where exists(
                    select 1
                    from call_center.cc_cluster c3
                    where c3.master
                      and now() - to_timestamp(c3.updated_at::double precision/1000) < '40 sec'::interval
               )) as ms
        from call_center.cc_cluster c2
    ) t
    where t.id = c.id
    returning c.*
)
select u.id, u.node_name, u.master, u.started_at, updated_at
from u
where u.node_name = :NodeId
".

(** ** gateway_store.go *)

Definition Gateway_Get_sql : string := "
			select g.id, 0 updated_at, g.name, g.dc as domain_id, g.register, (regexp_matches(g.proxy, '^(sip:)?([^;?]+)'))[2] proxy, g.username, g.account, g.password,
				regexp_replace(g.host, '([a-zA-Z+.\-\d]+):?.*', '\1') as host_name
			from directory.sip_gateway g
			where g.id = :Id
		".

(** ** outbound_resource_store.go *)

Definition Resource_GetById_sql : string := quoted ["
select r.id,
       r.name,
       r."; "limit"; ",
       r.enabled,
       GREATEST(r.updated_at, call_center.cc_view_timestamp(g.updated_at at time zone 'utc')) updated_at,
       r.rps,
       r.reserve,
       r.variables,
       r.max_successively_errors,
       r.successively_errors,
       r.gateway_id,
       coalesce(r.error_ids, '{}'::varchar[])       error_ids,
       array(select d.display
             from call_center.cc_outbound_resource_display d
             where d.resource_id = r.id)::varchar[] display_numbers,
       r.parameters
from call_center.cc_outbound_resource r
         left join directory.sip_gateway g on r.gateway_id = g.id
			where r.id = :Id		
		"].

Definition Resource_SetError_sql : string := "
			select count_successively_error, stopped, un_reserve_resource_id from call_center.cc_resource_set_error(:Id, :QueueId, :ErrorId, :Strategy)
  				as (count_successively_error smallint, stopped boolean, un_reserve_resource_id bigint)	
		".

Definition Resource_SetSuccessivelyErrorsById_sql : string := "update call_center.cc_outbound_resource
			set successively_errors = :SuccessivelyErrors
			where id = :Id".

(** ** queue_store.go *)

Definition Queue_GetById_sql : string := "
		select
			q.id,
			q.type,
			q.domain_id,
			q.name as domain_name,
			q.name,
			q.strategy,
			q.payload,
			q.updated_at,
			q.variables,
			q.team_id,
			q.schema_id,
			q.ringtone_id,
			q.do_schema_id,
			q.after_schema_id,
			q.processing,
			q.processing_sec,
			q.processing_renewal_sec,
			q.grantee_id,
			q.form_schema_id,
			q.prolongation_enabled,
			q.prolongation_repeats_number,
			q.prolongation_time_sec,
			q.prolongation_is_timeout_retry,
			q.processing_autosave,
			f.mime_type as ringtone_type,
			(
				select
					jsonb_agg(row_to_json(qe))
				from
					call_center.cc_queue_events qe
				inner join
					flow.acr_routing_scheme s on s.id = qe.schema_id and q.domain_id = s.domain_id
				where
					qe.queue_id = q.id and qe.enabled
			) as hooks,
			coalesce(
				(q.payload->'endless')::bool,
				false
			) as endless,
			case
				when fh.id notnull then jsonb_build_object(
					'id', fh.id,
					'type', fh.mime_type
				)
			end as hold_music,
			case
				when (payload->'amd'->'playback'->>'id') notnull
				then jsonb_build_object(
					'id', amdpf.id,
					'type', amdpf.mime_type
				)
			end as amd_playback_file
		from call_center.cc_queue q
		inner join directory.wbt_domain d on q.domain_id = d.dc
		left join storage.media_files f on f.id = q.ringtone_id
		left join storage.media_files fh on fh.id = (q.payload->'hold'->'id')::int8
		left join storage.media_files amdpf on amdpf.id = (payload->'amd'->'playback'->>'id')::int8
		where q.id = :Id
	".

Definition Queue_UserIds_sql : string := "select distinct a.user_id
from call_center.cc_queue q
    inner join call_center.cc_agent a on a.domain_id = q.domain_id
    inner join call_center.cc_queue_skill qs on qs.queue_id = q.id and qs.enabled
    inner join call_center.cc_skill_in_agent sia on sia.agent_id = a.id and sia.enabled
where q.id = :QueueId
	and a.id != :SkipAgentId
    and (q.team_id isnull or a.team_id = q.team_id)
    and qs.skill_id = sia.skill_id and sia.capacity between qs.min_capacity and qs.max_capacity
    and exists(select 1 from directory.wbt_user_presence p where p.user_id = a.user_id and p.status = 'web' and p.open > 0)".

Definition Queue_RecordAllCalls_sql : string := "select coalesce((select s.value::bool
                 from call_center.system_settings s
                 where s.domain_id = :DomainId
                   and s.name = :Name
                   and jsonb_typeof(s.value) = 'boolean'), false)".

(** ** statistic.go *)

Definition Statistic_RefreshInbound1H_sql : string := "refresh materialized view CONCURRENTLY call_center.cc_inbound_stats".

Definition Statistic_LibVersion_sql : string := "select x from call_center.cc_version() x".

(** ** team.go *)

Definition Team_Get_sql : string := "
			select id,
			   domain_id,
			   name,
			   description,
			   strategy,
			   max_no_answer,
			   wrap_up_time,
			   no_answer_delay_time,
			   call_timeout,
			   invite_chat_timeout,
			   task_accept_timeout,
			   updated_at,
			   (
				select jsonb_agg(row_to_json(qe))
				from call_center.cc_team_events qe
					inner join flow.acr_routing_scheme s on s.id = qe.schema_id and t.domain_id = s.domain_id
				where qe.team_id = t.id and qe.enabled
			   ) hooks
		from call_center.cc_team t
		where id = :Id
		".

(** ** trigger_store.go *)

Definition Trigger_ScheduleNewJobs_sql : string := "call call_center.cc_scheduler_jobs()".

Definition Trigger_FetchIdleJobs_sql : string := "update call_center.cc_trigger_job j
set state = :StateActive,
    node_id = :NodeId,
    started_at = now()
from (
    select j.id, t.domain_id, format('%s [%s]%s', t.name, t.type, coalesce(' in ' || tz.name, '')) as name
    from call_center.cc_trigger_job j
		inner join call_center.cc_trigger t on t.id = j.trigger_id
		left join flow.calendar_timezones tz on tz.id = t.timezone_id
    where j.state = :StateIdle
    for update of j skip locked
    limit :Limit
) tj
where j.id = tj.id
returning j.id,
		tj.domain_id,
		tj.name,
        j.trigger_id,
        j.state,
        j.created_at,
        j.started_at,
        j.parameters".

Definition Trigger_SetError_sql : string := "update call_center.cc_trigger_job
set state = :StateError,
    stopped_at = now(),
    error = :Error,
    result = :Result
where id = :Id".

Definition Trigger_SetResult_sql : string := "update call_center.cc_trigger_job
set state = :State,
    stopped_at = now(),
    result = :Result
where id = :Id".

Definition Trigger_CleanActive_sql : string := "update call_center.cc_trigger_job
set stopped_at = now(),
    error = 'stop server'
where node_id = :NodeId".
