(* ===== verification/Supplier.v ===== *)
(** * The supplier of database connections: store/sqlstore/supplier.go

    Opening the connections, handing replicas out in turn, and the conversion of columns.
    The driver is the class [Driver]: whether a data source opens, and what the nth ping of it
    answers. What pq and encoding/json make of a column stays the text handed to them. *)

From S2P Require Import Prelude Model Sql.

(** ** Opening connections *)

Definition DB_PING_ATTEMPTS : nat := 150.
Definition DB_PING_TIMEOUT_SECS : Z := 10.
Definition EXIT_CREATE_TABLE : Z := 100.
Definition EXIT_DB_OPEN : Z := 101.
Definition EXIT_PING : Z := 102.
Definition EXIT_NO_DRIVER : Z := 103.
Definition DATABASE_DRIVER_POSTGRES : string := "postgres".

Class Driver := {
  dr_open : string -> option string;
  dr_ping : string -> nat -> option string;
}.

(** A part of the start of the process: its value, or the code of os.Exit. *)
Inductive startup (A : Type) := Up (a : A) | Exit (code : Z).
Arguments Up {A}.
Arguments Exit {A}.

#[export] Instance startup_ret : MRet startup := fun A a => Up a.

#[export] Instance startup_bind : MBind startup := fun A B f m =>
  match m with Up a => f a | Exit c => Exit c end.

Record SqlSettings := MkSqlSettings {
  ss_DriverName : string;
  ss_DataSource : string;
  ss_DataSourceReplicas : list string;
}.

(** A gorp.DbMap, by the name of its data source and the seconds slept until it answered. *)
Record DbMap := MkDbMap {
  dm_source : string;
  dm_slept : Z;
}.

Section Open.
Context {DR : Driver}.

(** The loop of the pings: [rounds] of them are left, the next one is the [i]th. The loop without
    rounds ends like one whose ping was answered. *)
Fixpoint ping_loop (source : string) (rounds i : nat) (slept : Z) : startup Z :=
  match rounds with
  | O => Up slept
  | S rounds =>
      match dr_ping source i with
      | None => Up slept
      | Some _ =>
          if decide (i = DB_PING_ATTEMPTS - 1)%nat then Exit EXIT_PING
          else ping_loop source rounds (S i) (slept + DB_PING_TIMEOUT_SECS)
      end
  end.

Definition setupConnection (settings : SqlSettings) (source : string) : startup DbMap :=
  match dr_open source with
  | Some _ => Exit EXIT_DB_OPEN
  | None =>
      slept ← ping_loop source DB_PING_ATTEMPTS 0 0;
      if decide (ss_DriverName settings = DATABASE_DRIVER_POSTGRES) then mret (MkDbMap source slept)
      else Exit EXIT_NO_DRIVER
  end.

Fixpoint setup_all (settings : SqlSettings) (sources : list string) : startup (list DbMap) :=
  match sources with
  | [] => mret []
  | s :: rest => m ← setupConnection settings s; ms ← setup_all settings rest; mret (m :: ms)
  end.

Record SqlSupplier := MkSqlSupplier {
  sp_rrCounter : Z;
  sp_master : DbMap;
  sp_replicas : list DbMap;
  sp_searchReplicas : list DbMap;
  sp_settings : SqlSettings;
  sp_lockedToMaster : bool;
}.

(** NewSqlSupplier with initConnection; [tables] is the error of CreateTablesIfNotExists. *)
Definition initConnection_sql (settings : SqlSettings) : startup SqlSupplier :=
  master ← setupConnection settings (ss_DataSource settings);
  replicas ← setup_all settings (ss_DataSourceReplicas settings);
  search ← setup_all settings (ss_DataSourceReplicas settings);
  mret (MkSqlSupplier 0 master replicas search settings false).

Definition NewSqlSupplier (settings : SqlSettings) (tables : option string) : startup SqlSupplier :=
  s ← initConnection_sql settings;
  match tables with Some _ => Exit EXIT_CREATE_TABLE | None => mret s end.

End Open.

(** ** Handing connections out *)

Definition GetMaster (s : SqlSupplier) : DbMap := sp_master s.

Definition GetAllConns (s : SqlSupplier) : list DbMap := sp_replicas s ++ [sp_master s].

(** The counter is an int64 that every call increments; an index out of range panics. *)
Definition GetReplica (s : SqlSupplier) : outcome (DbMap * SqlSupplier) :=
  if decide (ss_DataSourceReplicas (sp_settings s) = [] \/ sp_lockedToMaster s = true)
  then Ret (GetMaster s, s)
  else
    let n := i64 (sp_rrCounter s + 1) in
    let s' := MkSqlSupplier n (sp_master s) (sp_replicas s) (sp_searchReplicas s) (sp_settings s) (sp_lockedToMaster s) in
    let i := Z.rem n (Z.of_nat (length (sp_replicas s))) in
    if decide (i < 0) then Panic "index out of range"
    else match sp_replicas s !! Z.to_nat i with
         | Some m => Ret (m, s')
         | None => Panic "index out of range"
         end.

(** The connections that [k] calls of GetReplica get. *)
Fixpoint get_replicas (k : nat) (s : SqlSupplier) : outcome (list DbMap * SqlSupplier) :=
  match k with
  | O => Ret ([], s)
  | S k =>
      r ← GetReplica s;
      rs ← get_replicas k r.2;
      Ret (r.1 :: rs.1, rs.2)
  end.

(** ** Scanning columns: typeConverter *)

(** The targets FromDb knows, by their types. *)
Inductive Target :=
| TOutboundResourceParameters | TMemberWaitings      (* the first case *)
| TLookup | TRingtoneFile | TAgentChannel | TAgentChannels
| TRingtoneFilePtr | TTriggerJobParameter | TQueueHooks
| TStringMap | TMapStringString | TStringArray | TStringInterface | TMapStringInterface
| TInt64Array | TInt64ArrayPtr
| TOther.

(** What gorp hands to rows.Scan: a pointer to bytes, a pointer to a string, or a map. *)
Inductive Holder := HoldBytes | HoldString | HoldMap.

Inductive Held := HeldBytes (b : option string) | HeldString (s : string).

(** What a binder does with the target: nothing, json.Unmarshal of a text, or the array that
    pq reads. *)
Inductive Bound := Untouched | Unmarshalled (s : string) | PqArray (s : string).

Record CustomScanner := MkCustomScanner {
  sc_Holder : Holder;
  sc_Binder : Held -> outcome (string + Bound);
}.

Definition json_bytes (err : string) (h : Held) : outcome (string + Bound) :=
  match h with
  | HeldBytes None => Ret (inr Untouched)
  | HeldBytes (Some b) => Ret (inr (Unmarshalled b))
  | HeldString _ => Ret (inl err)
  end.

Definition json_string (err : string) (h : Held) : outcome (string + Bound) :=
  match h with
  | HeldString s => Ret (inr (Unmarshalled s))
  | HeldBytes _ => Ret (inl err)
  end.

Section Scan.

(** pq.StringArray.Scan and pq.Int64Array.Scan: the error of a text that is no array. *)
Context (pq_scan : string -> option string).

Definition string_array (h : Held) : outcome (string + Bound) :=
  match h with
  | HeldString s =>
      match pq_scan s with Some e => Ret (inl e) | None => Ret (inr (PqArray s)) end
  | HeldBytes _ => Ret (inl "store.sql.convert_string_array")
  end.

(** The result is stored through a pointer to an Int64Array, which a pointer to a pointer is not. *)
Definition int64_array (ptr : bool) (h : Held) : outcome (string + Bound) :=
  match h with
  | HeldBytes b =>
      match pq_scan (default "" b) with
      | Some e => Ret (inl e)
      | None => if ptr then Panic "interface conversion" else Ret (inr (PqArray (default "" b)))
      end
  | HeldString _ => Ret (inl "store.sql.convert_int64_array")
  end.

Definition FromDb (t : Target) : option CustomScanner :=
  match t with
  | TOutboundResourceParameters | TMemberWaitings =>
      Some (MkCustomScanner HoldBytes (json_bytes "store.sql.convert_object"))
  | TLookup | TRingtoneFile | TAgentChannel | TAgentChannels =>
      Some (MkCustomScanner HoldString (json_string "store.sql.convert_string_map"))
  | TRingtoneFilePtr | TTriggerJobParameter | TQueueHooks =>
      Some (MkCustomScanner HoldBytes (json_bytes "store.sql.convert_lookup"))
  | TStringMap | TMapStringString =>
      Some (MkCustomScanner HoldString (json_string "store.sql.convert_string_map"))
  | TStringArray => Some (MkCustomScanner HoldString string_array)
  | TStringInterface => Some (MkCustomScanner HoldMap (json_string "store.sql.convert_string_interface"))
  | TMapStringInterface => Some (MkCustomScanner HoldString (json_string "store.sql.convert_string_interface"))
  | TInt64Array => Some (MkCustomScanner HoldBytes (int64_array false))
  | TInt64ArrayPtr => Some (MkCustomScanner HoldBytes (int64_array true))
  | TOther => None
  end.

(** rows.Scan of a column ([None] is NULL) into a holder. *)
Definition scan_holder (h : Holder) (col : option string) : string + Held :=
  match h, col with
  | HoldBytes, _ => inr (HeldBytes col)
  | HoldString, Some s => inr (HeldString s)
  | HoldString, None => inl "converting NULL to string is unsupported"
  | HoldMap, _ => inl "destination not a pointer"
  end.

(** A column for a target of FromDb. *)
Definition scan_column (t : Target) (col : option string) : option (outcome (string + Bound)) :=
  sc ← FromDb t;
  Some (match scan_holder (sc_Holder sc) col with
        | inl e => Ret (inl e)
        | inr h => sc_Binder sc h
        end).

End Scan.

(** ** Theorems *)

Section Facts.
Context {DR : Driver}.

Lemma ping_loop_spec source rounds i slept :
  (rounds + i = DB_PING_ATTEMPTS)%nat ->
  (exists k, (i <= k < DB_PING_ATTEMPTS)%nat /\ dr_ping source k = None /\
     (forall j, (i <= j < k)%nat -> is_Some (dr_ping source j)) /\
     ping_loop source rounds i slept = Up (slept + DB_PING_TIMEOUT_SECS * Z.of_nat (k - i))) \/
  (rounds = 0%nat /\ ping_loop source rounds i slept = Up slept) \/
  ((forall j, (i <= j < DB_PING_ATTEMPTS)%nat -> is_Some (dr_ping source j)) /\
   ping_loop source rounds i slept = Exit EXIT_PING).
Proof.
  revert i slept. induction rounds as [|rounds IH]; intros i slept Hi; cbn [ping_loop]; [by right; left|].
  destruct (dr_ping source i) as [e|] eqn:E.
  - destruct (decide (i = DB_PING_ATTEMPTS - 1)%nat) as [Ei|Ei].
    + right. right. split; [|done]. intros j Hj. assert (j = i) as -> by lia. by rewrite E.
    + destruct (IH (S i) (slept + DB_PING_TIMEOUT_SECS)) as [(k & Hk & Hn & Hb & Er)|[[-> Er]|[Hb Er]]]; [lia| | |].
      * left. exists k. split_and!; [lia|lia|done| |].
        { intros j Hj. destruct (decide (j = i)) as [->|]; [by rewrite E|]. apply Hb. lia. }
        rewrite Er. f_equal. replace (k - i)%nat with (S (k - S i)) by lia. lia.
      * lia.
      * right. right. split; [|done]. intros j Hj. destruct (decide (j = i)) as [->|]; [by rewrite E|]. apply Hb. lia.
  - left. exists i. split_and!; [lia|lia|done|intros; lia|]. f_equal. rewrite Nat.sub_diag. lia.
Qed.

(** A connection that opens is pinged until it answers, 150 times at most and ten seconds
    apart; the process ends with code 102 exactly if none of them was answered. *)
Lemma setupConnection_outcome settings source :
  dr_open source = None -> ss_DriverName settings = DATABASE_DRIVER_POSTGRES ->
  (exists k, (k < DB_PING_ATTEMPTS)%nat /\ dr_ping source k = None /\
     (forall j, (j < k)%nat -> is_Some (dr_ping source j)) /\
     setupConnection settings source = Up (MkDbMap source (DB_PING_TIMEOUT_SECS * Z.of_nat k))) \/
  ((forall j, (j < DB_PING_ATTEMPTS)%nat -> is_Some (dr_ping source j)) /\
   setupConnection settings source = Exit EXIT_PING).
Proof.
  intros Ho Hd. unfold setupConnection. rewrite Ho.
  destruct (ping_loop_spec source DB_PING_ATTEMPTS 0 0) as [(k & Hk & Hn & Hb & ->)|[[H _]|[Hb ->]]]; [done| |done|].
  - left. exists k. split_and!; [lia|done|intros; apply Hb; lia|]. cbn [mbind startup_bind].
    rewrite decide_True by done. rewrite Nat.sub_0_r. done.
  - right. split; [|done]. intros j Hj. apply Hb. lia.
Qed.

End Facts.

(** A supplier as NewSqlSupplier leaves it. *)
Definition supplied (s : SqlSupplier) : Prop :=
  length (sp_replicas s) = length (ss_DataSourceReplicas (sp_settings s)) /\ sp_lockedToMaster s = false.

Lemma GetReplica_turn s :
  supplied s -> (0 < length (sp_replicas s))%nat -> 0 <= sp_rrCounter s < 2 ^ 63 - 1 ->
  exists m, sp_replicas s !! Z.to_nat ((sp_rrCounter s + 1) `mod` Z.of_nat (length (sp_replicas s))) = Some m /\
    GetReplica s = Ret (m, MkSqlSupplier (sp_rrCounter s + 1) (sp_master s) (sp_replicas s)
                             (sp_searchReplicas s) (sp_settings s) (sp_lockedToMaster s)).
Proof.
  intros [Hl Hk] Hn Hr. set (n := Z.of_nat (length (sp_replicas s))). set (i := (sp_rrCounter s + 1) `mod` n).
  assert (0 <= i < n) as Hi by (apply Z.mod_pos_bound; lia).
  destruct (lookup_lt_is_Some_2 (sp_replicas s) (Z.to_nat i)) as [m Hm]; [lia|].
  exists m. split; [done|]. unfold GetReplica. rewrite decide_False.
  2: { intros [E|E]; [|congruence]. rewrite E in Hl. simpl in Hl. lia. }
  rewrite i64_small by lia. fold n. rewrite Z.rem_mod_nonneg by lia. fold i.
  rewrite decide_False by lia. by rewrite Hm.
Qed.

Lemma get_replicas_turns k s :
  supplied s -> (0 < length (sp_replicas s))%nat -> 0 <= sp_rrCounter s -> sp_rrCounter s + Z.of_nat k < 2 ^ 63 ->
  exists ms s', get_replicas k s = Ret (ms, s') /\ sp_rrCounter s' = sp_rrCounter s + Z.of_nat k /\ length ms = k /\
    forall i, (i < k)%nat -> ms !! i =
      sp_replicas s !! Z.to_nat ((sp_rrCounter s + 1 + Z.of_nat i) `mod` Z.of_nat (length (sp_replicas s))).
Proof.
  revert s. induction k as [|k IH]; intros s Hs Hn H0 Hk.
  { exists [], s. split_and!; [done|lia|done|intros; lia]. }
  destruct (GetReplica_turn s Hs Hn) as (m & Hm & Er); [lia|]. cbn [get_replicas].
  unfold mbind at 1, outcome_bind at 1. rewrite Er. cbn [fst snd].
  set (s1 := MkSqlSupplier _ _ _ _ _ _). destruct (IH s1) as (ms & s' & Eg & Hc & Hl & Hi); [done|done|simpl; lia|simpl; lia|].
  exists (m :: ms), s'. unfold mbind, outcome_bind. rewrite Eg. cbn [fst snd].
  split_and!; [done|rewrite Hc; simpl; lia|simpl; lia|].
  intros [|i] Hlt; cbn [lookup list_lookup].
  - rewrite <- Hm. do 3 f_equal. lia.
  - change (ms !! i = sp_replicas s !! Z.to_nat ((sp_rrCounter s + 1 + Z.of_nat (S i)) `mod` Z.of_nat (length (sp_replicas s)))).
    rewrite Hi by lia. simpl. do 3 f_equal. lia.
Qed.

(** The replicas are used in turn: [n] calls of GetReplica in a row, for [n] replicas, get
    every one of them once, starting where the counter is. *)
Lemma replicas_in_turn s :
  supplied s -> (0 < length (sp_replicas s))%nat -> 0 <= sp_rrCounter s ->
  sp_rrCounter s + Z.of_nat (length (sp_replicas s)) < 2 ^ 63 ->
  exists ms s', get_replicas (length (sp_replicas s)) s = Ret (ms, s') /\ ms ≡ₚ sp_replicas s.
Proof.
  intros Hs Hn H0 Hk. destruct (get_replicas_turns _ s Hs Hn H0 Hk) as (ms & s' & Eg & _ & Hl & Hi).
  exists ms, s'. split; [done|]. set (n := length (sp_replicas s)) in *.
  set (a := Z.to_nat ((sp_rrCounter s + 1) `mod` Z.of_nat n)).
  assert (0 <= (sp_rrCounter s + 1) `mod` Z.of_nat n < Z.of_nat n) as Ha by (apply Z.mod_pos_bound; lia).
  assert (a < n)%nat as Han by (unfold a; lia).
  assert (ms = drop a (sp_replicas s) ++ take a (sp_replicas s)) as ->.
  2: { rewrite Permutation_app_comm. by rewrite take_drop. }
  apply list_eq. intros i. destruct (decide (i < n)%nat) as [Hlt|Hge].
  - rewrite Hi by done. rewrite lookup_app.
    assert ((sp_rrCounter s + 1 + Z.of_nat i) `mod` Z.of_nat n = (Z.of_nat a + Z.of_nat i) `mod` Z.of_nat n) as ->.
    { subst a. rewrite Z2Nat.id by lia. by rewrite Z.add_mod_idemp_l by lia. }
    destruct (decide (a + i < n)%nat) as [Hi1|Hi1].
    + rewrite lookup_drop. rewrite Z.mod_small by lia.
      replace (Z.to_nat (Z.of_nat a + Z.of_nat i)) with (a + i)%nat by lia.
      destruct (lookup_lt_is_Some_2 (sp_replicas s) (a + i)) as [m Hm]; [done|]. by rewrite Hm.
    + rewrite lookup_drop, (lookup_ge_None_2 (sp_replicas s) (a + i)) by (fold n; lia). rewrite length_drop. fold n.
      rewrite lookup_take_lt by lia. f_equal.
      rewrite <- (Z.mod_unique_pos (Z.of_nat a + Z.of_nat i) (Z.of_nat n) 1 (Z.of_nat a + Z.of_nat i - Z.of_nat n)); lia.
  - rewrite (lookup_ge_None_2 ms) by lia. symmetry. apply lookup_ge_None_2.
    rewrite length_app, length_drop, length_take. fold n. lia.
Qed.

(** NULL columns: a target held as bytes keeps its value, one held as a string is an error,
    and so is the array of integers as pq does not read an empty text as an array. *)
Lemma null_columns pq_scan t r :
  pq_scan "" = Some "pq: unable to parse array" -> scan_column pq_scan t None = Some r ->
  r = Ret (inr Untouched) <->
  t ∈ [TOutboundResourceParameters; TMemberWaitings; TRingtoneFilePtr; TTriggerJobParameter; TQueueHooks].
Proof.
  intros Hp Hr. split.
  - destruct t; cbn in Hr; rewrite ?Hp in Hr; try discriminate Hr; injection Hr as <-; intros E; try discriminate E;
      repeat first [left; done | right].
  - intros Ht. repeat (apply elem_of_cons in Ht as [->|Ht]; [by injection Hr as <-|]). by apply elem_of_nil in Ht.
Qed.

(** A StringInterface is never scanned: its holder is a map, which is no pointer; and an array
    of integers behind two pointers ends in a panic as soon as the column is an array. *)
Lemma broken_targets pq_scan col :
  (exists e, scan_column pq_scan TStringInterface col = Some (Ret (inl e))) /\
  (pq_scan (default "" col) = None ->
   scan_column pq_scan TInt64ArrayPtr col = Some (Panic "interface conversion")).
Proof.
  split; [by exists "destination not a pointer"|]. intros Hp. unfold scan_column. simpl. by rewrite Hp.
Qed.
