(* ===== verification/Workers.v ===== *)
(** * Watchers and pools: utils/watcher.go and utils/pool.go

    Both run goroutines next to their callers, so each is a state machine whose steps are
    the points where a goroutine or a caller goes on; a history is a list of steps, in any
    order the guards allow. *)

From S2P Require Import Prelude.

(** ** The watcher *)

Module Watcher.

(** Where the goroutine of Start is. *)
Inductive Loop :=
| LNew      (* not started *)
| LSelect   (* in the select *)
| LPolling  (* in PollAndNotify *)
| LDone.    (* returned, [stopped] is closed *)

(** closeOnce: the function of Stop has not been called, waits for [stopped], or is done. *)
Inductive Once := OFresh | ORunning | OOver.

#[export] Instance Loop_eq_dec : EqDecision Loop.
Proof. solve_decision. Defined.

#[export] Instance Once_eq_dec : EqDecision Once.
Proof. solve_decision. Defined.

Record Watcher := MkWatcher {
  wt_stop : bool;      (* closed *)
  wt_stopped : bool;   (* closed *)
  wt_loop : Loop;
  wt_close : Once;
  wt_polls : nat;      (* the calls of PollAndNotify so far *)
  wt_stops : nat;      (* the calls of Stop that returned *)
}.

#[export] Instance eta_Watcher : Eta Watcher := fun w =>
  MkWatcher (wt_stop w) (wt_stopped w) (wt_loop w) (wt_close w) (wt_polls w) (wt_stops w).

Definition MakeWatcher : Watcher := MkWatcher false false LNew OFresh 0 0.

Inductive Step :=
| Start           (* the first Start; a later one only waits *)
| Tick            (* the timer of the select *)
| PollReturns
| SeeStop         (* the select receives from [stop] *)
| CallStop        (* the first Stop closes [stop] *)
| StopSeesEnd     (* it receives from [stopped] *)
| StopReturns.    (* a call of Stop, which returns once the function is done *)

(** [close] of a channel that is closed already panics. *)
Definition close_chan (closed : bool) : outcome bool :=
  if closed then Panic "close of closed channel" else Ret true.

(** A step that waits in a state is not possible there. A select with several ready cases
    takes any of them, so the timer may still win after [stop] was closed. *)
Definition watcher_step (w : Watcher) (st : Step) : outcome Watcher :=
  match st with
  | Start => if decide (wt_loop w = LNew) then Ret (w <| wt_loop := LSelect |>) else Block "startOnce"
  | Tick =>
      if decide (wt_loop w = LSelect)
      then Ret (w <| wt_loop := LPolling |> <| wt_polls := (S (wt_polls w)) |>) else Block "select"
  | PollReturns => if decide (wt_loop w = LPolling) then Ret (w <| wt_loop := LSelect |>) else Block "polling"
  | SeeStop =>
      if decide (wt_loop w = LSelect /\ wt_stop w = true)
      then b ← close_chan (wt_stopped w); Ret (w <| wt_loop := LDone |> <| wt_stopped := b |>)
      else Block "stop"
  | CallStop =>
      if decide (wt_close w = OFresh)
      then b ← close_chan (wt_stop w); Ret (w <| wt_stop := b |> <| wt_close := ORunning |>)
      else Block "closeOnce"
  | StopSeesEnd =>
      if decide (wt_close w = ORunning /\ wt_stopped w = true)
      then Ret (w <| wt_close := OOver |>) else Block "stopped"
  | StopReturns =>
      if decide (wt_close w = OOver) then Ret (w <| wt_stops := (S (wt_stops w)) |>) else Block "closeOnce"
  end.

Fixpoint watcher_run (w : Watcher) (sts : list Step) : outcome Watcher :=
  match sts with
  | [] => Ret w
  | st :: sts => w ← watcher_step w st; watcher_run w sts
  end.

(** The flags tell where the goroutines are. *)
Record ok (w : Watcher) : Prop := {
  ok_stop : wt_stop w = true <-> wt_close w <> OFresh;
  ok_stopped : wt_stopped w = true <-> wt_loop w = LDone;
  ok_over : wt_close w = OOver -> wt_loop w = LDone;
  ok_returned : (0 < wt_stops w)%nat -> wt_close w = OOver;
}.

Lemma ok_new : ok MakeWatcher.
Proof. constructor; simpl; try done; lia. Qed.

Lemma watcher_step_ok w st w' : ok w -> watcher_step w st = Ret w' -> ok w'.
Proof.
  intros [H1 H2 H3 H4] Hs.
  destruct st; simpl in Hs; case_decide as E; try discriminate Hs;
    try (unfold close_chan in Hs; destruct (wt_stop w) eqn:Es, (wt_stopped w) eqn:Ed; try discriminate Hs; simpl in Hs);
    injection Hs as <-; constructor; simpl in *; try done; intuition (congruence || lia).
Qed.

(** [close] is only reached on open channels. *)
Lemma watcher_step_safe w st why : ok w -> watcher_step w st <> Panic why.
Proof.
  intros [H1 H2 _ _]. destruct st; simpl; case_decide as E; try done; unfold close_chan.
  - destruct (wt_stopped w); [|done]. destruct E as [E _]. assert (wt_loop w = LDone) by tauto. congruence.
  - destruct (wt_stop w); [|done]. tauto.
Qed.

Lemma watcher_run_ok w sts w' : ok w -> watcher_run w sts = Ret w' -> ok w'.
Proof.
  revert w. induction sts as [|st sts IH]; intros w Hw; simpl; [by intros [= <-]|].
  destruct (watcher_step w st) as [w1| |] eqn:E; [|done..]. apply IH. by eapply watcher_step_ok.
Qed.

Lemma watcher_run_safe w sts why : ok w -> watcher_run w sts <> Panic why.
Proof.
  revert w. induction sts as [|st sts IH]; intros w Hw; simpl; [done|].
  pose proof (watcher_step_safe w st why Hw) as Hs.
  destruct (watcher_step w st) as [w1| |] eqn:E; simpl; [|congruence|done]. apply IH. by eapply watcher_step_ok.
Qed.

(** The loop does not come back. *)
Lemma done_stays w st w' : wt_loop w = LDone -> watcher_step w st = Ret w' ->
  wt_loop w' = LDone /\ wt_polls w' = wt_polls w.
Proof.
  intros Hd. destruct st; simpl; case_decide; unfold close_chan;
    try destruct (wt_stop w); try destruct (wt_stopped w); intros; simplify_eq/=; naive_solver congruence.
Qed.

Lemma done_runs w sts w' : wt_loop w = LDone -> watcher_run w sts = Ret w' -> wt_polls w' = wt_polls w.
Proof.
  revert w. induction sts as [|st sts IH]; intros w Hd; simpl; [by intros [= <-]|].
  destruct (watcher_step w st) as [w1| |] eqn:E; [|done..]. intros Hr. simpl in Hr.
  destruct (done_stays w st w1 Hd E) as [Hd1 <-]. by apply IH.
Qed.

(** What is left to do for a Stop that was called; the loop may still have to be started. *)
Definition finish (w : Watcher) : list Step :=
  match wt_loop w with
  | LNew => [Start; SeeStop; StopSeesEnd; StopReturns]
  | LPolling => [PollReturns; SeeStop; StopSeesEnd; StopReturns]
  | LSelect => [SeeStop; StopSeesEnd; StopReturns]
  | LDone => match wt_close w with OOver => [StopReturns] | _ => [StopSeesEnd; StopReturns] end
  end.

End Watcher.

(** ** The pool *)

Module Pool.
Section Pool.
Context {J : Type}.

Record Pool := MkPool {
  pl_jobs : list J;       (* the channel of jobs *)
  pl_cap : nat;
  pl_closed : bool;
  pl_size : nat;
  pl_idle : nat;          (* workers in their select *)
  pl_running : list J;    (* the jobs being executed, one by worker *)
  pl_kills : nat;         (* sends on [kill] that wait for a worker *)
  pl_wg : Z;
  pl_taken : list J;      (* the jobs workers took, in order *)
  pl_done : list J;
}.

#[export] Instance eta_Pool : Eta Pool := fun p =>
  MkPool (pl_jobs p) (pl_cap p) (pl_closed p) (pl_size p) (pl_idle p) (pl_running p) (pl_kills p)
    (pl_wg p) (pl_taken p) (pl_done p).

(** The loops of Resize: workers are started, or a kill is offered for each one too many
    (the sends of one call follow each other; [pl_kills] counts those left). *)
Definition Resize (n : nat) (p : Pool) : Pool :=
  if decide (pl_size p < n)%nat then
    let k := (n - pl_size p)%nat in
    p <| pl_size := n |> <| pl_wg := (pl_wg p + Z.of_nat k) |> <| pl_idle := (pl_idle p + k)%nat |>
  else p <| pl_kills := (pl_kills p + (pl_size p - n))%nat |> <| pl_size := n |>.

Definition NewPool (workers queueCount : nat) : Pool :=
  Resize workers (MkPool [] queueCount false 0 0 [] 0 0 [] []).

(** A send on a closed channel panics. It leaves the job in the buffer if there is room, and
    hands it to a worker that waits if there is no buffer; else it waits. *)
Definition Exec (j : J) (p : Pool) : outcome Pool :=
  if pl_closed p then Panic "send on closed channel"
  else if decide (length (pl_jobs p) < pl_cap p)%nat then Ret (p <| pl_jobs := (pl_jobs p ++ [j]) |>)
  else match pl_idle p, pl_jobs p with
       | S k, [] => Ret (p <| pl_idle := k |> <| pl_running := (pl_running p ++ [j]) |>
                           <| pl_taken := (pl_taken p ++ [j]) |>)
       | _, _ => Block "jobs"
       end.

Definition Close (p : Pool) : outcome Pool :=
  if pl_closed p then Panic "close of closed channel" else Ret (p <| pl_closed := true |>).

(** A worker in its select takes the next job. *)
Definition worker_take (p : Pool) : option Pool :=
  match pl_idle p, pl_jobs p with
  | S k, j :: js =>
      Some (p <| pl_idle := k |> <| pl_jobs := js |> <| pl_running := (pl_running p ++ [j]) |>
              <| pl_taken := (pl_taken p ++ [j]) |>)
  | _, _ => None
  end.

(** Execute of the [i]th running job returns. *)
Definition worker_done (i : nat) (p : Pool) : option Pool :=
  match pl_running p !! i with
  | Some j =>
      Some (p <| pl_running := (delete i (pl_running p)) |> <| pl_idle := (S (pl_idle p)) |>
              <| pl_done := (pl_done p ++ [j]) |>)
  | None => None
  end.

(** A worker finds the channel closed and empty, or takes a kill. *)
Definition worker_ends (p : Pool) : option Pool :=
  match pl_idle p, pl_jobs p, pl_closed p with
  | S k, [], true => Some (p <| pl_idle := k |> <| pl_wg := (pl_wg p - 1) |>)
  | _, _, _ => None
  end.

Definition worker_killed (p : Pool) : option Pool :=
  match pl_idle p, pl_kills p with
  | S k, S m => Some (p <| pl_idle := k |> <| pl_kills := m |> <| pl_wg := (pl_wg p - 1) |>)
  | _, _ => None
  end.

Inductive Step :=
| DoExec (j : J)
| DoClose
| DoResize (n : nat)
| Take
| Done (i : nat)
| Ends
| Killed.

(** A step that waits is not possible in that state. *)
Definition pool_step (p : Pool) (st : Step) : option Pool :=
  match st with
  | DoExec j => match Exec j p with Ret p' => Some p' | _ => None end
  | DoClose => match Close p with Ret p' => Some p' | _ => None end
  | DoResize n => Some (Resize n p)
  | Take => worker_take p
  | Done i => worker_done i p
  | Ends => worker_ends p
  | Killed => worker_killed p
  end.

Fixpoint pool_run (p : Pool) (sts : list Step) : option Pool :=
  match sts with
  | [] => Some p
  | st :: sts => p ← pool_step p st; pool_run p sts
  end.

Definition executed (sts : list Step) : list J :=
  omap (fun st => match st with DoExec j => Some j | _ => None end) sts.

(** [js] are the jobs that Exec took over. *)
Record ok (p : Pool) (js : list J) : Prop := {
  ok_queue : js = pl_taken p ++ pl_jobs p;
  ok_taken : pl_done p ++ pl_running p ≡ₚ pl_taken p;
  ok_cap : (length (pl_jobs p) <= pl_cap p)%nat;
  ok_wg : pl_wg p = Z.of_nat (pl_idle p + length (pl_running p));
}.

Lemma Resize_ok n p js : ok p js -> ok (Resize n p) js.
Proof. intros [H1 H2 H3 H4]. unfold Resize. case_decide; constructor; simpl; try done. lia. Qed.

Lemma NewPool_ok workers cap : ok (NewPool workers cap) [].
Proof. apply Resize_ok. constructor; simpl; try done; lia. Qed.

Lemma pool_step_ok p js st p' : ok p js -> pool_step p st = Some p' ->
  ok p' (js ++ executed [st]).
Proof.
  intros [H1 H2 H3 H4]. destruct st as [j| |n| |i| |]; simpl; rewrite ?app_nil_r.
  - unfold Exec. destruct (pl_closed p); [done|]. case_decide.
    + intros [= <-]. constructor; simpl; [by rewrite H1, app_assoc|done|rewrite length_app; simpl; lia|done].
    + destruct (pl_idle p) as [|k] eqn:Ei; [done|]. destruct (pl_jobs p) as [|] eqn:Ej; [|done]. intros [= <-].
      constructor; simpl; [by rewrite H1, Ej, !app_nil_r|by rewrite app_assoc, H2|rewrite Ej; simpl; lia|].
      rewrite length_app. simpl. rewrite H4. lia.
  - unfold Close. destruct (pl_closed p); [done|]. intros [= <-]. by constructor.
  - intros [= <-]. by apply Resize_ok.
  - unfold worker_take. destruct (pl_idle p) as [|k] eqn:Ei; [done|].
    destruct (pl_jobs p) as [|j rest] eqn:Ej; [done|]. intros [= <-]. simpl in H3.
    constructor; simpl; [by rewrite H1, <- app_assoc|by rewrite app_assoc, H2|lia|].
    rewrite length_app. simpl. rewrite H4. lia.
  - unfold worker_done. destruct (pl_running p !! i) as [j|] eqn:Ej; [|done]. intros [= <-].
    constructor; simpl; [done| |done|].
    + rewrite <- app_assoc. simpl. by rewrite <- (delete_Permutation _ _ _ Ej).
    + pose proof (delete_Permutation _ _ _ Ej) as Hp%Permutation_length. simpl in Hp. rewrite H4. lia.
  - unfold worker_ends. destruct (pl_idle p) as [|k] eqn:Ei; [done|].
    destruct (pl_jobs p) eqn:Ej; [|done]. destruct (pl_closed p); [|done]. intros [= <-].
    constructor; simpl; rewrite ?Ej; [done|done|simpl; lia|]. rewrite H4. lia.
  - unfold worker_killed. destruct (pl_idle p) as [|k] eqn:Ei; [done|].
    destruct (pl_kills p); [done|]. intros [= <-]. constructor; simpl; try done. rewrite H4. lia.
Qed.

Lemma pool_run_ok p js sts p' : ok p js -> pool_run p sts = Some p' -> ok p' (js ++ executed sts).
Proof.
  revert p js. induction sts as [|st sts IH]; intros p js Hp; simpl.
  { intros [= <-]. by rewrite app_nil_r. }
  destruct (pool_step p st) as [p1|] eqn:E; [|done]. simpl. intros Hr.
  pose proof (pool_step_ok _ _ _ _ Hp E) as H1. specialize (IH p1 _ H1 Hr).
  rewrite <- app_assoc in IH. unfold executed in *. by rewrite <- omap_app in IH.
Qed.

End Pool.
End Pool.
