(* ===== verification/Jobs.v ===== *)
(** * Periodic jobs: triggers, expired members, statistics, reservation, cluster

    trigger/manager.go, queue/expired.go, queue/statistics.go, queue/manual.go, engine and
    cluster: what the watchers of the process call. A call to the store, to the flow service
    or to the broker is recorded in a trace and answered by the class [JobServer]; a pause
    after an error is the command [Pause]. The trigger manager and the queue manager have
    goroutines next to their watcher: they are state machines. *)

From S2P Require Import Prelude Model Workers.

(** ** Calls to the outside *)

Record ExpiredMember := MkExpiredMember {
  em_Variables : gomap;
  em_SchemaId : Z;
  em_DomainId : Z;
  em_MemberId : Z;
}.

Record TriggerJobParameter := MkTriggerJobParameter {
  tp_SchemaId : Z;
  tp_Variables : gomap; (* a value is kept as the text %v prints of it *)
  tp_Timeout : Z;
}.

Record TriggerJob := MkTriggerJob {
  tj_Id : Z;
  tj_DomainId : Z;
  tj_TriggerId : Z;
  tj_Parameters : TriggerJobParameter;
  tj_Result : gomap;
}.

#[export] Instance eta_TriggerJob : Eta TriggerJob := fun j =>
  MkTriggerJob (tj_Id j) (tj_DomainId j) (tj_TriggerId j) (tj_Parameters j) (tj_Result j).

(** The members that wait, as their users see them; the calls and chats by their attempts. *)
Record MemberWaitingByUsers := MkMemberWaitingByUsers {
  mw_DomainId : Z;
  mw_Users : list Z;
  mw_Calls : list Z;
  mw_Chats : list Z;
}.

Inductive JobCmd :=
| SetExpired (limit : Z)
| StartFlow (schemaId domainId : Z) (vars : gomap)
| CleanActive (node : string)
| ScheduleNewJobs
| FetchIdleJobs (node : string) (limit : Z)
| StartSyncFlow (schemaId domainId timeout : Z) (vars : strmap)
| SetError (job : TriggerJob) (err : string)
| SetResult (job : TriggerJob)
| RefreshAgentPauseCauses
| RefreshAgentStatistics
| RefreshQueueStatsLast2H
| RefreshInbound1H
| WaitingList
| NotifyWaitingList (e : MemberWaitingByUsers)
| AppIsReady
| ReserveMembersByNode (node : string) (omnichannel : bool)
| UnReserveMembersByNode (node cause : string)
| CreateOrUpdate (node : string)
| UpdateClusterInfo (node : string) (started : bool)
| Pause (seconds : Z).

(** The answer to the last command of a trace. *)
Class JobServer := {
  js_err : list JobCmd -> option AppError;
  js_hooks : list JobCmd -> AppError + list ExpiredMember;
  js_jobs : list JobCmd -> AppError + list TriggerJob;
  js_flow : list JobCmd -> string * option string;
  js_waiting : list JobCmd -> AppError + list MemberWaitingByUsers;
  js_ready : list JobCmd -> bool;
  js_info : list JobCmd -> AppError + bool;
}.

Definition JM (A : Type) : Type := list JobCmd -> A * list JobCmd.

#[export] Instance JM_ret : MRet JM := fun A a t => (a, t).

#[export] Instance JM_bind : MBind JM := fun A B f m t => let '(a, t) := m t in f a t.

Definition send {A} (answer : list JobCmd -> A) (c : JobCmd) : JM A := fun t => (answer (t ++ [c]), t ++ [c]).

Definition send_ (c : JobCmd) : JM unit := send (fun _ => tt) c.

Fixpoint jm_each {A} (l : list A) (f : A -> JM unit) : JM unit :=
  match l with
  | [] => mret tt
  | x :: l => _ ← f x; jm_each l f
  end.

(** A call whose error is logged and followed by a pause. *)
Definition send_or_pause `{JobServer} (c : JobCmd) (seconds : Z) : JM unit :=
  err ← send js_err c;
  match err with Some _ => send_ (Pause seconds) | None => mret tt end.

(** ** Expired members: queue/expired.go *)

Module Expired.
Section Expired.
Context {JS : JobServer}.

Definition ExpiredLimit : Z := 500.
Definition ExpiredWorkers : nat := 4.
Definition ExpiredQueue : nat := 10.

(** One round of job: what it hands to the pool, and whether it goes on. *)
Definition round : JM (list ExpiredMember * bool) :=
  r ← send js_hooks (SetExpired ExpiredLimit);
  match r with
  | inl _ => mret ([], false)
  | inr hooks => mret (hooks, bool_decide (Z.of_nat (length hooks) >= ExpiredLimit))
  end.

(** The members handed to the pool, in order; [None] if the fuel does not last: the job calls
    itself for as long as the store returns full batches. *)
Fixpoint job (fuel : nat) : JM (option (list ExpiredMember)) :=
  match fuel with
  | O => mret None
  | S fuel =>
      r ← round;
      if r.2 : bool then
        rest ← job fuel;
        mret (app r.1 <$> rest)
      else mret (Some r.1)
  end.

(** Execute of a job of the pool; the answer is only logged. *)
Definition Execute (v : ExpiredMember) : JM unit :=
  _ ← send js_flow (StartFlow (em_SchemaId v) (em_DomainId v) (em_Variables v));
  mret tt.

Definition NewExpiredManager : Pool.Pool (J := ExpiredMember) := Pool.NewPool ExpiredWorkers ExpiredQueue.

End Expired.
End Expired.

(** ** Statistics and the waiting list: queue/statistics.go, queue/manual.go *)

Section Statistics.
Context {JS : JobServer}.

Definition refresh : JM unit :=
  _ ← send js_err RefreshAgentPauseCauses;
  _ ← send js_err RefreshAgentStatistics;
  _ ← send js_err RefreshQueueStatsLast2H;
  _ ← send js_err RefreshInbound1H;
  mret tt.

Definition listWaiting : JM unit :=
  r ← send js_waiting WaitingList;
  match r with
  | inl _ => mret tt
  | inr l => jm_each l (fun v => _ ← send js_err (NotifyWaitingList v); mret tt)
  end.

End Statistics.

(** ** Reservation of members: the package engine *)

Section Engine.
Context {JS : JobServer} (nodeId : string) (enableOmnichannel : bool).

Definition ReserveMembers : JM unit :=
  ready ← send js_ready AppIsReady;
  if negb ready then send_ (Pause 5)
  else send_or_pause (ReserveMembersByNode nodeId enableOmnichannel) 5.

Definition UnReserveMembers : JM unit :=
  _ ← send js_err (UnReserveMembersByNode nodeId "SYSTEM_SHUTDOWN"); mret tt.

(** Start up to the watcher, and Stop after it: every reservation of an earlier run of the
    node is taken back before the first round, and those of this run after the last. *)
Definition engine_life (rounds : nat) : JM unit :=
  _ ← UnReserveMembers;
  _ ← jm_each (seq 0 rounds) (fun _ => ReserveMembers);
  UnReserveMembers.

End Engine.

(** ** The cluster: cluster/cluster.go, cluster/heartbeat.go *)

Section Cluster.
Context {JS : JobServer} (nodeId : string).

(** The field info: [None] is nil, [Some b] says whether the node is the master. *)
Abbreviation info := (option bool).

Definition Setup (i : info) : JM (option AppError * info) :=
  r ← send js_info (CreateOrUpdate nodeId);
  match r with
  | inl e => mret (Some e, i)
  | inr m =>
      r ← send js_info (UpdateClusterInfo nodeId true);
      match r with
      | inl e => mret (Some e, Some m)
      | inr m => mret (None, Some m)
      end
  end.

Definition Heartbeat (i : info) : JM info :=
  r ← send js_info (UpdateClusterInfo nodeId false);
  match r with
  | inl _ => mret i
  | inr m => mret (Some m)
  end.

Definition Master (i : info) : bool := default false i.

End Cluster.

(** ** Triggers: trigger/manager.go *)

Module Trigger.
Section Trigger.
Context {JS : JobServer}.

Definition QueueSize : nat := 1000.
Definition LimitJobs : Z := 100.

Definition mapInterfaceToStringInterface (src : gomap) : strmap := entries src.

(** runJob works on a copy of the job. *)
Definition runJob (j : TriggerJob) : JM unit :=
  let p := tj_Parameters j in
  r ← send js_flow (StartSyncFlow (tp_SchemaId p) (tj_DomainId j) (tp_Timeout p)
                      (mapInterfaceToStringInterface (tp_Variables p)));
  let '(res, err) := r in
  let j := j <| tj_Result := (Some {["job_id" := res]}) |> in
  match err with
  | Some e => _ ← send js_err (SetError j e); mret tt
  | None => _ ← send js_err (SetResult j); mret tt
  end.

Definition clean (node : string) : JM unit := send_or_pause (CleanActive node) 5.

(** schedule up to its sends: the jobs it is going to send. A failed fetch leaves none. *)
Definition fetch (node : string) : JM (list TriggerJob) :=
  _ ← send_or_pause ScheduleNewJobs 5;
  r ← send js_jobs (FetchIdleJobs node LimitJobs);
  match r with
  | inl _ => _ ← send_ (Pause 5); mret []
  | inr jobs => mret jobs
  end.

Record Manager := MkManager {
  tg_nodeId : string;
  tg_sending : list TriggerJob;   (* what schedule has still to send *)
  tg_jobs : list TriggerJob;      (* the channel *)
  tg_started : list TriggerJob;   (* goroutines of runJob that have not run *)
  tg_cancelled : bool;
  tg_stopped : bool;
  tg_trace : list JobCmd;
  tg_fetched : list TriggerJob;   (* the jobs of all rounds *)
  tg_taken : list TriggerJob;     (* the jobs listen received *)
  tg_ran : list TriggerJob;
}.

#[export] Instance eta_Manager : Eta Manager := fun m =>
  MkManager (tg_nodeId m) (tg_sending m) (tg_jobs m) (tg_started m) (tg_cancelled m) (tg_stopped m)
    (tg_trace m) (tg_fetched m) (tg_taken m) (tg_ran m).

(** NewManager and the part of Start before the goroutines. *)
Definition NewManager (node : string) : Manager :=
  MkManager node [] [] [] false false (clean node []).2 [] [] [].

Inductive Step :=
| Schedule      (* the watcher calls schedule; its rounds do not overlap *)
| Send          (* schedule sends the next job *)
| Listen        (* listen receives a job and starts its goroutine *)
| Run (i : nat) (* a goroutine of runJob runs *)
| Cancel        (* Stop cancels the context *)
| ListenStops.

Definition trigger_step (m : Manager) (st : Step) : option Manager :=
  match st with
  | Schedule =>
      match tg_sending m with
      | [] =>
          let '(jobs, t) := fetch (tg_nodeId m) (tg_trace m) in
          Some (m <| tg_sending := jobs |> <| tg_trace := t |> <| tg_fetched := (tg_fetched m ++ jobs) |>)
      | _ => None
      end
  | Send =>
      match tg_sending m with
      | j :: rest =>
          if decide (length (tg_jobs m) < QueueSize)%nat
          then Some (m <| tg_sending := rest |> <| tg_jobs := (tg_jobs m ++ [j]) |>) else None
      | [] => None
      end
  | Listen =>
      match tg_jobs m with
      | j :: rest =>
          if tg_stopped m then None
          else Some (m <| tg_jobs := rest |> <| tg_started := (tg_started m ++ [j]) |>
                       <| tg_taken := (tg_taken m ++ [j]) |>)
      | [] => None
      end
  | Run i =>
      match tg_started m !! i with
      | Some j =>
          Some (m <| tg_started := (delete i (tg_started m)) |> <| tg_trace := ((runJob j (tg_trace m)).2) |>
                  <| tg_ran := (tg_ran m ++ [j]) |>)
      | None => None
      end
  | Cancel => Some (m <| tg_cancelled := true |>)
  | ListenStops =>
      if decide (tg_cancelled m = true /\ tg_stopped m = false) then Some (m <| tg_stopped := true |>) else None
  end.

Fixpoint trigger_run (m : Manager) (sts : list Step) : option Manager :=
  match sts with
  | [] => Some m
  | st :: sts => m ← trigger_step m st; trigger_run m sts
  end.

End Trigger.
End Trigger.

(** ** Stopping the dialing: queue/dialing.go and Start and Stop of queue/queue_manager.go

    The watcher calls routeData, which sends attempts on the unbuffered channel [input]; the
    loop of the queue manager receives them and closes the channel when it stops. Stop of the
    dialing stops the manager first and the watcher after it. *)

Module Dialing.

(** The goroutine of the manager's Start: in its select, distributing, or returned. *)
Inductive MLoop := MSelect | MBusy | MOver.

(** Where the caller of Stop is: before it, in the wait for the attempts, at [<-stopped] of
    the manager, in the Stop of the watcher, behind it. *)
Inductive Phase := PRunning | PWaiting | PManager | PWatcher | POver.

#[export] Instance MLoop_eq_dec : EqDecision MLoop.
Proof. solve_decision. Defined.

#[export] Instance Phase_eq_dec : EqDecision Phase.
Proof. solve_decision. Defined.

Record Dialing := MkDialing {
  di_watcher : Watcher.Watcher;
  di_sending : nat;       (* the attempts routeData has still to send *)
  di_loop : MLoop;
  di_stop : bool;         (* qm.stop is closed *)
  di_input : bool;        (* qm.input is closed *)
  di_phase : Phase;
}.

#[export] Instance eta_Dialing : Eta Dialing := fun d =>
  MkDialing (di_watcher d) (di_sending d) (di_loop d) (di_stop d) (di_input d) (di_phase d).

(** Start: the two goroutines run. *)
Definition started : Dialing :=
  MkDialing (Watcher.MkWatcher false false Watcher.LSelect Watcher.OFresh 0 0) 0 MSelect false false PRunning.

Inductive Step :=
| Tick (n : nat)    (* the watcher calls routeData, which has [n] attempts to send *)
| Send              (* it sends the next one *)
| PollReturns       (* routeData returns *)
| Distributed       (* the manager is back in its select *)
| LoopStops         (* it receives from stop and closes input *)
| CallStop          (* Stop is called and waits for the attempts in flight *)
| Waited            (* they ended, or the time is over; stop is closed *)
| ManagerStopped    (* the manager has returned; the watcher is told to stop *)
| WatcherStops      (* it receives the signal *)
| Stopped.

Definition on_watcher (d : Dialing) (st : Watcher.Step) : outcome Dialing :=
  w ← Watcher.watcher_step (di_watcher d) st; Ret (d <| di_watcher := w |>).

(** A step that is not possible in a state is [Block]. *)
Definition dialing_step (d : Dialing) (st : Step) : outcome Dialing :=
  match st with
  | Tick n => d ← on_watcher d Watcher.Tick; Ret (d <| di_sending := n |>)
  | Send =>
      match di_sending d with
      | O => Block "nothing to send"
      | S k =>
          if di_input d then Panic "send on closed channel"
          else if decide (di_loop d = MSelect)
          then Ret (d <| di_sending := k |> <| di_loop := MBusy |>) else Block "input"
      end
  | PollReturns =>
      if decide (di_sending d = 0%nat) then on_watcher d Watcher.PollReturns else Block "polling"
  | Distributed =>
      if decide (di_loop d = MBusy) then Ret (d <| di_loop := MSelect |>) else Block "loop"
  | LoopStops =>
      if decide (di_loop d = MSelect /\ di_stop d = true)
      then Ret (d <| di_loop := MOver |> <| di_input := true |>) else Block "loop"
  | CallStop =>
      if decide (di_phase d = PRunning) then Ret (d <| di_phase := PWaiting |>) else Block "stop"
  | Waited =>
      if decide (di_phase d = PWaiting)
      then Ret (d <| di_stop := true |> <| di_phase := PManager |>) else Block "stop"
  | ManagerStopped =>
      if decide (di_phase d = PManager /\ di_loop d = MOver)
      then d ← on_watcher d Watcher.CallStop; Ret (d <| di_phase := PWatcher |>) else Block "stopped"
  | WatcherStops => on_watcher d Watcher.SeeStop
  | Stopped =>
      if decide (di_phase d = PWatcher)
      then d ← on_watcher d Watcher.StopSeesEnd; Ret (d <| di_phase := POver |>) else Block "stop"
  end.

Fixpoint dialing_run (d : Dialing) (sts : list Step) : outcome Dialing :=
  match sts with
  | [] => Ret d
  | st :: sts => d ← dialing_step d st; dialing_run d sts
  end.

End Dialing.
