(* ===== verification/AppQueue.v ===== *)
(** * The requests of the queues to the application: app/queue.go

    App_RecordAllCalls keeps the answers of the store for a minute in an LRU cache, from which
    the events of the system settings remove them; the notifications go to the users of a
    queue. [AppState] is the cache with the requests under way and the log of what happened,
    oldest first; the answers of the store and of the broker, and the clock, are the class
    [AppServer], a function of the log.

    A request is not one step: it looks into the cache, calls Do of the singleflight group,
    receives an answer, and saves it, and the requests of all calls and the listener of the
    settings interleave at these points. Of the group only what it documents is used: an
    execution of the function that is given to Do may answer any request of its key that was
    there before it ended, unless the key was forgotten after the execution began and before
    the request came. *)

From S2P Require Import Prelude Lru Model Jobs.
Import Lru.

Record Notification := MkNotification {
  no_DomainId : Z;
  no_Action : string;
  no_CreatedAt : Z;
  no_ForUsers : list Z;
  no_Body : list (string * string);
}.

(** A request has a number [i]; an execution of the function of RecordAllCalls is named by
    the place [s] of its beginning in the log. *)
Inductive AppLog :=
| LHit (i : nat) (domain : Z) (b : bool) (now : Z)       (* answered from the cache *)
| LDo (i : nat) (domain : Z)                             (* calls Do *)
| LFly (domain : Z)                                      (* the function begins *)
| LRecordAll (s : nat) (domain : Z) (answer : AppError + bool)   (* the store answers it *)
| LFlown (s : nat)                                       (* it ends *)
| LSaved (domain : Z) (res : bool) (now : Z)
| LRemoved (domain : Z)                                  (* an event: out of the cache *)
| LForgot (domain : Z)                                   (* and out of the group *)
| LUserIds (queueId skipAgentId : Z)
| LNotify (domain : Z) (n : Notification)
| LJson (key data : string).

Class AppServer := {
  as_secs : list AppLog -> Z;
  as_millis : list AppLog -> Z;
  as_recordAll : Z -> list AppLog -> AppError + bool;
  as_userIds : list AppLog -> AppError + option (list Z);
  as_err : list AppLog -> option AppError;
}.

(** Where a call of RecordAllCalls is: it missed the cache; it called Do, at place [n] of the
    log; it received the answer [r] of execution [s]; it returned [b], from the cache
    ([None]) or with the answer received. *)
Inductive Request :=
| RMissed (domain : Z)
| RWaiting (domain : Z) (n : nat)
| RHas (domain : Z) (n s : nat) (r : AppError + bool)
| RDone (domain : Z) (from : option (nat * nat * (AppError + bool))) (b : bool).

Record AppState := MkAppState {
  ap_cache : Cache Z bool;
  ap_requests : gmap nat Request;
  ap_log : list AppLog;
}.

#[export] Instance eta_AppState : Eta AppState := fun s => MkAppState (ap_cache s) (ap_requests s) (ap_log s).

Definition AP (A : Type) : Type := AppState -> A * AppState.

#[export] Instance AP_ret : MRet AP := fun A a s => (a, s).

#[export] Instance AP_bind : MBind AP := fun A B f m s => let '(a, s) := m s in f a s.

Definition log (e : AppLog) : AP unit := fun s => (tt, s <| ap_log := (ap_log s ++ [e]) |>).

Definition ask_app {A} (f : list AppLog -> A) : AP A := fun s => (f (ap_log s), s).

(** recordAllCallsCache *)
Definition NewApp : AppState := MkAppState (NewLruWithParams 1000 "RecordAllCalls" 60 "") ∅ [].

Definition SysNameRecordAllCalls : string := "record_all_calls".

Section App.
Context {AS : AppServer}.

(** ** RecordAllCalls *)

Definition cache_get (domainID : Z) : AP (option bool) := fun s =>
  let '(o, c) := Get (as_secs (ap_log s)) domainID (ap_cache s) in (o, s <| ap_cache := c |>).

(** The function given to Do. *)
Definition record_ask (flight : nat) (domainID : Z) : AP (AppError + bool) :=
  r ← ask_app (as_recordAll domainID);
  _ ← log (LRecordAll flight domainID r);
  mret r.

Definition record_save (domainID : Z) (res : bool) : AP unit := fun s =>
  let now := as_secs (ap_log s) in
  (tt, s <| ap_cache := AddWithDefaultExpires now domainID res (ap_cache s) |>
         <| ap_log := (ap_log s ++ [LSaved domainID res now]) |>).

(** What follows Do. *)
Definition record_end (domainID : Z) (r : AppError + bool) : AP bool :=
  match r with
  | inl _ => mret false
  | inr res => _ ← record_save domainID res; mret res
  end.

(** Call [i] with nothing between its steps. *)
Definition App_RecordAllCalls (i : nat) (domainID : Z) : AP bool :=
  now ← ask_app as_secs;
  v ← cache_get domainID;
  match v with
  | Some res => _ ← log (LHit i domainID res now); mret res
  | None =>
      _ ← log (LDo i domainID);
      k ← ask_app length;
      _ ← log (LFly domainID);
      r ← record_ask k domainID;
      _ ← log (LFlown k);
      record_end domainID r
  end.

(** The two calls of one event of listenSystemSettingEvents. *)
Definition setting_remove (domainID : Z) : AP unit := fun s =>
  (tt, s <| ap_cache := Remove domainID (ap_cache s) |> <| ap_log := (ap_log s ++ [LRemoved domainID]) |>).

Definition setting_forget (domainID : Z) : AP unit := log (LForgot domainID).

Definition setting_event (e : SystemSettingEvent) : AP unit :=
  if decide (sse_Name e <> SysNameRecordAllCalls) then mret tt
  else _ ← setting_remove (sse_DomainID e); setting_forget (sse_DomainID e).

(** ** Notifications *)

(** [None] is the nil slice. The group shares the answer between the requests for a queue
    that come at the same time; here each asks the store. *)
Definition queueUserIds (queueId skipAgentId : Z) : AP (AppError + option (list Z)) :=
  _ ← log (LUserIds queueId skipAgentId);
  ask_app as_userIds.

Definition SendNotification (domainId : Z) (action : string) (users : list Z) (body : list (string * string))
    : AP (option AppError) :=
  now ← ask_app as_millis;
  _ ← log (LNotify domainId (MkNotification domainId action now users body));
  ask_app as_err.

Definition notify_users (domainId queueId skip : Z) (action : string) (body : list (string * string))
    : AP (option AppError) :=
  r ← queueUserIds queueId skip;
  match r with
  | inl e => mret (Some e)
  | inr None => mret None
  | inr (Some ids) => SendNotification domainId action ids body
  end.

Definition App_NotificationHideMember (domainId queueId : Z) (memberId : option Z) (skipAgentId : Z)
    : AP (option AppError) :=
  match memberId with
  | None => mret None
  | Some id => notify_users domainId queueId skipAgentId "hide_member" [("member_id", fmt_d id)]
  end.

(** The argument skipAgentId is not used. *)
Definition NotificationInterceptAttempt (domainId queueId : Z) (channel : string) (attemptId skipAgentId : Z)
    : AP (option AppError) :=
  if decide (attemptId = 0) then mret None
  else notify_users domainId queueId 0 "hide_attempt" [("attempt_id", fmt_d attemptId); ("channel", channel)].

(** [ids] prints the list of waiting attempts. *)
Definition NotificationWaitingList (ids : list Z -> string) (e : MemberWaitingByUsers) : AP (option AppError) :=
  SendNotification (mw_DomainId e) "waiting_list" (mw_Users e)
    [("calls", ids (mw_Calls e)); ("chats", ids (mw_Chats e))].

Definition App_NotificationQueue (data : string) : AP (option AppError) :=
  _ ← log (LJson "queue" data); ask_app as_err.

(** ** Histories *)

(** The answer of an execution. *)
Definition answer_of (s : nat) (lg : list AppLog) : option (AppError + bool) :=
  head (omap (fun e => match e with LRecordAll s' _ r => if decide (s' = s) then Some r else None | _ => None end) lg).

Definition is_flown (s : nat) (e : AppLog) : bool :=
  match e with LFlown s' => bool_decide (s' = s) | _ => false end.

Definition is_forgot (d : Z) (e : AppLog) : bool :=
  match e with LForgot d' => bool_decide (d' = d) | _ => false end.

(** Execution [s] may answer a request for [d] that called Do at place [n]. *)
Definition shares (d : Z) (s n : nat) (lg : list AppLog) : bool :=
  match lg !! s with Some (LFly d') => bool_decide (d' = d) | _ => false end &&
  existsb (is_flown s) (drop n lg) && negb (existsb (is_forgot d) (drop s (take n lg))).

Inductive AppOp :=
| OpGet (i : nat) (domain : Z)    (* a new call looks into the cache *)
| OpDo (i : nat)
| OpFly (domain : Z)
| OpAsk (s : nat)                 (* the store answers execution [s] *)
| OpFlown (s : nat)
| OpLand (i s : nat)              (* Do returns to request [i] with the answer of [s] *)
| OpReturn (i : nat)
| OpRemove (domain : Z)
| OpForget (domain : Z)
| OpIntercept (domain queue : Z) (channel : string) (attempt skip : Z)
| OpHideMember (domain queue : Z) (member : option Z) (skip : Z).

(** [None]: not possible in this state. *)
Definition app_step (op : AppOp) (s : AppState) : option AppState :=
  let put i r (s : AppState) := Some (s <| ap_requests := <[i := r]> (ap_requests s) |>) in
  match op with
  | OpGet i d =>
      match ap_requests s !! i with
      | Some _ => None
      | None =>
          let now := as_secs (ap_log s) in
          let '(o, s) := cache_get d s in
          match o with
          | Some b => put i (RDone d None b) (log (LHit i d b now) s).2
          | None => put i (RMissed d) s
          end
      end
  | OpDo i =>
      match ap_requests s !! i with
      | Some (RMissed d) => put i (RWaiting d (length (ap_log s))) (log (LDo i d) s).2
      | _ => None
      end
  | OpFly d => Some (log (LFly d) s).2
  | OpAsk k =>
      match ap_log s !! k, answer_of k (ap_log s) with
      | Some (LFly d), None => Some (record_ask k d s).2
      | _, _ => None
      end
  | OpFlown k => match answer_of k (ap_log s) with Some _ => Some (log (LFlown k) s).2 | None => None end
  | OpLand i k =>
      match ap_requests s !! i, answer_of k (ap_log s) with
      | Some (RWaiting d n), Some r => if shares d k n (ap_log s) then put i (RHas d n k r) s else None
      | _, _ => None
      end
  | OpReturn i =>
      match ap_requests s !! i with
      | Some (RHas d n k r) => let '(b, s) := record_end d r s in put i (RDone d (Some (n, k, r)) b) s
      | _ => None
      end
  | OpRemove d => Some (setting_remove d s).2
  | OpForget d => Some (setting_forget d s).2
  | OpIntercept d q ch a k => Some (NotificationInterceptAttempt d q ch a k s).2
  | OpHideMember d q m k => Some (App_NotificationHideMember d q m k s).2
  end.

Fixpoint app_run (ops : list AppOp) (s : AppState) : option AppState :=
  match ops with
  | [] => Some s
  | op :: ops => s ← app_step op s; app_run ops s
  end.

(** The steps of call [i] when nothing happens in between. *)
Definition alone (i : nat) (d : Z) (s : AppState) : list AppOp :=
  let k := S (length (ap_log s)) in
  match (cache_get d s).1 with
  | Some _ => [OpGet i d]
  | None => [OpGet i d; OpDo i; OpFly d; OpAsk k; OpFlown k; OpLand i k; OpReturn i]
  end.

End App.

(** ** Theorems *)

Section Fresh.
Context {AS : AppServer}.

(** A binding of the cache: the store gave this answer, it was saved when it expires in a
    minute, and no event of the domain has removed it since. *)
Definition backed (lg : list AppLog) (d : Z) (b : bool) (exp : Z) : Prop :=
  exists pre post now, lg = pre ++ LSaved d b now :: post /\ (exists k, LRecordAll k d (inr b) ∈ pre) /\
    exp = LruFacts.deadline now 60 /\ LRemoved d ∉ post.

(** The request at place [n] got answer [r] of execution [k]: the execution began for its
    domain, ended after the request had called Do, and no event was over in between. *)
Definition received (lg : list AppLog) (d : Z) (n k : nat) (r : AppError + bool) : Prop :=
  lg !! k = Some (LFly d) /\ LRecordAll k d r ∈ lg /\
  (exists m, (n <= m)%nat /\ lg !! m = Some (LFlown k)) /\
  forall m, (k <= m < n)%nat -> lg !! m <> Some (LForgot d).

Definition request_ok (lg : list AppLog) (i : nat) (r : Request) : Prop :=
  match r with
  | RMissed _ => True
  | RWaiting d n => lg !! n = Some (LDo i d)
  | RHas d n k r => lg !! n = Some (LDo i d) /\ received lg d n k r
  | RDone d (Some (n, k, r)) b =>
      lg !! n = Some (LDo i d) /\ received lg d n k r /\ b = match r with inl _ => false | inr res => res end
  | RDone d None b =>
      exists lg0 now exp, (lg0 ++ [LHit i d b now]) `prefix_of` lg /\ backed lg0 d b exp /\ ~ Spec.expired now exp
  end.

Record fresh (s : AppState) : Prop := {
  fr_wf : LruFacts.wf (ap_cache s);
  fr_params : size (ap_cache s) = 1000 /\ defaultExpiry (ap_cache s) = 60;
  fr_backed : forall d b exp, Spec.find d (LruFacts.live (ap_cache s)) = Some (b, exp) ->
    backed (ap_log s) d b exp;
  fr_requests : forall i r, ap_requests s !! i = Some r -> request_ok (ap_log s) i r;
  fr_answers : forall k d r, LRecordAll k d r ∈ ap_log s -> ap_log s !! k = Some (LFly d);
}.

Lemma backed_more lg d b exp e : backed lg d b exp -> e <> LRemoved d -> backed (lg ++ [e]) d b exp.
Proof.
  intros (pre & post & now & -> & Hk & Hx & Hn) He. exists pre, (post ++ [e]), now.
  split; [by rewrite <- app_assoc|]. do 2 (split; [done|]). rewrite elem_of_app, elem_of_cons, elem_of_nil. naive_solver.
Qed.

Lemma received_more lg e d n k r : (n < length lg)%nat -> received lg d n k r -> received (lg ++ [e]) d n k r.
Proof.
  intros Hl (H1 & H2 & (m & Hm & H3) & H4). split_and!.
  - by apply lookup_app_l_Some.
  - apply elem_of_app. by left.
  - exists m. split; [done|]. by apply lookup_app_l_Some.
  - intros x Hx. rewrite lookup_app_l by lia. by apply H4.
Qed.

Lemma request_more lg e i r : request_ok lg i r -> request_ok (lg ++ [e]) i r.
Proof.
  destruct r as [d|d n|d n k r|d [[[n k] r]|] b]; simpl; [done| | | |].
  - intros H. by apply lookup_app_l_Some.
  - intros [H1 H2]. split; [by apply lookup_app_l_Some|]. by apply received_more; [eapply lookup_lt_Some|].
  - intros (H1 & H2 & H3). split_and!; [by apply lookup_app_l_Some| |done]. by apply received_more; [eapply lookup_lt_Some|].
  - intros (lg0 & now & exp & H1 & H2 & H3). exists lg0, now, exp. split_and!; [|done..]. etrans; [exact H1|]. by eexists.
Qed.

Lemma fresh_new : fresh NewApp.
Proof. constructor; [apply LruFacts.NewLruWithParams_wf|done|done|done|]. intros k d r H. by apply elem_of_nil in H. Qed.

(** An entry of the log that neither removes a binding nor answers. *)
Lemma fresh_log s e : fresh s -> (forall d, e <> LRemoved d) ->
  (forall k d r, e = LRecordAll k d r -> ap_log s !! k = Some (LFly d)) -> fresh (log e s).2.
Proof.
  intros [W D B R A] He Ha. constructor; simpl; try done.
  - intros d b exp H. apply backed_more; auto.
  - intros i r H. apply request_more. auto.
  - intros k d r [H|H%list_elem_of_singleton]%elem_of_app; apply lookup_app_l_Some; eauto.
Qed.

Lemma fresh_put s i r : fresh s -> request_ok (ap_log s) i r -> fresh (s <| ap_requests := <[i := r]> (ap_requests s) |>).
Proof.
  intros [W D B R A] Hr. constructor; simpl; try done. intros j r' [[<- <-]|[_ H]]%lookup_insert_Some; auto.
Qed.

Lemma fresh_get d s o s' : fresh s -> cache_get d s = (o, s') ->
  fresh s' /\ ap_log s' = ap_log s /\ ap_requests s' = ap_requests s /\
  forall b, o = Some b -> exists exp, backed (ap_log s) d b exp /\ ~ Spec.expired (as_secs (ap_log s)) exp.
Proof.
  intros Hf. pose proof Hf as [W [Z D] B R A]. unfold cache_get.
  pose proof (LruFacts.Get_spec (as_secs (ap_log s)) d (ap_cache s) W) as [W' E].
  pose proof (LruFacts.step_params (as_secs (ap_log s)) (LruFacts.GetOp d) (ap_cache s)) as [S' D'].
  simpl in S', D'. destruct (Get (as_secs (ap_log s)) d (ap_cache s)) as [v c]. simpl in *.
  intros [= <- <-]. unfold Spec.get in E.
  assert (forall d0 be, Spec.find d0 (LruFacts.live c) = Some be -> Spec.find d0 (LruFacts.live (ap_cache s)) = Some be) as Hsub.
  { intros d0 be. destruct (Spec.find d (LruFacts.live (ap_cache s))) as [[b0 exp0]|] eqn:Ef.
    - case_decide; injection E as -> ->; destruct (decide (d0 = d)) as [->|Hne].
      + by rewrite Spec.find_remove_eq.
      + by rewrite Spec.find_remove_ne.
      + simpl. rewrite decide_True by done. by rewrite Ef.
      + simpl. rewrite decide_False by done. by rewrite Spec.find_remove_ne.
    - injection E as -> ->. done. }
  split; [|split; [done|split; [done|]]].
  - constructor; simpl; [done|split; congruence| |done|done]. intros d0 b exp H. apply B. by apply Hsub.
  - intros b ->. destruct (Spec.find d (LruFacts.live (ap_cache s))) as [[b0 exp0]|] eqn:Ef; [|done].
    case_decide; [done|]. injection E as <- _. exists exp0. split; [by apply B|done].
Qed.

Lemma fresh_save d b k s : fresh s -> LRecordAll k d (inr b) ∈ ap_log s -> fresh (record_save d b s).2.
Proof.
  intros [W [Z D] B R A] Hk. unfold record_save, AddWithDefaultExpires. simpl. rewrite D.
  set (now := as_secs (ap_log s)).
  destruct (LruFacts.Add_spec now d b 60 (ap_cache s) W) as [W' L'].
  pose proof (LruFacts.step_params now (LruFacts.AddOp d b 60) (ap_cache s)) as [S' D']. simpl in S', D'.
  constructor; simpl; [done|split; congruence| | |].
  - intros d0 b0 exp. rewrite L'. intros H%Spec.find_take. simpl in H. case_decide as E.
    + injection H as -> <-. subst d0. exists (ap_log s), [], now. split; [done|]. split; [by exists k|].
      split; [done|apply not_elem_of_nil].
    + rewrite Spec.find_remove_ne in H by done. apply backed_more; [by apply B|done].
  - intros i r H. apply request_more. auto.
  - intros j d0 r [H|H%list_elem_of_singleton]%elem_of_app; [|done]. apply lookup_app_l_Some. by eapply A.
Qed.

Lemma fresh_remove d s : fresh s -> fresh (setting_remove d s).2.
Proof.
  intros [W [Z D] B R A]. unfold setting_remove. simpl.
  destruct (LruFacts.Remove_spec d (ap_cache s) W) as [W' L'].
  pose proof (LruFacts.step_params 0 (LruFacts.RemoveOp d) (ap_cache s)) as [S' D']. simpl in S', D'.
  constructor; simpl; [done|split; congruence| | |].
  - intros d0 b exp. rewrite L'. intros Hb. destruct (decide (d0 = d)) as [->|Hne]; [by rewrite Spec.find_remove_eq in Hb|].
    rewrite Spec.find_remove_ne in Hb by done. apply backed_more; [by apply B|]. by intros [= ?].
  - intros i r H. apply request_more. auto.
  - intros j d0 r [H|H%list_elem_of_singleton]%elem_of_app; [|done]. apply lookup_app_l_Some. by eapply A.
Qed.

Lemma fresh_notify d q k action body s : fresh s -> fresh (notify_users d q k action body s).2.
Proof.
  intros Hf. unfold notify_users, queueUserIds, SendNotification, mbind, AP_bind, ask_app. simpl.
  assert (fresh (log (LUserIds q k) s).2) as F1 by by apply fresh_log.
  unfold log in F1. simpl in F1. destruct (as_userIds _) as [e|[ids|]]; [exact F1| |exact F1].
  by refine (fresh_log _ (LNotify d (MkNotification d action _ ids body)) F1 _ _).
Qed.

Lemma answer_of_Some k lg r : answer_of k lg = Some r -> exists d, LRecordAll k d r ∈ lg.
Proof.
  unfold answer_of. intros H%head_Some_elem_of. apply list_elem_of_omap in H as (e & He & Hr).
  destruct e; try done. case_decide; [|done]. injection Hr as <-. subst. eauto.
Qed.

Lemma shares_received d k n lg r : answer_of k lg = Some r -> (forall d' r', LRecordAll k d' r' ∈ lg -> lg !! k = Some (LFly d')) ->
  shares d k n lg = true -> received lg d n k r.
Proof.
  intros (d' & Hr)%answer_of_Some Ha [[H1 H2]%andb_true_iff H3]%andb_true_iff.
  destruct (lg !! k) as [e|] eqn:Ek; [|done]. destruct e; try done. apply bool_decide_eq_true in H1 as ->.
  pose proof (Ha _ _ Hr) as E. injection E as ->. split_and!; [done|done| |].
  - apply existsb_exists in H2 as (e & Hin & He). apply list_elem_of_In, list_elem_of_lookup in Hin as [m Hm].
    rewrite lookup_drop in Hm. exists (n + m)%nat. split; [lia|]. rewrite Hm. destruct e; try done.
    by apply bool_decide_eq_true in He as ->.
  - intros m Hm E. apply negb_true_iff in H3. apply not_true_iff_false in H3. apply H3, existsb_exists.
    exists (LForgot d'). split; [|simpl; by apply bool_decide_eq_true_2]. apply list_elem_of_In, list_elem_of_lookup.
    exists (m - k)%nat. rewrite lookup_drop, lookup_take_lt by lia. by replace (k + (m - k))%nat with m by lia.
Qed.

Lemma fresh_step s op s' : fresh s -> app_step op s = Some s' -> fresh s'.
Proof.
  intros Hf. destruct op as [i d|i|d|k|k|i k|i|d|d|d q ch a k|d q m k]; simpl.
  - destruct (ap_requests s !! i); [done|]. destruct (cache_get d s) as [o s1] eqn:Eg.
    destruct (fresh_get _ _ _ _ Hf Eg) as (F1 & L1 & R1 & B1). destruct o as [b|]; intros [= <-].
    + refine (fresh_put (log (LHit i d b (as_secs (ap_log s))) s1).2 i _ _ _); [by apply fresh_log|].
      destruct (B1 b eq_refl) as (exp & H1 & H2). simpl. exists (ap_log s), (as_secs (ap_log s)), exp.
      split; [by rewrite L1|done].
    + by apply fresh_put.
  - destruct (ap_requests s !! i) as [[d| | |]|]; try done. intros [= <-].
    refine (fresh_put (log (LDo i d) s).2 i _ _ _); [by apply fresh_log|]. simpl. by apply list_lookup_middle.
  - intros [= <-]. by refine (fresh_log s (LFly d) _ _ _).
  - destruct (ap_log s !! k) as [e|] eqn:Ek; [|done]. destruct e; try done. destruct (answer_of _ _); [done|].
    intros [= <-]. refine (fresh_log s (LRecordAll k domain _) Hf _ _); [done|]. by intros ? ? ? [= <- <- _].
  - destruct (answer_of _ _); [|done]. intros [= <-]. by refine (fresh_log s (LFlown k) _ _ _).
  - destruct (ap_requests s !! i) as [[|d n| |]|] eqn:Ei; try done. destruct (answer_of _ _) as [r|] eqn:Ea; [|done].
    destruct (shares _ _ _ _) eqn:Es; [|done]. intros [= <-]. apply fresh_put; [done|].
    pose proof (fr_requests _ Hf _ _ Ei) as Hn. split; [done|]. eapply shares_received; eauto. intros. by eapply fr_answers.
  - destruct (ap_requests s !! i) as [[| |d n k r|]|] eqn:Ei; try done.
    destruct (fr_requests _ Hf _ _ Ei) as [Hn Hr]. destruct r as [e|b]; cbn [record_end].
    + intros [= <-]. by apply fresh_put.
    + intros [= <-]. refine (fresh_put (record_save d b s).2 i _ _ _); [by eapply fresh_save, Hr|].
      refine (request_more _ _ i (RDone d (Some (n, k, inr b)) b) _). by split_and!.
  - intros [= <-]. by apply fresh_remove.
  - intros [= <-]. by refine (fresh_log s (LForgot d) _ _ _).
  - intros [= <-]. unfold NotificationInterceptAttempt. case_decide; [done|]. by apply fresh_notify.
  - intros [= <-]. unfold App_NotificationHideMember. destruct m; [|done]. by apply fresh_notify.
Qed.

Lemma fresh_run ops s s' : fresh s -> app_run ops s = Some s' -> fresh s'.
Proof.
  revert s. induction ops as [|op ops IH]; intros s Hf; simpl; [by intros [= <-]|].
  destruct (app_step op s) as [s1|] eqn:E; [|done]. apply IH. by eapply fresh_step.
Qed.

Lemma answer_of_new k lg es : (forall k d r, LRecordAll k d r ∈ lg -> lg !! k = Some (LFly d)) -> (length lg <= k)%nat -> answer_of k (lg ++ es) = answer_of k es.
Proof.
  intros Ha Hk. unfold answer_of. rewrite omap_app.
  assert (omap (fun e => match e with LRecordAll s' _ r => if decide (s' = k) then Some r else None | _ => None end) lg = [])
    as ->; [|done].
  destruct (omap _ lg) as [|r rs] eqn:E; [done|]. assert (r ∈ omap (fun e => match e with
    LRecordAll s' _ r => if decide (s' = k) then Some r else None | _ => None end) lg) as Hr by (rewrite E; by left).
  apply list_elem_of_omap in Hr as (e & He & Hr). destruct e; try done. case_decide; [|done]. subst.
  apply Ha, lookup_lt_Some in He. lia.
Qed.

Lemma answer_of_cons k d r lg : answer_of k (LRecordAll k d r :: lg) = Some r.
Proof. unfold answer_of. simpl. by rewrite decide_True. Qed.

(** The steps of a call with nothing in between are the function. *)
Lemma alone_is_call i d s : fresh s -> ap_requests s !! i = None ->
  exists from, app_run (alone i d s) s = Some
    (let '(b, s') := App_RecordAllCalls i d s in s' <| ap_requests := <[i := RDone d from b]> (ap_requests s) |>).
Proof.
  intros Hf Hi. unfold alone, App_RecordAllCalls, mbind, AP_bind, ask_app.
  destruct (cache_get d s) as [o s1] eqn:Eg. destruct (fresh_get _ _ _ _ Hf Eg) as (F1 & L1 & R1 & _).
  destruct o as [b|]; simpl; rewrite Hi, Eg; simpl.
  - rewrite R1. by eexists.
  - pose proof (fr_answers _ F1) as Ha. rewrite L1 in *. set (lg := ap_log s) in *. set (k := S (length lg)).
    assert (forall es e m, m = length es -> (lg ++ es ++ [e]) !! (length lg + m)%nat = Some e) as Hat.
    { intros es e m ->. rewrite app_assoc. rewrite lookup_app_r by (rewrite length_app; lia).
      rewrite length_app. by replace (length lg + length es - (length lg + length es))%nat with 0%nat by lia. }
    assert (forall es, (k <= k)%nat -> answer_of k (lg ++ es) = answer_of k es) as Hans.
    { intros es _. apply answer_of_new; [done|unfold k; lia]. }
    assert (length (lg ++ [LDo i d]) = k) as Hk by (rewrite length_app; simpl; unfold k; lia).
    rewrite lookup_insert_eq. simpl. rewrite R1, Hk.
    set (lg2 := (lg ++ [LDo i d]) ++ [LFly d]). set (r := as_recordAll d lg2).
    assert (forall es, (lg2 ++ es) !! k = Some (LFly d)) as Ek.
    { intros es. apply lookup_app_l_Some. unfold lg2. rewrite <- app_assoc.
      replace k with (length lg + 1)%nat by (unfold k; lia). by apply (Hat [LDo i d]). }
    assert (forall es, answer_of k (lg2 ++ es) = answer_of k es) as A.
    { intros es. unfold lg2. by rewrite <- !app_assoc, Hans. }
    assert (answer_of k lg2 = None) as A0 by (rewrite <- (app_nil_r lg2); apply A).
    assert (answer_of k (lg2 ++ [LRecordAll k d r]) = Some r) as A1 by (rewrite A; apply answer_of_cons).
    assert (answer_of k ((lg2 ++ [LRecordAll k d r]) ++ [LFlown k]) = Some r) as A2
      by (rewrite <- app_assoc, A; apply answer_of_cons).
    assert (shares d k (length lg) ((lg2 ++ [LRecordAll k d r]) ++ [LFlown k]) = true) as A3.
    { unfold shares. rewrite <- app_assoc, Ek, bool_decide_eq_true_2 by done. unfold lg2. rewrite <- !app_assoc.
      rewrite drop_app_length, take_app_length. unfold k. rewrite drop_ge by lia. simpl.
      by rewrite bool_decide_eq_true_2. }
    pose proof (Ek []) as E0. rewrite app_nil_r in E0.
    exists (Some (length lg, k, r)). rewrite E0, A0. simpl. fold r. rewrite A1. simpl. rewrite lookup_insert_eq, A2, A3. simpl.
    rewrite lookup_insert_eq. destruct r as [e|b]; simpl; rewrite !insert_insert_eq; reflexivity.
Qed.

End Fresh.

(** C38. Over every interleaving of the requests whether all calls of a domain are recorded,
    the executions of their question to the store and the events of the settings: a request
    that returned was answered from the cache, with an answer the store gave for the domain
    that was saved at most 60 seconds before, and that no event of the domain has removed
    since it was saved; or with the answer of an execution for its domain that ended after
    the request had called Do and began after every event that was over when it called (no
    event was over in between), and with no if the store failed there. *)
Theorem record_all_fresh `{AppServer} (ops : list AppOp) (s : AppState) (i : nat) (d : Z)
    (from : option (nat * nat * (AppError + bool))) (b : bool) :
  app_run ops NewApp = Some s -> ap_requests s !! i = Some (RDone d from b) ->
  match from with
  | None => exists pre mid post saved now, ap_log s = pre ++ LSaved d b saved :: mid ++ LHit i d b now :: post /\
      (exists k, LRecordAll k d (inr b) ∈ pre) /\ (LRemoved d ∉ mid) /\ (saved + 60 <= 0 \/ now <= saved + 60)
  | Some (n, k, r) => ap_log s !! n = Some (LDo i d) /\ ap_log s !! k = Some (LFly d) /\
      LRecordAll k d r ∈ ap_log s /\ (exists m, (n <= m)%nat /\ ap_log s !! m = Some (LFlown k)) /\
      (forall m, (k <= m < n)%nat -> ap_log s !! m <> Some (LForgot d)) /\
      b = match r with inl _ => false | inr res => res end
  end.
Proof.
  intros Hr Hi. pose proof (fr_requests _ (fresh_run _ _ _ fresh_new Hr) _ _ Hi) as H0. simpl in H0.
  destruct from as [[[n k] r]|].
  - destruct H0 as (H1 & (H2 & H3 & H4 & H5) & H6). by split_and!.
  - destruct H0 as (lg0 & now & exp & [post Hp] & (pre & mid & saved & -> & Hk & Hx & Hn) & He).
    exists pre, mid, post, saved, now. rewrite Hp, <- !app_assoc. simpl.
    split; [done|]. split; [done|]. split; [done|].
    unfold Spec.expired in He. rewrite Hx in He. unfold LruFacts.deadline in He. simpl in He. lia.
Qed.

(** The store says yes until the setting changes. *)
#[local] Instance demo_app : AppServer := {|
  as_secs _ := 1000; as_millis _ := 1000000; as_userIds _ := inr None; as_err _ := None;
  as_recordAll _ lg := inr (negb (existsb (fun e => match e with LRemoved 1 => true | _ => false end) lg)) |}.

(** Two requests share the execution of the first, a third is answered from the cache, and
    after an event of the setting a fourth asks the store again. *)
Definition demo_requests : list AppOp :=
  [OpGet 0 1; OpDo 0; OpFly 1; OpGet 1 1; OpAsk 1; OpDo 1; OpFlown 1; OpLand 0 1; OpLand 1 1; OpReturn 0; OpReturn 1;
   OpGet 2 1; OpRemove 1; OpForget 1; OpGet 3 1; OpDo 3; OpFly 1; OpAsk 11; OpFlown 11; OpLand 3 11; OpReturn 3].

Lemma record_all_fresh_witness :
  exists s, app_run demo_requests NewApp = Some s /\ ap_requests s !! 2%nat = Some (RDone 1 None true) /\
    exists pre mid post saved now, ap_log s = pre ++ LSaved 1 true saved :: mid ++ LHit 2 1 true now :: post.
Proof.
  destruct (app_run demo_requests NewApp) as [s|] eqn:E; [|vm_compute in E; discriminate].
  assert (ap_requests s !! 2%nat = Some (RDone 1 None true)) as Hi by (vm_compute in E; by injection E as <-).
  exists s. split; [reflexivity|]. split; [exact Hi|].
  destruct (record_all_fresh demo_requests s 2 1 None true E Hi) as (pre & mid & post & saved & now & H & _).
  by exists pre, mid, post, saved, now.
Defined.

(** When the setting of a domain changes between the answer of the store and its way into the
    cache, the old answer is cached after the event that should have removed it, and later
    requests are answered with it, for up to a minute. *)
Lemma setting_race :
  exists s, app_run [OpGet 0 1; OpDo 0; OpFly 1; OpAsk 1; OpRemove 1; OpForget 1; OpFlown 1; OpLand 0 1; OpReturn 0;
                     OpGet 1 1] NewApp = Some s /\
    ap_requests s !! 1%nat = Some (RDone 1 None true) /\ as_recordAll 1 (ap_log s) = inr false.
Proof. eexists. split; [vm_compute; reflexivity|]. split; vm_compute; reflexivity. Qed.
