(* ===== verification/Queue.v ===== *)
(** * Queue objects: queue/queue.go, queue/hook.go and the constructors of the queues

    [BaseQueue] is the struct every queue embeds; [QueueObject] pairs it with the
    settings of its kind, one constructor of [QueueKind] per Go type that implements the
    interface. A queue object is not changed after its constructor returns, so it is a
    value. The JSON decoders of the settings are the class [Decoders]. *)

From S2P Require Import Prelude Model.

(** ** Hooks: queue/hook.go *)

Definition HookJoined : string := "joined".
Definition HookMissed : string := "missed".
Definition HookLeaving : string := "leaving".

Record HookHub := MkHookHub {
  hh_events : gmap string Z; (* event name to schema id *)
  hh_len : Z;
}.

Definition NewHookHub (s : list QueueHook) : HookHub :=
  foldl (fun h v => MkHookHub (<[qh_Event v := qh_SchemaId v]> (hh_events h)) (hh_len h + 1))
    (MkHookHub ∅ 0) s.

Definition getByName (hb : HookHub) (nm : string) : option Z :=
  if decide (hh_len hb = 0) then None else hh_events hb !! nm.

(** ** The embedded base: queue/queue.go *)

Record BaseQueue := MkBaseQueue {
  bq_channel : string;
  bq_id : Z;
  bq_updatedAt : Z;
  bq_domainId : Z;
  bq_domainName : string;
  bq_typeId : Z;
  bq_name : string;
  bq_variables : gomap;
  bq_teamId : option Z;
  bq_schemaId : option Z;
  bq_ringtone : option RingtoneFile;
  bq_ringtoneUri : option string;
  bq_doSchema : option Z;
  bq_afterSchemaId : option Z;
  bq_formSchemaId : option Z;
  bq_processing : bool;
  bq_processingSec : Z;
  bq_processingRenewalSec : Z;
  bq_endless : bool;
  bq_hooks : HookHub;
  bq_amdPlaybackFileUri : option string;
  bq_amdPlaybackFile : option RingtoneFile;
  bq_prolongationSteps : Z;
  bq_isProlongationEnabled : bool;
  bq_prolongationSec : Z;
  bq_isProlongationTimeoutRetry : bool;
  bq_processingAutosave : bool;
}.

#[export] Instance eta_BaseQueue : Eta BaseQueue := fun b =>
  MkBaseQueue (bq_channel b) (bq_id b) (bq_updatedAt b) (bq_domainId b) (bq_domainName b)
    (bq_typeId b) (bq_name b) (bq_variables b) (bq_teamId b) (bq_schemaId b)
    (bq_ringtone b) (bq_ringtoneUri b) (bq_doSchema b) (bq_afterSchemaId b)
    (bq_formSchemaId b) (bq_processing b) (bq_processingSec b)
    (bq_processingRenewalSec b) (bq_endless b) (bq_hooks b) (bq_amdPlaybackFileUri b)
    (bq_amdPlaybackFile b) (bq_prolongationSteps b) (bq_isProlongationEnabled b)
    (bq_prolongationSec b) (bq_isProlongationTimeoutRetry b) (bq_processingAutosave b).

Definition CallVariableGrantee : string := "wbt_grantee_id".
Definition CallVarTransferAfter : string := "transfer_after_bridge".
Definition QueueAutoAnswerVariable : string := "wbt_auto_answer".

(** A write to a Go map: a nil map panics. *)
Definition map_write (k v : string) (m : gomap) : outcome gomap :=
  match m with
  | Some m => Ret (Some (<[k := v]> m))
  | None => Panic "assignment to entry in nil map"
  end.

(** int8(n) *)
Definition i8 (z : Z) : Z := (z + 128) `mod` 256 - 128.

Definition NewBaseQueue (settings : Queue) : outcome BaseQueue :=
  let uri f := RingtoneUri (q_DomainId settings) (rt_Id f) (rt_Type f) in
  let ringtone :=
    match q_RingtoneId settings, q_RingtoneType settings with
    | Some i, Some t => Some (MkRingtoneFile i t)
    | _, _ => None
    end in
  let base := {|
    bq_channel := Queue_Channel settings;
    bq_id := q_Id settings;
    bq_updatedAt := q_UpdatedAt settings;
    bq_domainId := q_DomainId settings;
    bq_domainName := q_DomainName settings;
    bq_typeId := i8 (q_Type settings);
    bq_name := q_Name settings;
    bq_variables := q_Variables settings;
    bq_teamId := q_TeamId settings;
    bq_schemaId := q_SchemaId settings;
    bq_ringtone := ringtone;
    bq_ringtoneUri := uri <$> ringtone;
    bq_doSchema := q_DoSchemaId settings;
    bq_afterSchemaId := q_AfterSchemaId settings;
    bq_formSchemaId := q_FormSchemaId settings;
    bq_processing := q_Processing settings;
    bq_processingSec := q_ProcessingSec settings;
    bq_processingRenewalSec := q_ProcessingRenewalSec settings;
    bq_endless := q_Endless settings;
    bq_hooks := NewHookHub (q_Hooks settings);
    bq_amdPlaybackFileUri := uri <$> q_AmdPlaybackFile settings;
    bq_amdPlaybackFile := q_AmdPlaybackFile settings;
    bq_prolongationSteps := q_ProlongationRepeats settings;
    bq_isProlongationEnabled := q_IsProlongationEnabled settings;
    bq_prolongationSec := q_ProlongationSec settings;
    bq_isProlongationTimeoutRetry := q_IsProlongationTimeoutRetry settings;
    bq_processingAutosave := q_ProcessingAutosave settings |} in
  match q_GranteeId settings with
  | Some g =>
      vars ← map_write CallVariableGrantee (fmt_d g) (bq_variables base);
      mret (base <| bq_variables := vars |>)
  | None => mret base
  end.

Definition HasForm (q : BaseQueue) : bool :=
  bool_decide (bq_formSchemaId q <> None) && bq_processing q.

Definition BaseQueue_IsExpire (q : BaseQueue) (updatedAt : Z) : bool :=
  bool_decide (bq_updatedAt q <> updatedAt).

Definition TypeName (q : BaseQueue) : string :=
  let t := bq_typeId q in
  if decide (t = QueueTypeOfflineCall) then "offline"
  else if decide (t = QueueTypeInboundCall) then "inbound"
  else if decide (t = QueueTypeIVRCall) then "ivr"
  else if decide (t = QueueTypePreviewCall) then "preview"
  else if decide (t = QueueTypeProgressiveCall) then "progressive"
  else if decide (t = QueueTypePredictCall) then "predictive"
  else if decide (t = QueueTypeInboundChat) then "inbound chat"
  else if decide (t = QueueTypeAgentTask) then "task"
  else if decide (t = QueueTypeOutboundTask) then "outbound_task"
  else if decide (t = QueueTypeInboundIM) then "im"
  else if decide (t = QueueTypeOutboundCall) then "outbound_call"
  else "NOT_IMPLEMENT".

Definition SetVariable (nm val : string) (q : BaseQueue) : BaseQueue :=
  q <| bq_variables := (Some (<[nm := val]> (entries (bq_variables q)))) |>.

Definition BaseQueue_GetVariable (q : BaseQueue) (nm : string) : string :=
  default "" (entries (bq_variables q) !! nm).

(** [delete] on a nil map does nothing. *)
Definition DelVariable (nm : string) (q : BaseQueue) : BaseQueue :=
  q <| bq_variables := (delete nm <$> bq_variables q) |>.

Definition AutoAnswer (q : BaseQueue) : bool :=
  match entries (bq_variables q) !! QueueAutoAnswerVariable with
  | Some v => bool_decide (v <> "false")
  | None => false
  end.

Definition AutoAnswerValue (q : BaseQueue) : option string :=
  entries (bq_variables q) !! QueueAutoAnswerVariable.

Definition BaseQueue_RingtoneUri (q : BaseQueue) : string := default "" (bq_ringtoneUri q).

Definition ProcessingTransfer (_ : BaseQueue) : bool := false.

(** ** Settings of the kinds of queues *)

Record QueueInboundSettings := MkQueueInboundSettings {
  qi_DiscardAbandonedAfter : Z;
  qi_TimeBaseScore : string;
  qi_MaxWaitWithNoAgent : Z;
  qi_MaxCallPerAgent : Z;
  qi_AllowGreetingAgent : bool;
  qi_MaxWaitTime : Z;
  qi_StickyAgent : bool;
  qi_StickyAgentSec : Z;
  qi_AutoAnswerTone : option string;
  qi_ManualDistribution : bool;
}.

#[export] Instance eta_QueueInboundSettings : Eta QueueInboundSettings := fun s =>
  MkQueueInboundSettings (qi_DiscardAbandonedAfter s) (qi_TimeBaseScore s)
    (qi_MaxWaitWithNoAgent s) (qi_MaxCallPerAgent s) (qi_AllowGreetingAgent s)
    (qi_MaxWaitTime s) (qi_StickyAgent s) (qi_StickyAgentSec s) (qi_AutoAnswerTone s)
    (qi_ManualDistribution s).

Record OfflineQueueSettings := MkOfflineQueueSettings {
  of_Recordings : bool;
  of_RecordMono : bool;
  of_RecordAll : bool;
  of_OriginateTimeout : Z;
  of_WaitBetweenRetries : Z;
  of_MaxAttempts : Z;
  of_PerNumbers : bool;
  of_transferAfter : string;
}.

#[export] Instance eta_OfflineQueueSettings : Eta OfflineQueueSettings := fun s =>
  MkOfflineQueueSettings (of_Recordings s) (of_RecordMono s) (of_RecordAll s)
    (of_OriginateTimeout s) (of_WaitBetweenRetries s) (of_MaxAttempts s)
    (of_PerNumbers s) (of_transferAfter s).

Record QueueIVRSettings := MkQueueIVRSettings {
  iv_Recordings : bool;
  iv_RecordMono : bool;
  iv_RecordAll : bool;
  iv_Amd : option QueueAmdSettings;
  iv_MinDuration : Z;
  iv_MaxAttempts : Z;
  iv_OriginateTimeout : Z;
  iv_WaitBetweenRetries : Z;
  iv_PerNumbers : bool;
  iv_WaitBetweenRetriesDesc : bool;
}.

Record PreviewSettings := MkPreviewSettings {
  pv_Recordings : bool;
  pv_RecordMono : bool;
  pv_RecordAll : bool;
  pv_OriginateTimeout : Z;
  pv_WaitBetweenRetries : Z;
  pv_MaxAttempts : Z;
  pv_PerNumbers : bool;
  pv_WaitBetweenRetriesDesc : bool;
  pv_AllowGreetingAgent : bool;
  pv_transferAfter : string;
  pv_usePark : bool;
}.

#[export] Instance eta_PreviewSettings : Eta PreviewSettings := fun s =>
  MkPreviewSettings (pv_Recordings s) (pv_RecordMono s) (pv_RecordAll s)
    (pv_OriginateTimeout s) (pv_WaitBetweenRetries s) (pv_MaxAttempts s)
    (pv_PerNumbers s) (pv_WaitBetweenRetriesDesc s) (pv_AllowGreetingAgent s)
    (pv_transferAfter s) (pv_usePark s).

Record ProgressiveCallQueueSettings := MkProgressiveCallQueueSettings {
  pg_Recordings : bool;
  pg_RecordMono : bool;
  pg_RecordAll : bool;
  pg_WaitBetweenRetries : Z;
  pg_WaitBetweenRetriesDesc : bool;
  pg_MaxAttempts : Z;
  pg_PerNumbers : bool;
  pg_OriginateTimeout : Z;
  pg_AllowGreetingAgent : bool;
  pg_Amd : option QueueAmdSettings;
  pg_AutoAnswerTone : option string;
  pg_transferAfter : string;
}.

#[export] Instance eta_ProgressiveCallQueueSettings : Eta ProgressiveCallQueueSettings := fun s =>
  MkProgressiveCallQueueSettings (pg_Recordings s) (pg_RecordMono s) (pg_RecordAll s)
    (pg_WaitBetweenRetries s) (pg_WaitBetweenRetriesDesc s) (pg_MaxAttempts s)
    (pg_PerNumbers s) (pg_OriginateTimeout s) (pg_AllowGreetingAgent s) (pg_Amd s)
    (pg_AutoAnswerTone s) (pg_transferAfter s).

Record PredictCallQueueSettings := MkPredictCallQueueSettings {
  pr_Recordings : bool;
  pr_RecordMono : bool;
  pr_RecordAll : bool;
  pr_MaxWaitTime : Z;
  pr_WaitBetweenRetries : Z;
  pr_WaitBetweenRetriesDesc : bool;
  pr_MaxAttempts : Z;
  pr_PerNumbers : bool;
  pr_OriginateTimeout : Z;
  pr_RetryAbandoned : bool;
  pr_AllowGreetingAgent : bool;
  pr_Amd : option QueueAmdSettings;
  pr_HoldReservedAgent : bool;
  pr_MinAttempts : Z;
  pr_MaxAbandonedRate : Z;
  pr_MaxAgentLine : Z;
  pr_PlaybackSilence : Z;
  pr_AutoAnswerTone : option string;
  pr_transferAfter : string;
}.

#[export] Instance eta_PredictCallQueueSettings : Eta PredictCallQueueSettings := fun s =>
  MkPredictCallQueueSettings (pr_Recordings s) (pr_RecordMono s) (pr_RecordAll s)
    (pr_MaxWaitTime s) (pr_WaitBetweenRetries s) (pr_WaitBetweenRetriesDesc s)
    (pr_MaxAttempts s) (pr_PerNumbers s) (pr_OriginateTimeout s) (pr_RetryAbandoned s)
    (pr_AllowGreetingAgent s) (pr_Amd s) (pr_HoldReservedAgent s) (pr_MinAttempts s)
    (pr_MaxAbandonedRate s) (pr_MaxAgentLine s) (pr_PlaybackSilence s)
    (pr_AutoAnswerTone s) (pr_transferAfter s).

Record InboundChatQueueSettings := MkInboundChatQueueSettings {
  ic_MaxIdleClient : Z;
  ic_MaxIdleAgent : Z;
  ic_MaxIdleDialog : Z;
  ic_MaxWaitTime : Z;
  ic_ManualDistribution : bool;
  ic_LastMessageTimeout : bool;
}.

#[export] Instance eta_InboundChatQueueSettings : Eta InboundChatQueueSettings := fun s =>
  MkInboundChatQueueSettings (ic_MaxIdleClient s) (ic_MaxIdleAgent s) (ic_MaxIdleDialog s)
    (ic_MaxWaitTime s) (ic_ManualDistribution s) (ic_LastMessageTimeout s).

Record InboundIMQueueSettings := MkInboundIMQueueSettings {
  ii_MaxIdleClient : Z;
  ii_MaxIdleAgent : Z;
  ii_MaxIdleDialog : Z;
  ii_MaxWaitTime : Z;
  ii_ManualDistribution : bool;
  ii_LastMessageTimeout : bool;
}.

#[export] Instance eta_InboundIMQueueSettings : Eta InboundIMQueueSettings := fun s =>
  MkInboundIMQueueSettings (ii_MaxIdleClient s) (ii_MaxIdleAgent s) (ii_MaxIdleDialog s)
    (ii_MaxWaitTime s) (ii_ManualDistribution s) (ii_LastMessageTimeout s).

Record TaskInboundQueueSettings := MkTaskInboundQueueSettings {
  ti_MaxAttempts : Z;
  ti_PerNumbers : bool;
  ti_WaitBetweenRetries : Z;
  ti_WaitBetweenRetriesDesc : bool;
}.

Record TaskOutboundQueueSettings := MkTaskOutboundQueueSettings {
  to_OriginateTimeout : Z;
  to_MaxAttempts : Z;
  to_WaitBetweenRetries : Z;
  to_WaitBetweenRetriesDesc : bool;
}.

Class Decoders := {
  OfflineSettingsFromBytes : string -> OfflineQueueSettings;
  QueueInboundSettingsFromBytes : string -> QueueInboundSettings;
  IVRSettingsFromBytes : string -> QueueIVRSettings;
  PreviewSettingsFromBytes : string -> PreviewSettings;
  ProgressiveSettingsFromBytes : string -> ProgressiveCallQueueSettings;
  PredictCallQueueSettingsFromBytes : string -> PredictCallQueueSettings;
  InboundChatQueueFromBytes : string -> InboundChatQueueSettings;
  InboundIMQueueFromBytes : string -> InboundIMQueueSettings;
  TaskInboundSettingsFromBytes : string -> TaskInboundQueueSettings;
  TaskOutboundQueueSettingsFromBytes : string -> TaskOutboundQueueSettings;
}.

(** ** Queue objects *)

Inductive QueueKind :=
| KOffline (s : OfflineQueueSettings)
| KInbound (s : QueueInboundSettings)
| KIVR (s : QueueIVRSettings)
| KPreview (s : PreviewSettings)
| KProgressive (s : ProgressiveCallQueueSettings)
| KPredict (s : PredictCallQueueSettings)
| KChat (s : InboundChatQueueSettings)
| KTaskInbound (s : TaskInboundQueueSettings)
| KTaskOutbound (s : TaskOutboundQueueSettings)
| KIM (s : InboundIMQueueSettings)
| KJoinAgentCall
| KOutboundCall (processingWithoutAnswer : bool)
| KTaskAgent.

(** [qo_HoldMusic] and [qo_granteeId] are the fields CallingQueue adds; queues that do
    not embed it leave them empty. *)
Record QueueObject := MkQueueObject {
  qo_base : BaseQueue;
  qo_kind : QueueKind;
  qo_HoldMusic : option RingtoneFile;
  qo_granteeId : option Z;
}.

(** A queue that takes its transfer target out of the variables. *)
Definition take_variable (nm : string) (b : BaseQueue) : string * BaseQueue :=
  let v := BaseQueue_GetVariable b nm in
  (v, if decide (v <> "") then DelVariable nm b else b).

Arguments take_variable : simpl never.

Definition NewInboundQueue (b : BaseQueue) (s : QueueInboundSettings)
    : BaseQueue * QueueKind :=
  (b, KInbound (s <| qi_MaxWaitTime := (dflt 60 (qi_MaxWaitTime s)) |>)).

Definition NewOfflineCallQueue (b : BaseQueue) (s : OfflineQueueSettings)
    : BaseQueue * QueueKind :=
  let '(t, b) := take_variable CallVarTransferAfter b in
  (b, KOffline (s <| of_transferAfter := t |>)).

Definition NewIVRQueue (b : BaseQueue) (s : QueueIVRSettings) : BaseQueue * QueueKind :=
  (b, KIVR s).

Definition NewPreviewCallQueue (b : BaseQueue) (s : PreviewSettings)
    : BaseQueue * QueueKind :=
  let '(t, b) := take_variable CallVarTransferAfter b in
  let s := s <| pv_transferAfter := t |> in
  let '(tmp, b) := take_variable "wbt_preview_park" b in
  (b, KPreview (if decide (tmp <> "")
                then s <| pv_usePark := (bool_decide (tmp = "true")) |> else s)).

Definition NewProgressiveCallQueue (b : BaseQueue) (s : ProgressiveCallQueueSettings)
    : BaseQueue * QueueKind :=
  let '(t, b) := take_variable CallVarTransferAfter b in
  (b, KProgressive (s <| pg_transferAfter := t |>)).

Definition NewPredictCallQueue (b : BaseQueue) (s : PredictCallQueueSettings)
    : BaseQueue * QueueKind :=
  let s := s <| pr_MaxWaitTime := (dflt 30 (pr_MaxWaitTime s)) |> in
  let '(t, b) := take_variable CallVarTransferAfter b in
  (b, KPredict (s <| pr_transferAfter := t |>)).

Definition NewInboundChatQueue (b : BaseQueue) (s : InboundChatQueueSettings)
    : BaseQueue * QueueKind :=
  (b, KChat (s <| ic_MaxWaitTime := (dflt 300 (ic_MaxWaitTime s)) |>)).

Definition defaultMaxWaitTime : Z := 300.

Definition NewInboundIMQueue (b : BaseQueue) (s : InboundIMQueueSettings)
    : BaseQueue * QueueKind :=
  (b, KIM (s <| ii_MaxWaitTime := (dflt defaultMaxWaitTime (ii_MaxWaitTime s)) |>)).

Definition NewTaskInboundQueue (b : BaseQueue) (s : TaskInboundQueueSettings)
    : BaseQueue * QueueKind := (b, KTaskInbound s).

Definition NewTaskOutboundQueue (b : BaseQueue) (s : TaskOutboundQueueSettings)
    : BaseQueue * QueueKind := (b, KTaskOutbound s).

Definition NewOutboundCallQueue (b : BaseQueue) (withoutAnswer : bool) : QueueObject :=
  MkQueueObject b (KOutboundCall withoutAnswer) None None.

Definition queue_type_error (t : Z) : AppError :=
  NewAppError "Dialing.NewQueue" "dialing.queue.new_queue.app_error"
    ("Queue type " +:+ fmt_d t +:+ " not implement") 500.

Definition NewQueue `{Decoders} (settings : Queue) : outcome (result QueueObject) :=
  base ← NewBaseQueue settings;
  let calling p := inr (MkQueueObject p.1 p.2 (q_HoldMusic settings) (q_GranteeId settings)) in
  let plain p := inr (MkQueueObject p.1 p.2 None None) in
  let t := q_Type settings in
  let data := q_Payload settings in
  mret (
    if decide (t = QueueTypeOfflineCall) then
      calling (NewOfflineCallQueue base (OfflineSettingsFromBytes data))
    else if decide (t = QueueTypeInboundCall) then
      calling (NewInboundQueue base (QueueInboundSettingsFromBytes data))
    else if decide (t = QueueTypeIVRCall) then
      calling (NewIVRQueue base (IVRSettingsFromBytes data))
    else if decide (t = QueueTypePreviewCall) then
      calling (NewPreviewCallQueue base (PreviewSettingsFromBytes data))
    else if decide (t = QueueTypeProgressiveCall) then
      calling (NewProgressiveCallQueue base (ProgressiveSettingsFromBytes data))
    else if decide (t = QueueTypePredictCall) then
      calling (NewPredictCallQueue base (PredictCallQueueSettingsFromBytes data))
    else if decide (t = QueueTypeInboundChat) then
      plain (NewInboundChatQueue base (InboundChatQueueFromBytes data))
    else if decide (t = QueueTypeAgentTask) then
      plain (NewTaskInboundQueue base (TaskInboundSettingsFromBytes data))
    else if decide (t = QueueTypeOutboundTask) then
      plain (NewTaskOutboundQueue base (TaskOutboundQueueSettingsFromBytes data))
    else if decide (t = QueueTypeInboundIM) then
      plain (NewInboundIMQueue base (InboundIMQueueFromBytes data))
    else inl (queue_type_error t)).

(** events.go: the longest time a member waits in the queue, 0 when it has no limit. *)
Definition MaxWaitTimeFromQueue (q : QueueObject) : Z :=
  match qo_kind q with
  | KChat s => ic_MaxWaitTime s
  | KIM s => ii_MaxWaitTime s
  | KInbound s => qi_MaxWaitTime s
  | KPredict s => pr_MaxWaitTime s
  | _ => 0
  end.

(** ** Lemmas *)

Lemma hook_fold_events (s : list QueueHook) (h : HookHub) nm :
  hh_events (foldl (fun h v => MkHookHub (<[qh_Event v := qh_SchemaId v]> (hh_events h))
                                 (hh_len h + 1)) h s) !! nm =
  match last (filter (fun v => qh_Event v = nm) s) with
  | Some v => Some (qh_SchemaId v)
  | None => hh_events h !! nm
  end.
Proof.
  revert h. induction s as [|v s IH]; intros h; [done|].
  simpl. rewrite IH. simpl. rewrite filter_cons.
  destruct (decide (qh_Event v = nm)) as [E|E].
  - rewrite last_cons. destruct (last _); [done|]. by rewrite E, lookup_insert_eq.
  - destruct (last _); [done|]. by rewrite lookup_insert_ne.
Qed.

Lemma hook_fold_len (s : list QueueHook) (h : HookHub) :
  hh_len (foldl (fun h v => MkHookHub (<[qh_Event v := qh_SchemaId v]> (hh_events h))
                              (hh_len h + 1)) h s) = hh_len h + Z.of_nat (length s).
Proof. revert h. induction s as [|v s IH]; intros h; simpl; [lia|]. rewrite IH. simpl. lia. Qed.

Lemma take_variable_lookup (nm k : string) (b : BaseQueue) :
  entries (bq_variables (take_variable nm b).2) !! k =
  if decide (k = nm /\ (take_variable nm b).1 <> "") then None
  else entries (bq_variables b) !! k.
Proof.
  unfold take_variable. simpl.
  destruct (decide (BaseQueue_GetVariable b nm <> "")) as [Hv|Hv].
  - unfold DelVariable. simpl. destruct (bq_variables b) as [m|] eqn:Em; simpl.
    + destruct (decide (k = nm /\ _)) as [[-> _]|Hk].
      * by rewrite lookup_delete_eq.
      * rewrite lookup_delete_ne; [done|]. naive_solver.
    + by case_decide.
  - rewrite decide_False; [done|]. naive_solver.
Qed.

(** ** Properties *)

(** A hook hub answers with the schema of the last hook configured for the event,
    and with nothing for an event no hook names. *)
Theorem hook_last_wins (s : list QueueHook) (event : string) :
  getByName (NewHookHub s) event =
  qh_SchemaId <$> last (filter (fun h => qh_Event h = event) s).
Proof.
  unfold getByName, NewHookHub. rewrite hook_fold_len. simpl.
  destruct (decide _) as [E|E].
  - destruct s; [done|]. simpl in E. lia.
  - rewrite hook_fold_events. by destruct (last _).
Qed.

(** The kinds of queues in which a member waits for an agent for a limited time. *)
Definition waits (q : QueueObject) : bool :=
  match qo_kind q with KChat _ | KIM _ | KInbound _ | KPredict _ => true | _ => false end.

(** The queue types that take their transfer target out of the variables. *)
Definition takes_transfer (t : Z) : bool :=
  bool_decide (t ∈ [QueueTypeOfflineCall; QueueTypePreviewCall; QueueTypeProgressiveCall;
                    QueueTypePredictCall]).

(** What a queue object keeps of the settings it is built from. *)
Record built_from (s : Queue) (q : QueueObject) : Prop := BuiltFrom {
  bf_id : bq_id (qo_base q) = q_Id s;
  bf_channel : bq_channel (qo_base q) = Queue_Channel s;
  bf_current : BaseQueue_IsExpire (qo_base q) (q_UpdatedAt s) = false;
  bf_type : TypeName (qo_base q) <> "NOT_IMPLEMENT";
  bf_wait : waits q = true -> MaxWaitTimeFromQueue q <> 0;
  bf_transfer : takes_transfer (q_Type s) = true ->
    default "" (entries (bq_variables (qo_base q)) !! CallVarTransferAfter) = "";
}.

Lemma dflt_nonzero d v : d <> 0 -> dflt d v <> 0.
Proof. unfold dflt. by case_decide. Qed.

(** What [take_variable] leaves. *)
Lemma take_variable_base nm b :
  let b' := (take_variable nm b).2 in
  bq_id b' = bq_id b /\ bq_channel b' = bq_channel b /\ bq_updatedAt b' = bq_updatedAt b /\
  bq_typeId b' = bq_typeId b /\ default "" (entries (bq_variables b') !! nm) = "".
Proof.
  intros b'. subst b'. rewrite take_variable_lookup. unfold take_variable. simpl.
  destruct (decide (BaseQueue_GetVariable b nm <> "")) as [E|E]; simpl; split_and!; try done.
  - rewrite decide_True; done.
  - rewrite decide_False by naive_solver. by apply dec_stable in E.
Qed.

Lemma take_variable_keeps nm nm' b :
  default "" (entries (bq_variables b) !! nm) = "" ->
  default "" (entries (bq_variables (take_variable nm' b).2) !! nm) = "".
Proof. intros E. rewrite take_variable_lookup. by case_decide. Qed.

Lemma NewBaseQueue_spec (s : Queue) :
  match NewBaseQueue s with
  | Ret b => bq_id b = q_Id s /\ bq_channel b = Queue_Channel s /\
             bq_updatedAt b = q_UpdatedAt s /\ bq_typeId b = i8 (q_Type s)
  | Panic _ => q_GranteeId s <> None /\ q_Variables s = None
  | Block _ => False
  end.
Proof.
  unfold NewBaseQueue. destruct (q_GranteeId s); simpl; [|done].
  by destruct (q_Variables s).
Qed.

Lemma BaseQueue_IsExpire_same b u : bq_updatedAt b = u -> BaseQueue_IsExpire b u = false.
Proof. intros <-. unfold BaseQueue_IsExpire. rewrite bool_decide_eq_false. auto. Qed.

Ltac open_kind :=
  match goal with
  | |- context [take_variable ?nm ?b] =>
      let H := fresh "Htake" in
      pose proof (take_variable_base nm b) as H; cbn zeta in H;
      let H' := fresh "Hkeep" in
      pose proof (take_variable_keeps CallVarTransferAfter nm b) as H';
      revert H H'; destruct (take_variable nm b) as [? ?]; intros H H'; cbn [fst snd] in *
  end.

(** The case of one queue type [Ht : q_Type s = t]: the kind's constructor is opened and
    each clause of [built_from] is a fact about the base or about [take_variable]. *)
Ltac built_kind s Ht :=
  repeat open_kind; simpl; destruct_and?;
  split; [rewrite Ht; unfold QueueTypeInboundIM; vm_compute; split; discriminate|];
  split; simpl;
  [ congruence | congruence | apply BaseQueue_IsExpire_same; congruence
  | unfold TypeName;
    match goal with |- context [bq_typeId ?x] =>
      replace (bq_typeId x) with (i8 (q_Type s)) by congruence end; by rewrite Ht
  | try done; intros _; apply dflt_nonzero; done
  | rewrite Ht; try (intros Hc; discriminate Hc); intros _; solve [done | auto] ].

(** Building a queue from its stored settings fails exactly for the types without an
    implementation, and panics exactly when a grantee is to be written into a nil
    variables map; otherwise the object has the identity, channel and version of the
    settings, its kind's type name, a non-zero waiting limit where it has one, and the
    transfer target is not left in the variables of the queues that take it out. *)
Theorem NewQueue_spec `{Decoders} (s : Queue) :
  match NewQueue s with
  | Ret (inr q) => 0 <= q_Type s <= QueueTypeInboundIM /\ built_from s q
  | Ret (inl e) => ~ 0 <= q_Type s <= QueueTypeInboundIM /\ e = queue_type_error (q_Type s)
  | Panic _ => q_GranteeId s <> None /\ q_Variables s = None
  | Block _ => False
  end.
Proof.
  pose proof (NewBaseQueue_spec s) as Hb. unfold NewQueue.
  destruct (NewBaseQueue s) as [b| |]; [|exact Hb..].
  destruct Hb as (Hid & Hch & Hup & Hty0).
  cbv beta iota zeta delta [mbind outcome_bind mret outcome_ret].
  unfold NewInboundQueue, NewOfflineCallQueue, NewIVRQueue, NewPreviewCallQueue,
    NewProgressiveCallQueue, NewPredictCallQueue, NewInboundChatQueue,
    NewInboundIMQueue, NewTaskInboundQueue, NewTaskOutboundQueue.
  destruct (decide (q_Type s = QueueTypeOfflineCall)) as [Ht|Hn1]; [built_kind s Ht|].
  destruct (decide (q_Type s = QueueTypeInboundCall)) as [Ht|Hn2]; [built_kind s Ht|].
  destruct (decide (q_Type s = QueueTypeIVRCall)) as [Ht|Hn3]; [built_kind s Ht|].
  destruct (decide (q_Type s = QueueTypePreviewCall)) as [Ht|Hn4]; [built_kind s Ht|].
  destruct (decide (q_Type s = QueueTypeProgressiveCall)) as [Ht|Hn5]; [built_kind s Ht|].
  destruct (decide (q_Type s = QueueTypePredictCall)) as [Ht|Hn6]; [built_kind s Ht|].
  destruct (decide (q_Type s = QueueTypeInboundChat)) as [Ht|Hn7]; [built_kind s Ht|].
  destruct (decide (q_Type s = QueueTypeAgentTask)) as [Ht|Hn8]; [built_kind s Ht|].
  destruct (decide (q_Type s = QueueTypeOutboundTask)) as [Ht|Hn9]; [built_kind s Ht|].
  destruct (decide (q_Type s = QueueTypeInboundIM)) as [Ht|Hn10]; [built_kind s Ht|].
  split; [|done]. unfold QueueTypeOfflineCall, QueueTypeInboundCall, QueueTypeIVRCall,
    QueueTypePreviewCall, QueueTypeProgressiveCall, QueueTypePredictCall,
    QueueTypeInboundChat, QueueTypeAgentTask, QueueTypeOutboundTask, QueueTypeInboundIM in *.
  lia.
Qed.
