(* ===== verification/TaskChannel.v ===== *)
(** * Task channels: queue/task_channel.go

    The channel of a task between the goroutine that runs the attempt and the API calls
    of the agent. [tc_stateC] is the Go channel of capacity one: a send on a full channel
    is [Block], the sender then waits (holding the mutex) until the value is received.
    Times are milliseconds, 0 where the source has not set them. *)

From S2P Require Import Prelude Model.

Inductive TaskState :=
| TaskStateIdle
| TaskStateBridged
| TaskStateClosed.

#[export] Instance TaskState_eq_dec : EqDecision TaskState.
Proof. solve_decision. Defined.

Record TaskChannel := MkTaskChannel {
  tc_id : string;
  tc_state : TaskState;
  tc_stateC : option TaskState;
  tc_createdAt : Z;
  tc_bridgedAt : Z;
  tc_closedAt : Z;
  tc_reportingAt : Z;
}.

#[export] Instance eta_TaskChannel : Eta TaskChannel := fun t =>
  MkTaskChannel (tc_id t) (tc_state t) (tc_stateC t) (tc_createdAt t) (tc_bridgedAt t)
    (tc_closedAt t) (tc_reportingAt t).

Definition NewTaskChannel (now : Z) (id : string) : TaskChannel := {|
  tc_id := id; tc_state := TaskStateIdle; tc_stateC := None; tc_createdAt := now;
  tc_bridgedAt := 0; tc_closedAt := 0; tc_reportingAt := 0 |}.

Definition setState (st : TaskState) (t : TaskChannel) : outcome TaskChannel :=
  let t := t <| tc_state := st |> in
  match tc_stateC t with
  | None => Ret (t <| tc_stateC := (Some st) |>)
  | Some _ => Block "task.stateC"
  end.

Definition Task_Answered (t : TaskChannel) : bool := bool_decide (tc_bridgedAt t > 0).

Definition SetAnswered (now : Z) (t : TaskChannel) : outcome (option AppError * TaskChannel) :=
  if decide (tc_bridgedAt t <> 0) then
    Ret (Some (NewAppError "TaskChannel" "queue.task.valid.bridged_at"
                  ("task " +:+ tc_id t +:+ " is bridged") 400), t)
  else
    t ← setState TaskStateBridged (t <| tc_bridgedAt := now |>);
    Ret (None, t).

Definition SetClosed (now : Z) (t : TaskChannel) : outcome (option AppError * TaskChannel) :=
  if decide (tc_closedAt t <> 0) then
    Ret (Some (NewAppError "TaskChannel" "queue.task.valid.closed_at"
                  ("task " +:+ tc_id t +:+ " is closed") 400), t)
  else
    t ← setState TaskStateClosed (t <| tc_closedAt := now |>);
    Ret (None, t).

Definition Task_Reporting (now : Z) (t : TaskChannel) : outcome (option AppError * TaskChannel) :=
  let t := t <| tc_reportingAt := now |> in
  if decide (tc_closedAt t = 0) then SetClosed now t else Ret (None, t).

Definition IsDeclined (t : TaskChannel) : bool := bool_decide (tc_bridgedAt t = 0).

(** The receive of the goroutine that runs the attempt. *)
Definition recv (t : TaskChannel) : outcome (TaskState * TaskChannel) :=
  match tc_stateC t with
  | Some s => Ret (s, t <| tc_stateC := None |>)
  | None => Block "task.stateC"
  end.

(** ** Runs: the API calls and the receives, in any order *)

Inductive task_op := OpAnswer | OpClose | OpReport | OpRecv.

(** [task_step now op t t' got]: the operation returns in [t] and leaves [t'], [got] being
    the values the receiver gets. An operation that blocks has no step until the
    receiver makes room. *)
Inductive task_step (now : Z) : task_op -> TaskChannel -> TaskChannel -> list TaskState -> Prop :=
| step_answer t t' e : SetAnswered now t = Ret (e, t') -> task_step now OpAnswer t t' []
| step_close t t' e : SetClosed now t = Ret (e, t') -> task_step now OpClose t t' []
| step_report t t' e : Task_Reporting now t = Ret (e, t') -> task_step now OpReport t t' []
| step_recv t t' s : recv t = Ret (s, t') -> task_step now OpRecv t t' [s].

(** Reachable from a new task with a clock that is positive; the values received so far,
    in order. *)
Inductive task_run (id : string) : TaskChannel -> list TaskState -> Prop :=
| run_new now : task_run id (NewTaskChannel now id) []
| run_step now op t t' got seen :
    task_run id t seen -> 0 < now -> task_step now op t t' got ->
    task_run id t' (seen ++ got).

(** The values sent so far: the received ones and the one in the channel. *)
Definition sent (t : TaskChannel) (seen : list TaskState) : list TaskState :=
  seen ++ option_list (tc_stateC t).

Record task_inv (t : TaskChannel) (seen : list TaskState) : Prop := TaskInv {
  ti_nodup : NoDup (sent t seen);
  ti_idle : TaskStateIdle ∉ sent t seen;
  ti_bridged : TaskStateBridged ∈ sent t seen <-> tc_bridgedAt t <> 0;
  ti_closed : TaskStateClosed ∈ sent t seen <-> tc_closedAt t <> 0;
  ti_times : 0 <= tc_bridgedAt t /\ 0 <= tc_closedAt t /\ 0 <= tc_reportingAt t;
  ti_reported : tc_reportingAt t <> 0 -> tc_closedAt t <> 0;
}.

Lemma setState_Ret st t t' :
  setState st t = Ret t' ->
  tc_stateC t = None /\ t' = t <| tc_state := st |> <| tc_stateC := (Some st) |>.
Proof. unfold setState. simpl. destruct (tc_stateC t) eqn:E; intros; simplify_eq; done. Qed.

Lemma NoDup_snoc {A} (l : list A) x : NoDup l -> x ∉ l -> NoDup (l ++ [x]).
Proof.
  intros. apply NoDup_app. split_and!; [done| |apply NoDup_singleton].
  intros y Hy ->%list_elem_of_singleton. done.
Qed.

Lemma SetAnswered_inv now t t' e seen :
  0 < now -> SetAnswered now t = Ret (e, t') -> task_inv t seen -> task_inv t' seen.
Proof.
  intros Hnow Hs [ND HI HB HC HT HR]. unfold SetAnswered in Hs.
  case_decide as Hd; [simplify_eq/=; by split|].
  destruct (setState _ _) as [t1| |] eqn:Es; simplify_eq/=.
  apply setState_Ret in Es as [En ->]. simpl in *. unfold sent in *. rewrite En in *.
  simpl in *. rewrite app_nil_r in *.
  split; unfold sent; simpl.
  - apply NoDup_snoc; [done|]. rewrite HB. lia.
  - rewrite elem_of_app, list_elem_of_singleton. naive_solver.
  - rewrite elem_of_app, list_elem_of_singleton. split; [lia|auto].
  - rewrite elem_of_app, list_elem_of_singleton. naive_solver.
  - lia.
  - done.
Qed.

Lemma SetClosed_inv now t t' e seen r :
  0 < now -> 0 <= r -> SetClosed now (t <| tc_reportingAt := r |>) = Ret (e, t') ->
  (r = tc_reportingAt t \/ tc_closedAt t = 0) ->
  task_inv t seen -> task_inv t' seen.
Proof.
  intros Hnow Hr Hs Hor [ND HI HB HC HT HR]. unfold SetClosed in Hs. simpl in Hs.
  case_decide as Hd.
  - simplify_eq/=. destruct Hor as [->|]; [|done]. by split.
  - destruct (setState _ _) as [t1| |] eqn:Es; simplify_eq/=.
    apply setState_Ret in Es as [En ->]. simpl in *. unfold sent in *. rewrite En in *.
    simpl in *. rewrite app_nil_r in *.
    split; unfold sent; simpl.
    + apply NoDup_snoc; [done|]. rewrite HC. lia.
    + rewrite elem_of_app, list_elem_of_singleton. naive_solver.
    + rewrite elem_of_app, list_elem_of_singleton. naive_solver.
    + rewrite elem_of_app, list_elem_of_singleton. split; [lia|auto].
    + lia.
    + lia.
Qed.

Lemma SetClosed_inv_same now t t' e seen :
  0 < now -> SetClosed now t = Ret (e, t') -> task_inv t seen -> task_inv t' seen.
Proof.
  intros Hnow Hs Hi. destruct t as [i s c cr b cl r]. pose proof (ti_times _ _ Hi). simpl in *.
  apply (SetClosed_inv now (MkTaskChannel i s c cr b cl r) t' e seen r); auto. lia.
Qed.

Lemma Task_Reporting_inv now t t' e seen :
  0 < now -> Task_Reporting now t = Ret (e, t') -> task_inv t seen -> task_inv t' seen.
Proof.
  intros Hnow Hs Hi. unfold Task_Reporting in Hs. simpl in Hs. case_decide as Hd.
  - eapply (SetClosed_inv now t t' e seen now); eauto. lia.
  - simplify_eq/=. destruct Hi as [ND HI HB HC HT HR]. split; simpl; auto. lia.
Qed.

Lemma task_run_inv id t seen : task_run id t seen -> task_inv t seen.
Proof.
  induction 1 as [now|now op t t' got seen Hrun IH Hnow Hstep].
  - split; simpl; [apply NoDup_nil_2|apply not_elem_of_nil| | |lia|lia];
      split; intros H; simpl in H; try done; by apply not_elem_of_nil in H.
  - destruct Hstep as [t t' e Hs|t t' e Hs|t t' e Hs|t t' s Hs]; rewrite ?app_nil_r.
    + by eapply SetAnswered_inv.
    + by eapply SetClosed_inv_same.
    + by eapply Task_Reporting_inv.
    + unfold recv in Hs. destruct (tc_stateC t) as [s'|] eqn:E; simplify_eq/=.
      destruct IH as [ND HI HB HC HT HR]. unfold sent in *. rewrite E in *. simpl in *.
      split; unfold sent; simpl; rewrite ?app_nil_r; auto.
Qed.

(** ** Properties *)

(** C19. However the agent's calls and the receives interleave, a task channel sends
    "bridged" and "closed" at most once each and never "idle", it has sent them exactly when
    the task has its answer and close times, and a task that was reported is closed. *)
Theorem task_sends_once (id : string) (t : TaskChannel) (seen : list TaskState) :
  task_run id t seen ->
  NoDup (sent t seen) /\ (TaskStateIdle ∉ sent t seen) /\
  (TaskStateBridged ∈ sent t seen <-> Task_Answered t = true) /\
  (TaskStateClosed ∈ sent t seen <-> tc_closedAt t <> 0) /\
  (tc_reportingAt t <> 0 -> tc_closedAt t <> 0).
Proof.
  intros [ND HI HB HC HT HR]%task_run_inv. split_and!; [done|done| |done|done].
  rewrite HB. unfold Task_Answered. rewrite bool_decide_eq_true. lia.
Qed.

(** Once the receiver has seen the close, it is safe to stop receiving: of the calls
    that still come, at most one answer is sent and it never blocks; a second answer, a
    second close and every report return without sending. *)
Theorem task_no_block_after_close (id : string) (t : TaskChannel) (seen : list TaskState)
    (now : Z) :
  task_run id t seen -> TaskStateClosed ∈ seen -> 0 < now ->
  (exists e t', SetAnswered now t = Ret (e, t') /\
     (tc_bridgedAt t <> 0 -> e <> None /\ t' = t)) /\
  (exists e, SetClosed now t = Ret (Some e, t)) /\
  Task_Reporting now t = Ret (None, t <| tc_reportingAt := now |>).
Proof.
  intros [ND HI HB HC HT HR]%task_run_inv Hseen Hnow.
  assert (tc_closedAt t <> 0) as Hcl.
  { apply HC. unfold sent. apply elem_of_app. by left. }
  split_and!.
  - unfold SetAnswered. case_decide as Hd; [eexists _, _; split; [reflexivity|]; done|].
    unfold setState. simpl. destruct (tc_stateC t) as [s|] eqn:E; simpl.
    + exfalso. unfold sent in *. rewrite E in *. simpl in *.
      apply NoDup_app in ND as (_ & ND & _).
      destruct s.
      * apply HI, elem_of_app. right. left.
      * assert (tc_bridgedAt t <> 0); [|lia]. apply HB, elem_of_app. right. left.
      * apply (ND _ Hseen). left.
    + eexists _, _. split; [reflexivity|done].
  - unfold SetClosed. rewrite decide_True by done. by eexists.
  - unfold Task_Reporting. simpl. by rewrite decide_False.
Qed.

(** A run that answers, receives, closes and receives. *)
Definition demo_task : TaskChannel :=
  MkTaskChannel "7" TaskStateClosed None 1 2 3 0.

Lemma demo_task_run : task_run "7" demo_task [TaskStateBridged; TaskStateClosed].
Proof.
  apply (run_step "7" 4 OpRecv (MkTaskChannel "7" TaskStateClosed (Some TaskStateClosed) 1 2 3 0)
           demo_task [TaskStateClosed] [TaskStateBridged]);
    [|lia|by apply step_recv].
  apply (run_step "7" 3 OpClose (MkTaskChannel "7" TaskStateBridged None 1 2 0 0) _
           [] [TaskStateBridged]); [|lia|by apply (step_close _ _ _ None)].
  apply (run_step "7" 3 OpRecv (MkTaskChannel "7" TaskStateBridged (Some TaskStateBridged) 1 2 0 0) _
           [TaskStateBridged] []); [|lia|by apply step_recv].
  apply (run_step "7" 2 OpAnswer (NewTaskChannel 1 "7") _ [] []);
    [|lia|by apply (step_answer _ _ _ None)].
  apply (run_new _ 1).
Defined.

Lemma task_sends_once_witness :
  NoDup (sent demo_task [TaskStateBridged; TaskStateClosed]) /\
  TaskStateIdle ∉ sent demo_task [TaskStateBridged; TaskStateClosed].
Proof.
  destruct (task_sends_once "7" demo_task [TaskStateBridged; TaskStateClosed] demo_task_run) as (H & Hi & _).
  split; [exact H|exact Hi].
Defined.

Lemma task_no_block_after_close_witness :
  Task_Reporting 9 demo_task = Ret (None, demo_task <| tc_reportingAt := 9 |>).
Proof.
  apply (task_no_block_after_close "7" demo_task [TaskStateBridged; TaskStateClosed] 9).
  - exact demo_task_run.
  - right. left.
  - lia.
Defined.
