(* ===== verification/Resource.v ===== *)
(** * Outbound resources: queue/resource.go

    A resource with its gateway, and the error masks that decide whether a SIP code
    counts as a fault of the resource. Go strings are byte strings: [range] over a string
    and the conversion to []rune decode UTF-8, which is written out here because the mask
    is indexed by bytes and the code by runes. *)

From S2P Require Import Prelude Model.

(** ** UTF-8, as the language decodes it *)

Definition byte_of (a : ascii) : Z := Z.of_N (N_of_ascii a).

Definition bytes_of (s : string) : list Z := byte_of <$> String.list_ascii_of_string s.

Definition RuneError : Z := 65533.

Definition in_range (lo hi b : Z) : bool := (lo <=? b) && (b <=? hi).

Definition cont_bits (b : Z) : Z := Z.land b 63.

(** The first rune of a byte string with its width; an invalid encoding is [RuneError]
    of width 1. *)
Definition decode_rune (s : list Z) : Z * nat :=
  match s with
  | [] => (RuneError, 0%nat)
  | b0 :: r =>
      if b0 <? 128 then (b0, 1%nat)
      else match r with
           | b1 :: r1 =>
               if in_range 194 223 b0 && in_range 128 191 b1
               then (Z.lor (Z.shiftl (Z.land b0 31) 6) (cont_bits b1), 2%nat)
               else match r1 with
                    | b2 :: r2 =>
                        if in_range 224 239 b0
                           && in_range (if b0 =? 224 then 160 else 128)
                                (if b0 =? 237 then 159 else 191) b1
                           && in_range 128 191 b2
                        then (Z.lor (Z.shiftl (Z.land b0 15) 12)
                                (Z.lor (Z.shiftl (cont_bits b1) 6) (cont_bits b2)), 3%nat)
                        else match r2 with
                             | b3 :: _ =>
                                 if in_range 240 244 b0
                                    && in_range (if b0 =? 240 then 144 else 128)
                                         (if b0 =? 244 then 143 else 191) b1
                                    && in_range 128 191 b2 && in_range 128 191 b3
                                 then (Z.lor (Z.shiftl (Z.land b0 7) 18)
                                         (Z.lor (Z.shiftl (cont_bits b1) 12)
                                            (Z.lor (Z.shiftl (cont_bits b2) 6) (cont_bits b3))), 4%nat)
                                 else (RuneError, 1%nat)
                             | [] => (RuneError, 1%nat)
                             end
                    | [] => (RuneError, 1%nat)
                    end
           | [] => (RuneError, 1%nat)
           end
  end.

(** The pairs [for i, v := range s] goes through, [i] the byte offset. The fuel is the
    number of bytes, each rune takes at least one. *)
Fixpoint range_runes (fuel : nat) (i : nat) (s : list Z) : list (nat * Z) :=
  match fuel, s with
  | S fuel, _ :: _ =>
      let '(v, w) := decode_rune s in (i, v) :: range_runes fuel (i + w) (drop w s)
  | _, _ => []
  end.

Definition range_string (s : string) : list (nat * Z) :=
  range_runes (length (bytes_of s)) 0 (bytes_of s).

(** []rune(s) *)
Definition to_runes (s : string) : list Z := snd <$> range_string s.

(** ** Resources *)

Record Resource := MkResource {
  rs_id : Z;
  rs_updatedAt : Z;
  rs_name : string;
  rs_rps : Z;
  rs_variables : strmap;
  rs_displayNumbers : list string;
  rs_errorIds : option (list string);
  rs_successivelyErrors : Z;
  rs_maxSuccessivelyErrors : Z;
  rs_gateway : SipGateway;
}.

#[export] Instance eta_Resource : Eta Resource := fun r =>
  MkResource (rs_id r) (rs_updatedAt r) (rs_name r) (rs_rps r) (rs_variables r)
    (rs_displayNumbers r) (rs_errorIds r) (rs_successivelyErrors r)
    (rs_maxSuccessivelyErrors r) (rs_gateway r).

Definition NewResource (config : OutboundResource) (gw : SipGateway) : Resource := {|
  rs_id := or_Id config;
  rs_updatedAt := or_UpdatedAt config;
  rs_name := or_Name config;
  rs_rps := or_Rps config;
  rs_variables := or_Variables config;
  rs_displayNumbers := or_DisplayNumbers config;
  rs_errorIds := or_ErrorIds config;
  rs_successivelyErrors := or_SuccessivelyErrors config;
  rs_maxSuccessivelyErrors := or_MaxSuccessivelyErrors config;
  rs_gateway := gw <| gw_IgnoreEarlyMedia := (orp_IgnoreEarlyMedia (or_Parameters config)) |>
                   <| gw_SipCidType := (orp_SipCidType (or_Parameters config)) |> |}.

(** A resource with a limit waits for its turn; [wait] is the error of the limiter's Wait, whose
    context ends when the attempt is cancelled. *)
Definition Take (wait : option string) (r : Resource) : option AppError :=
  if decide (rs_rps r > 0)
  then (fun err => NewAppError "queue" "queue.take.cancelled" err 503) <$> wait
  else None.

(** [pick n] is the value [rand.Intn n] returns. *)
Definition GetDisplay (pick : Z -> Z) (r : Resource) : string :=
  match rs_displayNumbers r with
  | [] => ""
  | l => default "" (l !! Z.to_nat (pick (Z.of_nat (length l))))
  end.

Definition Resource_IsExpire (r : Resource) (updatedAt : Z) : bool :=
  bool_decide (rs_updatedAt r <> updatedAt).

Definition SetSuccessivelyErrors (se : Z) (r : Resource) : Resource :=
  r <| rs_successivelyErrors := se |>.

Definition Resource_Variables (r : Resource) : strmap :=
  UnionStringMaps [rs_variables r; SipGateway_Variables (rs_gateway r)].

Definition MASK_CHAR_UPPER : Z := 88.
Definition MASK_CHAR_LOWER : Z := 120.

(** The loop over the runes of the mask; an index past the code is a panic. *)
Fixpoint check_mask_loop (mask : list (nat * Z)) (code : list Z) : outcome bool :=
  match mask with
  | [] => Ret false
  | (i, v) :: mask =>
      if decide (v = MASK_CHAR_UPPER \/ v = MASK_CHAR_LOWER) then check_mask_loop mask code
      else match code !! i with
           | Some c => if decide (v <> c) then Ret true else check_mask_loop mask code
           | None => Panic "index out of range"
           end
  end.

Definition checkCodeMask (maskCode : string) (code : list Z) : outcome bool :=
  if decide (length (bytes_of maskCode) <> length code) then Ret false
  else check_mask_loop (range_string maskCode) code.

Fixpoint check_ids (ids : list string) (e : list Z) : outcome bool :=
  match ids with
  | [] => Ret false
  | v :: ids =>
      b ← checkCodeMask v e;
      if negb b then Ret true else check_ids ids e
  end.

Definition CheckCodeError (r : Resource) (errorCode : string) : outcome bool :=
  match rs_errorIds r with
  | None => Ret false
  | Some ids =>
      if decide (rs_maxSuccessivelyErrors r < 1) then Ret false
      else check_ids ids (to_runes errorCode)
  end.

(** ** Lemmas *)

Lemma decode_rune_width b s : (1 <= (decode_rune (b :: s)).2)%nat.
Proof. simpl. repeat case_match; simpl; lia. Qed.

Lemma range_runes_offsets fuel : forall i s j v,
  (j, v) ∈ range_runes fuel i s -> (i <= j < i + length s)%nat.
Proof.
  induction fuel as [|fuel IH]; intros i s j v; [by intros ?%not_elem_of_nil|].
  destruct s as [|b s]; [by intros ?%not_elem_of_nil|].
  cbn [range_runes]. pose proof (decode_rune_width b s) as Hw.
  destruct (decode_rune (b :: s)) as [r w] eqn:E. cbn [snd] in Hw.
  rewrite elem_of_cons. intros [?|Hj]; simplify_eq; [simpl; lia|].
  apply IH in Hj. rewrite length_drop in Hj. simpl in *. lia.
Qed.

Lemma check_mask_loop_no_panic mask code :
  (forall i v, (i, v) ∈ mask -> (i < length code)%nat) ->
  exists b, check_mask_loop mask code = Ret b.
Proof.
  induction mask as [|[i v] mask IH]; intros Hm; simpl; [by eexists|].
  assert (exists b, check_mask_loop mask code = Ret b) as IH'.
  { apply IH. intros. eapply Hm. by right. }
  case_decide; [done|].
  assert (i < length code)%nat as Hi by (eapply Hm; left).
  apply lookup_lt_is_Some in Hi as [c ->]. case_decide; [by eexists|done].
Qed.

(** On bytes below 128 decoding is the identity. *)
Definition ascii_bytes (s : list Z) : Prop := Forall (fun b => b < 128) s.

Lemma range_runes_ascii s : forall fuel i,
  ascii_bytes s -> (length s <= fuel)%nat ->
  range_runes fuel i s = imap (fun j b => ((i + j)%nat, b)) s.
Proof.
  induction s as [|b s IH]; intros fuel i Ha Hf; destruct fuel as [|fuel]; try done;
    [simpl in Hf; lia|].
  inversion Ha as [|? ? Hb Ha']. subst.
  cbn [range_runes decode_rune]. rewrite (proj2 (Z.ltb_lt b 128) Hb). simpl drop.
  rewrite drop_0, IH by (done || (simpl in Hf; lia)).
  cbn [imap]. f_equal; [f_equal; lia|]. apply imap_ext. intros j x _.
  unfold compose. f_equal. lia.
Qed.

Lemma to_runes_ascii s : ascii_bytes (bytes_of s) -> to_runes s = bytes_of s.
Proof.
  intros Ha. unfold to_runes, range_string. rewrite range_runes_ascii by done.
  apply list_eq. intros i. rewrite list_lookup_fmap, list_lookup_imap.
  by destruct (bytes_of s !! i).
Qed.

(** A mask fits a code: the same length, and every position of the mask is the digit of
    the code there or a wildcard. *)
Definition wildcard (v : Z) : Prop := v = MASK_CHAR_UPPER \/ v = MASK_CHAR_LOWER.

Definition mask_fits (mask code : list Z) : Prop :=
  Forall2 (fun m c => wildcard m \/ m = c) mask code.

Lemma check_mask_loop_ascii mask : forall pre code,
  length mask = length code ->
  check_mask_loop (imap (fun j b => ((length pre + j)%nat, b)) mask) (pre ++ code) =
  Ret (negb (bool_decide (Forall2 (fun m c => (m = MASK_CHAR_UPPER \/ m = MASK_CHAR_LOWER) \/ m = c)
                            mask code))).
Proof.
  induction mask as [|m mask IH]; intros pre code Hl; destruct code as [|c code]; try done.
  simpl in Hl. injection Hl as Hl.
  specialize (IH (pre ++ [c]) code Hl). rewrite <- app_assoc in IH. simpl in IH.
  cbn [imap check_mask_loop].
  assert (imap ((fun j b => ((length pre + j)%nat, b)) ∘ S) mask =
          imap (fun j b => ((length (pre ++ [c]) + j)%nat, b)) mask) as ->.
  { apply imap_ext. intros j x _. simpl. rewrite length_app. simpl. f_equal. lia. }
  rewrite Nat.add_0_r, list_lookup_middle by done.
  destruct (decide (m = MASK_CHAR_UPPER \/ m = MASK_CHAR_LOWER)) as [Hw|Hw].
  - rewrite IH. f_equal. f_equal. apply bool_decide_ext. rewrite Forall2_cons. tauto.
  - destruct (decide (m <> c)) as [Hc|Hc].
    + rewrite bool_decide_false; [done|]. rewrite Forall2_cons. tauto.
    + rewrite IH. f_equal. f_equal. apply bool_decide_ext. rewrite Forall2_cons. assert (m = c) by lia. tauto.
Qed.

Lemma checkCodeMask_total mask code : exists b, checkCodeMask mask code = Ret b.
Proof.
  unfold checkCodeMask. case_decide as Hd; [by eexists|].
  apply check_mask_loop_no_panic. intros i v Hi.
  apply range_runes_offsets in Hi. lia.
Qed.

Lemma checkCodeMask_ascii (mask : string) (code : list Z) :
  ascii_bytes (bytes_of mask) ->
  (checkCodeMask mask code = Ret true <->
   length (bytes_of mask) = length code /\ ~ mask_fits (bytes_of mask) code).
Proof.
  intros Ha. unfold checkCodeMask. case_decide as Hl; [naive_solver|].
  unfold range_string.
  rewrite range_runes_ascii by done.
  pose proof (check_mask_loop_ascii (bytes_of mask) [] code Hl) as Hloop.
  simpl in Hloop. simpl. rewrite Hloop.
  destruct (bool_decide _) eqn:E; simpl.
  - apply bool_decide_eq_true in E. naive_solver.
  - apply bool_decide_eq_false in E. naive_solver.
Qed.

Lemma check_ids_true ids e :
  check_ids ids e = Ret true <-> exists m, m ∈ ids /\ checkCodeMask m e <> Ret true.
Proof.
  induction ids as [|m ids IH]; simpl.
  - split; [done|]. intros (m & Hm & _). by apply not_elem_of_nil in Hm.
  - destruct (checkCodeMask_total m e) as [[] Eb]; rewrite Eb; simpl.
    + rewrite IH. split.
      * intros (m' & Hm & He). exists m'. split; [by right|done].
      * intros (m' & [->|Hm]%elem_of_cons & He); [done|]. by exists m'.
    + split; [|done]. intros _. exists m. split; [left|by rewrite Eb].
Qed.

Lemma check_ids_total ids e : exists b, check_ids ids e = Ret b.
Proof.
  induction ids as [|m ids IH]; simpl; [by eexists|].
  destruct (checkCodeMask_total m e) as [[] ->]; simpl; [done|by eexists].
Qed.

Lemma CheckCodeError_no_panic (r : Resource) (errorCode : string) :
  exists b, CheckCodeError r errorCode = Ret b.
Proof.
  unfold CheckCodeError. destruct (rs_errorIds r); [|by eexists].
  case_decide; [by eexists|]. apply check_ids_total.
Qed.

(** ** Properties *)

(** For masks and codes in ASCII: a code is an error of the resource exactly when the
    resource counts errors and some mask either fits the code or has another length. The
    check always returns. *)
Theorem CheckCodeError_spec (r : Resource) (errorCode : string) (ids : list string) :
  rs_errorIds r = Some ids ->
  ascii_bytes (bytes_of errorCode) -> Forall (fun m => ascii_bytes (bytes_of m)) ids ->
  (exists b, CheckCodeError r errorCode = Ret b) /\
  (CheckCodeError r errorCode = Ret true <->
   1 <= rs_maxSuccessivelyErrors r /\
   exists m, m ∈ ids /\
     (mask_fits (bytes_of m) (bytes_of errorCode) \/
      length (bytes_of m) <> length (bytes_of errorCode))).
Proof.
  intros Hids Hc Hm. split; [apply CheckCodeError_no_panic|]. unfold CheckCodeError. rewrite Hids, to_runes_ascii by done.
  case_decide as Hmax.
  - split; [done|lia].
  - rewrite check_ids_true. split.
    + intros (m & Hin & Hne). split; [lia|]. exists m. split; [done|].
      rewrite checkCodeMask_ascii in Hne by (by apply (proj1 (Forall_forall _ _) Hm)).
      destruct (decide (length (bytes_of m) = length (bytes_of errorCode))); [|by right].
      left. unfold mask_fits, wildcard in *.
      apply dec_stable. naive_solver.
    + intros (_ & m & Hin & Hor). exists m. split; [done|].
      rewrite checkCodeMask_ascii by (by apply (proj1 (Forall_forall _ _) Hm)).
      naive_solver.
Qed.

Definition demo_gateway : SipGateway := {|
  gw_Id := 1; gw_Name := "gw"; gw_UpdatedAt := 1; gw_Register := false; gw_Proxy := "p";
  gw_HostName := None; gw_UserName := None; gw_Account := None; gw_Password := None;
  gw_DomainId := 1; gw_UseBridgeAnswerTimeout := false; gw_SipCidType := "";
  gw_IgnoreEarlyMedia := "" |}.

Definition demo_resource : Resource := {|
  rs_id := 1; rs_updatedAt := 1; rs_name := "r"; rs_rps := 0; rs_variables := ∅;
  rs_displayNumbers := []; rs_errorIds := Some ["5XX"]; rs_successivelyErrors := 0;
  rs_maxSuccessivelyErrors := 3; rs_gateway := demo_gateway |}.

Lemma CheckCodeError_spec_witness : CheckCodeError demo_resource "503" = Ret true.
Proof.
  refine (proj2 (proj2 (CheckCodeError_spec demo_resource "503" ["5XX"] eq_refl _ _)) _).
  - vm_compute. repeat constructor.
  - repeat constructor.
  - split; [vm_compute; discriminate|]. exists "5XX". split; [left|]. left.
    unfold mask_fits, wildcard. vm_compute.
    constructor; [by right|]. do 2 (constructor; [left; by left|]). constructor.
Defined.
