(* ===== verification/Json.v ===== *)
(** * JSON, as encoding/json writes and reads it

    The settings of the queues, the destinations of attempts, the variables sent to the store
    and the errors of the gRPC interface are JSON texts. A text is the list of its bytes. [print]
    is json.Marshal of a value that is already taken apart, with the escapes of its strings;
    [parse] is the scanner and the unquoting of json.Unmarshal, without the assignment to a Go
    value, which the file Settings has. A number keeps its literal. *)

From S2P Require Import Prelude Model Resource.

#[local] Unset Elimination Schemes.

Inductive json :=
| JNull
| JBool (b : bool)
| JNum (lit : list Z)
| JStr (s : list Z)
| JArr (l : list json)
| JObj (l : list (list Z * json)).

#[local] Set Elimination Schemes.

(** ** Bytes *)

Definition quote : Z := 34.
Definition backslash : Z := 92.
Definition comma : Z := 44.
Definition colon : Z := 58.
Definition minus : Z := 45.
Definition zero_digit : Z := 48.

Definition string_of (l : list Z) : string :=
  String.string_of_list_ascii ((fun b => ascii_of_N (Z.to_N b)) <$> l).

Definition is_digit (c : Z) : bool := (48 <=? c) && (c <=? 57).

Definition hex (d : Z) : Z := if d <? 10 then 48 + d else 87 + d.

Definition unhex (c : Z) : option Z :=
  if is_digit c then Some (c - 48)
  else if (97 <=? c) && (c <=? 102) then Some (c - 87)
  else if (65 <=? c) && (c <=? 70) then Some (c - 55)
  else None.

(** utf8.EncodeRune *)
Definition encode_rune (v : Z) : list Z :=
  if (v <? 0) || (1114111 <? v) || ((55296 <=? v) && (v <=? 57343)) then [239; 191; 189]
  else if v <? 128 then [v]
  else if v <? 2048 then [192 + v / 64; 128 + v `mod` 64]
  else if v <? 65536 then [224 + v / 4096; 128 + (v / 64) `mod` 64; 128 + v `mod` 64]
  else [240 + v / 262144; 128 + (v / 4096) `mod` 64; 128 + (v / 64) `mod` 64; 128 + v `mod` 64].

(** ** Writing *)

(** The bytes below 128 that are copied: printable, and not one of the quote, the backslash and the
    characters that matter in HTML. *)
Definition html_safe (b : Z) : bool :=
  (32 <=? b) && (b <? 128) && negb ((b =? 34) || (b =? 92) || (b =? 60) || (b =? 62) || (b =? 38)).

Definition escape_byte (b : Z) : list Z :=
  if html_safe b then [b]
  else if (b =? 34) || (b =? 92) then [backslash; b]
  else if b =? 8 then [backslash; 98]
  else if b =? 12 then [backslash; 102]
  else if b =? 10 then [backslash; 110]
  else if b =? 13 then [backslash; 114]
  else if b =? 9 then [backslash; 116]
  else [backslash; 117; 48; 48; hex (b / 16); hex (b `mod` 16)].

(** The escapes of a string; the fuel is its length. *)
Fixpoint escape (fuel : nat) (s : list Z) : list Z :=
  match fuel, s with
  | S fuel, b :: _ =>
      if b <? 128 then escape_byte b ++ escape fuel (drop 1 s)
      else
        let '(v, w) := decode_rune s in
        (if decide (v = RuneError /\ w = 1%nat) then [backslash; 117; 102; 102; 102; 100]
         else if decide (v = 8232 \/ v = 8233) then [backslash; 117; 50; 48; 50; hex (v `mod` 16)]
         else take w s) ++ escape fuel (drop w s)
  | _, _ => []
  end.

Definition print_string (s : list Z) : list Z := quote :: escape (length s) s ++ [quote].

(** [sep x y z] is [x,y,z]. *)
Fixpoint sep (l : list (list Z)) : list Z :=
  match l with
  | [] => []
  | [x] => x
  | x :: l => x ++ comma :: sep l
  end.

Fixpoint print (v : json) : list Z :=
  match v with
  | JNull => bytes_of "null"
  | JBool true => bytes_of "true"
  | JBool false => bytes_of "false"
  | JNum lit => lit
  | JStr s => print_string s
  | JArr l => 91 :: sep (map print l) ++ [93]
  | JObj l => 123 :: sep (map (fun kv => print_string kv.1 ++ colon :: print kv.2) l) ++ [125]
  end.

(** ** Reading *)

Definition json_space (c : Z) : bool := (c =? 32) || (c =? 9) || (c =? 13) || (c =? 10).

Fixpoint skip (s : list Z) : list Z :=
  match s with
  | c :: r => if json_space c then skip r else s
  | [] => []
  end.

Definition getu4 (s : list Z) : option (Z * list Z) :=
  match s with
  | a :: b :: c :: d :: r =>
      match unhex a, unhex b, unhex c, unhex d with
      | Some a, Some b, Some c, Some d => Some (((a * 16 + b) * 16 + c) * 16 + d, r)
      | _, _, _, _ => None
      end
  | _ => None
  end.

Definition is_surrogate (v : Z) : bool := (55296 <=? v) && (v <=? 57343).

(** utf16.DecodeRune, [RuneError] if the two are no pair. *)
Definition utf16_pair (v1 v2 : Z) : Z :=
  if (55296 <=? v1) && (v1 <? 56320) && (56320 <=? v2) && (v2 <=? 57343)
  then (v1 - 55296) * 1024 + (v2 - 56320) + 65536 else RuneError.

(** The rune of an escape that starts after its u, and what is left. *)
Definition unicode_escape (s : list Z) : option (Z * list Z) :=
  match getu4 s with
  | None => None
  | Some (v, r) =>
      if is_surrogate v then
        match r with
        | b :: u :: r' =>
            if (b =? backslash) && (u =? 117) then
              match getu4 r' with
              | Some (v2, r'') => if decide (utf16_pair v v2 = RuneError) then Some (RuneError, r)
                                  else Some (utf16_pair v v2, r'')
              | None => Some (RuneError, r)
              end
            else Some (RuneError, r)
        | _ => Some (RuneError, r)
        end
      else Some (v, r)
  end.

(** The character of a short escape. *)
Definition short_escape (c : Z) : option Z :=
  if (c =? 34) || (c =? 92) || (c =? 47) then Some c
  else if c =? 98 then Some 8
  else if c =? 102 then Some 12
  else if c =? 110 then Some 10
  else if c =? 114 then Some 13
  else if c =? 116 then Some 9
  else None.

(** The string that starts after its quote, and what follows its end; the fuel is the length. *)
Fixpoint unquote (fuel : nat) (s : list Z) : option (list Z * list Z) :=
  match fuel, s with
  | S fuel, c :: r =>
      if c =? quote then Some ([], r)
      else if c =? backslash then
        match r with
        | e :: r =>
            if e =? 117 then
              '(v, r) ← unicode_escape r;
              '(t, r) ← unquote fuel r;
              Some (encode_rune v ++ t, r)
            else
              b ← short_escape e;
              '(t, r) ← unquote fuel r;
              Some (b :: t, r)
        | [] => None
        end
      else if c <? 32 then None
      else if c <? 128 then
        '(t, r) ← unquote fuel r;
        Some (c :: t, r)
      else
        let '(v, w) := decode_rune s in
        '(t, r) ← unquote fuel (drop w s);
        Some (encode_rune v ++ t, r)
  | _, _ => None
  end.

(** The digits a text starts with. *)
Fixpoint digits (s : list Z) : list Z * list Z :=
  match s with
  | c :: r => if is_digit c then let '(d, r) := digits r in (c :: d, r) else ([], s)
  | [] => ([], [])
  end.

(** A zero, or digits that do not start with it. *)
Definition scan_int (s : list Z) : option (list Z * list Z) :=
  match s with
  | c :: r =>
      if c =? zero_digit then Some ([c], r)
      else if is_digit c then let '(d, r) := digits r in Some (c :: d, r)
      else None
  | [] => None
  end.

(** A point and digits, or nothing. *)
Definition scan_frac (s : list Z) : option (list Z * list Z) :=
  match s with
  | c :: r =>
      if c =? 46 then
        match digits r with
        | ([], _) => None
        | (d, r) => Some (c :: d, r)
        end
      else Some ([], s)
  | [] => Some ([], [])
  end.

(** An exponent, or nothing. *)
Definition scan_exp (s : list Z) : option (list Z * list Z) :=
  match s with
  | c :: r =>
      if (c =? 101) || (c =? 69) then
        let '(sign, r) := match r with
                          | x :: r' => if (x =? 43) || (x =? minus) then ([x], r') else ([], r)
                          | [] => ([], [])
                          end in
        match digits r with
        | ([], _) => None
        | (d, r) => Some (c :: sign ++ d, r)
        end
      else Some ([], s)
  | [] => Some ([], [])
  end.

Definition scan_number (s : list Z) : option (list Z * list Z) :=
  let '(sign, s) := match s with
                    | c :: r => if c =? minus then ([c], r) else ([], s)
                    | [] => ([], [])
                    end in
  '(i, s) ← scan_int s;
  '(f, s) ← scan_frac s;
  '(e, s) ← scan_exp s;
  Some (sign ++ i ++ f ++ e, s).

Definition maxNestingDepth : Z := 10000.

(** The text after a prefix. *)
Fixpoint after_prefix (p s : list Z) : option (list Z) :=
  match p, s with
  | [], _ => Some s
  | a :: p, b :: s => if a =? b then after_prefix p s else None
  | _ :: _, [] => None
  end.

(** A literal whose first byte was read. *)
Definition literal (rest : string) (v : json) (s : list Z) : option (json * list Z) :=
  r ← after_prefix (bytes_of rest) s; Some (v, r).

(** [depth] is the number of arrays and objects around. The fuel bounds the recursion. *)
Fixpoint parse_value (fuel : nat) (depth : Z) (s : list Z) : option (json * list Z) :=
  match fuel with
  | O => None
  | S fuel =>
      match skip s with
      | [] => None
      | c :: r =>
          if c =? quote then '(t, r) ← unquote (length r) r; Some (JStr t, r)
          else if c =? 123 then
            if maxNestingDepth <=? depth then None
            else match skip r with
                 | x :: r' =>
                     if x =? 125 then Some (JObj [], r')
                     else '(l, r) ← parse_members fuel (depth + 1) r; Some (JObj l, r)
                 | [] => None
                 end
          else if c =? 91 then
            if maxNestingDepth <=? depth then None
            else match skip r with
                 | x :: r' =>
                     if x =? 93 then Some (JArr [], r')
                     else '(l, r) ← parse_elems fuel (depth + 1) r; Some (JArr l, r)
                 | [] => None
                 end
          else if c =? 116 then literal "rue" (JBool true) r
          else if c =? 102 then literal "alse" (JBool false) r
          else if c =? 110 then literal "ull" JNull r
          else '(lit, r) ← scan_number (c :: r); Some (JNum lit, r)
      end
  end
with parse_elems (fuel : nat) (depth : Z) (s : list Z) : option (list json * list Z) :=
  match fuel with
  | O => None
  | S fuel =>
      '(v, r) ← parse_value fuel depth s;
      match skip r with
      | c :: r =>
          if c =? comma then '(l, r) ← parse_elems fuel depth r; Some (v :: l, r)
          else if c =? 93 then Some ([v], r)
          else None
      | [] => None
      end
  end
with parse_members (fuel : nat) (depth : Z) (s : list Z) : option (list (list Z * json) * list Z) :=
  match fuel with
  | O => None
  | S fuel =>
      match skip s with
      | c :: r =>
          if c =? quote then
            '(k, r) ← unquote (length r) r;
            match skip r with
            | c :: r =>
                if c =? colon then
                  '(v, r) ← parse_value fuel depth r;
                  match skip r with
                  | c :: r =>
                      if c =? comma then '(l, r) ← parse_members fuel depth r; Some ((k, v) :: l, r)
                      else if c =? 125 then Some ([(k, v)], r)
                      else None
                  | [] => None
                  end
                else None
            | [] => None
            end
          else None
      | [] => None
      end
  end.

(** A whole text: one value with spaces around it. Every call of [parse_elems] and [parse_members]
    comes between two values, so that twice the length is enough fuel. *)
Definition parse_bytes (s : list Z) : option json :=
  match parse_value (S (2 * length s)) 0 s with
  | Some (v, r) => match skip r with [] => Some v | _ :: _ => None end
  | None => None
  end.

Definition parse (s : string) : option json := parse_bytes (bytes_of s).

Definition marshal (v : json) : string := string_of (print v).
