(* ===== verification/JsonFacts.v ===== *)
(** * What is written can be read

    [parse] reads what [print] writes, for every value whose numbers are JSON numbers; a string
    comes back with its invalid bytes replaced, and unchanged if it is UTF-8. The fuel of the
    parser is enough for every text. *)

From S2P Require Import Prelude Model Resource Json.

(** ** UTF-8 *)

Definition is_byte (b : Z) : Prop := 0 <= b < 256.

Lemma lor_add a b k : 0 <= k -> 0 <= b < 2 ^ k -> Z.lor (Z.shiftl a k) b = a * 2 ^ k + b.
Proof.
  intros Hk Hb. rewrite Z.shiftl_mul_pow2 by done. rewrite <- Z.add_lor_land.
  assert (Z.land (a * 2 ^ k) b = 0) as ->; [|lia].
  apply Z.bits_inj'. intros n Hn. rewrite Z.land_spec, Z.bits_0.
  destruct (decide (n < k)) as [Hlt|Hge].
  - by rewrite Z.mul_pow2_bits_low.
  - assert (Z.testbit b n = false) as ->; [|apply andb_false_r]. apply Z.testbit_false; [lia|].
    rewrite Z.div_small; [done|]. split; [lia|]. eapply Z.lt_le_trans; [apply Hb|]. apply Z.pow_le_mono_r; lia.
Qed.

Lemma land_ones_mod b k : 0 <= k -> Z.land b (2 ^ k - 1) = b `mod` 2 ^ k.
Proof. intros Hk. rewrite <- (Z.land_ones b k) by done. by rewrite Z.ones_equiv. Qed.

(** Arithmetic with quotients by constants. *)
#[local] Ltac qlia :=
  change (2 ^ 3) with 8 in *; change (2 ^ 4) with 16 in *; change (2 ^ 5) with 32 in *; change (2 ^ 6) with 64 in *;
  change (2 ^ 12) with 4096 in *; change (2 ^ 18) with 262144 in *; Z.to_euclidean_division_equations; lia.

(** A rune that was decoded is not the replacement of a byte that is no UTF-8. *)
Definition decoded (r : Z * nat) : Prop := ~ (r.1 = RuneError /\ r.2 = 1%nat).

#[local] Ltac ranges :=
  repeat match goal with
         | H : (_ && _) = true |- _ => apply andb_true_iff in H as [? ?]
         | H : in_range _ _ _ = true |- _ => unfold in_range in H
         | H : (_ <=? _) = true |- _ => apply Z.leb_le in H
         | H : (_ <? _) = true |- _ => apply Z.ltb_lt in H
         | H : (_ <? _) = false |- _ => apply Z.ltb_ge in H
         end.

(** The shapes of an encoding. *)
Inductive encoded : Z -> list Z -> Prop :=
| Enc1 b : 0 <= b < 128 -> encoded b [b]
| Enc2 b0 b1 : 194 <= b0 <= 223 -> 128 <= b1 <= 191 -> encoded ((b0 - 192) * 64 + (b1 - 128)) [b0; b1]
| Enc3 b0 b1 b2 : 224 <= b0 <= 239 -> 128 <= b1 <= 191 -> 128 <= b2 <= 191 ->
    (b0 = 224 -> 160 <= b1) -> (b0 = 237 -> b1 <= 159) ->
    encoded ((b0 - 224) * 4096 + (b1 - 128) * 64 + (b2 - 128)) [b0; b1; b2]
| Enc4 b0 b1 b2 b3 : 240 <= b0 <= 244 -> 128 <= b1 <= 191 -> 128 <= b2 <= 191 -> 128 <= b3 <= 191 ->
    (b0 = 240 -> 144 <= b1) -> (b0 = 244 -> b1 <= 143) ->
    encoded ((b0 - 240) * 262144 + (b1 - 128) * 4096 + (b2 - 128) * 64 + (b3 - 128)) [b0; b1; b2; b3].

Lemma cont_bits_sub b : 128 <= b <= 191 -> cont_bits b = b - 128.
Proof. intros H. unfold cont_bits. change 63 with (2 ^ 6 - 1). rewrite land_ones_mod by lia. qlia. Qed.

Lemma rune2 b0 b1 : 194 <= b0 <= 223 -> 128 <= b1 <= 191 ->
  Z.lor (Z.shiftl (Z.land b0 31) 6) (cont_bits b1) = (b0 - 192) * 64 + (b1 - 128).
Proof.
  intros H0 H1. rewrite cont_bits_sub by lia. change 31 with (2 ^ 5 - 1). rewrite land_ones_mod, lor_add by lia. qlia.
Qed.

Lemma rune3 b0 b1 b2 : 224 <= b0 <= 239 -> 128 <= b1 <= 191 -> 128 <= b2 <= 191 ->
  Z.lor (Z.shiftl (Z.land b0 15) 12) (Z.lor (Z.shiftl (cont_bits b1) 6) (cont_bits b2)) =
  (b0 - 224) * 4096 + (b1 - 128) * 64 + (b2 - 128).
Proof.
  intros H0 H1 H2. rewrite !cont_bits_sub by lia. change 15 with (2 ^ 4 - 1).
  rewrite land_ones_mod by lia. rewrite (lor_add (b1 - 128)) by qlia. rewrite lor_add by qlia. qlia.
Qed.

Lemma rune4 b0 b1 b2 b3 : 240 <= b0 <= 244 -> 128 <= b1 <= 191 -> 128 <= b2 <= 191 -> 128 <= b3 <= 191 ->
  Z.lor (Z.shiftl (Z.land b0 7) 18)
    (Z.lor (Z.shiftl (cont_bits b1) 12) (Z.lor (Z.shiftl (cont_bits b2) 6) (cont_bits b3))) =
  (b0 - 240) * 262144 + (b1 - 128) * 4096 + (b2 - 128) * 64 + (b3 - 128).
Proof.
  intros H0 H1 H2 H3. rewrite !cont_bits_sub by lia. change 7 with (2 ^ 3 - 1).
  rewrite land_ones_mod by lia. rewrite (lor_add (b2 - 128)) by qlia. rewrite (lor_add (b1 - 128)) by qlia.
  rewrite lor_add by qlia. qlia.
Qed.

Lemma in_range_true lo hi b : lo <= b <= hi -> in_range lo hi b = true.
Proof. intros H. unfold in_range. rewrite andb_true_iff, !Z.leb_le. lia. Qed.

Lemma in_range_false lo hi b : ~ lo <= b <= hi -> in_range lo hi b = false.
Proof. intros H. unfold in_range. rewrite andb_false_iff, !Z.leb_gt. lia. Qed.

Lemma decode_encoded s : Forall is_byte s -> s <> [] ->
  (exists v e r, s = e ++ r /\ encoded v e /\ decode_rune s = (v, length e)) \/ decode_rune s = (RuneError, 1%nat).
Proof.
  intros Hb Hs. destruct s as [|b0 s]; [done|]. apply Forall_cons in Hb as [Hb0 Hb]. cbn [decode_rune].
  destruct (b0 <? 128) eqn:E0; ranges.
  { left. exists b0, [b0], s. split_and!; [done| |done]. constructor. unfold is_byte in *. lia. }
  destruct s as [|b1 s]; [by right|]. destruct (in_range 194 223 b0 && in_range 128 191 b1) eqn:E1; ranges.
  { left. exists ((b0 - 192) * 64 + (b1 - 128)), [b0; b1], s. split_and!; [done|by constructor|]. by rewrite rune2. }
  destruct s as [|b2 s]; [by right|]. destruct (in_range 224 239 b0 && _ && _) eqn:E2; ranges.
  { left. exists ((b0 - 224) * 4096 + (b1 - 128) * 64 + (b2 - 128)), [b0; b1; b2], s.
    assert (128 <= b1 <= 191 /\ (b0 = 224 -> 160 <= b1) /\ (b0 = 237 -> b1 <= 159)) as (? & ? & ?).
    { destruct (Z.eqb_spec b0 224), (Z.eqb_spec b0 237); lia. }
    split_and!; [done|by constructor|]. by rewrite rune3. }
  destruct s as [|b3 s]; [by right|]. destruct (in_range 240 244 b0 && _ && _ && _) eqn:E3; ranges; [|by right].
  left. exists ((b0 - 240) * 262144 + (b1 - 128) * 4096 + (b2 - 128) * 64 + (b3 - 128)), [b0; b1; b2; b3], s.
  assert (128 <= b1 <= 191 /\ (b0 = 240 -> 144 <= b1) /\ (b0 = 244 -> b1 <= 143)) as (? & ? & ?).
  { destruct (Z.eqb_spec b0 240), (Z.eqb_spec b0 244); lia. }
  split_and!; [done|by constructor|]. by rewrite rune4.
Qed.

Lemma encode_encoded v e : encoded v e -> encode_rune v = e.
Proof.
  intros H. unfold encode_rune. destruct H;
    repeat match goal with |- context [if ?c then _ else _] => destruct c eqn:?H end;
    repeat match goal with
           | H : (_ || _) = true |- _ => apply orb_true_iff in H as [?|?]
           | H : (_ || _) = false |- _ => apply orb_false_iff in H as [? ?]
           | H : (_ && _) = false |- _ => apply andb_false_iff in H as [?|?]
           | H : (_ <=? _) = false |- _ => apply Z.leb_gt in H
           end; ranges; try (exfalso; lia); repeat f_equal; qlia.
Qed.

Lemma decode_again v e r : encoded v e -> decode_rune (e ++ r) = (v, length e).
Proof.
  intros H. destruct H as [b Hb|b0 b1 H0 H1|b0 b1 b2 H0 H1 H2 Ha Hz|b0 b1 b2 b3 H0 H1 H2 H3 Ha Hz]; cbn [app decode_rune length].
  - by rewrite (proj2 (Z.ltb_lt _ _)) by lia.
  - rewrite (proj2 (Z.ltb_ge _ _)) by lia. rewrite !in_range_true by lia. by rewrite rune2.
  - rewrite (proj2 (Z.ltb_ge _ _)) by lia. rewrite (in_range_false 194 223), (in_range_true 224 239) by lia. cbn [andb].
    rewrite (in_range_true _ _ b1), (in_range_true _ _ b2) by (destruct (Z.eqb_spec b0 224), (Z.eqb_spec b0 237); lia).
    by rewrite rune3.
  - rewrite (proj2 (Z.ltb_ge _ _)) by lia. rewrite (in_range_false 194 223), (in_range_false 224 239), (in_range_true 240 244) by lia.
    cbn [andb]. rewrite (in_range_true _ _ b1), (in_range_true _ _ b2), (in_range_true _ _ b3)
      by (destruct (Z.eqb_spec b0 240), (Z.eqb_spec b0 244); lia).
    by rewrite rune4.
Qed.

(** ** Strings *)

(** What a string becomes on its way through JSON: a byte that is no UTF-8 becomes the replacement
    character. *)
Fixpoint coerce (fuel : nat) (s : list Z) : list Z :=
  match fuel, s with
  | S fuel, _ :: _ => let '(v, w) := decode_rune s in encode_rune v ++ coerce fuel (drop w s)
  | _, _ => []
  end.

(** A string of encoded runes. *)
Inductive utf8 : list Z -> Prop :=
| utf8_nil : utf8 []
| utf8_app v e s : encoded v e -> utf8 s -> utf8 (e ++ s).

Lemma encoded_length v e : encoded v e -> (1 <= length e <= 4)%nat.
Proof. intros []; simpl; lia. Qed.

Lemma encoded_bytes v e : encoded v e -> Forall is_byte e.
Proof. intros []; repeat constructor; unfold is_byte in *; lia. Qed.

Lemma utf8_bytes s : utf8 s -> Forall is_byte s.
Proof. induction 1; [constructor|]. apply Forall_app. split; [by eapply encoded_bytes|done]. Qed.

Lemma coerce_utf8 s : utf8 s -> forall fuel, (length s <= fuel)%nat -> coerce fuel s = s.
Proof.
  induction 1 as [|v e s He Hs IH]; intros fuel Hf; [by destruct fuel|].
  pose proof (encoded_length _ _ He). rewrite length_app in Hf. destruct fuel as [|fuel]; [lia|].
  destruct (e ++ s) as [|b t] eqn:Ee; [by destruct e|]. cbn [coerce]. rewrite <- Ee.
  rewrite (decode_again v e s He), (encode_encoded v e He), drop_app_length. f_equal. apply IH. lia.
Qed.

Lemma unhex_hex d : 0 <= d < 16 -> unhex (hex d) = Some d.
Proof.
  intros Hd. assert (Forall (fun d => unhex (hex d) = Some d) (seqZ 0 16)) as Hall by (apply (bool_decide_unpack _); vm_compute; exact I).
  rewrite Forall_forall in Hall. apply Hall, elem_of_seqZ. lia.
Qed.

(** One step of [unquote]: a piece of text, what it stands for, and the rest. *)
Definition reads_as (p t : list Z) : Prop :=
  (1 <= length p)%nat /\ forall fuel r, unquote (S fuel) (p ++ r) = '(t', r') ← unquote fuel r; Some (t ++ t', r').

Lemma reads_raw b : html_safe b = true -> reads_as [b] [b].
Proof.
  unfold html_safe, reads_as. intros H. apply andb_true_iff in H as [H1 H2]. ranges.
  rewrite negb_true_iff in H2. repeat (apply orb_false_iff in H2 as [H2 ?H]).
  split; [simpl; lia|]. intros fuel r. cbn [app unquote]. unfold quote, backslash.
  rewrite H2, H5. rewrite (proj2 (Z.ltb_ge _ _)), (proj2 (Z.ltb_lt _ _)) by lia. done.
Qed.

Lemma reads_short e b : short_escape e = Some b -> reads_as [backslash; e] [b].
Proof.
  intros H. split; [simpl; lia|]. intros fuel r. cbn [app unquote].
  change (backslash =? quote) with false. change (backslash =? backslash) with true. cbn iota.
  assert ((e =? 117) = false) as ->.
  { destruct (Z.eqb_spec e 117) as [->|]; [by vm_compute in H|done]. }
  rewrite H. done.
Qed.

Lemma reads_u4 a b c d va vb vc vd :
  unhex a = Some va -> unhex b = Some vb -> unhex c = Some vc -> unhex d = Some vd ->
  is_surrogate (((va * 16 + vb) * 16 + vc) * 16 + vd) = false ->
  reads_as [backslash; 117; a; b; c; d] (encode_rune (((va * 16 + vb) * 16 + vc) * 16 + vd)).
Proof.
  intros Ha Hb Hc Hd Hs. split; [simpl; lia|]. intros fuel r. cbn [app unquote].
  change (backslash =? quote) with false. change (backslash =? backslash) with true. change (117 =? 117) with true. cbn iota.
  unfold unicode_escape, getu4. rewrite Ha, Hb, Hc, Hd, Hs. done.
Qed.

Lemma reads_rune v e : encoded v e -> 128 <= v -> reads_as e e.
Proof.
  intros He Hv. pose proof (encoded_length _ _ He). split; [lia|]. intros fuel r.
  assert (exists b t, e = b :: t /\ 128 <= b) as (b & t & Ee & Hb) by (inversion He; subst; eexists _, _; (split; [done|lia])).
  pose proof (decode_again v e r He) as Hd. pose proof (encode_encoded v e He) as Hn.
  assert (drop (length e) (e ++ r) = r) as Hdrop by apply drop_app_length.
  subst e. cbn [app] in *. cbn [unquote]. unfold quote, backslash.
  rewrite !(proj2 (Z.eqb_neq _ _)), !(proj2 (Z.ltb_ge _ _)) by lia. rewrite Hd. cbn zeta iota. rewrite Hdrop, Hn. done.
Qed.

Lemma escape_byte_reads b : 0 <= b < 128 -> reads_as (escape_byte b) [b].
Proof.
  intros Hb. unfold escape_byte. destruct (html_safe b) eqn:Eh; [by apply reads_raw|].
  destruct (_ || _) eqn:E1.
  { apply reads_short. apply orb_true_iff in E1 as [->%Z.eqb_eq| ->%Z.eqb_eq]; done. }
  destruct (b =? 8) eqn:E2; [apply Z.eqb_eq in E2 as ->; by apply reads_short|].
  destruct (b =? 12) eqn:E3; [apply Z.eqb_eq in E3 as ->; by apply reads_short|].
  destruct (b =? 10) eqn:E4; [apply Z.eqb_eq in E4 as ->; by apply reads_short|].
  destruct (b =? 13) eqn:E5; [apply Z.eqb_eq in E5 as ->; by apply reads_short|].
  destruct (b =? 9) eqn:E6; [apply Z.eqb_eq in E6 as ->; by apply reads_short|].
  assert (b = ((0 * 16 + 0) * 16 + b / 16) * 16 + b `mod` 16) as Eb by qlia.
  replace [b] with (encode_rune (((0 * 16 + 0) * 16 + b / 16) * 16 + b `mod` 16)).
  - apply reads_u4; [done|done|apply unhex_hex; qlia|apply unhex_hex; qlia|].
    rewrite <- Eb. unfold is_surrogate. rewrite (proj2 (Z.leb_gt _ _)) by lia. done.
  - rewrite <- Eb. apply encode_encoded. by constructor.
Qed.

(** The fuel of [unquote] only has to last. *)
Lemma unquote_escape n : forall s fuel rest, Forall is_byte s -> (length s <= n)%nat ->
  (length (escape n s) < fuel)%nat ->
  unquote fuel (escape n s ++ quote :: rest) = Some (coerce n s, rest).
Proof.
  induction n as [|n IH]; intros s fuel rest Hb Hl Hf.
  { destruct s; [|simpl in Hl; lia]. destruct fuel; [simpl in Hf; lia|]. done. }
  destruct s as [|b s]; [destruct fuel; [simpl in Hf; lia|done]|].
  assert (forall p t w, reads_as p t -> escape (S n) (b :: s) = p ++ escape n (drop w (b :: s)) ->
    coerce (S n) (b :: s) = t ++ coerce n (drop w (b :: s)) -> (1 <= w)%nat ->
    unquote fuel (escape (S n) (b :: s) ++ quote :: rest) = Some (coerce (S n) (b :: s), rest)) as Hstep.
  { intros p t w [Hp Hr] Ee Ec Hw. rewrite Ee, Ec in *. rewrite length_app in Hf. destruct fuel as [|fuel]; [lia|].
    rewrite <- app_assoc, Hr. rewrite IH; [done|by apply Forall_drop|rewrite length_drop; simpl in *; lia|lia]. }
  destruct (b <? 128) eqn:E; ranges.
  - apply (Hstep (escape_byte b) [b] 1%nat); [| | |lia].
    + apply escape_byte_reads. apply Forall_cons in Hb as [? _]. unfold is_byte in *. lia.
    + cbn [escape]. rewrite (proj2 (Z.ltb_lt _ _)) by done. done.
    + cbn [coerce decode_rune]. rewrite (proj2 (Z.ltb_lt _ _)) by done.
      rewrite (encode_encoded b [b]); [done|]. constructor. apply Forall_cons in Hb as [? _]. unfold is_byte in *. lia.
  - destruct (decode_encoded (b :: s) Hb) as [(v & e & r & Es & He & Hd)|Hd]; [done| |].
    + assert (128 <= v) as Hv by (clear -He Es E; destruct He; simplify_eq/=; lia).
      pose proof (encoded_length _ _ He).
      destruct (decide (v = 8232 \/ v = 8233)) as [Hu|Hu].
      * apply (Hstep [backslash; 117; 50; 48; 50; hex (v `mod` 16)] (encode_rune v) (length e)); [| | |lia].
        -- assert (v = ((2 * 16 + 0) * 16 + 2) * 16 + v `mod` 16) as Ev by qlia. rewrite Ev at 2.
           apply reads_u4; [done..|apply unhex_hex; qlia|]. rewrite <- Ev. by destruct Hu as [-> | ->].
        -- cbn [escape]. rewrite (proj2 (Z.ltb_ge _ _)), Hd by done. rewrite decide_False by (unfold RuneError; lia).
           by rewrite decide_True.
        -- cbn [coerce]. by rewrite Hd.
      * apply (Hstep e e (length e)); [by eapply reads_rune| | |lia].
        -- cbn [escape]. rewrite (proj2 (Z.ltb_ge _ _)), Hd by done. rewrite decide_False, (decide_False (P := _ \/ _)); [|done|].
           ++ f_equal. rewrite Es. by rewrite take_app_length.
           ++ intros [Ev Hw]. inversion He; subst; simplify_eq; simpl in Hw; lia.
        -- cbn [coerce]. rewrite Hd, (encode_encoded v e He). done.
    + apply (Hstep [backslash; 117; 102; 102; 102; 100] (encode_rune RuneError) 1%nat);
        [exact (reads_u4 102 102 102 100 15 15 15 13 eq_refl eq_refl eq_refl eq_refl eq_refl)| | |lia].
      * cbn [escape]. rewrite (proj2 (Z.ltb_ge _ _)), Hd by done. by rewrite decide_True.
      * cbn [coerce]. by rewrite Hd.
Qed.

(** A string that was written is read up to its quote. *)
Lemma unquote_print s rest : Forall is_byte s ->
  unquote (length (escape (length s) s ++ quote :: rest)) (escape (length s) s ++ quote :: rest) = Some (coerce (length s) s, rest).
Proof. intros Hb. apply unquote_escape; [done|done|]. rewrite length_app. simpl. lia. Qed.

(** ** Numbers *)

(** The text after a number ends it. *)
Definition ends_number (r : list Z) : Prop :=
  match r with
  | c :: _ => is_digit c = false /\ c <> 46 /\ c <> 101 /\ c <> 69
  | [] => True
  end.

(** A literal of a number: the scanner takes all of it. *)
Definition number (lit : list Z) : Prop := scan_number lit = Some (lit, []).

Section Number.
Context (r : list Z) (Hr : ends_number r).

Lemma digits_app s d rest : digits s = (d, rest) -> digits (s ++ r) = (d, rest ++ r).
Proof.
  revert d. induction s as [|c s IH]; intros d Hd; simpl in Hd.
  - injection Hd as <- <-. destruct r as [|c r']; [done|]. destruct Hr as (Hc & _). simpl. by rewrite Hc.
  - simpl. destruct (is_digit c); [|by injection Hd as <- <-].
    destruct (digits s) as [d' r'] eqn:Es. injection Hd as <- <-. by rewrite (IH d' eq_refl).
Qed.

Lemma scan_int_app s t rest : scan_int s = Some (t, rest) -> scan_int (s ++ r) = Some (t, rest ++ r).
Proof.
  destruct s as [|c s]; [done|]. simpl. destruct (c =? zero_digit); [by intros [= <- <-]|]. destruct (is_digit c); [|done].
  destruct (digits s) as [d r'] eqn:E. intros [= <- <-]. by rewrite (digits_app s d r' E).
Qed.

Lemma scan_frac_app s t rest : scan_frac s = Some (t, rest) -> scan_frac (s ++ r) = Some (t, rest ++ r).
Proof.
  destruct s as [|c s]; simpl.
  - intros [= <- <-]. destruct r as [|c r']; [done|]. destruct Hr as (_ & H & _). simpl. by rewrite (proj2 (Z.eqb_neq _ _) H).
  - destruct (c =? 46); [|by intros [= <- <-]]. destruct (digits s) as [d r'] eqn:E. rewrite (digits_app s d r' E).
    destruct d; [done|]. by intros [= <- <-].
Qed.

Lemma scan_exp_app s t rest : scan_exp s = Some (t, rest) -> scan_exp (s ++ r) = Some (t, rest ++ r).
Proof.
  destruct s as [|c s]; simpl.
  - intros [= <- <-]. destruct r as [|c r']; [done|]. destruct Hr as (_ & _ & H1 & H2). simpl.
    by rewrite (proj2 (Z.eqb_neq _ _) H1), (proj2 (Z.eqb_neq _ _) H2).
  - destruct (_ || _); [|by intros [= <- <-]]. destruct s as [|x s]; [done|]. cbn [app].
    destruct ((x =? 43) || (x =? minus)).
    + destruct (digits s) as [d r'] eqn:E. rewrite (digits_app s d r' E). destruct d; [done|]. by intros [= <- <-].
    + destruct (digits (x :: s)) as [d r'] eqn:E. change (x :: s ++ r) with ((x :: s) ++ r).
      rewrite (digits_app (x :: s) d r' E).
      destruct d; [done|]. by intros [= <- <-].
Qed.

Lemma scan_number_app s t rest : scan_number s = Some (t, rest) -> scan_number (s ++ r) = Some (t, rest ++ r).
Proof.
  unfold scan_number. destruct s as [|c s]; [done|]. cbn [app].
  assert (forall sign u, ('(i, s) ← scan_int u; '(f, s) ← scan_frac s; '(e, s) ← scan_exp s; Some (sign ++ i ++ f ++ e, s)) = Some (t, rest) ->
    ('(i, s) ← scan_int (u ++ r); '(f, s) ← scan_frac s; '(e, s) ← scan_exp s; Some (sign ++ i ++ f ++ e, s)) = Some (t, rest ++ r)) as H.
  { intros sign u. destruct (scan_int u) as [[i s1]|] eqn:E1; [|done]. cbn. destruct (scan_frac s1) as [[f s2]|] eqn:E2; [|done].
    cbn. destruct (scan_exp s2) as [[e s3]|] eqn:E3; [|done]. cbn. intros [= <- <-].
    rewrite (scan_int_app _ _ _ E1). cbn. rewrite (scan_frac_app _ _ _ E2). cbn. by rewrite (scan_exp_app _ _ _ E3). }
  destruct (c =? minus); [apply (H [c] s)|apply (H [] (c :: s))].
Qed.

End Number.

(** The scanner reads a number that was written. *)
Lemma scan_number_print lit r : number lit -> ends_number r -> scan_number (lit ++ r) = Some (lit, r).
Proof. intros Hn Hr. apply (scan_number_app r Hr lit lit [] Hn). Qed.

(** A number starts with a digit or a sign. *)
Lemma number_head lit : number lit -> exists c t, lit = c :: t /\ (is_digit c = true \/ c = minus).
Proof.
  unfold number, scan_number. destruct lit as [|c t]; [done|]. intros H. exists c, t. split; [done|].
  destruct (Z.eqb_spec c minus) as [->|Hc]; [by right|]. left. simpl in H.
  destruct (Z.eqb_spec c zero_digit) as [->|]; [done|]. by destruct (is_digit c).
Qed.

(** ** Values *)

Section JsonInd.
Context (P : json -> Prop) (HN : P JNull) (HB : forall b, P (JBool b)) (HM : forall n, P (JNum n)) (HS : forall s, P (JStr s))
  (HA : forall l, Forall P l -> P (JArr l)) (HO : forall l, Forall (fun kv => P kv.2) l -> P (JObj l)).

Fixpoint json_nested_ind (v : json) : P v :=
  match v with
  | JNull => HN
  | JBool b => HB b
  | JNum n => HM n
  | JStr s => HS s
  | JArr l => HA l ((fix go l : Forall P l :=
      match l with [] => Forall_nil_2 _ | x :: l => Forall_cons_2 _ _ _ (json_nested_ind x) (go l) end) l)
  | JObj l => HO l ((fix go l : Forall (fun kv => P kv.2) l :=
      match l with [] => Forall_nil_2 _ | x :: l => Forall_cons_2 _ _ _ (json_nested_ind x.2) (go l) end) l)
  end.

End JsonInd.

#[local] Unset Elimination Schemes.

(** A value whose numbers are JSON numbers and whose strings are bytes. *)
Inductive json_ok : json -> Prop :=
| OkNull : json_ok JNull
| OkBool b : json_ok (JBool b)
| OkNum lit : number lit -> json_ok (JNum lit)
| OkStr s : Forall is_byte s -> json_ok (JStr s)
| OkArr l : Forall json_ok l -> json_ok (JArr l)
| OkObj l : Forall (fun kv => Forall is_byte kv.1 /\ json_ok kv.2) l -> json_ok (JObj l).

#[local] Set Elimination Schemes.

(** What a value becomes on its way through JSON. *)
Fixpoint coerced (v : json) : json :=
  match v with
  | JStr s => JStr (coerce (length s) s)
  | JArr l => JArr (map coerced l)
  | JObj l => JObj (map (fun kv => (coerce (length kv.1) kv.1, coerced kv.2)) l)
  | _ => v
  end.

(** The arrays and objects on the longest way into a value. *)
Fixpoint nesting (v : json) : Z :=
  match v with
  | JArr l => 1 + foldr (fun x m => nesting x `max` m) 0 l
  | JObj l => 1 + foldr (fun kv m => nesting kv.2 `max` m) 0 l
  | _ => 0
  end.

(** The fuel that a value needs. *)
Fixpoint needs (v : json) : nat :=
  match v with
  | JArr l => S (foldr (fun x m => S (needs x `max` m)) 0%nat l)
  | JObj l => S (foldr (fun kv m => S (needs kv.2 `max` m)) 0%nat l)
  | _ => 1%nat
  end.

Lemma nesting_arr l : 1 <= nesting (JArr l).
Proof. simpl. induction l; simpl; lia. Qed.

Lemma nesting_obj l : 1 <= nesting (JObj l).
Proof. simpl. induction l; simpl; lia. Qed.

(** The first byte of a value: no space, and no closing bracket. *)
Definition starts_value (c : Z) : Prop := json_space c = false /\ c <> 93 /\ c <> 125.

Lemma print_head v : json_ok v -> exists c t, print v = c :: t /\ starts_value c.
Proof.
  intros H. destruct H as [|b|lit Hn|s _|l _|l _]; [..|eexists _, _; by split|eexists _, _; by split|eexists _, _; by split].
  - eexists _, _. by split.
  - destruct b; eexists _, _; by split.
  - destruct (number_head lit Hn) as (c & t & -> & Hc). exists c, t. split; [done|].
    unfold starts_value, json_space. destruct Hc as [Hc| ->]; [|done]. unfold is_digit in Hc. ranges.
    rewrite !(proj2 (Z.eqb_neq _ _)) by lia. split_and!; [done|lia..].
Qed.

Lemma skip_head c t : json_space c = false -> skip (c :: t) = c :: t.
Proof. intros H. simpl. by rewrite H. Qed.

Lemma print_string_app k r : print_string k ++ r = quote :: escape (length k) k ++ quote :: r.
Proof. unfold print_string. cbn [app]. by rewrite <- app_assoc. Qed.

Lemma sep_cons x l : l <> [] -> sep (x :: l) = x ++ comma :: sep l.
Proof. by destruct l. Qed.

#[local] Arguments Z.eqb : simpl never.
#[local] Arguments Z.leb : simpl never.

Lemma parse_elems_print l : l <> [] -> Forall json_ok l ->
  Forall (fun v => json_ok v -> forall fuel d r, (needs v <= fuel)%nat -> d + nesting v <= maxNestingDepth -> ends_number r ->
    parse_value fuel d (print v ++ r) = Some (coerced v, r)) l ->
  forall fuel d r, (foldr (fun x m => S (needs x `max` m)) 0 l <= fuel)%nat ->
    d + foldr (fun x m => nesting x `max` m) 0 l <= maxNestingDepth ->
    parse_elems fuel d (sep (map print l) ++ 93 :: r) = Some (map coerced l, r).
Proof.
  induction l as [|v l IH]; [done|]. intros _ Hok Hp fuel d r Hf Hd.
  apply Forall_cons in Hok as [Hv Hok]. apply Forall_cons in Hp as [Hpv Hp]. simpl in Hf, Hd.
  destruct fuel as [|fuel]; [lia|]. cbn [parse_elems]. destruct l as [|v' l].
  - cbn [map sep]. rewrite (Hpv Hv); [|lia..|done]. done.
  - cbn [map]. rewrite sep_cons by done. rewrite <- app_assoc. cbn [app]. rewrite (Hpv Hv); [|lia..|done].
    cbn [mbind option_bind]. rewrite skip_head by done. change (comma =? comma) with true. cbn iota.
    rewrite (IH ltac:(done) Hok Hp); [done|lia..].
Qed.

Lemma parse_members_print l : l <> [] -> Forall (fun kv => Forall is_byte kv.1 /\ json_ok kv.2) l ->
  Forall (fun kv => json_ok kv.2 -> forall fuel d r, (needs kv.2 <= fuel)%nat -> d + nesting kv.2 <= maxNestingDepth -> ends_number r ->
    parse_value fuel d (print kv.2 ++ r) = Some (coerced kv.2, r)) l ->
  forall fuel d r, (foldr (fun kv m => S (needs kv.2 `max` m)) 0 l <= fuel)%nat ->
    d + foldr (fun kv m => nesting kv.2 `max` m) 0 l <= maxNestingDepth ->
    parse_members fuel d (sep (map (fun kv => print_string kv.1 ++ colon :: print kv.2) l) ++ 125 :: r) =
      Some (map (fun kv => (coerce (length kv.1) kv.1, coerced kv.2)) l, r).
Proof.
  induction l as [|[k v] l IH]; [done|]. intros _ Hok Hp fuel d r Hf Hd.
  apply Forall_cons in Hok as [[Hk Hv] Hok]. apply Forall_cons in Hp as [Hpv Hp]. simpl in Hf, Hd, Hk, Hv, Hpv.
  destruct fuel as [|fuel]; [lia|]. destruct l as [|v' l].
  - cbn [map sep fst snd]. rewrite <- app_assoc, print_string_app. cbn [app parse_members].
    rewrite skip_head by done. change (quote =? quote) with true. cbn iota. rewrite unquote_print by done. cbn [mbind option_bind].
    rewrite skip_head by done. change (colon =? colon) with true. cbn iota. rewrite (Hpv Hv); [|lia..|done]. done.
  - cbn [map]. rewrite sep_cons by done. cbn [fst snd]. rewrite <- !app_assoc, print_string_app. cbn [app parse_members].
    rewrite skip_head by done. change (quote =? quote) with true. cbn iota. rewrite unquote_print by done. cbn [mbind option_bind].
    rewrite skip_head by done. change (colon =? colon) with true. cbn iota.
    rewrite <- ?app_assoc. cbn [app]. rewrite (Hpv Hv); [|lia..|done].
    cbn [mbind option_bind]. rewrite skip_head by done. change (comma =? comma) with true. cbn iota.
    rewrite (IH ltac:(done) Hok Hp); [done|lia..].
Qed.

Lemma skip_print v r : json_ok v -> exists c t, print v ++ r = c :: t /\ skip (c :: t) = c :: t /\ starts_value c.
Proof.
  intros Hv. destruct (print_head v Hv) as (c & t & E & Hc). exists c, (t ++ r). rewrite E. split; [done|].
  split; [|done]. by apply skip_head, Hc.
Qed.

(** The value that was written is read, up to where it ends. *)
Lemma parse_value_print v : json_ok v -> forall fuel d r,
  (needs v <= fuel)%nat -> d + nesting v <= maxNestingDepth -> ends_number r ->
  parse_value fuel d (print v ++ r) = Some (coerced v, r).
Proof.
  induction v as [|b|lit|s|l IH|l IH] using json_nested_ind; intros Hok fuel d r Hf Hd Hr;
    (destruct fuel as [|fuel]; [simpl in Hf; lia|]); inversion Hok as [| | | |? Hl|? Hl]; subst.
  - done.
  - by destruct b.
  - destruct (number_head lit) as (c & t & -> & Hc); [done|]. cbn [print app parse_value].
    destruct (skip_print (JNum (c :: t)) r Hok) as (c' & t' & E & Es & Hs). cbn [print app] in E. injection E as <- <-. rewrite Es.
    assert (c <> quote /\ c <> 123 /\ c <> 91 /\ c <> 116 /\ c <> 102 /\ c <> 110) as (?&?&?&?&?&?).
    { unfold is_digit, minus, quote in *. destruct Hc as [Hc| ->]; [ranges|]; lia. }
    rewrite !(proj2 (Z.eqb_neq _ _)) by done.
    pose proof (scan_number_print (c :: t) r) as En. cbn [app] in En. by rewrite En.
  - cbn [print]. rewrite print_string_app. cbn [parse_value]. rewrite skip_head by done.
    change (quote =? quote) with true. cbn iota. by rewrite unquote_print.
  - cbn [print app]. cbn [parse_value]. rewrite skip_head by done. change (91 =? quote) with false. change (91 =? 123) with false.
    change (91 =? 91) with true. cbn iota. simpl in Hf, Hd. pose proof (nesting_arr l) as Hn.
    rewrite (proj2 (Z.leb_gt _ _)) by (simpl in Hn; lia). rewrite <- app_assoc. cbn [app].
    destruct l as [|v l]; [done|].
    assert (exists c t, sep (map print (v :: l)) ++ 93 :: r = c :: t /\ starts_value c) as (c & t & E & Hs).
    { apply Forall_cons in Hl as [Hv _]. destruct (print_head v Hv) as (c & t & E & Hs). exists c. cbn [map].
      destruct l as [|v' l]; cbn [map sep]; rewrite E; cbn [app]; by eexists. }
    rewrite E, skip_head, (proj2 (Z.eqb_neq c 93)) by apply Hs. rewrite <- E.
    rewrite (parse_elems_print (v :: l)); [done|done|done|done|lia|lia].
  - cbn [print app]. cbn [parse_value]. rewrite skip_head by done. change (123 =? quote) with false.
    change (123 =? 123) with true. cbn iota. simpl in Hf, Hd. pose proof (nesting_obj l) as Hn.
    rewrite (proj2 (Z.leb_gt _ _)) by (simpl in Hn; lia). rewrite <- app_assoc. cbn [app].
    destruct l as [|[k v] l]; [done|].
    assert (exists t, sep (map (fun kv => print_string kv.1 ++ colon :: print kv.2) ((k, v) :: l)) ++ 125 :: r = quote :: t) as (t & E).
    { cbn [map]. destruct l as [|v' l]; cbn [map sep]; unfold print_string at 1; cbn [app]; by eexists. }
    rewrite E, skip_head by done. change (quote =? 125) with false. cbn iota. rewrite <- E.
    rewrite (parse_members_print ((k, v) :: l)); [done|done|done|done|lia|lia].
Qed.

(** The fuel of [parse_bytes] is enough. *)
Lemma needs_print v : json_ok v -> (needs v <= 2 * length (print v))%nat.
Proof.
  induction v as [|b|lit|s|l IH|l IH] using json_nested_ind; intros Hok; inversion Hok as [| |? Hn| |? Hl|? Hl]; subst; cbn [needs print length].
  - simpl. lia.
  - destruct b; simpl; lia.
  - destruct (number_head lit Hn) as (c & t & -> & _). simpl. lia.
  - simpl. lia.
  - rewrite length_app. cbn [length]. assert (foldr (fun x m => S (needs x `max` m)) 0 l <= S (2 * length (sep (map print l))))%nat; [|lia].
    clear Hok. induction l as [|v l IHl]; [simpl; lia|]. apply Forall_cons in IH as [Hv IH]. apply Forall_cons in Hl as [Hv' Hl].
    specialize (Hv Hv'). specialize (IHl IH Hl). cbn [foldr map]. destruct l as [|v' l]; [simpl; lia|].
    rewrite sep_cons, length_app by done. cbn [length]. lia.
  - rewrite length_app. cbn [length].
    assert (foldr (fun kv m => S (needs kv.2 `max` m)) 0 l <= S (2 * length (sep (map (fun kv => print_string kv.1 ++ colon :: print kv.2) l))))%nat; [|lia].
    clear Hok. induction l as [|[k v] l IHl]; [simpl; lia|]. apply Forall_cons in IH as [Hv IH]. apply Forall_cons in Hl as [[_ Hv'] Hl].
    specialize (Hv Hv'). specialize (IHl IH Hl). simpl in Hv. cbn [foldr map fst snd]. destruct l as [|v' l].
    + cbn [map sep foldr]. rewrite length_app. cbn [length]. lia.
    + rewrite sep_cons, length_app by done. rewrite length_app. cbn [length]. lia.
Qed.

Lemma parse_bytes_print v : json_ok v -> nesting v <= maxNestingDepth -> parse_bytes (print v) = Some (coerced v).
Proof.
  intros Hv Hd. unfold parse_bytes. pose proof (needs_print v Hv).
  pose proof (parse_value_print v Hv (S (2 * length (print v))) 0 []) as E. rewrite app_nil_r in E.
  by rewrite E by (done || lia).
Qed.

(** ** Fuel *)

(** [shrinks s r]: [r] is shorter than [s] if it is there. *)
Definition shrinks {A} (s : list Z) (o : option (A * list Z)) : Prop :=
  match o with Some (_, r) => (length r < length s)%nat | None => True end.

Lemma shrinks_bind {A B} s s' (o : option (A * list Z)) (f : A * list Z -> option (B * list Z)) :
  shrinks s o -> (forall a r, (length r < length s)%nat -> shrinks s' (f (a, r))) -> shrinks s' (o ≫= f).
Proof. intros Ho Hf. destruct o as [[a r]|]; [|done]. apply Hf, Ho. Qed.

Lemma shrinks_weaken {A} s s' (o : option (A * list Z)) : shrinks s o -> (length s <= length s')%nat -> shrinks s' o.
Proof. destruct o as [[a r]|]; [|done]. simpl. lia. Qed.

Lemma skip_length s : (length (skip s) <= length s)%nat.
Proof. induction s as [|c s IH]; [done|]. simpl. destruct (json_space c); simpl; lia. Qed.

Lemma getu4_length s v r : getu4 s = Some (v, r) -> (length r < length s)%nat.
Proof.
  destruct s as [|a [|b [|c [|d s]]]]; try done. simpl.
  destruct (unhex a), (unhex b), (unhex c), (unhex d); try done. intros [= _ <-]. lia.
Qed.

Lemma unicode_escape_length s v r : unicode_escape s = Some (v, r) -> (length r < length s)%nat.
Proof.
  unfold unicode_escape. destruct (getu4 s) as [[v1 r1]|] eqn:E; [|done]. apply getu4_length in E.
  destruct (is_surrogate v1); [|by intros [= _ <-]]. destruct r1 as [|b [|u r1]]; [by intros [= _ <-]..|].
  destruct (_ && _); [|by intros [= _ <-]]. destruct (getu4 r1) as [[v2 r2]|] eqn:E2; [|by intros [= _ <-]].
  apply getu4_length in E2. case_decide; intros [= _ <-]; simpl in *; lia.
Qed.

Lemma unquote_shrinks fuel : forall s, shrinks s (unquote fuel s).
Proof.
  induction fuel as [|fuel IH]; intros s; [done|]. destruct s as [|c r]; [done|]. cbn [unquote].
  destruct (c =? quote); [simpl; lia|]. destruct (c =? backslash).
  - destruct r as [|e r]; [done|]. destruct (e =? 117).
    + destruct (unicode_escape r) as [[v r1]|] eqn:E; [|done]. apply unicode_escape_length in E.
      cbn [mbind option_bind]. apply (shrinks_bind r1); [apply IH|]. simpl. lia.
    + destruct (short_escape e); [|done]. cbn [mbind option_bind]. apply (shrinks_bind r); [apply IH|]. simpl. lia.
  - destruct (c <? 32); [done|]. destruct (c <? 128); [apply (shrinks_bind r); [apply IH|simpl; lia]|].
    pose proof (decode_rune_width c r) as Hw. destruct (decode_rune (c :: r)) as [v w]. simpl in Hw.
    apply (shrinks_bind (drop w (c :: r))); [apply IH|]. intros t r' Hr. rewrite length_drop in Hr. simpl in *. lia.
Qed.

Lemma digits_length s : (length (digits s).2 <= length s)%nat.
Proof. induction s as [|c s IH]; [done|]. simpl. destruct (is_digit c); [|done]. destruct (digits s). simpl in *. lia. Qed.

Lemma scan_number_shrinks s : shrinks s (scan_number s).
Proof.
  assert (forall s, shrinks s (scan_int s)) as Hi.
  { intros [|c t]; [done|]. simpl. destruct (c =? zero_digit); [simpl; lia|]. destruct (is_digit c); [|done].
    pose proof (digits_length t). destruct (digits t). simpl in *. lia. }
  assert (forall s t r, scan_frac s = Some (t, r) -> (length r <= length s)%nat) as Hf.
  { intros [|c t] t' r; simpl; [by intros [= _ <-]|]. destruct (c =? 46); [|by intros [= _ <-]].
    pose proof (digits_length t). destruct (digits t) as [[|d ds] r']; [done|]. intros [= _ <-]. simpl in *. lia. }
  assert (forall s t r, scan_exp s = Some (t, r) -> (length r <= length s)%nat) as He.
  { intros [|c t] t' r; simpl; [by intros [= _ <-]|]. destruct (_ || _); [|by intros [= _ <-]].
    assert (forall (sg : list Z) u, (length u <= length t)%nat ->
      (match digits u with ([], _) => None | (d, r) => Some (c :: sg ++ d, r) end) = Some (t', r) -> (length r <= S (length t))%nat) as H.
    { intros sg u Hu. pose proof (digits_length u). destruct (digits u) as [[|d ds] r']; [done|]. intros [= _ <-]. simpl in *. lia. }
    destruct t as [|x t]; [by apply H|]. destruct (_ || _); apply H; simpl; lia. }
  unfold scan_number. destruct s as [|c s]; [done|].
  assert (forall (sg : list Z) u, (length u <= length (c :: s))%nat ->
    shrinks (c :: s) ('(i, s) ← scan_int u; '(f, s) ← scan_frac s; '(e, s) ← scan_exp s; Some (sg ++ i ++ f ++ e, s))) as H.
  { intros sg u Hu. apply (shrinks_bind u); [apply Hi|]. intros i s1 H1.
    destruct (scan_frac s1) as [[f s2]|] eqn:E2; [|done]. apply Hf in E2. cbn. destruct (scan_exp s2) as [[e s3]|] eqn:E3; [|done].
    apply He in E3. simpl in *. lia. }
  destruct (c =? minus); apply H; simpl; lia.
Qed.

Lemma literal_shrinks p v c s : shrinks (c :: s) (literal p v s).
Proof.
  unfold literal. generalize (bytes_of p) as q. intros q. assert (forall q s r, after_prefix q s = Some r -> (length r <= length s)%nat) as H.
  { clear. intros q. induction q as [|a q IH]; intros s r; [by intros [= <-]|]. destruct s as [|b s]; [done|]. simpl.
    destruct (a =? b); [|done]. intros H%IH. lia. }
  destruct (after_prefix q s) as [r|] eqn:E; [|done]. apply H in E. simpl. lia.
Qed.

Lemma parse_shrinks fuel : forall d s,
  shrinks s (parse_value fuel d s) /\ shrinks s (parse_elems fuel d s) /\ shrinks s (parse_members fuel d s).
Proof.
  induction fuel as [|fuel IH]; intros d s; [done|]. split_and!; cbn [parse_value parse_elems parse_members].
  - pose proof (skip_length s) as Hk. destruct (skip s) as [|c r]; [done|]. apply (shrinks_weaken (c :: r)); [|done]. clear Hk s.
    destruct (c =? quote); [apply (shrinks_bind r); [apply unquote_shrinks|simpl; lia]|].
    destruct (c =? 123); [destruct (_ <=? _); [done|]|destruct (c =? 91); [destruct (_ <=? _); [done|]|]].
    1-2: pose proof (skip_length r) as Hk; destruct (skip r) as [|x r']; [done|].
    + destruct (x =? 125); [simpl in *; lia|]. apply (shrinks_bind r); [apply IH|simpl; lia].
    + destruct (x =? 93); [simpl in *; lia|]. apply (shrinks_bind r); [apply IH|simpl; lia].
    + repeat (destruct (c =? _); [apply literal_shrinks|]). apply (shrinks_bind (c :: r)); [apply scan_number_shrinks|done].
  - apply (shrinks_bind s); [apply IH|]. intros v r Hr. pose proof (skip_length r) as Hk. destruct (skip r) as [|c r1]; [done|].
    destruct (c =? comma); [apply (shrinks_bind r1); [apply IH|simpl in *; lia]|]. destruct (c =? 93); [simpl in *; lia|done].
  - pose proof (skip_length s) as Hk0. destruct (skip s) as [|c r]; [done|]. destruct (c =? quote); [|done].
    apply (shrinks_bind r); [apply unquote_shrinks|]. intros k r1 H1. pose proof (skip_length r1) as Hk1.
    destruct (skip r1) as [|c1 r2]; [done|]. destruct (c1 =? colon); [|done]. apply (shrinks_bind r2); [apply IH|]. intros v r3 H3.
    pose proof (skip_length r3) as Hk3. destruct (skip r3) as [|c2 r4]; [done|].
    destruct (c2 =? comma); [apply (shrinks_bind r4); [apply IH|simpl in *; lia]|]. destruct (c2 =? 125); [simpl in *; lia|done].
Qed.

(** The rest of a parse that depends on no more than what is left of the text. *)
Lemma bind_same {A B} s (o : option (A * list Z)) (f g : A * list Z -> option B) :
  shrinks s o -> (forall a r, (length r < length s)%nat -> f (a, r) = g (a, r)) -> o ≫= f = o ≫= g.
Proof. intros Ho Hf. destruct o as [[a r]|]; [|done]. apply Hf, Ho. Qed.

(** More fuel than twice the length changes nothing. *)
Lemma parse_fuel f1 : forall s d f2,
  ((2 * length s < f1)%nat -> (2 * length s < f2)%nat -> parse_value f1 d s = parse_value f2 d s) /\
  ((S (2 * length s) < f1)%nat -> (S (2 * length s) < f2)%nat ->
   parse_elems f1 d s = parse_elems f2 d s /\ parse_members f1 d s = parse_members f2 d s).
Proof.
  induction f1 as [|f1 IH]; intros s d f2; [split; lia|]. destruct f2 as [|f2]; [split; lia|]. split; [|split];
    [intros H1 H2; cbn [parse_value]|cbn [parse_elems]|cbn [parse_members]].
  - pose proof (skip_length s) as Hk. destruct (skip s) as [|c r]; [done|]. simpl in Hk.
    destruct (c =? quote); [done|].
    destruct (c =? 123); [|destruct (c =? 91); [|done]]; (destruct (_ <=? _); [done|]; destruct (skip r) as [|x r']; [done|]).
    + destruct (x =? 125); [done|]. destruct (IH r (d + 1) f2) as [_ [_ ->]]; (lia || done).
    + destruct (x =? 93); [done|]. destruct (IH r (d + 1) f2) as [_ [-> _]]; (lia || done).
  - rewrite (proj1 (IH s d f2)) by lia. apply (bind_same s); [apply parse_shrinks|]. intros v r Hr.
    pose proof (skip_length r) as Hk. destruct (skip r) as [|c r1]; [done|]. simpl in Hk. destruct (c =? comma); [|done].
    destruct (IH r1 d f2) as [_ [-> _]]; (lia || done).
  - pose proof (skip_length s) as Hk0. destruct (skip s) as [|c r]; [done|]. simpl in Hk0. destruct (c =? quote); [|done].
    apply (bind_same r); [apply unquote_shrinks|]. intros k r1 H3. pose proof (skip_length r1) as Hk1.
    destruct (skip r1) as [|c1 r2]; [done|]. simpl in Hk1. destruct (c1 =? colon); [|done].
    rewrite (proj1 (IH r2 d f2)) by lia. apply (bind_same r2); [apply parse_shrinks|]. intros v r3 H4.
    pose proof (skip_length r3) as Hk3. destruct (skip r3) as [|c2 r4]; [done|]. simpl in Hk3. destruct (c2 =? comma); [|done].
    destruct (IH r4 d f2) as [_ [_ ->]]; (lia || done).
Qed.

(** ** The text that is written *)

Lemma digits_bytes s : Forall is_byte (digits s).1.
Proof.
  induction s as [|c s IH]; [constructor|]. simpl. destruct (is_digit c) eqn:E; [|constructor].
  destruct (digits s). constructor; [|done]. unfold is_digit in E. ranges. unfold is_byte. lia.
Qed.

Lemma number_bytes lit : number lit -> Forall is_byte lit.
Proof.
  assert (forall s t r, scan_int s = Some (t, r) -> Forall is_byte t) as Hi.
  { intros [|c s] t r; [done|]. simpl. destruct (Z.eqb_spec c zero_digit) as [->|]; [intros [= <- <-]; by repeat constructor|].
    destruct (is_digit c) eqn:E; [|done]. pose proof (digits_bytes s). destruct (digits s). intros [= <- <-].
    constructor; [|done]. unfold is_digit in E. ranges. unfold is_byte. lia. }
  assert (forall s t r, scan_frac s = Some (t, r) -> Forall is_byte t) as Hf.
  { intros [|c s] t r; simpl; [by intros [= <- <-]|]. destruct (Z.eqb_spec c 46) as [->|]; [|by intros [= <- <-]].
    pose proof (digits_bytes s). destruct (digits s) as [[|d ds] r']; [done|]. intros [= <- <-]. by constructor. }
  assert (forall s t r, scan_exp s = Some (t, r) -> Forall is_byte t) as He.
  { intros [|c s] t r; simpl; [by intros [= <- <-]|]. destruct (_ || _) eqn:Ec; [|by intros [= <- <-]].
    assert (is_byte c) as Hc by (apply orb_true_iff in Ec as [->%Z.eqb_eq| ->%Z.eqb_eq]; done).
    assert (forall (sg : list Z) u, Forall is_byte sg ->
      (match digits u with ([], _) => None | (d, r) => Some (c :: sg ++ d, r) end) = Some (t, r) -> Forall is_byte t) as H.
    { intros sg u Hs. pose proof (digits_bytes u). destruct (digits u) as [[|d ds] r']; [done|]. intros [= <- <-].
      constructor; [done|]. by apply Forall_app. }
    destruct s as [|x s]; [by apply H|]. destruct ((x =? 43) || (x =? minus)) eqn:Ex; apply H; [|done].
    apply orb_true_iff in Ex as [->%Z.eqb_eq| ->%Z.eqb_eq]; by repeat constructor. }
  unfold number, scan_number. destruct lit as [|c s]; [done|].
  assert (forall (sg : list Z) u t r, Forall is_byte sg ->
    ('(i, s) ← scan_int u; '(f, s) ← scan_frac s; '(e, s) ← scan_exp s; Some (sg ++ i ++ f ++ e, s)) = Some (t, r) -> Forall is_byte t) as H.
  { intros sg u t r Hs. destruct (scan_int u) as [[i s1]|] eqn:E1; [|done]. apply Hi in E1. cbn.
    destruct (scan_frac s1) as [[f s2]|] eqn:E2; [|done]. apply Hf in E2. cbn.
    destruct (scan_exp s2) as [[e s3]|] eqn:E3; [|done]. apply He in E3. cbn. intros [= <- <-]. by rewrite !Forall_app. }
  destruct (Z.eqb_spec c minus) as [->|]; apply H; [by repeat constructor|constructor].
Qed.

Lemma hex_byte d : 0 <= d < 16 -> is_byte (hex d).
Proof. intros Hd. unfold hex, is_byte. destruct (d <? 10); lia. Qed.

Lemma escape_bytes n : forall s, Forall is_byte s -> Forall is_byte (escape n s).
Proof.
  induction n as [|n IH]; intros s Hs; [constructor|]. destruct s as [|b s]; [constructor|]. cbn [escape].
  apply Forall_cons in Hs as Hb. destruct Hb as [Hb _]. destruct (b <? 128).
  - apply Forall_app. split; [|by apply IH, Forall_drop]. unfold escape_byte.
    repeat match goal with |- context [if ?c then _ else _] => destruct c end; repeat (apply Forall_nil_2 || apply Forall_cons_2);
      first [done|apply hex_byte; unfold is_byte in Hb; qlia].
  - destruct (decode_rune (b :: s)) as [v w]. apply Forall_app. split; [|by apply IH, Forall_drop].
    case_decide; [by repeat constructor|]. case_decide; [|by apply Forall_take].
    repeat (apply Forall_nil_2 || apply Forall_cons_2); first [done|apply hex_byte; qlia].
Qed.

Lemma sep_bytes l : Forall (Forall is_byte) l -> Forall is_byte (sep l).
Proof.
  induction 1 as [|x l Hx Hl IH]; [constructor|]. destruct l as [|y l]; [done|]. rewrite sep_cons by done.
  apply Forall_app. split; [done|]. by constructor.
Qed.

Lemma print_string_bytes s : Forall is_byte s -> Forall is_byte (print_string s).
Proof.
  intros Hs. unfold print_string. constructor; [done|]. apply Forall_app. split; [by apply escape_bytes|by repeat constructor].
Qed.

Lemma print_bytes v : json_ok v -> Forall is_byte (print v).
Proof.
  induction v as [|b|lit|s|l IH|l IH] using json_nested_ind; intros Hok; inversion Hok as [| |? Hn|? Hs|? Hl|? Hl]; subst; cbn [print].
  - by repeat constructor.
  - by destruct b; repeat constructor.
  - by apply number_bytes.
  - by apply print_string_bytes.
  - constructor; [done|]. apply Forall_app. split; [|by repeat constructor]. apply sep_bytes, Forall_map.
    rewrite Forall_forall in *. intros x Hx. by apply IH, Hl.
  - constructor; [done|]. apply Forall_app. split; [|by repeat constructor]. apply sep_bytes, Forall_map.
    rewrite Forall_forall in *. intros x Hx. destruct (Hl x Hx) as [Hk Hv]. apply Forall_app.
    split; [by apply print_string_bytes|]. constructor; [done|]. by apply IH.
Qed.

Lemma bytes_string l : Forall is_byte l -> bytes_of (string_of l) = l.
Proof.
  unfold bytes_of, string_of. rewrite String.list_ascii_of_string_of_list_ascii.
  induction 1 as [|b l Hb Hl IH]; [done|]. rewrite !fmap_cons, IH. f_equal. unfold byte_of.
  rewrite N_ascii_embedding; unfold is_byte in Hb; lia.
Qed.

Lemma string_bytes s : string_of (bytes_of s) = s.
Proof.
  unfold bytes_of, string_of. rewrite <- (String.string_of_list_ascii_of_string s) at 2. f_equal.
  induction (String.list_ascii_of_string s) as [|a l IH]; [done|]. rewrite !fmap_cons, IH. f_equal. unfold byte_of.
  by rewrite N2Z.id, ascii_N_embedding.
Qed.

Lemma bytes_of_bytes s : Forall is_byte (bytes_of s).
Proof.
  unfold bytes_of. apply Forall_map, Forall_forall. intros a _. unfold byte_of, is_byte.
  pose proof (N_ascii_bounded a). lia.
Qed.

(** ** Texts in UTF-8 *)

#[local] Unset Elimination Schemes.

(** A value whose strings are UTF-8 and whose numbers are numbers. *)
Inductive json_utf8 : json -> Prop :=
| Utf8Null : json_utf8 JNull
| Utf8Bool b : json_utf8 (JBool b)
| Utf8Num lit : number lit -> json_utf8 (JNum lit)
| Utf8Str s : utf8 s -> json_utf8 (JStr s)
| Utf8Arr l : Forall json_utf8 l -> json_utf8 (JArr l)
| Utf8Obj l : Forall (fun kv => utf8 kv.1 /\ json_utf8 kv.2) l -> json_utf8 (JObj l).

#[local] Set Elimination Schemes.

Lemma json_utf8_ok v : json_utf8 v -> json_ok v /\ coerced v = v.
Proof.
  induction v as [|b|lit|s|l IH|l IH] using json_nested_ind; intros H; inversion H as [| |? Hn|? Hs|? Hl|? Hl]; subst.
  - split; [constructor|done].
  - split; [constructor|done].
  - split; [by constructor|done].
  - split; [constructor; by apply utf8_bytes|]. simpl. by rewrite coerce_utf8.
  - split; [constructor|simpl; f_equal; rewrite <- (map_id l) at 2; apply map_ext_Forall]; rewrite Forall_forall in *;
      intros x Hx; by apply IH, Hl.
  - split; [constructor|simpl; f_equal; rewrite <- (map_id l) at 2; apply map_ext_Forall]; rewrite Forall_forall in *;
      intros x Hx; destruct (Hl x Hx) as [Hk Hv], (IH x Hx Hv) as [Hok Hc].
    + split; [by apply utf8_bytes|done].
    + rewrite Hc, coerce_utf8 by done. by destruct x.
Qed.

Lemma parse_marshal v : json_utf8 v -> nesting v <= maxNestingDepth -> parse (marshal v) = Some v.
Proof.
  intros Hv Hd. destruct (json_utf8_ok v Hv) as [Hok Hc]. unfold parse, marshal.
  rewrite bytes_string by by apply print_bytes. by rewrite parse_bytes_print, Hc.
Qed.

Lemma ascii_utf8 l : forallb (fun b => (0 <=? b) && (b <? 128)) l = true -> utf8 l.
Proof.
  induction l as [|b l IH]; [constructor|]. simpl. intros H. ranges. apply (utf8_app b [b]); [by constructor|by apply IH].
Qed.
