(* ===== verification/Unmarshal.v ===== *)
(** * json.Unmarshal: a JSON value into a Go value

    A decoder changes the value that is there and tells whether a type error was saved; the
    decoding goes on after one, so that the other fields are set. [fields] is the struct: its
    fields in the order of their declaration, each with its name and the decoder of its type. *)

From stdpp Require Import sorting.
From S2P Require Import Prelude Model Resource Json.

Definition dec (A : Type) : Type := json -> A -> A * bool.

(** ** Numbers *)

Fixpoint lit_digits (acc : Z) (l : list Z) : option Z :=
  match l with
  | [] => Some acc
  | c :: r => if is_digit c then lit_digits (acc * 10 + (c - 48)) r else None
  end.

Definition within (lo hi n : Z) : option Z := if (lo <=? n) && (n <=? hi) then Some n else None.

(** strconv.ParseInt and the check of the width. *)
Definition int_lit (bits : Z) (l : list Z) : option Z :=
  n ← match l with
      | c :: r => if c =? minus then match r with [] => None | _ :: _ => Z.opp <$> lit_digits 0 r end else lit_digits 0 l
      | [] => None
      end;
  within (- 2 ^ (bits - 1)) (2 ^ (bits - 1) - 1) n.

(** strconv.ParseUint has no sign. *)
Definition uint_lit (bits : Z) (l : list Z) : option Z :=
  n ← lit_digits 0 l; within 0 (2 ^ bits - 1) n.

Definition dec_number (read : list Z -> option Z) : dec Z := fun v x =>
  match v with
  | JNull => (x, false)
  | JNum lit => match read lit with Some n => (n, false) | None => (x, true) end
  | _ => (x, true)
  end.

Definition dec_int (bits : Z) : dec Z := dec_number (int_lit bits).
Definition dec_uint (bits : Z) : dec Z := dec_number (uint_lit bits).

(** An integer with the option string: the number is the content of a string. *)
Definition dec_quoted_int (bits : Z) : dec Z := fun v x =>
  match v with
  | JNull => (x, false)
  | JStr s => if decide (s = bytes_of "null") then (x, false)
              else match int_lit bits s with Some n => (n, false) | None => (x, true) end
  | _ => (x, true)
  end.

(** ** The other types *)

Definition dec_bool : dec bool := fun v x =>
  match v with
  | JNull => (x, false)
  | JBool b => (b, false)
  | _ => (x, true)
  end.

Definition dec_string : dec string := fun v x =>
  match v with
  | JNull => (x, false)
  | JStr s => (string_of s, false)
  | _ => (x, true)
  end.

(** A nil pointer is allocated before the type of the value is looked at. *)
Definition dec_ptr {A} (zero : A) (d : dec A) : dec (option A) := fun v x =>
  match v with
  | JNull => (None, false)
  | _ => let '(y, e) := d v (default zero x) in (Some y, e)
  end.

(** The elements are decoded into those that are there, the further ones into zero values. (What
    a key that an object has three times would find beyond the length of the slice is not kept.) *)
Fixpoint dec_elems {A} (zero : A) (d : dec A) (l : list json) (old : list A) : list A * bool :=
  match l with
  | [] => ([], false)
  | v :: l =>
      let '(y, e) := d v (default zero (head old)) in
      let '(ys, es) := dec_elems zero d l (tail old) in
      (y :: ys, e || es)
  end.

(** A slice; nil and the empty slice are the empty list. *)
Definition dec_slice {A} (zero : A) (d : dec A) : dec (list A) := fun v x =>
  match v with
  | JNull => ([], false)
  | JArr l => dec_elems zero d l x
  | _ => (x, true)
  end.

(** A map of strings: every member is set, with the zero value if its type is wrong. *)
Definition dec_map : dec gomap := fun v x =>
  match v with
  | JNull => (None, false)
  | JObj l =>
      let '(m, e) := foldl (fun '(m, e) kv => let '(y, e') := dec_string kv.2 "" in
                                             (<[string_of kv.1 := y]> m, e || e'))
                           (entries x, false) l in
      (Some m, e)
  | _ => (x, true)
  end.

(** ** Structs *)

Definition fields (S : Type) : Type := list (string * dec S).

(** A field: [get] and [set] are its projection and its update. *)
Definition fld {S A} (nm : string) (d : dec A) (get : S -> A) (set : A -> S -> S) : string * dec S :=
  (nm, fun v s => let '(y, e) := d v (get s) in (set y s, e)).

(** [field nm d f]: the field of the projection [f]. *)
Abbreviation field nm d f := (fld nm d f (fun x s => s <| f := x |>)) (only parsing).

(** A field nothing reads: only the type of its value matters. *)
Definition fld_unread {S A} (nm : string) (d : dec A) (zero : A) : string * dec S :=
  (nm, fun v s => (s, (d v zero).2)).

(** foldName, for names in ASCII: the long s and the kelvin sign are the only other runes that
    fold to a letter. *)
Fixpoint fold_name (s : list Z) : list Z :=
  match s with
  | 197 :: 191 :: r => 83 :: fold_name r
  | 226 :: 132 :: 170 :: r => 75 :: fold_name r
  | c :: r => (if (97 <=? c) && (c <=? 122) then c - 32 else c) :: fold_name r
  | [] => []
  end.

Definition find_field {S} (fs : fields S) (k : list Z) : option (dec S) :=
  match list_find (fun f => bytes_of f.1 = k) fs with
  | Some (_, f) => Some f.2
  | None => match list_find (fun f => fold_name (bytes_of f.1) = fold_name k) fs with
            | Some (_, f) => Some f.2
            | None => None
            end
  end.

(** A member of the object: it is ignored if it has no field. *)
Definition dec_member {S} (fs : fields S) (se : S * bool) (kv : list Z * json) : S * bool :=
  match find_field fs kv.1 with
  | Some d => let '(s, e) := d kv.2 se.1 in (s, se.2 || e)
  | None => se
  end.

Definition dec_struct {S} (fs : fields S) : dec S := fun v s =>
  match v with
  | JNull => (s, false)
  | JObj l => foldl (dec_member fs) (s, false) l
  | _ => (s, true)
  end.

(** ** The whole text *)

Inductive JsonError := SyntaxError | UnmarshalTypeError.

(** json.Unmarshal into [zero]: nothing is decoded from a text that is not JSON. *)
Definition unmarshal {A} (d : dec A) (zero : A) (data : string) : A * option JsonError :=
  match parse data with
  | None => (zero, Some SyntaxError)
  | Some v => let '(x, e) := d v zero in (x, if (e : bool) then Some UnmarshalTypeError else None)
  end.

(** Decode of a json.Decoder: the first value, what follows it is not read. *)
Definition decode_first {A} (d : dec A) (zero : A) (data : string) : A * option JsonError :=
  match parse_value (S (2 * length (bytes_of data))) 0 (bytes_of data) with
  | None => (zero, Some SyntaxError)
  | Some (v, _) => let '(x, e) := d v zero in (x, if (e : bool) then Some UnmarshalTypeError else None)
  end.

(** ** Values that are written *)

Definition jint (n : Z) : json := JNum (bytes_of (fmt_d n)).
Definition jstr (s : string) : json := JStr (bytes_of s).

(** A member that is always written, one that omitempty leaves out, and a pointer with omitempty. *)
Definition member (nm : string) (v : json) : list (list Z * json) := [(bytes_of nm, v)].
Definition omit_int (nm : string) (n : Z) : list (list Z * json) := if decide (n = 0) then [] else member nm (jint n).
Definition omit_str (nm s : string) : list (list Z * json) := if decide (s = "") then [] else member nm (jstr s).
Definition omit_true (nm : string) (b : bool) : list (list Z * json) := if b then member nm (JBool b) else [].
Definition omit_ptr {A} (nm : string) (f : A -> json) (p : option A) : list (list Z * json) :=
  match p with Some a => member nm (f a) | None => [] end.

(** The order in which the keys of a map are written. *)
Fixpoint bytes_le (a b : list Z) : bool :=
  match a, b with
  | [], _ => true
  | _ :: _, [] => false
  | x :: a, y :: b => (x <? y) || ((x =? y) && bytes_le a b)
  end.

Definition key_le {A} (a b : string * A) : Prop := bytes_le (bytes_of a.1) (bytes_of b.1) = true.

#[export] Instance key_le_dec {A} (a b : string * A) : Decision (key_le a b).
Proof. unfold key_le. apply _. Defined.

(** A map of strings. *)
Definition jmap (m : gomap) : json :=
  match m with
  | None => JNull
  | Some m => JObj ((fun kv => (bytes_of kv.1, jstr kv.2)) <$> merge_sort key_le (map_to_list m))
  end.
