(* ===== verification/UnmarshalFacts.v ===== *)
(** * json.Unmarshal reads what json.Marshal wrote

    The number that is written is the number that is read, for every width; [reads] follows the
    members of a struct one by one, with the fields that omitempty left out; [small] says that a
    value is UTF-8 and not too deep, so that its text is read back. *)

From stdpp Require Import sorting.
From S2P Require Import Prelude Model Resource Json JsonFacts Unmarshal.

(** ** Numbers *)

Lemma lit_digits_app l r : forall acc, lit_digits acc (l ++ r) = n ← lit_digits acc l; lit_digits n r.
Proof. induction l as [|c l IH]; intros acc; [done|]. simpl. destruct (is_digit c); [apply IH|done]. Qed.

Definition all_digits (l : list Z) : Prop := Forall (fun c => is_digit c = true) l.

Lemma pretty_char (d : N) : (d < 10)%N -> byte_of (pretty_N_char d) = 48 + Z.of_N d.
Proof.
  intros Hd. assert (Forall (fun n => byte_of (pretty_N_char (Z.to_N n)) = 48 + n) (seqZ 0 10)) as H
    by (apply (bool_decide_unpack _); vm_compute; exact I).
  rewrite Forall_forall in H. specialize (H (Z.of_N d)). rewrite N2Z.id in H. apply H, elem_of_seqZ. lia.
Qed.

(** The digits of a positive number: the first one is no zero. *)
Lemma pretty_digits (x : N) : (0 < x)%N -> forall s, exists c ds,
  bytes_of (pretty_N_go x s) = (c :: ds) ++ bytes_of s /\ c <> 48 /\ all_digits (c :: ds) /\
  lit_digits 0 (c :: ds) = Some (Z.of_N x).
Proof.
  induction (N.lt_wf_0 x) as [x _ IH]. intros Hx s. rewrite pretty_N_go_step by done.
  assert (x `mod` 10 < 10)%N as Hm by (apply N.mod_lt; lia). pose proof (pretty_char _ Hm) as Hc.
  set (b := byte_of (pretty_N_char (x `mod` 10))) in *.
  assert (is_digit b = true) as Hd by (unfold is_digit; rewrite Hc; apply andb_true_iff; rewrite !Z.leb_le; clearbody b; generalize dependent (x `mod` 10)%N; intros; lia).
  pose proof (N.div_mod x 10 ltac:(lia)) as Hdm.
  destruct (decide (x / 10 = 0)%N) as [E|E].
  - rewrite E, pretty_N_go_0. exists b, []. split; [done|]. split; [lia|]. split; [by repeat constructor|].
    cbn [lit_digits]. rewrite Hd. f_equal. lia.
  - destruct (IH (x / 10)%N ltac:(apply N.div_lt; lia) ltac:(lia) (String (pretty_N_char (x `mod` 10)) s)) as (c & ds & -> & H0 & Ha & Hl).
    exists c, (ds ++ [b]). split; [by rewrite app_comm_cons, <- app_assoc|]. split; [done|].
    change (c :: ds ++ [b]) with ((c :: ds) ++ [b]). split; [apply Forall_app; split; [done|by repeat constructor]|].
    rewrite lit_digits_app, Hl. cbn [mbind option_bind lit_digits]. rewrite Hd. f_equal. lia.
Qed.

Lemma digits_all l : all_digits l -> digits l = (l, []).
Proof. induction 1 as [|c l Hc Hl IH]; [done|]. simpl. by rewrite Hc, IH. Qed.

Lemma scan_digits c ds (sg : list Z) : c <> 48 -> all_digits (c :: ds) ->
  ('(i, s) ← scan_int (c :: ds); '(f, s) ← scan_frac s; '(e, s) ← scan_exp s; Some (sg ++ i ++ f ++ e, s)) = Some (sg ++ c :: ds, []).
Proof.
  intros Hc Hd. apply Forall_cons in Hd as [Hd Hs]. cbn [scan_int]. unfold zero_digit. rewrite (proj2 (Z.eqb_neq _ _) Hc), Hd.
  rewrite (digits_all _ Hs). cbn. by rewrite app_nil_r.
Qed.

(** A number as it is written is a JSON number, and the one that is read. *)
Lemma jint_number z : number (bytes_of (fmt_d z)) /\
  (forall bits, - 2 ^ (bits - 1) <= z < 2 ^ (bits - 1) -> int_lit bits (bytes_of (fmt_d z)) = Some z) /\
  (forall bits, 0 <= z < 2 ^ bits -> uint_lit bits (bytes_of (fmt_d z)) = Some z).
Proof.
  assert (forall lo hi n, lo <= n < hi -> within lo (hi - 1) n = Some n) as Hw.
  { intros lo hi n H. unfold within. by rewrite !(proj2 (Z.leb_le _ _)) by lia. }
  unfold fmt_d, number. destruct z as [|p|p].
  - split; [done|]. change (bytes_of (pretty 0)) with [48]. by split; intros bits H; apply Hw.
  - change (pretty (Z.pos p)) with (pretty_N_go (N.pos p) "").
    destruct (pretty_digits (N.pos p) ltac:(lia) "") as (c & ds & -> & H0 & Ha & Hl). rewrite app_nil_r.
    assert ((c =? minus) = false) as Hm.
    { apply Z.eqb_neq. apply Forall_cons in Ha as [Hc _]. unfold is_digit in Hc. apply andb_true_iff in Hc as [Hc%Z.leb_le _].
      unfold minus. lia. }
    unfold scan_number, int_lit, uint_lit. rewrite Hm. split; [by apply (scan_digits c ds [])|].
    rewrite Hl. split; intros bits H; by apply Hw.
  - change (pretty (Z.neg p)) with ("-" +:+ pretty_N_go (N.pos p) "").
    destruct (pretty_digits (N.pos p) ltac:(lia) "") as (c & ds & E & H0 & Ha & Hl).
    change (bytes_of ("-" +:+ pretty_N_go (N.pos p) "")) with (minus :: bytes_of (pretty_N_go (N.pos p) "")).
    rewrite E, app_nil_r. split; [by apply (scan_digits c ds [minus])|]. split; intros bits H; [|lia].
    unfold int_lit. rewrite Z.eqb_refl. change (bytes_of "") with (@nil Z). rewrite Hl. by apply Hw.
Qed.

(** ** Structs that are read from what was written *)

Lemma dec_jstr s x : dec_string (jstr s) x = (s, false).
Proof. unfold jstr. simpl. by rewrite string_bytes. Qed.

Definition in_int (bits z : Z) : Prop := - 2 ^ (bits - 1) <= z < 2 ^ (bits - 1).

Lemma dec_jint bits z x : in_int bits z -> dec_int bits (jint z) x = (z, false).
Proof. intros Hz. unfold dec_int, jint. simpl. by rewrite (proj1 (proj2 (jint_number z))). Qed.

Section Members.
Context {S : Type} (fs : fields S).

(** [reads s l s']: the members of [l] take the struct from [s] to [s'], without an error. *)
Definition reads (s : S) (l : list (list Z * json)) (s' : S) : Prop :=
  foldl (dec_member fs) (s, false) l = (s', false).

Lemma reads_app s l1 s1 l2 s2 : reads s l1 s1 -> reads s1 l2 s2 -> reads s (l1 ++ l2) s2.
Proof. unfold reads. intros H1 H2. by rewrite foldl_app, H1. Qed.

Lemma reads_member {A} nm (d : dec A) get set v x s :
  find_field fs (bytes_of nm) = Some (fld nm d get set).2 -> d v (get s) = (x, false) ->
  reads s (member nm v) (set x s).
Proof. unfold reads, dec_member. intros Hf Hd. simpl. rewrite Hf. simpl. by rewrite Hd. Qed.

Lemma reads_omit_str nm get set x s :
  find_field fs (bytes_of nm) = Some (fld nm dec_string get set).2 -> set "" s = s ->
  reads s (omit_str nm x) (set x s).
Proof.
  intros Hf Hs. unfold omit_str. case_decide as E; [subst; by rewrite Hs|].
  eapply reads_member; [done|apply dec_jstr].
Qed.

Lemma reads_omit_int nm bits get set x s :
  find_field fs (bytes_of nm) = Some (fld nm (dec_int bits) get set).2 -> in_int bits x -> set 0 s = s ->
  reads s (omit_int nm x) (set x s).
Proof.
  intros Hf Hx Hs. unfold omit_int. case_decide as E; [subst; by rewrite Hs|].
  eapply reads_member; [done|by apply dec_jint].
Qed.

Lemma reads_omit_ptr {A} nm (d : dec (option A)) (enc : A -> json) get set p s :
  find_field fs (bytes_of nm) = Some (fld nm d get set).2 -> set None s = s ->
  (forall a, p = Some a -> d (enc a) (get s) = (Some a, false)) ->
  reads s (omit_ptr nm enc p) (set p s).
Proof.
  intros Hf Hs Hp. destruct p as [a|]; [|by rewrite Hs]. simpl. eapply reads_member; [done|by apply Hp].
Qed.

Lemma dec_struct_reads s l s1 s2 : reads s l s1 -> s1 = s2 -> dec_struct fs (JObj l) s = (s2, false).
Proof. by intros H <-. Qed.
End Members.

(** The members of a struct, one after the other. *)
Ltac read_fields :=
  repeat match goal with
         | |- reads _ _ (_ ++ _) _ => eapply reads_app
         | |- reads _ _ (member _ _) _ => eapply reads_member; [reflexivity|]
         | |- reads _ _ (omit_str _ _) _ => eapply reads_omit_str; reflexivity
         | |- reads _ _ (omit_int _ _) _ => eapply reads_omit_int; [reflexivity|done|reflexivity]
         | |- reads _ _ (omit_ptr _ _ _) _ => eapply reads_omit_ptr; [reflexivity|reflexivity|]
         | |- dec_string (jstr _) _ = _ => apply dec_jstr
         end.

(** ** The texts are JSON in UTF-8 *)

Definition utf8_string (s : string) : Prop := utf8 (bytes_of s).

(** [small n v]: [v] is UTF-8 with at most [n] levels. *)
Definition small (n : Z) (v : json) : Prop := json_utf8 v /\ nesting v <= n.

Definition members_ok (n : Z) (l : list (list Z * json)) : Prop := Forall (fun kv => utf8 kv.1 /\ small n kv.2) l.

Section Small.
Context (n : Z) (Hn : 0 <= n).

Lemma small_int z : small n (jint z).
Proof. split; [|done]. constructor. apply jint_number. Qed.

Lemma small_str s : utf8_string s -> small n (jstr s).
Proof. split; [by constructor|done]. Qed.

Lemma small_bool b : small n (JBool b).
Proof. split; [constructor|done]. Qed.

Lemma small_null : small n JNull.
Proof. split; [constructor|done]. Qed.

Lemma small_array l : Forall (small n) l -> small (n + 1) (JArr l).
Proof.
  intros H. split; [constructor; eapply Forall_impl; [exact H|]; by intros v []|].
  simpl. induction H as [|v l [_ Hv] Hl IH]; simpl; lia.
Qed.

Lemma small_object l : members_ok n l -> small (n + 1) (JObj l).
Proof.
  intros H. split; [constructor; eapply Forall_impl; [exact H|]; by intros v (? & ? & ?)|].
  simpl. induction H as [|v l (_ & _ & Hv) Hl IH]; simpl; lia.
Qed.

Lemma members_app l1 l2 : members_ok n l1 -> members_ok n l2 -> members_ok n (l1 ++ l2).
Proof. intros H1 H2. by apply Forall_app. Qed.

Lemma members_one nm v : utf8_string nm -> small n v -> members_ok n (member nm v).
Proof. intros. apply Forall_singleton. by split. Qed.

Lemma members_omit_str nm s : utf8_string nm -> utf8_string s -> members_ok n (omit_str nm s).
Proof. intros Hm Hs. unfold omit_str. case_decide; [constructor|]. apply members_one; [done|by apply small_str]. Qed.

Lemma members_omit_int nm z : utf8_string nm -> members_ok n (omit_int nm z).
Proof. intros Hm. unfold omit_int. case_decide; [constructor|]. apply members_one; [done|apply small_int]. Qed.

Lemma members_omit_ptr {A} nm (f : A -> json) p : utf8_string nm ->
  (forall a, p = Some a -> small n (f a)) -> members_ok n (omit_ptr nm f p).
Proof. intros Hm Hp. destruct p as [a|]; [|constructor]. by apply members_one, Hp. Qed.
End Small.

Lemma small_weaken m n v : small m v -> m <= n -> small n v.
Proof. intros [? ?] ?. split; [done|lia]. Qed.

Lemma ascii_name nm : forallb (fun b => (0 <=? b) && (b <? 128)) (bytes_of nm) = true -> utf8_string nm.
Proof. apply ascii_utf8. Qed.

(** The members of a struct that is written. *)
Ltac written :=
  repeat match goal with
         | |- members_ok _ (_ ++ _) => apply members_app
         | |- members_ok _ (member _ _) => apply members_one; [apply ascii_name; reflexivity|]
         | |- members_ok _ (omit_str _ _) => apply members_omit_str; [lia|apply ascii_name; reflexivity|]
         | |- members_ok _ (omit_int _ _) => apply members_omit_int; [lia|apply ascii_name; reflexivity]
         | |- members_ok _ (omit_ptr _ _ _) => apply members_omit_ptr; [apply ascii_name; reflexivity|]
         | |- small _ (jstr _) => apply small_str; [lia|]
         | |- small _ (jint _) => apply small_int; lia
         | |- small _ (JBool _) => apply small_bool; lia
         end; try done.

Lemma parse_small v n : small n v -> n <= maxNestingDepth -> parse (marshal v) = Some v.
Proof. intros [Hv Hn] Hm. apply parse_marshal; [done|lia]. Qed.

(** A text that is one value is decoded as it. *)
Lemma decode_first_parse {A} (d : dec A) zero data v : parse data = Some v ->
  decode_first d zero data = unmarshal d zero data.
Proof.
  intros H. unfold unmarshal. rewrite H. unfold parse, parse_bytes in H. unfold decode_first.
  destruct (parse_value _ _ _) as [[v' r]|]; [|done]. destruct (skip r); [|done]. by injection H as ->.
Qed.
