(* ===== verification/Settings.v ===== *)
(** * The settings of the queues: the [*FromBytes] functions

    Each decodes the payload of a queue into the settings of its kind and ignores the error; the
    names of the members are the json tags of the struct. [json_decoders] is the instance of
    [Decoders] they make. *)

From S2P Require Import Prelude Model Resource Json Unmarshal Queue.

(** ** The settings of the queues *)

#[export] Instance eta_QueueIVRSettings : Eta QueueIVRSettings := fun s =>
  MkQueueIVRSettings (iv_Recordings s) (iv_RecordMono s) (iv_RecordAll s) (iv_Amd s) (iv_MinDuration s)
    (iv_MaxAttempts s) (iv_OriginateTimeout s) (iv_WaitBetweenRetries s) (iv_PerNumbers s)
    (iv_WaitBetweenRetriesDesc s).

#[export] Instance eta_TaskInboundQueueSettings : Eta TaskInboundQueueSettings := fun s =>
  MkTaskInboundQueueSettings (ti_MaxAttempts s) (ti_PerNumbers s) (ti_WaitBetweenRetries s)
    (ti_WaitBetweenRetriesDesc s).

#[export] Instance eta_TaskOutboundQueueSettings : Eta TaskOutboundQueueSettings := fun s =>
  MkTaskOutboundQueueSettings (to_OriginateTimeout s) (to_MaxAttempts s) (to_WaitBetweenRetries s)
    (to_WaitBetweenRetriesDesc s).

Definition zero_amd : QueueAmdSettings := MkAmd false false [] false false 0 0 0 0 0 0 0 0 0 None.

Definition amd_fields : fields QueueAmdSettings :=
  [field "enabled" dec_bool amd_Enabled; field "ai" dec_bool amd_Ai;
   field "positive" (dec_slice "" dec_string) amd_PositiveTags;
   field "allow_not_sure" dec_bool amd_AllowNotSure; field "silence_not_sure" dec_bool amd_SilenceNotSure;
   field "max_word_length" (dec_uint 16) amd_MaxWordLength;
   field "max_number_of_words" (dec_uint 16) amd_MaxNumberOfWords;
   field "between_words_silence" (dec_uint 16) amd_BetweenWordsSilence;
   field "min_word_length" (dec_uint 16) amd_MinWordLength;
   field "total_analysis_time" (dec_uint 16) amd_TotalAnalysisTime;
   field "silence_threshold" (dec_uint 16) amd_SilenceThreshold;
   field "after_greeting_silence" (dec_uint 16) amd_AfterGreetingSilence;
   field "greeting" (dec_uint 16) amd_Greeting; field "initial_silence" (dec_uint 16) amd_InitialSilence].

Definition dec_amd : dec (option QueueAmdSettings) := dec_ptr zero_amd (dec_struct amd_fields).

Definition offline_fields : fields OfflineQueueSettings :=
  [field "recordings" dec_bool of_Recordings; field "record_mono" dec_bool of_RecordMono;
   field "record_all" dec_bool of_RecordAll; field "originate_timeout" (dec_uint 16) of_OriginateTimeout;
   field "wait_between_retries" (dec_uint 64) of_WaitBetweenRetries;
   field "max_attempts" (dec_uint 64) of_MaxAttempts; field "per_numbers" dec_bool of_PerNumbers].

Definition OfflineSettingsFromBytes (data : string) : OfflineQueueSettings :=
  (unmarshal (dec_struct offline_fields) (MkOfflineQueueSettings false false false 0 0 0 false "") data).1.

Definition inbound_fields : fields QueueInboundSettings :=
  [field "discard_abandoned_after" (dec_int 64) qi_DiscardAbandonedAfter;
   field "time_base_score" dec_string qi_TimeBaseScore;
   field "timeout_with_no_agents" (dec_int 64) qi_MaxWaitWithNoAgent;
   field "max_call_per_agent" (dec_int 64) qi_MaxCallPerAgent;
   field "allow_greeting_agent" dec_bool qi_AllowGreetingAgent; field "max_wait_time" (dec_int 64) qi_MaxWaitTime;
   field "sticky_agent" dec_bool qi_StickyAgent; field "sticky_agent_sec" (dec_uint 16) qi_StickyAgentSec;
   field "auto_answer_tone" (dec_ptr "" dec_string) qi_AutoAnswerTone;
   field "manual_distribution" dec_bool qi_ManualDistribution].

Definition zero_inbound : QueueInboundSettings := MkQueueInboundSettings 0 "" 0 0 false 0 false 0 None false.

Definition QueueInboundSettingsFromBytes (data : string) : QueueInboundSettings :=
  (unmarshal (dec_struct inbound_fields) zero_inbound data).1.

Definition ivr_fields : fields QueueIVRSettings :=
  [field "recordings" dec_bool iv_Recordings; field "record_mono" dec_bool iv_RecordMono;
   field "record_all" dec_bool iv_RecordAll; field "amd" dec_amd iv_Amd;
   field "min_duration" (dec_uint 64) iv_MinDuration; field "max_attempts" (dec_uint 64) iv_MaxAttempts;
   field "originate_timeout" (dec_int 64) iv_OriginateTimeout;
   field "wait_between_retries" (dec_uint 64) iv_WaitBetweenRetries; field "per_numbers" dec_bool iv_PerNumbers;
   field "wait_between_retries_desc" dec_bool iv_WaitBetweenRetriesDesc].

Definition IVRSettingsFromBytes (data : string) : QueueIVRSettings :=
  (unmarshal (dec_struct ivr_fields) (MkQueueIVRSettings false false false None 0 0 0 0 false false) data).1.

Definition preview_fields : fields PreviewSettings :=
  [field "recordings" dec_bool pv_Recordings; field "record_mono" dec_bool pv_RecordMono;
   field "record_all" dec_bool pv_RecordAll; field "originate_timeout" (dec_uint 16) pv_OriginateTimeout;
   field "wait_between_retries" (dec_uint 64) pv_WaitBetweenRetries;
   field "max_attempts" (dec_uint 64) pv_MaxAttempts; field "per_numbers" dec_bool pv_PerNumbers;
   field "wait_between_retries_desc" dec_bool pv_WaitBetweenRetriesDesc;
   field "allow_greeting_agent" dec_bool pv_AllowGreetingAgent].

Definition PreviewSettingsFromBytes (data : string) : PreviewSettings :=
  (unmarshal (dec_struct preview_fields)
     (MkPreviewSettings false false false 0 0 0 false false false "" false) data).1.

Definition progressive_fields : fields ProgressiveCallQueueSettings :=
  [field "recordings" dec_bool pg_Recordings; field "record_mono" dec_bool pg_RecordMono;
   field "record_all" dec_bool pg_RecordAll; field "wait_between_retries" (dec_uint 64) pg_WaitBetweenRetries;
   field "wait_between_retries_desc" dec_bool pg_WaitBetweenRetriesDesc;
   field "max_attempts" (dec_uint 64) pg_MaxAttempts; field "per_numbers" dec_bool pg_PerNumbers;
   field "originate_timeout" (dec_uint 16) pg_OriginateTimeout;
   field "allow_greeting_agent" dec_bool pg_AllowGreetingAgent; field "amd" dec_amd pg_Amd;
   field "auto_answer_tone" (dec_ptr "" dec_string) pg_AutoAnswerTone].

Definition ProgressiveSettingsFromBytes (data : string) : ProgressiveCallQueueSettings :=
  (unmarshal (dec_struct progressive_fields)
     (MkProgressiveCallQueueSettings false false false 0 false 0 false 0 false None None "") data).1.

Definition predict_fields : fields PredictCallQueueSettings :=
  [field "recordings" dec_bool pr_Recordings; field "record_mono" dec_bool pr_RecordMono;
   field "record_all" dec_bool pr_RecordAll; field "max_wait_time" (dec_uint 16) pr_MaxWaitTime;
   field "wait_between_retries" (dec_uint 64) pr_WaitBetweenRetries;
   field "wait_between_retries_desc" dec_bool pr_WaitBetweenRetriesDesc;
   field "max_attempts" (dec_uint 64) pr_MaxAttempts; field "per_numbers" dec_bool pr_PerNumbers;
   field "originate_timeout" (dec_uint 16) pr_OriginateTimeout; field "retry_abandoned" dec_bool pr_RetryAbandoned;
   field "allow_greeting_agent" dec_bool pr_AllowGreetingAgent; field "amd" dec_amd pr_Amd;
   field "hold_reserved_agent" dec_bool pr_HoldReservedAgent; field "min_attempts" (dec_uint 64) pr_MinAttempts;
   field "max_abandoned_rate" (dec_uint 64) pr_MaxAbandonedRate;
   field "max_agent_line" (dec_uint 64) pr_MaxAgentLine; field "playback_silence" (dec_uint 64) pr_PlaybackSilence;
   field "auto_answer_tone" (dec_ptr "" dec_string) pr_AutoAnswerTone].

Definition PredictCallQueueSettingsFromBytes (data : string) : PredictCallQueueSettings :=
  (unmarshal (dec_struct predict_fields)
     (MkPredictCallQueueSettings false false false 0 0 false 0 false 0 false false None false 0 0 0 0 None "") data).1.

Definition chat_fields : fields InboundChatQueueSettings :=
  [field "max_idle_client" (dec_int 64) ic_MaxIdleClient; field "max_idle_agent" (dec_int 64) ic_MaxIdleAgent;
   field "max_idle_dialog" (dec_int 64) ic_MaxIdleDialog; field "max_wait_time" (dec_uint 32) ic_MaxWaitTime;
   field "manual_distribution" dec_bool ic_ManualDistribution;
   field "last_message_timeout" dec_bool ic_LastMessageTimeout].

Definition InboundChatQueueFromBytes (data : string) : InboundChatQueueSettings :=
  (unmarshal (dec_struct chat_fields) (MkInboundChatQueueSettings 0 0 0 0 false false) data).1.

Definition im_fields : fields InboundIMQueueSettings :=
  [field "max_idle_client" (dec_int 64) ii_MaxIdleClient; field "max_idle_agent" (dec_int 64) ii_MaxIdleAgent;
   field "max_idle_dialog" (dec_int 64) ii_MaxIdleDialog; field "max_wait_time" (dec_uint 32) ii_MaxWaitTime;
   field "manual_distribution" dec_bool ii_ManualDistribution;
   field "last_message_timeout" dec_bool ii_LastMessageTimeout].

Definition InboundIMQueueFromBytes (data : string) : InboundIMQueueSettings :=
  (unmarshal (dec_struct im_fields) (MkInboundIMQueueSettings 0 0 0 0 false false) data).1.

Definition task_inbound_fields : fields TaskInboundQueueSettings :=
  [field "max_attempts" (dec_uint 64) ti_MaxAttempts; field "per_numbers" dec_bool ti_PerNumbers;
   field "wait_between_retries" (dec_uint 64) ti_WaitBetweenRetries;
   field "wait_between_retries_desc" dec_bool ti_WaitBetweenRetriesDesc].

Definition TaskInboundSettingsFromBytes (data : string) : TaskInboundQueueSettings :=
  (unmarshal (dec_struct task_inbound_fields) (MkTaskInboundQueueSettings 0 false 0 false) data).1.

(** The embedded BaseQueue has no exported field. *)
Definition task_outbound_fields : fields TaskOutboundQueueSettings :=
  [field "originate_timeout" (dec_int 64) to_OriginateTimeout; field "max_attempts" (dec_uint 64) to_MaxAttempts;
   field "wait_between_retries" (dec_uint 64) to_WaitBetweenRetries;
   field "wait_between_retries_desc" dec_bool to_WaitBetweenRetriesDesc].

Definition TaskOutboundQueueSettingsFromBytes (data : string) : TaskOutboundQueueSettings :=
  (unmarshal (dec_struct task_outbound_fields) (MkTaskOutboundQueueSettings 0 0 0 false) data).1.

Definition json_decoders : Decoders := {|
  Queue.OfflineSettingsFromBytes := OfflineSettingsFromBytes;
  Queue.QueueInboundSettingsFromBytes := QueueInboundSettingsFromBytes;
  Queue.IVRSettingsFromBytes := IVRSettingsFromBytes;
  Queue.PreviewSettingsFromBytes := PreviewSettingsFromBytes;
  Queue.ProgressiveSettingsFromBytes := ProgressiveSettingsFromBytes;
  Queue.PredictCallQueueSettingsFromBytes := PredictCallQueueSettingsFromBytes;
  Queue.InboundChatQueueFromBytes := InboundChatQueueFromBytes;
  Queue.InboundIMQueueFromBytes := InboundIMQueueFromBytes;
  Queue.TaskInboundSettingsFromBytes := TaskInboundSettingsFromBytes;
  Queue.TaskOutboundQueueSettingsFromBytes := TaskOutboundQueueSettingsFromBytes;
|}.
