(* ===== verification/Attempt.v ===== *)
(** * Attempts: queue/attempt.go

    The attempt of a member in a queue. The struct is a record; the pointers it shares
    with other components (agent, resource, task channel) are locations of the heap of
    the file World. A Go channel that is only ever closed is a flag, [true] when closed:
    closing it twice is a panic. The operations of this file are those that only read and
    write the attempt; the ones that reach other components are in World and Schema. *)

From S2P Require Import Prelude Model Queue.

Abbreviation loc := nat.

(** The channels that implement the interface Channel of events.go. *)
Inductive ChannelKind := ChCall | ChChat | ChIM | ChTask.

#[export] Instance ChannelKind_eq_dec : EqDecision ChannelKind.
Proof. solve_decision. Defined.

Record Channel := MkChannel {
  ch_kind : ChannelKind;
  ch_id : string;
}.

Definition AttemptResultCancel : string := "cancel".
Definition AttemptResultAbandoned : string := "abandoned".
Definition AttemptResultSuccess : string := "success".
Definition AttemptResultTimeout : string := "timeout".
Definition AttemptResultPostProcessing : string := "processing".
Definition AttemptResultTransfer : string := "transfer".
Definition AttemptResultEndless : string := "endless".
Definition AttemptResultAgentTimeout : string := "agent_timeout".
Definition AttemptResultClientTimeout : string := "client_timeout".
Definition AttemptResultDialogTimeout : string := "dialog_timeout".
Definition AttemptResultCancelledByTimeout : string := "canceled_by_timeout".

Record Attempt := MkAttempt {
  at_member : MemberAttempt;
  at_memberStopCause : option string;
  at_state : string;
  at_communication : MemberCommunication;
  at_resource : option loc;
  at_agent : option loc;
  at_domainId : Z;
  at_channel : string;
  at_channelData : option loc;
  at_queue : option QueueObject;
  at_agentChannel : option Channel;
  at_memberChannel : option Channel;
  at_result : option AttemptCallback;
  at_cancelClosed : bool;
  at_canceled : bool;
  at_imTransferPending : bool;
  at_imTransferTo : Z;
  at_imTransferredClosed : bool;
  at_maxAttempts : Z;
  at_waitBetween : Z;
  at_perNumbers : bool;
  at_excludeCurrNumber : bool;
  at_redial : bool;
  at_description : option string;
  at_stickyAgentId : option Z;
  at_processingForm : option string;
  at_processingFields : strmap;
  at_processingFormStarted : bool;
  at_bridgedAt : Z;
  at_transferredAt : Z;
  at_manualDistribution : bool;
  at_processTransfer : bool;
  at_draft : option AttemptCallback;
}.

#[export] Instance eta_Attempt : Eta Attempt := fun a =>
  MkAttempt (at_member a) (at_memberStopCause a) (at_state a) (at_communication a)
    (at_resource a) (at_agent a) (at_domainId a) (at_channel a) (at_channelData a)
    (at_queue a) (at_agentChannel a) (at_memberChannel a) (at_result a)
    (at_cancelClosed a) (at_canceled a) (at_imTransferPending a) (at_imTransferTo a)
    (at_imTransferredClosed a) (at_maxAttempts a) (at_waitBetween a) (at_perNumbers a)
    (at_excludeCurrNumber a) (at_redial a) (at_description a) (at_stickyAgentId a)
    (at_processingForm a) (at_processingFields a) (at_processingFormStarted a)
    (at_bridgedAt a) (at_transferredAt a) (at_manualDistribution a)
    (at_processTransfer a) (at_draft a).

(** [MemberDestinationFromBytes] decodes JSON and is an argument. *)
Definition NewAttempt (decode : string -> MemberCommunication) (m : MemberAttempt) : Attempt := {|
  at_member := m; at_memberStopCause := None; at_state := MemberStateIdle;
  at_communication := decode (ma_Destination m); at_resource := None; at_agent := None;
  at_domainId := 0; at_channel := ""; at_channelData := None; at_queue := None;
  at_agentChannel := None; at_memberChannel := None; at_result := None;
  at_cancelClosed := false; at_canceled := false; at_imTransferPending := false;
  at_imTransferTo := 0; at_imTransferredClosed := false; at_maxAttempts := 0;
  at_waitBetween := 0; at_perNumbers := false; at_excludeCurrNumber := false;
  at_redial := false; at_description := None; at_stickyAgentId := None;
  at_processingForm := None; at_processingFields := ∅; at_processingFormStarted := false;
  at_bridgedAt := 0; at_transferredAt := 0; at_manualDistribution := false;
  at_processTransfer := false; at_draft := None |}.

(** ** Accessors and setters *)

Definition at_Id (a : Attempt) : Z := ma_Id (at_member a).

Definition at_QueueId (a : Attempt) : Z := ma_QueueId (at_member a).

(** [UserId] of the agent object. *)
Definition Agent_UserId (ag : Agent) : Z := default 0 (ag_UserId ag).

(** [agent] is the attempt's agent object, if it has one. *)
Definition IsReservedAgent (agent : option Agent) (agentID userID : Z) : bool :=
  match agent with
  | None => false
  | Some ag => if decide (ag_Id ag <> agentID \/ Agent_UserId ag <> userID) then false else true
  end.

Definition UseDraft (d : AttemptCallback) (a : Attempt) : Attempt :=
  a <| at_draft := (Some d) |>.

Definition DropDraft (a : Attempt) : Attempt := a <| at_draft := None |>.

Definition IsProcessingAutosaveEnabled (a : Attempt) : bool :=
  match at_queue a with
  | Some q => bq_processingAutosave (qo_base q)
  | None => false
  end.

Definition MarkProcessingFormStarted (a : Attempt) : Attempt :=
  a <| at_processingFormStarted := true |>.

Definition MarkTransferred (now : Z) (a : Attempt) : Attempt :=
  if decide (at_transferredAt a = 0) then a <| at_transferredAt := now |> else a.

Definition UpdateProcessingFields (fields : strmap) (a : Attempt) : Attempt :=
  a <| at_processingFields := (fields ∪ at_processingFields a) |>.

Definition ProcessingFields (a : Attempt) : gomap :=
  if at_processingFormStarted a then Some (at_processingFields a) else None.

Definition SetMemberStopCause (cause : option string) (a : Attempt) : Attempt :=
  a <| at_memberStopCause := cause |>.

Definition MemberStopCause (a : Attempt) : string := default "" (at_memberStopCause a).

Definition SetResult (r : string) (a : Attempt) : Attempt :=
  a <| at_member := ((at_member a) <| ma_Result := (Some r) |>) |>.

Definition Result (a : Attempt) : string := default "" (ma_Result (at_member a)).

Definition SetCallback (cb : AttemptCallback) (a : Attempt) : Attempt :=
  let a := a <| at_result := (Some cb) |> in
  if decide (cb_Status cb <> "") then SetResult (cb_Status cb) a else a.

Definition SetAgent (agent : option loc) (a : Attempt) : Attempt := a <| at_agent := agent |>.

(** The part of [SetState] before the hook. *)
Definition set_state (now : Z) (st : string) (a : Attempt) : Attempt :=
  let a := a <| at_state := st |> in
  if decide (st = MemberStateBridged /\ at_bridgedAt a = 0) then a <| at_bridgedAt := now |>
  else a.

Definition Attempt_FlipResource (res : AttemptFlipResource) (a : Attempt) : Attempt :=
  a <| at_member := ((at_member a) <| ma_ResourceId := (fr_ResourceId res) |>
                       <| ma_ResourceUpdatedAt := (fr_ResourceUpdatedAt res) |>
                       <| ma_GatewayUpdatedAt := (fr_GatewayUpdatedAt res) |>
                       <| ma_MemberCallId := (fr_CallId res) |>) |>.

Definition Destination (a : Attempt) : string := mc_Destination (at_communication a).

Definition GetVariable (nm : string) (a : Attempt) : option string :=
  entries (ma_Variables (at_member a)) !! nm.

Definition AddVariables (vars : strmap) (a : Attempt) : Attempt :=
  a <| at_member := ((at_member a)
         <| ma_Variables := (Some (vars ∪ entries (ma_Variables (at_member a)))) |>) |>.

Definition RemoveVariable (nm : string) (a : Attempt) : Attempt :=
  a <| at_member := ((at_member a)
         <| ma_Variables := (delete nm <$> ma_Variables (at_member a)) |>) |>.

Definition MemberId (a : Attempt) : option Z :=
  match ma_MemberId (at_member a) with
  | Some i => if decide (i <> 0) then Some i else None
  | None => None
  end.

Definition IsBarred (a : Attempt) : bool :=
  bool_decide (ma_ListCommunicationId (at_member a) <> None).

Definition JoinedAt (a : Attempt) : Z := Z.quot (ma_CreatedAt (at_member a)) 1000000.

(** ** Cancellation and transfer of a conversation *)

(** [close] of a Go channel. *)
Definition close_chan (closed : bool) : outcome bool :=
  if closed then Panic "close of closed channel" else Ret true.

Definition SetCancel (a : Attempt) : outcome Attempt :=
  if at_canceled a then Ret a
  else
    c ← close_chan (at_cancelClosed a);
    mret (a <| at_canceled := true |> <| at_cancelClosed := c |>).

Definition IMTransferred (a : Attempt) : bool := at_imTransferredClosed a.

Definition reserveIMTransfer (a : Attempt) : bool * Attempt :=
  if at_imTransferPending a || IMTransferred a then (false, a)
  else (true, a <| at_imTransferPending := true |>).

Definition setIMTransferTo (toId : Z) (a : Attempt) : Attempt :=
  a <| at_imTransferTo := toId |>.

Definition Attempt_releaseIMTransfer (toId : Z) (a : Attempt) : Attempt :=
  if decide (at_imTransferTo a = 0 \/ at_imTransferTo a = toId)
  then a <| at_imTransferPending := false |> <| at_imTransferTo := 0 |>
  else a.

Definition Attempt_completeIMTransfer (a : Attempt) : outcome Attempt :=
  if IMTransferred a then Ret a
  else
    let a := a <| at_imTransferPending := false |> in
    c ← close_chan (at_imTransferredClosed a);
    mret (a <| at_imTransferredClosed := c |>).

Record ReportingConfig := MkReportingConfig {
  rc_WaitBetween : Z;
  rc_MaxAttempts : Z;
  rc_PerNumbers : bool;
}.

(** A nil attempt has the zero configuration. *)
Definition Attempt_ReportingConfig (a : option Attempt) : ReportingConfig :=
  match a with
  | None => MkReportingConfig 0 0 false
  | Some a => MkReportingConfig (at_waitBetween a) (at_maxAttempts a) (at_perNumbers a)
  end.

(** The part of [AfterDistributeSchema] that changes the attempt by the schema's result. *)
Definition apply_schema_result (res : SchemaResult) (a : Attempt) : Attempt :=
  let a := if decide (sr_MaxAttempts res > 0)
           then a <| at_maxAttempts := (sr_MaxAttempts res) |> else a in
  let a := if decide (sr_WaitBetweenRetries res > 0)
           then a <| at_waitBetween := (sr_WaitBetweenRetries res) |> else a in
  let a := if sr_ExcludeCurrentNumber res then a <| at_excludeCurrNumber := true |> else a in
  let a := if decide (sr_Description res <> "")
           then a <| at_description := (Some (sr_Description res)) |> else a in
  let a := if decide (sr_AgentId res <> 0)
           then a <| at_stickyAgentId := (Some (sr_AgentId res)) |> else a in
  let a := if sr_Redial res then a <| at_redial := true |> else a in
  match sr_Variables res with
  | Some vars => AddVariables vars a
  | None => a
  end.

(** ** Variables sent with the attempt *)

Definition QUEUE_ATTEMPT_SEQ : string := "cc_attempt_seq".

Definition HasPrefix (s pre : string) : bool := String.prefix pre s.

(** The name a member variable has in a call. *)
Definition export_name (channel k : string) : string :=
  if bool_decide (channel = QueueChannelCall) && negb (HasPrefix k "sip_h_")
     && negb (HasPrefix k "wbt_")
  then "usr_" +:+ k else k.

(** The loop over the variables, in the order the runtime iterates the map. *)
Definition export_loop (channel : string) (vars : list (string * string)) (res : strmap) : strmap :=
  foldl (fun res kv => <[export_name channel kv.1 := kv.2]> res) res vars.

Definition with_seq (a : Attempt) (res : strmap) : strmap :=
  match ma_Seq (at_member a) with
  | Some n => <[QUEUE_ATTEMPT_SEQ := fmt_d n]> res
  | None => res
  end.

Definition ExportVariables (a : Attempt) : strmap :=
  with_seq a (export_loop (at_channel a)
                (map_to_list (entries (ma_Variables (at_member a)))) ∅).

(** Conditional insertion: [if b { res[k] = v }]. *)
Definition put_if (b : bool) (k v : string) (res : strmap) : strmap :=
  if b then <[k := v]> res else res.

Definition put_opt (k : string) (o : option string) (res : strmap) : strmap :=
  match o with Some v => <[k := v]> res | None => res end.

Definition CallNumber (ag : Agent) : string := default "" (ag_Extension ag).

(** [now] is the clock in milliseconds, [agent] the attempt's agent object and [stats] the
    statistics of the member channel, which the attempt reads through pointers. *)
Definition ExportSchemaVariables (now : Z) (agent : option Agent) (stats : strmap)
    (a : Attempt) : strmap :=
  let m := at_member a in
  let c := at_communication a in
  let res := entries (ma_Variables m) in
  let res := entries (at_result a ≫= cb_Variables) ∪ res in
  let res := entries (ProcessingFields a) ∪ res in
  let res := with_seq a res in
  let res := put_opt "member_timezone" (ma_Timezone m) res in
  let res := <["destination" := Destination a]> res in
  let res := <["attempt_id" := fmt_d (at_Id a)]> res in
  let res := <["timestamp" := fmt_d now]> res in
  let res := <["joined_at" := fmt_d (JoinedAt a)]> res in
  let res := put_if (bool_decide (at_bridgedAt a > 0)) "bridged_at" (fmt_d (at_bridgedAt a)) res in
  let res := put_if (bool_decide (mc_Description c <> "")) "destination_description"
               (mc_Description c) res in
  let res := put_if (bool_decide (comm_Id (mc_Type c) > 0)) "destination_type"
               (fmt_d (comm_Id (mc_Type c))) res in
  let res := put_if (bool_decide (mc_Attempts c >= 0)) "destination_seq"
               (fmt_d (i64 (mc_Attempts c + 1))) res in
  let descr := match at_result a with Some cb => cb_Description cb | None => "" end in
  let res := put_if (bool_decide (descr <> "")) "agent_description" descr res in
  let res := put_if (bool_decide (ma_Name m <> "")) "member_name" (ma_Name m) res in
  let res := put_opt "member_id" (fmt_d <$> ma_MemberId m) res in
  let res := put_opt "bucket_id" (fmt_d <$> ma_BucketId m) res in
  let res := put_opt "agent_channel_id" (ch_id <$> at_agentChannel a) res in
  let res := match at_memberChannel a with
             | Some ch => UnionStringMaps [<["member_channel_id" := ch_id ch]> res; stats]
             | None => res
             end in
  let res := put_if (bool_decide (MemberStopCause a <> "")) "member_stop_cause"
               (MemberStopCause a) res in
  let res := put_if (bool_decide (Result a <> "")) "cc_result" (Result a) res in
  let res := put_opt "cc_resource_id" (fmt_d <$> ma_ResourceId m) res in
  let res := put_opt "communication_id" (fmt_d <$> ma_CommunicationIdx m) res in
  let res := match at_queue a with
             | Some q =>
                 <["queue_name" := bq_name (qo_base q)]>
                   (put_if (bq_processing (qo_base q)) "use_processing" "true"
                      (<["queue_id" := fmt_d (bq_id (qo_base q))]> res))
             | None => res
             end in
  match agent with
  | Some ag =>
      <["agent_extension" := CallNumber ag]>
        (<["user_id" := fmt_d (Agent_UserId ag)]>
           (<["agent_id" := fmt_d (ag_Id ag)]> (<["agent_name" := ag_Name ag]> res)))
  | None => res
  end.

(** ** Lemmas *)

Lemma prefix_usr (k : string) : String.prefix "usr_" ("usr_" +:+ k) = true.
Proof. simpl. by destruct k. Qed.

Lemma export_name_inj (channel : string) : Inj (=) (=) (export_name channel).
Proof.
  assert (forall k, HasPrefix ("usr_" +:+ k) "sip_h_" = false /\
                    HasPrefix ("usr_" +:+ k) "wbt_" = false) as Hu by done.
  intros k k' E. unfold export_name in E.
  destruct (bool_decide (channel = QueueChannelCall)); simpl in E; [|done].
  destruct (HasPrefix k "sip_h_") eqn:K1, (HasPrefix k "wbt_") eqn:K2,
    (HasPrefix k' "sip_h_") eqn:K3, (HasPrefix k' "wbt_") eqn:K4; simpl in E;
    subst; try done; try (by simplify_eq).
Qed.

Lemma export_loop_lookup (channel : string) (l : list (string * string)) (res : strmap) k :
  NoDup l.*1 ->
  export_loop channel l res !! export_name channel k =
  match list_to_map (M := strmap) l !! k with Some v => Some v | None => res !! export_name channel k end.
Proof.
  pose proof (export_name_inj channel) as Hinj. revert res.
  induction l as [|[k' v] l IH]; intros res ND; [done|].
  apply NoDup_cons in ND as [Hk ND]. unfold export_loop in *. cbn [foldl].
  rewrite IH by done. cbn [list_to_map foldr fst snd].
  destruct (decide (k' = k)) as [->|Hne].
  - assert (list_to_map (M := strmap) l !! k = None) as -> by (by apply not_elem_of_list_to_map_1).
    simpl. by rewrite !lookup_insert_eq.
  - simpl. rewrite (lookup_insert_ne (list_to_map l) k' k v) by done.
    rewrite (lookup_insert_ne res); [done|]. by intros ?%Hinj.
Qed.

Lemma export_loop_source (channel : string) (l : list (string * string)) (res : strmap) n v :
  export_loop channel l res !! n = Some v ->
  res !! n = Some v \/ exists k, n = export_name channel k.
Proof.
  revert res. induction l as [|[k' v'] l IH]; intros res; simpl; [auto|].
  intros [E|E]%IH; [|auto].
  destruct (decide (export_name channel k' = n)) as [<-|Hne]; [by right; eexists|].
  simpl in E. rewrite lookup_insert_ne in E by done. auto.
Qed.

(** A run of the operations on a conversation transfer: the number of reservations that
    succeeded and of releases that took effect. *)
Inductive im_op :=
| ImReserve
| ImSetTo (toId : Z)
| ImRelease (toId : Z)
| ImComplete.

Definition im_step (o : im_op) (a : Attempt) : outcome (bool * Attempt) :=
  match o with
  | ImReserve => Ret (reserveIMTransfer a)
  | ImSetTo i => Ret (false, setIMTransferTo i a)
  | ImRelease i => Ret (false, Attempt_releaseIMTransfer i a)
  | ImComplete => a' ← Attempt_completeIMTransfer a; mret (false, a')
  end.

(** The operations in order, with the attempts at which a reservation was granted. *)
Fixpoint im_run (os : list im_op) (a : Attempt) : outcome (list bool * Attempt) :=
  match os with
  | [] => Ret ([], a)
  | o :: os =>
      '(b, a) ← im_step o a;
      '(bs, a) ← im_run os a;
      mret (b :: bs, a)
  end.

Lemma im_step_total o a : exists r, im_step o a = Ret r.
Proof.
  destruct o; simpl; try by eexists. unfold Attempt_completeIMTransfer, IMTransferred.
  destruct (at_imTransferredClosed a) eqn:E; simpl; [by eexists|].
  rewrite E. simpl. by eexists.
Qed.

(** Between two reservations that are granted there is a release; none is granted once a
    transfer completed. *)
Definition is_release (o : im_op) : bool := match o with ImRelease _ => true | _ => false end.
Definition is_complete (o : im_op) : bool := match o with ImComplete => true | _ => false end.

Lemma im_step_facts o a b a' :
  im_step o a = Ret (b, a') ->
  (b = true -> o = ImReserve /\ at_imTransferPending a = false /\
               at_imTransferredClosed a = false /\ at_imTransferPending a' = true) /\
  (at_imTransferPending a = true -> is_release o = false -> is_complete o = false ->
   at_imTransferPending a' = true) /\
  (at_imTransferredClosed a = true -> at_imTransferredClosed a' = true) /\
  (is_complete o = true -> at_imTransferredClosed a' = true).
Proof.
  destruct o; simpl; unfold reserveIMTransfer, setIMTransferTo, Attempt_releaseIMTransfer,
    Attempt_completeIMTransfer, IMTransferred; intros H.
  - destruct (at_imTransferPending a) eqn:?, (at_imTransferredClosed a) eqn:?;
      simplify_eq/=; naive_solver.
  - simplify_eq/=. naive_solver.
  - case_decide; simplify_eq/=; naive_solver.
  - destruct (at_imTransferredClosed a) eqn:E; simpl in H.
    + simplify_eq/=. unfold mret, outcome_ret in H. simplify_eq. naive_solver.
    + rewrite E in H. simpl in H. unfold mret, outcome_ret in H. simplify_eq/=. naive_solver.
Qed.

Lemma im_run_held os : forall a bs a',
  im_run os a = Ret (bs, a') ->
  at_imTransferPending a = true \/ at_imTransferredClosed a = true ->
  Forall (fun o => is_release o = false) os -> Forall (fun b => b = false) bs.
Proof.
  induction os as [|o os IH]; simpl; intros a bs a' Hrun Hheld Hnr; [by simplify_eq|].
  destruct (im_step o a) as [[b a1]| |] eqn:E; simpl in Hrun; try done.
  destruct (im_run os a1) as [[bs1 a2]| |] eqn:E2; simpl in Hrun; try done.
  unfold mret, outcome_ret in Hrun. simplify_eq.
  apply Forall_cons in Hnr as [Ho Hnr].
  apply im_step_facts in E as (Hb & Hp & Hc & Hcomp).
  constructor.
  - destruct b; [|done]. destruct Hb as (_ & ? & ? & _); [done|]. destruct Hheld; congruence.
  - eapply IH; eauto. destruct (is_complete o) eqn:Eo; [by right; auto|].
    destruct Hheld; [left|right]; auto.
Qed.

Lemma im_run_closed os : forall a bs a',
  im_run os a = Ret (bs, a') -> at_imTransferredClosed a = true ->
  Forall (fun b => b = false) bs /\ at_imTransferredClosed a' = true.
Proof.
  induction os as [|o os IH]; simpl; intros a bs a' H Hc; [by simplify_eq|].
  destruct (im_step o a) as [[b a1]| |] eqn:E; simpl in H; try done.
  destruct (im_run os a1) as [[bs1 a2]| |] eqn:E2; simpl in H; try done.
  unfold mret, outcome_ret in H. simplify_eq.
  apply im_step_facts in E as (Hb & _ & Hc' & _). destruct (IH _ _ _ E2) as [Hf Ha]; [auto|].
  split; [|done]. constructor; [|done]. destruct b; [|done]. destruct Hb as (_ & _ & ? & _); congruence.
Qed.

Lemma im_run_total os : forall a, exists r, im_run os a = Ret r.
Proof.
  induction os as [|o os IH]; intros a; simpl; [by eexists|].
  destruct (im_step_total o a) as [[b a1] ->]. simpl.
  destruct (IH a1) as [[bs a2] ->]. by eexists.
Qed.

(** ** Properties *)

(** C30. The variables sent with a call do not depend on the order in which the runtime
    iterates the member variables: distinct variables keep distinct names, each is sent
    under its call name with its value, and nothing else is sent but the sequence number. *)
Theorem export_variables_deterministic (a : Attempt) (l : list (string * string)) (k : string) :
  let vars := entries (ma_Variables (at_member a)) in
  l ≡ₚ map_to_list vars ->
  with_seq a (export_loop (at_channel a) l ∅) = ExportVariables a /\
  (ma_Seq (at_member a) = None ->
   ExportVariables a !! export_name (at_channel a) k = vars !! k) /\
  (forall n v, ExportVariables a !! n = Some v ->
   n = QUEUE_ATTEMPT_SEQ \/ exists k', n = export_name (at_channel a) k').
Proof.
  intros vars Hp.
  assert (forall l k', l ≡ₚ map_to_list vars ->
    export_loop (at_channel a) l ∅ !! export_name (at_channel a) k' = vars !! k') as Hl.
  { intros l' k' Hl. rewrite export_loop_lookup by (rewrite Hl; apply NoDup_fst_map_to_list).
    rewrite (list_to_map_proper l' (map_to_list vars)) by
      (done || (rewrite Hl; apply NoDup_fst_map_to_list)).
    rewrite list_to_map_to_list. destruct (vars !! k'); [done|]. apply lookup_empty. }
  split_and!.
  - unfold ExportVariables. f_equal. apply map_eq. intros n.
    destruct (export_loop (at_channel a) l ∅ !! n) as [v|] eqn:E1;
    [|destruct (export_loop (at_channel a) (map_to_list vars) ∅ !! n) as [v|] eqn:E2; [|done]].
    + destruct (export_loop_source _ _ _ _ _ E1) as [?|[k' ->]]; [done|].
      rewrite Hl in E1 by done. fold vars. by rewrite Hl.
    + destruct (export_loop_source _ _ _ _ _ E2) as [?|[k' ->]]; [done|].
      rewrite Hl in E1 by done. rewrite Hl in E2 by done. congruence.
  - intros Hs. unfold ExportVariables, with_seq. rewrite Hs. fold vars. by rewrite Hl.
  - intros n v. unfold ExportVariables, with_seq. intros E.
    destruct (decide (n = QUEUE_ATTEMPT_SEQ)); [by left|right].
    destruct (ma_Seq (at_member a)).
    + rewrite lookup_insert_ne in E by done.
      destruct (export_loop_source _ _ _ _ _ E) as [?|?]; done.
    + destruct (export_loop_source _ _ _ _ _ E) as [?|?]; done.
Qed.

(** C20. A transfer of a conversation is exclusive: once a reservation is granted, none is
    granted again before a release; once a transfer completed none is granted any more,
    whatever is released later, and the transfer stays completed; no sequence of these
    operations closes a channel twice. *)
Theorem im_transfer_exclusive (os os' : list im_op) (a a1 a2 a3 : Attempt)
    (bs bs' : list bool) (b : bool) (o : im_op) :
  im_run os a = Ret (bs, a1) -> im_step o a1 = Ret (b, a2) -> im_run os' a2 = Ret (bs', a3) ->
  (b = true -> Forall (fun o => is_release o = false) os' -> Forall (fun b => b = false) bs') /\
  (o = ImComplete -> Forall (fun b => b = false) bs' /\ at_imTransferredClosed a3 = true) /\
  (exists r, im_run (os ++ o :: os' ++ [ImComplete]) a = Ret r).
Proof.
  intros H1 Hs H2. pose proof (im_step_facts _ _ _ _ Hs) as (Hb & _ & _ & Hcomp). split_and!.
  - intros ->. eapply im_run_held; [done|]. left. naive_solver.
  - intros ->. eapply im_run_closed; [done|auto].
  - apply im_run_total.
Qed.

Definition demo_communication : MemberCommunication :=
  MkMemberCommunication "100" (MkCommunication 1 "phone" None) 0 None "" 0 None None.

Definition demo_attempt : Attempt :=
  (NewAttempt (fun _ => demo_communication)
     ((zero_MemberAttempt 7) <| ma_Variables := (Some {[ "a" := "1"; "wbt_b" := "2" ]}) |>))
    <| at_channel := QueueChannelCall |>.

Lemma export_variables_deterministic_witness :
  ExportVariables demo_attempt !! "usr_a" = Some "1".
Proof.
  refine (proj1 (proj2 (export_variables_deterministic demo_attempt
    [("a", "1"); ("wbt_b", "2")] "a" _)) _).
  - vm_compute. first [reflexivity | by apply perm_swap].
  - reflexivity.
Defined.

(** Reserved, completed, released and reserved again. *)
Lemma im_transfer_exclusive_witness :
  exists a3, im_run [ImReserve; ImComplete; ImRelease 0; ImReserve] demo_attempt
             = Ret ([true; false; false; false], a3) /\
    Forall (fun b => b = false) [false; false] /\ at_imTransferredClosed a3 = true.
Proof.
  destruct (im_run [ImReserve] demo_attempt) as [[bs a1]| |] eqn:E1; [|vm_compute in E1; discriminate..].
  destruct (im_step ImComplete a1) as [[b a2]| |] eqn:E2;
    [|vm_compute in E1; injection E1 as <- <-; vm_compute in E2; discriminate..].
  destruct (im_run [ImRelease 0; ImReserve] a2) as [[bs' a3]| |] eqn:E3;
    [|vm_compute in E1; injection E1 as <- <-; vm_compute in E2; injection E2 as <- <-;
      vm_compute in E3; discriminate..].
  pose proof (im_transfer_exclusive [ImReserve] [ImRelease 0; ImReserve] demo_attempt a1 a2 a3 bs bs' b
                ImComplete E1 E2 E3) as (_ & H & _).
  destruct (H eq_refl) as [Hf Hc]. exists a3.
  vm_compute in E1. injection E1 as <- <-. vm_compute in E2. injection E2 as <- <-.
  vm_compute in E3. injection E3 as <- <-. split; [vm_compute; reflexivity|]. split; [exact Hf|exact Hc].
Defined.
