(* ===== verification/Calls.v ===== *)
(** * Calls: call_manager/call.go

    The call object and its state machine. [CallImpl] is the struct: [ca_chState] is the Go
    channel of states, first in first out; it has five places, the states after the fifth are
    those of the goroutines that wait in their send ([parked]), and no code follows a send.
    [ca_hangupCh] tells whether the hangup channel is closed (closing it twice is a panic);
    the ring timer is running, or stopped (or has fired), or was never made. The value of an
    [any] in the variables of a hangup is kept as the text %v prints of it. A queue
    may write to the request of a call it made until it invites the call; the request is a
    part of the call here. The calls to the
    switch (FreeSWITCH) are in the file CallManager, here are the operations on one call.
    Times are milliseconds, 0 where they are not set. *)

From S2P Require Import Prelude Model Queue.

(** ** Data: model/call.go *)

Record CallEndpoint := MkCallEndpoint {
  ep_Type : string;
  ep_Id : string;
  ep_Number : string;
  ep_Name : string;
}.

Record CallActionInfo := MkCallActionInfo {
  in_GatewayId : option Z;
  in_UserId : option Z;
  in_Direction : string;
  in_Destination : string;
  in_From : option CallEndpoint;
  in_To : option CallEndpoint;
  in_ParentId : option string;
  in_Payload : gomap;
}.

Definition zero_info : CallActionInfo := MkCallActionInfo None None "" "" None None None None.

Record CallActionHangup := MkCallActionHangup {
  hu_Timestamp : Z;
  hu_Cause : string;
  hu_SipCode : option Z;
  hu_ReportingAt : option Z;
  hu_TransferTo : option string;
  hu_TransferFrom : option string;
  hu_TransferToAgent : option Z;
  hu_TransferFromAttempt : option Z;
  hu_TransferToAttempt : option Z;
  hu_Variables : gomap;
}.

(** A hangup that only carries a time, a cause and a code. *)
Definition local_hangup (timestamp : Z) (cause : string) (code : option Z) : CallActionHangup :=
  MkCallActionHangup timestamp cause code None None None None None None None.

Record AmdAiResult := MkAmdAiResult {
  ai_Result : string;
  ai_Error : string;
}.

Record CallRequest := MkCallRequest {
  cr_Id : option string;
  cr_Endpoints : list string;
  cr_Strategy : Z;
  cr_Destination : string;
  cr_Variables : gomap;
  cr_Timeout : Z;
  cr_CallerName : string;
  cr_CallerNumber : string;
  cr_Dialplan : string;
  cr_Context : string;
  cr_Applications : list (string * string);
  cr_CheckParentId : string;
  cr_OriginationNumber : string;
}.

#[export] Instance eta_CallRequest : Eta CallRequest := fun r =>
  MkCallRequest (cr_Id r) (cr_Endpoints r) (cr_Strategy r) (cr_Destination r) (cr_Variables r)
    (cr_Timeout r) (cr_CallerName r) (cr_CallerNumber r) (cr_Dialplan r) (cr_Context r)
    (cr_Applications r) (cr_CheckParentId r) (cr_OriginationNumber r).

(** A nil request has no number. *)
Definition OriginationNumberSafe (r : option CallRequest) : string :=
  match r with Some r => cr_OriginationNumber r | None => "" end.

(** A write to the variables of a request under construction: they come from
    UnionStringMaps and are never nil. *)
Definition put_var (k v : string) (r : CallRequest) : CallRequest :=
  r <| cr_Variables := (Some (<[k := v]> (entries (cr_Variables r)))) |>.

Definition add_app (app args : string) (r : CallRequest) : CallRequest :=
  r <| cr_Applications := (cr_Applications r ++ [(app, args)]) |>.

Definition SetPush (r : CallRequest) : CallRequest := put_var "execute_on_originate" "wbt_send_hook" r.

(** The digits and the letters W and w, in ASCII. *)
Fixpoint digitsDtmfOnly (s : string) : string :=
  match s with
  | EmptyString => EmptyString
  | String a s =>
      let n := nat_of_ascii a in
      if decide ((48 <= n /\ n <= 57) \/ n = 87 \/ n = 119)%nat then String a (digitsDtmfOnly s)
      else digitsDtmfOnly s
  end.

Definition SetAutoDtmf (dtmf : string) (r : CallRequest) : CallRequest :=
  if decide (dtmf = "") then r
  else put_var "execute_on_answer_1" ("send_dtmf W" +:+ digitsDtmfOnly dtmf) r.

Definition SetAutoAnswer (r : CallRequest) : CallRequest := put_var QueueAutoAnswerVariable "true" r.

Definition CALL_HANGUP_NORMAL_UNSPECIFIED : string := "NORMAL_UNSPECIFIED".
Definition CALL_HANGUP_NO_ANSWER : string := "NO_ANSWER".
Definition CALL_HANGUP_NORMAL_CLEARING : string := "NORMAL_CLEARING".
Definition CALL_HANGUP_ORIGINATOR_CANCEL : string := "ORIGINATOR_CANCEL".
Definition CALL_HANGUP_LOSE_RACE : string := "LOSE_RACE".

(** RingtoneUri of the manager, whose media host is [cdr]: call_manager/call_manager.go *)
Definition Manager_RingtoneUri (cdr : string) (domainId id : Z) (mimeType : string) : string :=
  if decide (mimeType = "audio/mp3" \/ mimeType = "audio/mpeg") then
    "shout://" +:+ cdr +:+ "/sys/media/" +:+ fmt_d id +:+ "/stream?domain_id="
      +:+ fmt_d domainId +:+ "&.mp3"
  else if decide (mimeType = "audio/wav") then
    "http_cache://http://" +:+ cdr +:+ "/sys/media/" +:+ fmt_d id +:+ "/stream?domain_id="
      +:+ fmt_d domainId +:+ "&.wav"
  else "".

(** ** The call *)

Inductive CallState :=
| CALL_STATE_NEW | CALL_STATE_INVITE | CALL_STATE_RINGING | CALL_STATE_PROGRESS
| CALL_STATE_ACCEPT | CALL_STATE_JOIN | CALL_STATE_LEAVING | CALL_STATE_BRIDGE
| CALL_STATE_HOLD | CALL_STATE_DETECT_AMD | CALL_STATE_HANGUP.

#[export] Instance CallState_eq_dec : EqDecision CallState.
Proof. solve_decision. Defined.

(** The value of the constant. *)
Definition state_num (s : CallState) : Z :=
  match s with
  | CALL_STATE_NEW => 0 | CALL_STATE_INVITE => 1 | CALL_STATE_RINGING => 2
  | CALL_STATE_PROGRESS => 3 | CALL_STATE_ACCEPT => 4 | CALL_STATE_JOIN => 5
  | CALL_STATE_LEAVING => 6 | CALL_STATE_BRIDGE => 7 | CALL_STATE_HOLD => 8
  | CALL_STATE_DETECT_AMD => 9 | CALL_STATE_HANGUP => 10
  end.

Inductive CallDirection := CALL_DIRECTION_INBOUND | CALL_DIRECTION_OUTBOUND.

#[export] Instance CallDirection_eq_dec : EqDecision CallDirection.
Proof. solve_decision. Defined.

Inductive Timer := TimerRunning | TimerStopped.

#[export] Instance Timer_eq_dec : EqDecision Timer.
Proof. solve_decision. Defined.

Record CallImpl := MkCallImpl {
  ca_callRequest : option CallRequest;
  ca_direction : CallDirection;
  ca_node : string; (* the name of the connection *)
  ca_id : string;
  ca_hangupCh : bool;
  ca_state : CallState;
  ca_cancel : string;
  ca_chState : list CallState;
  ca_info : CallActionInfo;
  ca_hangup : option CallActionHangup;
  ca_bridgedId : option string;
  ca_ringingAt : Z;
  ca_acceptAt : Z;
  ca_bridgeAt : Z;
  ca_hangupAt : Z;
  ca_reportingAt : Z;
  ca_progressAt : Z;
  ca_transferTo : option string;
  ca_transferFrom : option string;
  ca_transferToAgentId : option Z;
  ca_transferFromAttemptId : option Z;
  ca_transferToAttemptId : option Z;
  ca_amdResult : string;
  ca_amdCause : string;
  ca_amdAiResult : AmdAiResult;
  ca_variables : gomap;
  ca_ringTimeout : option Timer;
}.

#[export] Instance eta_CallImpl : Eta CallImpl := fun c =>
  MkCallImpl (ca_callRequest c) (ca_direction c) (ca_node c) (ca_id c) (ca_hangupCh c) (ca_state c)
    (ca_cancel c) (ca_chState c) (ca_info c) (ca_hangup c) (ca_bridgedId c) (ca_ringingAt c)
    (ca_acceptAt c) (ca_bridgeAt c) (ca_hangupAt c) (ca_reportingAt c) (ca_progressAt c)
    (ca_transferTo c) (ca_transferFrom c) (ca_transferToAgentId c) (ca_transferFromAttemptId c)
    (ca_transferToAttemptId c) (ca_amdResult c) (ca_amdCause c) (ca_amdAiResult c) (ca_variables c)
    (ca_ringTimeout c).

Definition zero_call (id node : string) (dir : CallDirection) (rq : option CallRequest) : CallImpl := {|
  ca_callRequest := rq; ca_direction := dir; ca_node := node; ca_id := id; ca_hangupCh := false;
  ca_state := CALL_STATE_NEW; ca_cancel := ""; ca_chState := []; ca_info := zero_info;
  ca_hangup := None; ca_bridgedId := None; ca_ringingAt := 0; ca_acceptAt := 0; ca_bridgeAt := 0;
  ca_hangupAt := 0; ca_reportingAt := 0; ca_progressAt := 0; ca_transferTo := None;
  ca_transferFrom := None; ca_transferToAgentId := None; ca_transferFromAttemptId := None;
  ca_transferToAttemptId := None; ca_amdResult := ""; ca_amdCause := "";
  ca_amdAiResult := MkAmdAiResult "" ""; ca_variables := None; ca_ringTimeout := None |}.

(** [uuid] is model.NewUuid(), [proxy] cm.Proxy(). *)
Definition NewCall (direction : CallDirection) (callRequest : CallRequest)
    (nodeId proxy node uuid : string) : CallImpl :=
  let id := default uuid (cr_Id callRequest) in
  let vars := <["sip_copy_custom_headers" := "false"]> (<["sip_route_uri" := proxy]>
    (<["cc_app_id" := nodeId]> (<["origination_uuid" := id]> (entries (cr_Variables callRequest))))) in
  zero_call id node direction (Some (callRequest <| cr_Variables := (Some vars) |>)).

(** ** Reading *)

Definition HangupCause (c : CallImpl) : string :=
  match ca_hangup c with Some h => hu_Cause h | None => "" end.

Definition HangupCauseCode (c : CallImpl) : Z :=
  match ca_hangup c with Some h => default 0 (hu_SipCode h) | None => 0 end.

Definition Call_Err (c : CallImpl) : option AppError :=
  let code := HangupCauseCode c in
  if decide (code <> 0 /\ code <> 200)
  then Some (NewAppError "Call" "call.app.error" "error" 500) else None.

(** A nil call counts as missed. *)
Definition ShouldMarkAsMissed (c : option CallImpl) : bool :=
  match c with
  | None => true
  | Some c => bool_decide (HangupCause c <> "" /\ HangupCause c <> CALL_HANGUP_LOSE_RACE /\
                           HangupCause c <> CALL_HANGUP_ORIGINATOR_CANCEL)
  end.

Definition ParentOrId (c : CallImpl) : string := default (ca_id c) (in_ParentId (ca_info c)).

Definition Call_FromNumber (c : CallImpl) : string :=
  match in_From (ca_info c) with Some e => ep_Number e | None => "" end.

Definition Call_FromName (c : CallImpl) : string :=
  match in_From (ca_info c) with Some e => ep_Name e | None => "" end.

Definition Call_Answered (c : CallImpl) : bool := bool_decide (ca_acceptAt c > 0).

Definition Transferred (c : CallImpl) : bool := bool_decide (ca_transferTo c <> None).

Definition IsHuman (c : CallImpl) : bool :=
  bool_decide (ca_amdResult c = "HUMAN" \/ ca_amdResult c = "NOTSURE").

Definition HasAmdError (c : CallImpl) : bool :=
  bool_decide (ai_Error (ca_amdAiResult c) <> "" \/ ai_Result (ca_amdAiResult c) = "undefined").

Definition DurationSeconds (now : Z) (c : CallImpl) : Z :=
  Z.quot ((if decide (ca_hangupAt c > 0) then ca_hangupAt c else now) - ca_ringingAt c) 1000.

Definition BillSeconds (now : Z) (c : CallImpl) : Z :=
  if decide (ca_bridgeAt c > 0)
  then Z.quot ((if decide (ca_hangupAt c > 0) then ca_hangupAt c else now) - ca_bridgeAt c) 1000
  else 0.

Definition AnswerSeconds (c : CallImpl) : Z :=
  if decide (ca_acceptAt c > 0) then Z.quot (ca_acceptAt c - ca_ringingAt c) 1000 else 0.

Definition WaitSeconds (now : Z) (c : CallImpl) : Z :=
  Z.quot ((if decide (ca_bridgeAt c > 0) then ca_bridgeAt c else now) - ca_ringingAt c) 1000.

Definition Call_Stats (now : Z) (c : CallImpl) : strmap :=
  let vars : strmap :=
    {[ "call_bill_sec" := fmt_d (BillSeconds now c); "call_duration" := fmt_d (DurationSeconds now c);
       "call_cause" := HangupCause c ]} in
  let vars := entries (ca_variables c) ∪ vars in
  let vars := if decide (HangupCauseCode c > 0)
              then <["call_sip_code" := fmt_d (HangupCauseCode c)]> vars else vars in
  let vars := if decide (ca_amdResult c <> "") then <["amd_result" := ca_amdResult c]> vars else vars in
  let vars := if decide (ai_Result (ca_amdAiResult c) <> "")
              then <["amd_ai_result" := ai_Result (ca_amdAiResult c)]> vars else vars in
  let on := OriginationNumberSafe (ca_callRequest c) in
  let vars := if decide (on <> "") then <["origination_caller_id_number" := on]> vars else vars in
  let ans := if decide (ca_acceptAt c <> 0) then ca_acceptAt c else ca_bridgeAt c in
  if decide (ans > 0) then
    let h := if decide (ca_hangupAt c = 0) then now else ca_hangupAt c in
    <["call_voice_sec" := fmt_d (Z.quot (h - ans) 1000)]> vars
  else vars.

(** ** The state machine *)

Definition chState_cap : nat := 5.

(** [call.state = state; call.chState <- state] *)
Definition Call_setState (st : CallState) (c : CallImpl) : CallImpl :=
  c <| ca_state := st |> <| ca_chState := (ca_chState c ++ [st]) |>.

(** Some goroutine waits to send a state. *)
Definition parked (c : CallImpl) : bool := bool_decide (chState_cap < length (ca_chState c))%nat.

(** The goroutine of the queue receives a state. *)
Definition Call_recv (c : CallImpl) : option (CallState * CallImpl) :=
  match ca_chState c with
  | [] => None
  | s :: rest => Some (s, c <| ca_chState := rest |>)
  end.

Definition stop_timer (c : CallImpl) : CallImpl :=
  match ca_ringTimeout c with
  | Some _ => c <| ca_ringTimeout := (Some TimerStopped) |>
  | None => c
  end.

(** The timer is made for the first ringing of a call with a timeout. The request of a
    call that was not made here is nil. *)
Definition setRinging (timestamp : Z) (info : CallActionInfo) (c : CallImpl) : outcome CallImpl :=
  let c := c <| ca_info := info |> <| ca_ringingAt := timestamp |> in
  c ← match ca_ringTimeout c, ca_callRequest c with
      | Some _, _ => Ret c
      | None, None => Panic "invalid memory address or nil pointer dereference"
      | None, Some rq => Ret (if decide (cr_Timeout rq > 0)
                              then c <| ca_ringTimeout := (Some TimerRunning) |> else c)
      end;
  Ret (Call_setState CALL_STATE_RINGING c).

(** A progress restarts the timer, once. *)
Definition setProgress (timestamp : Z) (c : CallImpl) : outcome CallImpl :=
  if decide (ca_progressAt c = 0) then
    c ← match ca_ringTimeout c, ca_callRequest c with
        | None, _ => Ret c
        | Some _, None => Panic "invalid memory address or nil pointer dereference"
        | Some _, Some rq => Ret (if decide (cr_Timeout rq > 0)
                                  then c <| ca_ringTimeout := (Some TimerRunning) |> else c)
        end;
    Ret (c <| ca_progressAt := timestamp |>)
  else Ret c.

Definition setActive (timestamp : Z) (c : CallImpl) : CallImpl :=
  if decide (ca_acceptAt c = 0)
  then Call_setState CALL_STATE_ACCEPT (stop_timer (c <| ca_acceptAt := timestamp |>))
  else c.

Definition setBridge (timestamp : Z) (bridgedId : string) (c : CallImpl) : CallImpl :=
  Call_setState CALL_STATE_BRIDGE
    (stop_timer (c <| ca_bridgeAt := timestamp |> <| ca_bridgedId := (Some bridgedId) |>)).

Definition setAmd (res cause : string) (ai : AmdAiResult) (c : CallImpl) : CallImpl :=
  Call_setState CALL_STATE_DETECT_AMD
    (c <| ca_amdResult := res |> <| ca_amdCause := cause |> <| ca_amdAiResult := ai |>).

Definition setHold (c : CallImpl) : CallImpl := Call_setState CALL_STATE_HOLD c.

(** [close(call.hangupCh)] *)
Definition close_hangup (c : CallImpl) : outcome CallImpl :=
  if ca_hangupCh c then Panic "close of closed channel" else Ret (c <| ca_hangupCh := true |>).

(** The first hangup is the one that counts; the removal from the cache of the manager is
    in the file CallManager. *)
Definition setHangup (now : Z) (e : CallActionHangup) (c : CallImpl) : outcome CallImpl :=
  if decide (ca_hangupAt c = 0) then
    let c := stop_timer (c <| ca_hangup := (Some e) |>) in
    let c := c <| ca_hangupAt := (if decide (hu_Timestamp e = 0) then now else hu_Timestamp e) |> in
    let c := match hu_ReportingAt e with Some t => c <| ca_reportingAt := t |> | None => c end in
    let c := c <| ca_transferFrom := (hu_TransferFrom e) |>
               <| ca_transferFromAttemptId := (hu_TransferFromAttempt e) |>
               <| ca_transferTo := (hu_TransferTo e) |>
               <| ca_transferToAgentId := (hu_TransferToAgent e) |>
               <| ca_transferToAttemptId := (hu_TransferToAttempt e) |>
               <| ca_variables := (hu_Variables e) |> in
    c ← close_hangup c;
    Ret (Call_setState CALL_STATE_HANGUP c)
  else Ret c.

Definition setCancel (cause : string) (c : CallImpl) : CallImpl := c <| ca_cancel := cause |>.

Definition ResetBridge (c : CallImpl) : CallImpl :=
  c <| ca_bridgeAt := 0 |> <| ca_bridgedId := None |>.

(** [call.callRequest.Variables[k] = v] for each pair. *)
Fixpoint write_all (kvs : list (string * string)) (m : gomap) : outcome gomap :=
  match kvs with
  | [] => Ret m
  | (k, v) :: kvs => m ← map_write k v m; write_all kvs m
  end.

Definition SetRecordings (domainId : Z) (all mono : bool) (c : CallImpl) : outcome CallImpl :=
  match ca_callRequest c with
  | None => Panic "invalid memory address or nil pointer dereference"
  | Some rq =>
      let req := if all then "false" else "true" in
      vars ← write_all [("RECORD_MIN_SEC", "2"); ("recording_follow_transfer", "true");
                        ("RECORD_BRIDGE_REQ", req); ("media_bug_answer_req", req);
                        ("RECORD_STEREO", if mono then "false" else "true")] (cr_Variables rq);
      let app := ("wbt_record_session",
                  "http_cache://http://$${cdr_url}/sys/recordings?domain=" +:+ fmt_d domainId +:+ "&id="
                  +:+ ca_id c +:+ "&name=" +:+
                  "${strepoch()}_${url_encode ${wbt_from_number}}_${url_encode ${wbt_destination}}.mp3"
                  +:+ "&.mp3") in
      Ret (c <| ca_callRequest := (Some (rq <| cr_Variables := vars |>
                                            <| cr_Applications := (cr_Applications rq ++ [app]) |>)) |>)
  end.
