(* ===== verification/World.v ===== *)
(** * The world of the queue package: state, effects and services

    [World] is the memory the goroutines of the queue and agent packages share: the heap
    (attempts, agents, task channels, resources, each object at a location), the object
    caches of the managers, the wait group and attempt counters of the queue manager, and
    the trace of the calls made to the outside, newest first.

    A function of the source is a value of [M A], state passing over [World] with panics.
    Calls that leave the modelled code (the database behind store.Store, the message
    broker, the flow service, the call, chat and instant message managers, the
    notifications of the app) are constructors of [Effect] with the arguments the code
    passes; the answers are the fields of the class [Services], functions of the trace
    whose head is the call being answered, so an answer may depend on everything that
    happened before. The clock is such an answer too. A [go] statement is the effect [EGo].
    Logging is left out. *)

From S2P Require Import Prelude Model Queue Attempt TaskChannel Resource Calls.

(** ** Events published to the agents: queue/events.go, model/agent.go *)

Record ChannelEvent := MkChannelEvent {
  ce_AttemptId : option Z;
  ce_Channel : string;
  ce_Status : string;
  ce_Timestamp : Z;
  ce_Error : option string;
}.

Record Distribute := MkDistribute {
  ds_AppId : string;
  ds_Channel : string;
  ds_QueueId : Z;
  ds_QueueName : string;
  ds_QueueMaxWaitTime : option Z;
  ds_MemberId : option Z;
  ds_MemberName : option string;
  ds_MemberJoinedAt : Z;
  ds_AgentId : option Z;
  ds_MemberChannelId : option string;
  ds_AgentChannelId : option string;
  ds_Communication : MemberCommunication;
  ds_Variables : gomap;
  ds_HasReporting : bool;
  ds_HasForm : bool;
  ds_Autosave : bool;
  ds_TeamAcceptTimeout : Z;
}.

Record ProcessingProlongation := MkProcessingProlongation {
  pp_RemainingProlongations : Z;
  pp_ProlongationSec : Z;
}.

Record Processing := MkProcessing {
  ps_Autosave : bool;
  ps_Timeout : Z;
  ps_Sec : Z;
  ps_RenewalSec : Z;
  ps_Prolongation : option ProcessingProlongation;
}.

Record AgentEvent := MkAgentEvent {
  ae_AgentId : Z;
  ae_UserId : Z;
  ae_DomainId : Z;
  ae_Timestamp : Z;
}.

Record AgentChannel := MkAgentChannel {
  ac_Channel : string;
  ac_State : string;
  ac_JoinedAt : Z;
  ac_Online : bool;
}.

Record AgentOnlineData := MkAgentOnlineData {
  ao_Timestamp : Z;
  ao_Channel : list AgentChannel;
  ao_StatusPreset : option Lookup;
}.

Inductive EventData :=
| DistributeEvent (e : ChannelEvent) (d : Distribute)
| TransferEvent (e : ChannelEvent) (form : option string) (toAttemptId : Z) (d : Distribute)
| OfferingEvent (e : ChannelEvent) (memberChannelId agentChannelId autoAnswer : option string)
| AnsweredEvent (e : ChannelEvent)
| BridgedEvent (e : ChannelEvent) (form : option string)
| ProcessingEvent (e : ChannelEvent) (p : Processing)
| MissedEvent (e : ChannelEvent) (timeout : Z)
| WrapTimeEvent (e : ChannelEvent) (timeout : Z)
| WaitingChannelEvent (e : ChannelEvent)
| AgentEventStatus (e : AgentEvent) (s : AgentStatus)
| AgentEventOnlineStatus (channels : list AgentChannel) (onDemand : bool) (e : AgentEvent)
    (s : AgentStatus).

Record Event := MkEvent {
  ev_UserId : Z;
  ev_Name : string;
  ev_Data : EventData;
}.

Definition NewEvent (nm : string) (userId : Z) (data : EventData) : Event :=
  MkEvent userId nm data.

(** ** Answers of the flow service *)

Inductive ResultAttempt :=
| RA_Success
| RA_Abandoned (status : string) (maxAttempts waitBetween : Z) (exclude redial : bool)
    (agentId : Z) (display : bool) (description : string)
| RA_Retry (sleep : Z) (nextResource : bool) (resourceId : Z)
| RA_None.

Inductive DistributeAttemptResult :=
| DA_Cancel (description : string) (nextDistributeSec : Z) (stop : bool)
| DA_Confirm (destination display : string)
| DA_None.

(** ** Answers of the store: model/call.go, model/chat.go, model/im.go, model/task.go *)

Record inboundCallData := MkInboundCallData {
  cd_CallId : string;
  cd_CallState : string;
  cd_CallDirection : string;
  cd_CallDestination : string;
  cd_CallTimestamp : Z;
  cd_CallAppId : string;
  cd_CallFromNumber : option string;
  cd_CallFromName : option string;
  cd_CallAnsweredAt : Z;
  cd_CallBridgedAt : Z;
  cd_CallCreatedAt : Z;
  cd_ParentCallId : option string;
}.

Record InboundCallQueue := MkInboundCallQueue {
  iq_AttemptId : Z;
  iq_QueueId : Z;
  iq_QueueUpdatedAt : Z;
  iq_Destination : string;
  iq_Variables : gomap;
  iq_Name : string;
  iq_TeamUpdatedAt : option Z;
  iq_call : inboundCallData;
}.

Record InboundCallAgent := MkInboundCallAgent {
  ia_AttemptId : Z;
  ia_Destination : string;
  ia_Variables : gomap;
  ia_Name : string;
  ia_TeamId : Z;
  ia_TeamUpdatedAt : Z;
  ia_AgentId : option Z;
  ia_AgentUpdatedAt : Z;
  ia_call : inboundCallData;
}.

Record InboundChatQueue := MkInboundChatQueue {
  ch_AttemptId : Z;
  ch_QueueId : Z;
  ch_QueueUpdatedAt : Z;
  ch_Destination : string;
  ch_Variables : gomap;
  ch_Name : string;
  ch_TeamUpdatedAt : option Z;
  ch_ListCommunicationId : option Z;
  ch_ConversationId : string;
}.

Record InboundIMQueue := MkInboundIMQueue {
  imq_AttemptId : Z;
  imq_QueueId : Z;
  imq_QueueUpdatedAt : Z;
  imq_Destination : string;
  imq_Variables : gomap;
  imq_Name : string;
  imq_TeamUpdatedAt : option Z;
  imq_ListCommunicationId : option Z;
  imq_AgentUpdatedAt : option Z;
  imq_ThreadId : string;
}.

Record TaskToAgent := MkTaskToAgent {
  tt_AttemptId : Z;
  tt_Destination : string;
  tt_Variables : gomap;
  tt_Name : string;
  tt_TeamId : Z;
  tt_TeamUpdatedAt : Z;
  tt_AgentUpdatedAt : Z;
}.

(** The call a queue connects to: model/call.go *)
Record CallInfo := MkCallInfo {
  ci_Id : string;
  ci_State : string;
  ci_DomainId : Z;
  ci_Direction : string;
  ci_Destination : string;
  ci_ParentId : option string;
  ci_Timestamp : Z;
  ci_AppId : string;
  ci_FromNumber : string;
  ci_FromName : string;
  ci_AnsweredAt : Z;
  ci_BridgedAt : Z;
  ci_CreatedAt : Z;
}.

(** The destination of an instant message attempt: queue/im_inbound.go *)
Record IMMemberInfo := MkIMMemberInfo {
  imm_Type : string;
  imm_Name : string;
  imm_Iss : string;
  imm_Sub : string;
  imm_MemberId : string;
  imm_Role : Z;
}.

Record IMChannel := MkIMChannel {
  imc_Name : string;
  imc_Type : string;
}.

Record IMThreadInfo := MkIMThreadInfo {
  imt_ID : string;
  imt_Subject : string;
  imt_Members : list IMMemberInfo;
  imt_LastMessage : string;
  imt_Channel : option IMChannel;
}.

Record IMThreadCommunication := MkIMThreadCommunication {
  imd_Destination : string;
  imd_Thread : IMThreadInfo;
  imd_ApiSub : string;
  imd_MemberSub : string;
  imd_MemberId : string;
  imd_TransferFrom : string;
  imd_TransferAttemptId : Z;
  imd_TransferAgentId : Z;
}.

#[export] Instance eta_IMThreadCommunication : Eta IMThreadCommunication := fun d =>
  MkIMThreadCommunication (imd_Destination d) (imd_Thread d) (imd_ApiSub d) (imd_MemberSub d)
    (imd_MemberId d) (imd_TransferFrom d) (imd_TransferAttemptId d) (imd_TransferAgentId d).

(** ** Effects *)

(** The goroutines the modelled code starts. *)
Inductive Job :=
| JobRun (queueId : Z) (attempt : loc)
| JobProcessingForm (schemaId : Z) (attempt : loc).

Inductive Effect :=
(* store.Member() *)
| SetAttemptOffering (id : Z) (agentId : option Z) (agentCallId memberCallId destination display : option string)
| SetAttemptBridged (id : Z)
| SetAttemptReporting (id deadlineSec : Z)
| SchemaResultSave (id : Z) (cb : AttemptCallback) (maxAttempts waitBetween : Z) (perNum : bool)
| SetAttemptAbandoned (id maxAttempts sleep : Z) (vars : gomap) (perNum exclude redial : bool)
    (description : option string) (stickyAgentId : option Z)
| CancelAttemptRelease (id agentHoldSec : Z)
| SetAttemptWaitingAgent (id agentHoldSec : Z)
| SetAttemptMissedAgent (id agentHoldSec : Z)
| SetAttemptMissed (id agentHoldSec maxAttempts waitBetween : Z) (perNum : bool)
| CancelAgentAttemptStore (id agentHoldSec : Z)
| SetAttemptResult (id : Z) (result channelState : string) (agentHoldTime : Z) (vars : gomap)
    (maxAttempts waitBetween : Z) (perNum : bool) (description : option string)
    (stickyAgentId : option Z)
| CallbackReporting (id : Z) (cb : AttemptCallback) (maxAttempts waitBetween : Z) (perNum : bool)
| SetBarred (id : Z) (blockAll : bool)
| SetDistributeCancel (id : Z) (description : string) (nextSec : Z) (stop : bool) (vars : gomap)
| SetAttemptFindAgent (id : Z)
| AnswerPredict (id : Z) (holdAgent : bool)
| UpdateProcessingForm (id : Z) (fields : gomap)
| StoreForm (id : Z) (form : string) (fields : strmap)
| StoreFormFields (id : Z) (fields : strmap)
| RenewalProcessingStore (domainId id renewalSec : Z)
| TransferredTo (id toId : Z)
| TransferredFrom (id toId toAgentId : Z) (toAgentSession : string)
| TransferredIM (fromId toId fromAgentId toAgentId : Z)
| CancelAgentDistributeStore (agentId : Z)
| FlipResourceStore (id : Z) (skip : list Z)
| AttemptWeight (id : Z)
| DistributeCallToQueueStore (node : string) (queueId : Z) (callId : string) (vars : gomap)
    (bucketId : option Z) (priority : Z) (stickyAgentId : option Z)
| DistributeCallToQueueCancel (id : Z)
| DistributeCallToAgentStore (node callId : string) (vars : gomap) (agentId : Z) (force : bool)
    (params : QueueDumpParams)
| DistributeOutboundCallStore (node callId : string) (vars : gomap) (userId : Z)
    (params : QueueDumpParams)
| DistributeTaskToAgentStore (node : string) (domainId agentId : Z) (dest : string) (vars : gomap)
    (force : bool) (params : QueueDumpParams)
| DistributeChatStore (node : string) (queueId : Z) (convId : string) (vars : gomap)
    (bucketId : option Z) (priority : Z) (stickyAgentId : option Z) (extra : bool)
| DistributeIMStore (node : string) (queueId : Z) (threadId dest : string) (vars : gomap)
    (bucketId : option Z) (priority : Z) (stickyAgentId : option Z)
| DistributeIMToAgentStore (node : string) (queueId agentId : Z) (threadId dest : string)
    (vars : gomap) (bucketId : option Z)
| DistributeDirectStore (node : string) (memberId communicationId agentId : Z)
| InterceptStore (domainId id agentId : Z)
| GetActiveMembers (node : string)
| GetTimeoutsStore (node : string)
| SetTimeoutError (id : Z)
| SaveToHistory
(* store.Agent(), store.Team(), store.OutboundResource(), App.GetQueueById and GetGateway *)
| AgentStoreGet (id : Z)
| AgentSetStatus (id : Z) (status : string) (payload comment : option string)
| AgentSetOnline (id : Z) (onDemand : bool)
| AgentSetOnlineAtomic (domainId id : Z) (onDemand : bool) (status : option Lookup)
| AgentWaitingChannel (id : Z) (channel : string)
| AgentOnlineWithoutActive (sec : Z)
| AgentMissedAttempt (agentId attemptId : Z) (cause : string)
| AgentNoAnswerChannels (id : Z) (queueTypes : list Z)
| AgentCheckAllowPause (domainId id : Z)
| AgentLosePredict (id : Z)
| GetChannelTimeout
| ReservedForAttempt (node : string)
| TeamStoreGet (id : Z)
| ResourceGetById (id : Z)
| GatewayGet (id : Z)
| ResourceSetError (id queueId : Z) (errorId : string)
| ResourceSetErrors (id n : Z)
| QueueGetById (id : Z)
(* message broker *)
| AgentChannelEvent (channel : string) (domainId queueId userId : Z) (e : Event)
| AgentChangeStatus (domainId userId : Z) (e : Event)
(* flow service *)
| StartFlow (schemaId domainId : Z) (vars : gomap)
| StartSyncFlow (schemaId timeoutSec domainId : Z) (vars : strmap)
| ResultAttemptFlow (domainId schemaId : Z) (scope : option (string * string)) (vars : strmap)
| DoDistributeAttemptFlow (domainId schemaId : Z) (vars : strmap)
| NewProcessingFlow (domainId schemaId : Z) (vars : strmap)
| FormClose (form : string)
| FormUpdate (form : string) (data : string) (fields : strmap)
| FormAction (form action : string) (fields : strmap)
(* app *)
| NotificationIntercept (domainId queueId : Z) (channel : string) (id skipAgentId : Z)
| NotificationHideMember (domainId queueId : Z) (memberId : option Z) (agentId : Z)
(* call, chat and instant message managers *)
| CallHangup (callId cause : string) (reporting : bool) (vars : strmap)
| CallSetVariables (callId : string) (vars : strmap)
| CallHangupById (callId appId : string)
| CallBreakPark (callId : string)
| InboundCallQueueCM (info : CallInfo) (ringtone : string) (vars : gomap)
| ConnectCallCM (info : CallInfo) (ringtone : string)
| WaitHangup (callId : string)
| GetChatConv (id : string)
| ChatReporting (convId : string) (leave : bool)
| NewIMSessionEff (domainId : Z) (threadId bot member memberId : string) (tag : Z)
| IMSetBotActive (tag : Z) (active : bool)
| CallPeek (callId : string)
| CallNew (rq : CallRequest)
| CallNewLeg (parentId : string) (rq : CallRequest)
| CallInvite (callId : string) (rq : CallRequest)
| CallBridge (legA legB : string)
| CallBroadcastFile (callId : string) (domainId : Z) (file : option RingtoneFile) (leg : string)
| CallParkFile (callId : string) (domainId : Z) (file : option RingtoneFile) (leg : string)
| CallBroadcastTone (callId : string) (tone : option string) (leg : string)
| CallSetOtherVars (callId : string) (vars : strmap)
| CallStopPlayback (callId : string)
| CallHangupMany (cause : string) (ids : list string)
| CallStoreGet (callId : string)
| RecordAllCallsGet (domainId : Z)
| NotifyQueue (event : string) (attemptId : Z) (result : string)
| CreateMissed (attemptId agentId : Z) (cause : string) (missedAt : Z)
| ConfirmAttempt (agentId attemptId : Z)
| ResourceTake (resource : loc)
(* the runtime *)
| EmitDistributeAgent (attempt agent : loc)
| EmitHook (attempt : loc) (nm : string)
| HooksOff (attempt : loc)
| SleepSecond
| SleepNs (ns : Z)
| EGo (j : Job).

(** ** Services *)

Record AgentHashKey := MkAgentHashKey {
  hk_Id : Z;
  hk_UpdatedAt : Z;
  hk_Sip : bool;
  hk_Ws : bool;
  hk_ReasonSca : bool;
  hk_TeamUpdatedAt : Z;
  hk_ReasonNoCCLicense : bool;
}.

Record CallNoAnswer := MkCallNoAnswer {
  na_Id : option string;
  na_AppId : option string;
  na_AttemptId : Z;
}.

Record ChannelTimeout := MkChannelTimeout {
  ct_UserId : Z;
  ct_Channel : string;
  ct_Timestamp : Z;
  ct_DomainId : Z;
}.

Record AgentsForAttempt := MkAgentsForAttempt {
  aa_AttemptId : Z;
  aa_AgentId : Z;
  aa_AgentUpdatedAt : Z;
  aa_TeamId : Z;
  aa_TeamUpdatedAt : Z;
}.

Record SetOnlineAtomicResponse := MkSetOnlineAtomicResponse {
  so_Agent : Agent;
  so_Channels : list AgentChannel;
  so_Timestamp : Z;
  so_StatusPreset : Lookup;
}.

Abbreviation trace := (list Effect).

(** [svc_error] answers the calls that return only an error, [svc_flow_start] the calls of
    the flow service that return an identifier ([inl] is the error text). *)
Class Services := {
  svc_now : trace -> Z; (* nanoseconds since the epoch *)
  svc_node : string;
  svc_ready : trace -> bool;
  svc_waitChannelClose : bool;
  svc_rand : trace -> Z -> Z;
  svc_error : trace -> option AppError;
  svc_timestamp : trace -> result Z;
  svc_leaving : trace -> result AttemptLeaving;
  svc_missed : trace -> result MissedAgent;
  svc_reporting : trace -> result AttemptReportingResult;
  svc_renewal : trace -> result RenewalProcessing;
  svc_ids : trace -> result (list Z);
  svc_flip : trace -> result AttemptFlipResource;
  svc_members : trace -> result (list MemberAttempt);
  svc_member : trace -> result MemberAttempt;
  svc_timeouts : trace -> result (list AttemptReportingTimeout);
  svc_channelTimeouts : trace -> result (list ChannelTimeout);
  svc_reserved : trace -> result (list AgentsForAttempt);
  svc_inboundCall : trace -> result InboundCallQueue;
  svc_callAgent : trace -> result InboundCallAgent;
  svc_inboundChat : trace -> result InboundChatQueue;
  svc_inboundIM : trace -> result InboundIMQueue;
  svc_taskAgent : trace -> result TaskToAgent;
  svc_agent : trace -> result Agent;
  svc_agentOnline : trace -> result AgentOnlineData;
  svc_agentOnlineAtomic : trace -> result SetOnlineAtomicResponse;
  svc_withoutActive : trace -> result (list AgentHashKey);
  svc_noAnswer : trace -> option (list CallNoAnswer);
  svc_allowed : trace -> result bool;
  svc_queue : trace -> result Queue;
  svc_team : trace -> result Team;
  svc_resource : trace -> result OutboundResource;
  svc_gateway : trace -> result SipGateway;
  svc_flow_start : trace -> string + string;
  svc_resultAttempt : trace -> string + (gomap * ResultAttempt);
  svc_distributeAttempt : trace -> string + (gomap * DistributeAttemptResult);
  svc_newProcessing : trace -> string + string; (* the handle of the form *)
  svc_form : trace -> string -> string;
  svc_formFields : trace -> string -> strmap;
  svc_callExists : trace -> string -> bool;
  svc_chatExists : trace -> string -> option AppError;
  svc_channelStats : trace -> Channel -> strmap;
  svc_channelAnswered : trace -> Channel -> bool;
  svc_bridgedSession : trace -> string -> option Z; (* the tag of the session *)
  (* encoding/json *)
  MemberDestinationFromBytes : string -> MemberCommunication;
  decode_im : string -> IMThreadCommunication * option string; (* with the error of json.Unmarshal *)
  encode_im : IMThreadCommunication -> string;
  decode_form : string -> option string;
}.

(** ** The interface of the object caches: utils/cache.go

    [oc_get now k], [oc_add now k v] is AddWithDefaultExpires, the clock in seconds. *)
Class ObjectCache (OC : Type -> Type) := {
  oc_get : forall {V}, Z -> Z -> OC V -> option V * OC V;
  oc_add : forall {V}, Z -> Z -> V -> OC V -> OC V;
  oc_remove : forall {V}, Z -> OC V -> OC V;
  oc_keys : forall {V}, OC V -> outcome (list (option Z));
  oc_len : forall {V}, OC V -> Z;
}.

(** What the clients rely on, for a cache whose entries do not expire ([oc_ok]): it holds a
    finite map; an addition keeps the new binding and may only lose others. *)
Class ObjectCacheLaws (OC : Type -> Type) `{ObjectCache OC} := {
  oc_ok : forall {V}, OC V -> Prop;
  oc_view : forall {V}, OC V -> gmap Z V;
  oc_get_law : forall V now k (c : OC V), oc_ok c ->
    (oc_get now k c).1 = oc_view c !! k /\ oc_ok (oc_get now k c).2 /\
    oc_view (oc_get now k c).2 = oc_view c;
  oc_add_law : forall V now k (v : V) (c : OC V), oc_ok c ->
    oc_ok (oc_add now k v c) /\ oc_view (oc_add now k v c) !! k = Some v /\
    oc_view (oc_add now k v c) ⊆ <[k := v]> (oc_view c);
  oc_remove_law : forall V k (c : OC V), oc_ok c ->
    oc_ok (oc_remove k c) /\ oc_view (oc_remove k c) = delete k (oc_view c);
  oc_keys_law : forall V (c : OC V), oc_ok c ->
    exists ks, oc_keys c = Ret ks /\ (forall k, Some k ∈ ks <-> is_Some (oc_view c !! k));
  oc_len_law : forall V (c : OC V), oc_ok c -> oc_len c = Z.of_nat (size (oc_view c));
}.

(** ** State *)

(** A team with its hooks: queue/team.go *)
Record agentTeam := MkAgentTeam {
  te_data : Team;
  te_hook : HookHub;
}.

Definition NewTeam (info : Team) : agentTeam := MkAgentTeam info (NewHookHub (tm_Hooks info)).

Record World (OC : Type -> Type) := MkWorld {
  w_attempts : gmap loc Attempt;
  w_agents : gmap loc Agent;
  w_tasks : gmap loc TaskChannel;
  w_resources : gmap loc Resource;
  w_next : loc;
  w_membersCache : OC loc;
  w_queuesCache : OC QueueObject;
  w_teamCache : OC agentTeam;
  w_resourcesCache : OC loc;
  w_agentsCache : OC loc;
  w_wg : Z;
  w_attemptCount : Z;
  w_trace : trace;
}.

Arguments MkWorld {OC}.
Arguments w_attempts {OC}.
Arguments w_agents {OC}.
Arguments w_tasks {OC}.
Arguments w_resources {OC}.
Arguments w_next {OC}.
Arguments w_membersCache {OC}.
Arguments w_queuesCache {OC}.
Arguments w_teamCache {OC}.
Arguments w_resourcesCache {OC}.
Arguments w_agentsCache {OC}.
Arguments w_wg {OC}.
Arguments w_attemptCount {OC}.
Arguments w_trace {OC}.

#[export] Instance eta_World OC : Eta (World OC) := fun w =>
  MkWorld (w_attempts w) (w_agents w) (w_tasks w) (w_resources w) (w_next w)
    (w_membersCache w) (w_queuesCache w) (w_teamCache w) (w_resourcesCache w)
    (w_agentsCache w) (w_wg w) (w_attemptCount w) (w_trace w).

(** ** The monad *)

Definition M (OC : Type -> Type) (A : Type) : Type := World OC -> outcome (A * World OC).

#[global] Instance M_ret OC : MRet (M OC) := fun A a w => Ret (a, w).

#[global] Instance M_bind OC : MBind (M OC) := fun A B f m w =>
  match m w with
  | Ret (a, w') => f a w'
  | Panic s => Panic s
  | Block s => Block s
  end.

(** [if err := m; err != nil { return err }], for calls that return only an error. *)
Definition then_ {OC} (m : M OC (option AppError)) (k : M OC (option AppError))
    : M OC (option AppError) :=
  e ← m; match e with Some e => mret (Some e) | None => k end.

(** [v, err := m; if err != nil { return nil, err }] *)
Definition bind_res {OC A B} (m : M OC (result A)) (k : A -> M OC (result B)) : M OC (result B) :=
  r ← m; match r with inl e => mret (inl e) | inr a => k a end.

Notation "x ←ok m ; k" := (bind_res m (fun x => k))
  (at level 20, m at level 100, k at level 200, only parsing) : go_scope.

(** [for _, v := range l { f v }] *)
Fixpoint for_each {OC A} (l : list A) (f : A -> M OC unit) : M OC unit :=
  match l with
  | [] => mret tt
  | v :: l => _ ← f v; for_each l f
  end.

Definition nil_deref : string := "invalid memory address or nil pointer dereference".

Section Ops.
Context {OC : Type -> Type} {HOC : ObjectCache OC} {SV : Services}.

Definition get_world : M OC (World OC) := fun w => Ret (w, w).

Definition modify (f : World OC -> World OC) : M OC unit := fun w => Ret (tt, f w).

Definition panic {A} (why : string) : M OC A := fun _ => Panic why.

(** A pure operation that may panic or block. *)
Definition lift {A} (o : outcome A) : M OC A := fun w =>
  match o with Ret a => Ret (a, w) | Panic s => Panic s | Block s => Block s end.

(** A call to a service: the effect is recorded, then the answer is read off the trace. *)
Definition call {A} (e : Effect) (answer : trace -> A) : M OC A := fun w =>
  let w := w <| w_trace := (e :: w_trace w) |> in Ret (answer (w_trace w), w).

Definition emit (e : Effect) : M OC unit := call e (fun _ => tt).

(** A reading of a service that leaves no record. *)
Definition ask {A} (answer : trace -> A) : M OC A := fun w => Ret (answer (w_trace w), w).

(** model.GetMillis *)
Definition GetMillis : M OC Z := ask (fun t => Z.quot (svc_now t) 1000000).

(** The clock of the caches, in seconds. *)
Definition now_sec (t : trace) : Z := Z.quot (svc_now t) 1000000000.

(** Objects of the heap. A dangling location does not arise, it reads as a nil pointer. *)
Definition get_attempt (l : loc) : M OC Attempt := fun w =>
  match w_attempts w !! l with Some a => Ret (a, w) | None => Panic nil_deref end.

Definition mod_attempt (l : loc) (f : Attempt -> Attempt) : M OC unit := fun w =>
  match w_attempts w !! l with
  | Some a => Ret (tt, w <| w_attempts := (<[l := f a]> (w_attempts w)) |>)
  | None => Panic nil_deref
  end.

Definition mod_attempt_o (l : loc) (f : Attempt -> outcome Attempt) : M OC unit := fun w =>
  match w_attempts w !! l with
  | Some a =>
      match f a with
      | Ret a' => Ret (tt, w <| w_attempts := (<[l := a']> (w_attempts w)) |>)
      | Panic s => Panic s
      | Block s => Block s
      end
  | None => Panic nil_deref
  end.

Definition get_agent (l : loc) : M OC Agent := fun w =>
  match w_agents w !! l with Some a => Ret (a, w) | None => Panic nil_deref end.

Definition mod_agent (l : loc) (f : Agent -> Agent) : M OC unit := fun w =>
  match w_agents w !! l with
  | Some a => Ret (tt, w <| w_agents := (<[l := f a]> (w_agents w)) |>)
  | None => Panic nil_deref
  end.

Definition get_resource (l : loc) : M OC Resource := fun w =>
  match w_resources w !! l with Some a => Ret (a, w) | None => Panic nil_deref end.

Definition mod_resource (l : loc) (f : Resource -> Resource) : M OC unit := fun w =>
  match w_resources w !! l with
  | Some a => Ret (tt, w <| w_resources := (<[l := f a]> (w_resources w)) |>)
  | None => Panic nil_deref
  end.

Definition get_task (l : loc) : M OC TaskChannel := fun w =>
  match w_tasks w !! l with Some a => Ret (a, w) | None => Panic nil_deref end.

Definition put_task (l : loc) (t : TaskChannel) : M OC unit :=
  modify (fun w => w <| w_tasks := (<[l := t]> (w_tasks w)) |>).

(** Allocation. *)
Definition new_attempt (a : Attempt) : M OC loc := fun w =>
  Ret (w_next w, w <| w_attempts := (<[w_next w := a]> (w_attempts w)) |>
                   <| w_next := (S (w_next w)) |>).

Definition new_agent (a : Agent) : M OC loc := fun w =>
  Ret (w_next w, w <| w_agents := (<[w_next w := a]> (w_agents w)) |>
                   <| w_next := (S (w_next w)) |>).

Definition new_task (t : TaskChannel) : M OC loc := fun w =>
  Ret (w_next w, w <| w_tasks := (<[w_next w := t]> (w_tasks w)) |>
                   <| w_next := (S (w_next w)) |>).

Definition new_resource (r : Resource) : M OC loc := fun w =>
  Ret (w_next w, w <| w_resources := (<[w_next w := r]> (w_resources w)) |>
                   <| w_next := (S (w_next w)) |>).

(** The attempt's agent object, if any. *)
Definition opt_agent (o : option loc) : M OC (option Agent) :=
  match o with
  | Some l => a ← get_agent l; mret (Some a)
  | None => mret None
  end.

(** The caches. *)
Definition members_get (id : Z) : M OC (option loc) := fun w =>
  let '(v, c) := oc_get (now_sec (w_trace w)) id (w_membersCache w) in
  Ret (v, w <| w_membersCache := c |>).

Definition members_add (id : Z) (l : loc) : M OC unit := modify (fun w =>
  w <| w_membersCache := (oc_add (now_sec (w_trace w)) id l (w_membersCache w)) |>).

Definition members_remove (id : Z) : M OC unit := modify (fun w =>
  w <| w_membersCache := (oc_remove id (w_membersCache w)) |>).

Definition queues_get (id : Z) : M OC (option QueueObject) := fun w =>
  let '(v, c) := oc_get (now_sec (w_trace w)) id (w_queuesCache w) in
  Ret (v, w <| w_queuesCache := c |>).

Definition queues_add (id : Z) (q : QueueObject) : M OC unit := modify (fun w =>
  w <| w_queuesCache := (oc_add (now_sec (w_trace w)) id q (w_queuesCache w)) |>).

Definition teams_get (id : Z) : M OC (option agentTeam) := fun w =>
  let '(v, c) := oc_get (now_sec (w_trace w)) id (w_teamCache w) in
  Ret (v, w <| w_teamCache := c |>).

Definition teams_add (id : Z) (t : agentTeam) : M OC unit := modify (fun w =>
  w <| w_teamCache := (oc_add (now_sec (w_trace w)) id t (w_teamCache w)) |>).

Definition resources_get (id : Z) : M OC (option loc) := fun w =>
  let '(v, c) := oc_get (now_sec (w_trace w)) id (w_resourcesCache w) in
  Ret (v, w <| w_resourcesCache := c |>).

Definition resources_add (id : Z) (l : loc) : M OC unit := modify (fun w =>
  w <| w_resourcesCache := (oc_add (now_sec (w_trace w)) id l (w_resourcesCache w)) |>).

Definition resources_remove (id : Z) : M OC unit := modify (fun w =>
  w <| w_resourcesCache := (oc_remove id (w_resourcesCache w)) |>).

Definition agents_get (id : Z) : M OC (option loc) := fun w =>
  let '(v, c) := oc_get (now_sec (w_trace w)) id (w_agentsCache w) in
  Ret (v, w <| w_agentsCache := c |>).

Definition agents_add (id : Z) (l : loc) : M OC unit := modify (fun w =>
  w <| w_agentsCache := (oc_add (now_sec (w_trace w)) id l (w_agentsCache w)) |>).

(** sync.WaitGroup: a counter that becomes negative panics. *)
Definition wg_add (n : Z) : M OC unit := fun w =>
  if decide (w_wg w + n < 0) then Panic "sync: negative WaitGroup counter"
  else Ret (tt, w <| w_wg := (w_wg w + n) |>).

Definition wg_done : M OC unit := wg_add (-1).

(** The answer of a service as an error only. *)
Definition call_err (e : Effect) : M OC (option AppError) := call e svc_error.

End Ops.
