(* ===== verification/Sessions.v ===== *)
(** * Goroutines that work on a component with a state of its own

    A goroutine of a chat or of an instant message attempt works on the queue manager and on
    the conversations of the package chat, or the sessions of the package im. [ST S] threads
    the state [S] of the other component through the monad of the manager: [up] runs an
    operation of the manager, [own] one of the component. *)

From S2P Require Import Prelude Model World.

Definition ST (S : Type) (OC : Type -> Type) (A : Type) : Type := S -> M OC (A * S).

#[global] Instance ST_ret S OC : MRet (ST S OC) := fun A a s => mret (a, s).

#[global] Instance ST_bind S OC : MBind (ST S OC) := fun A B f m s => p ← m s; f p.1 p.2.

Section StateT.
Context {S : Type} {OC : Type -> Type}.

Definition up {A} (m : M OC A) : ST S OC A := fun s => a ← m; mret (a, s).

Definition own {A} (m : S -> outcome (A * S)) : ST S OC A := fun s => lift (m s).

(** [select_loop], on both states. *)
Fixpoint st_loop {L R Ev : Type} (finished : L -> bool) (handle : L -> Ev -> option (ST S OC (R + L)))
    (evs : list Ev) (x : L) : ST S OC (R + L) :=
  if finished x then mret (inr x)
  else match evs with
       | [] => fun _ _ => Block "select"
       | ev :: evs =>
           match handle x ev with
           | None => st_loop finished handle evs x
           | Some m =>
               r ← m;
               match r with
               | inl y => mret (inl y)
               | inr x' => st_loop finished handle evs x'
               end
           end
       end.

End StateT.

(** ** Assertions on the state of the component *)

Section Triples.
Context {S : Type} {OC : Type -> Type}.

(** If [P] holds of the state and the operation returns, [Q] holds of its result. *)
Definition triple {A} (P : S -> Prop) (m : ST S OC A) (Q : A -> S -> Prop) : Prop := forall s w,
  P s -> match m s w with Ret ((a, s'), _) => Q a s' | _ => True end.

Lemma triple_ret {A} (P : S -> Prop) (a : A) (Q : A -> S -> Prop) :
  (forall s, P s -> Q a s) -> triple P (mret a) Q.
Proof. intros H s w Hs. by apply H. Qed.

Lemma triple_bind {A B} P (R : A -> S -> Prop) Q (m : ST S OC A) (f : A -> ST S OC B) :
  triple P m R -> (forall a, triple (R a) (f a) Q) -> triple P (m ≫= f) Q.
Proof.
  intros Hm Hf s w Hs. unfold mbind, ST_bind, mbind, M_bind. specialize (Hm s w Hs).
  destruct (m s w) as [[[a s'] w']| |]; [|done..]. by apply Hf.
Qed.

(** An operation of the manager leaves the component alone. *)
Lemma triple_up {A} P (m : M OC A) : triple P (up m) (fun _ => P).
Proof.
  intros s w Hs. unfold up, mbind, M_bind. by destruct (m w) as [[a w']| |].
Qed.

Lemma triple_own {A} P (m : S -> outcome (A * S)) Q :
  (forall s a s', P s -> m s = Ret (a, s') -> Q a s') -> triple P (own m) Q.
Proof.
  intros H s w Hs. unfold own, lift. specialize (H s). destruct (m s) as [[a s']| |]; [|done..].
  by apply H.
Qed.

Lemma triple_weaken {A} (P P' : S -> Prop) (m : ST S OC A) (Q Q' : A -> S -> Prop) :
  (forall s, P s -> P' s) -> triple P' m Q' -> (forall a s, Q' a s -> Q a s) -> triple P m Q.
Proof.
  intros HP Hm HQ s w Hs. specialize (Hm s w (HP s Hs)). destruct (m s w) as [[[a s'] w']| |]; [|done..].
  by apply HQ.
Qed.

Lemma triple_any {A} P (m : ST S OC A) : triple P m (fun _ _ => True).
Proof. intros s w _. by destruct (m s w) as [[[a s'] w']| |]. Qed.

Lemma triple_loop {L R Ev} (P : S -> Prop) (Q : R -> S -> Prop) (finished : L -> bool)
    (handle : L -> Ev -> option (ST S OC (R + L))) evs x :
  (forall x ev m, handle x ev = Some m ->
     triple P m (fun r s => match r with inl y => Q y s | inr _ => P s end)) ->
  triple P (st_loop finished handle evs x) (fun r s => match r with inl y => Q y s | inr _ => P s end).
Proof.
  intros Hh. revert x. induction evs as [|ev evs IH]; intros x; simpl.
  - destruct (finished x); [by apply triple_ret|]. by intros s w.
  - destruct (finished x); [by apply triple_ret|]. destruct (handle x ev) as [m|] eqn:E; [|apply IH].
    eapply triple_bind; [by eapply Hh|]. intros [y|x']; [by apply triple_ret|apply IH].
Qed.

End Triples.
