(* ===== verification/Agents.v ===== *)
(** * Agents: agent_manager and the status operations of app/agent.go

    An agent object is a cell of the heap that holds the model's Agent (the Go object has
    a pointer to it); the cache of the manager maps agent ids to cells. singleflight runs
    the function it is given: one caller at a time is modelled, the result is then never
    shared. *)

From S2P Require Import Prelude Model Queue Attempt World.

(** ** The agent object: agent_manager/agent.go *)

Definition Agent_IsExpire (a : Agent) (updatedAt : Z) : bool :=
  bool_decide (ag_UpdatedAt a <> updatedAt).

Definition GetCallEndpoints (a : Agent) : list string :=
  match ag_Destination a with Some d => [d] | None => [] end.

(** The comment of the status is not stored. *)
Definition StoreStatus (s : AgentStatus) (a : Agent) : Agent :=
  a <| ag_status := ((ag_status a) <| as_Status := (as_Status s) |>
                       <| as_StatusPayload := (as_StatusPayload s) |>
                       <| as_StatusPreset := (as_StatusPreset s) |>) |>.

Definition SetTeamUpdatedAt (at_ : Z) (a : Agent) : Agent := a <| ag_TeamUpdatedAt := at_ |>.

Definition SetOnDemand (v : bool) (a : Agent) : Agent := a <| ag_OnDemand := v |>.

Definition HookData (a : Agent) : strmap :=
  let data : strmap :=
    {[ "agent_id" := fmt_d (ag_Id a); "user_id" := fmt_d (Agent_UserId a);
       "team_id" := fmt_d (ag_TeamId a); "agent_name" := ag_Name a;
       "status" := as_Status (ag_status a) ]} in
  let data := put_opt "status_payload" (as_StatusPayload (ag_status a)) data in
  let data := put_opt "extension" (ag_Extension a) data in
  match as_StatusPreset (ag_status a) with
  | Some p => <["online_skill.name" := lk_Name p]> (<["online_skill.id" := fmt_d (lk_Id p)]> data)
  | None => data
  end.

(** ** Events: agent_manager/am_agent_events.go *)

Definition AgentChangedStatusEvent : string := "agent_status".

Definition NewAgentEventStatus (a : Agent) (e : AgentEvent) (s : AgentStatus) : Event :=
  NewEvent AgentChangedStatusEvent (Agent_UserId a) (AgentEventStatus e s).

Definition NewAgentEventOnlineStatus (a : Agent) (info : AgentOnlineData) (onDemand : bool) : Event :=
  NewEvent AgentChangedStatusEvent (Agent_UserId a)
    (AgentEventOnlineStatus (ao_Channel info) onDemand
       (MkAgentEvent (ag_Id a) (Agent_UserId a) (ag_DomainId a) (ao_Timestamp info))
       (CreateAgentStatus AgentStatusOnline [WithStatusPreset (ao_StatusPreset info)])).

Section Agents.
Context {OC : Type -> Type} {HOC : ObjectCache OC} {SV : Services}.

(** ** The manager: agent_manager/agent_manager.go *)

(** A cached object that satisfies [ok], as the two lookups of the source test it. *)
Definition cached_agent (id : Z) (ok : Agent -> bool) : M OC (option loc) :=
  item ← agents_get id;
  match item with
  | Some l => a ← get_agent l; mret (if ok a then Some l else None)
  | None => mret None
  end.

Definition PutAgentCache (a : Agent) : M OC loc :=
  c ← cached_agent (ag_Id a) (fun cur => bool_decide (ag_UpdatedAt cur >= ag_UpdatedAt a));
  match c with
  | Some l => mret l
  | None =>
      l ← new_agent a;
      _ ← agents_add (ag_Id a) l;
      mret l
  end.

Definition GetAgent (id updatedAt : Z) : M OC (result loc) :=
  let fresh a := negb (Agent_IsExpire a updatedAt) in
  c ← cached_agent id fresh;
  match c with
  | Some l => mret (inr l)
  | None =>
      (* requestGroup.Do *)
      c ← cached_agent id fresh;
      match c with
      | Some l => mret (inr l)
      | None =>
          a ←ok call (AgentStoreGet id) svc_agent;
          l ← new_agent a;
          _ ← agents_add id l;
          mret (inr l)
      end
  end.

Definition AgentChangeStatus_mq (l : loc) (e : Event) : M OC (option AppError) :=
  a ← get_agent l;
  call_err (AgentChangeStatus (ag_DomainId a) (Agent_UserId a) e).

Definition SetOnline (l : loc) (onDemand : bool) : M OC (option AgentOnlineData * option AppError) :=
  a ← get_agent l;
  r ← call (AgentSetOnline (ag_Id a) onDemand) svc_agentOnline;
  match r with
  | inl err => mret (None, Some err)
  | inr data =>
      _ ← mod_agent l (SetOnDemand onDemand);
      _ ← mod_agent l (StoreStatus (CreateAgentStatus AgentStatusOnline []));
      a ← get_agent l;
      e ← AgentChangeStatus_mq l (NewAgentEventOnlineStatus a data onDemand);
      mret (Some data, e)
  end.

Definition setAgentStatus (a : Agent) (s : AgentStatus) : M OC (option AppError) :=
  call_err (AgentSetStatus (ag_Id a) (as_Status s) (as_StatusPayload s) (as_StatusComment s)).

(** The part SetOffline, SetPause and SetBreakOut share: store, then the object, then the
    event. *)
Definition change_status (l : loc) (s : AgentStatus) : M OC (option AppError) :=
  a ← get_agent l;
  now ← GetMillis;
  let ev := MkAgentEvent (ag_Id a) (Agent_UserId a) (ag_DomainId a) now in
  then_ (setAgentStatus a s)
    (_ ← mod_agent l (StoreStatus s);
     a ← get_agent l;
     AgentChangeStatus_mq l (NewAgentEventStatus a ev s)).

Definition SetOffline (l : loc) (sys : option string) : M OC (option AppError) :=
  change_status l (MkAgentStatus AgentStatusOffline sys None None).

Definition SetPause (l : loc) (payload comment : option string) : M OC (option AppError) :=
  change_status l (MkAgentStatus AgentStatusPause payload comment None).

Definition SetBreakOut (l : loc) : M OC (option AppError) :=
  change_status l (MkAgentStatus AgentStatusBreakOut None None None).

(** The reason an agent is logged out by the system. *)
Definition offline_reason (v : AgentHashKey) : option string :=
  if hk_Ws v || hk_Sip v || hk_ReasonSca v || hk_ReasonNoCCLicense v then
    Some ("system"
          +:+ (if hk_ReasonSca v then "/screen_control" else if hk_Ws v then "/ws" else "")
          +:+ (if hk_Sip v then "/sip" else "")
          +:+ (if hk_ReasonNoCCLicense v then "/no_cc_license" else ""))
  else None.

Definition MaxAgentOnlineWithOutSocSec : Z := 60.

(** [hook] is hookAutoOfflineAgent, if set. *)
Definition changeDeadlineState (hook : option (loc -> M OC unit)) : M OC unit :=
  r ← call (AgentOnlineWithoutActive MaxAgentOnlineWithOutSocSec) svc_withoutActive;
  match r with
  | inl _ => mret tt
  | inr items =>
      for_each items (fun v =>
        g ← GetAgent (hk_Id v) (hk_UpdatedAt v);
        match g with
        | inl _ => mret tt
        | inr l =>
            a ← get_agent l;
            _ ← (if decide (ag_TeamUpdatedAt a <> hk_TeamUpdatedAt v)
                 then mod_agent l (SetTeamUpdatedAt (hk_TeamUpdatedAt v)) else mret tt);
            e ← SetOffline l (offline_reason v);
            match e, hook with
            | None, Some h => h l
            | _, _ => mret tt
            end
        end)
  end.

Definition MissedAttempt (agentId attemptId : Z) (cause : string) : M OC (option AppError) :=
  call_err (AgentMissedAttempt agentId attemptId cause).

End Agents.
