(* ===== verification/Events.v ===== *)
(** * Events and hooks: queue/events.go, queue/hook.go and SetState of queue/attempt.go

    The constructors of the events the agents receive, the start of the flow that a
    queue hooks to a state, and the variables an attempt exports, which read the agent
    and the channels behind its pointers. *)

From S2P Require Import Prelude Model Queue Attempt Resource World.

Definition NewProcessingProlongation (remaining sec : Z) : ProcessingProlongation :=
  MkProcessingProlongation remaining sec.

Definition NewProcessingEventEvent (a : Attempt) (userId timestamp deadlineSec renewal : Z)
    (prolongation : option ProcessingProlongation) (autosave : bool) : Event :=
  NewEvent "channel" userId
    (ProcessingEvent
       (MkChannelEvent (Some (at_Id a)) (at_channel a) ChannelStateProcessing timestamp None)
       (MkProcessing autosave (i64 (timestamp + deadlineSec * 1000)) deadlineSec renewal
          prolongation)).

Definition NewRenewalProcessingEvent (attId userId : Z) (channel : string)
    (timeout timestamp renewal : Z) (prolongation : option ProcessingProlongation)
    (autosave : bool) : Event :=
  NewEvent "channel" userId
    (ProcessingEvent
       (MkChannelEvent (Some attId) channel ChannelStateProcessing timestamp None)
       (MkProcessing autosave timeout (u32 (Z.quot (i64 (timeout - timestamp)) 1000)) renewal
          prolongation)).

Definition NewMissedEventEvent (a : Attempt) (userId timestamp timeout : Z) (err : option string) : Event :=
  NewEvent "channel" userId
    (MissedEvent (MkChannelEvent (Some (at_Id a)) (at_channel a) ChannelStateMissed timestamp err)
       timeout).

Definition NewWrapTimeEventEvent (channel : string) (attemptId : option Z)
    (userId timestamp timeout : Z) : Event :=
  NewEvent "channel" userId
    (WrapTimeEvent (MkChannelEvent attemptId channel ChannelStateWrapTime timestamp None) timeout).

Definition NewWaitingChannelEvent (channel : string) (userId : Z) (attemptId : option Z)
    (timestamp : Z) : Event :=
  NewEvent "channel" userId
    (WaitingChannelEvent (MkChannelEvent attemptId channel ChannelStateWaiting timestamp None)).

Definition NewAnsweredEvent (a : Attempt) (userId timestamp : Z) : Event :=
  NewEvent "channel" userId
    (AnsweredEvent (MkChannelEvent (Some (at_Id a)) (at_channel a) ChannelStateAnswered timestamp None)).

Definition NewOfferingEvent (a : Attempt) (userId timestamp : Z) (aChannel mChannel : option Channel) : Event :=
  NewEvent "channel" userId
    (OfferingEvent (MkChannelEvent (Some (at_Id a)) (at_channel a) ChannelStateOffering timestamp None)
       (ch_id <$> mChannel) (ch_id <$> aChannel)
       (at_queue a ≫= fun q => AutoAnswerValue (qo_base q))).

Section Events.
Context {OC : Type -> Type} {HOC : ObjectCache OC} {SV : Services}.

(** The statistics and the answer of a channel; instant message sessions and tasks have
    constant ones. *)
Definition channel_stats (t : trace) (ch : Channel) : strmap :=
  match ch_kind ch with
  | ChIM | ChTask => ∅
  | ChCall | ChChat => svc_channelStats t ch
  end.

Definition channel_answered (t : trace) (ch : Channel) : bool :=
  match ch_kind ch with
  | ChIM => true
  | _ => svc_channelAnswered t ch
  end.

(** ExportSchemaVariables of the attempt at a location. *)
Definition export_schema (l : loc) : M OC strmap :=
  a ← get_attempt l;
  ag ← opt_agent (at_agent a);
  now ← GetMillis;
  stats ← ask (fun t => match at_memberChannel a with
                        | Some ch => channel_stats t ch
                        | None => ∅
                        end);
  mret (ExportSchemaVariables now ag stats a).

(** A form of the flow service, decoded for an event. *)
Definition form_data (a : Attempt) : M OC (option string) :=
  match at_processingForm a with
  | Some f => ask (fun t => decode_form (svc_form t f))
  | None => mret None
  end.

Definition NewBridgedEventEvent (l : loc) (userId timestamp : Z) : M OC Event :=
  a ← get_attempt l;
  f ← form_data a;
  mret (NewEvent "channel" userId
    (BridgedEvent (MkChannelEvent (Some (at_Id a)) (at_channel a) ChannelStateBridged timestamp None) f)).

Definition NewNextFormEvent (l : loc) (userId : Z) : M OC Event :=
  a ← get_attempt l;
  now ← GetMillis;
  f ← form_data a;
  mret (NewEvent "channel" userId
    (BridgedEvent (MkChannelEvent (Some (at_Id a)) (at_channel a) ChannelStateNextForm now None) f)).

(** [agent] is never nil where the event is built. *)
Definition NewDistributeEvent (l : loc) (userId : Z) (queue : QueueObject) (agent : Agent)
    (hasReporting : bool) (mChannel aChannel : option Channel) (teamAcceptTimeout : Z) : M OC Event :=
  a ← get_attempt l;
  now ← GetMillis;
  let b := qo_base queue in
  vars ← (if decide (TypeName b = "progressive") then v ← export_schema l; mret (Some v)
          else if decide (at_channel a = QueueChannelTask \/ at_channel a = QueueChannelIM)
          then mret (Some (UnionStringMaps [ExportVariables a; entries (bq_variables b)]))
          else mret None);
  let mwt := MaxWaitTimeFromQueue queue in
  mret (NewEvent "channel" userId
    (DistributeEvent
       (MkChannelEvent (Some (at_Id a)) (at_channel a) ChannelStateDistribute now None)
       {| ds_AppId := svc_node; ds_Channel := bq_channel b; ds_QueueId := bq_id b;
          ds_QueueName := bq_name b;
          ds_QueueMaxWaitTime := if decide (mwt <> 0) then Some mwt else None;
          ds_MemberId := MemberId a; ds_MemberName := Some (ma_Name (at_member a));
          ds_MemberJoinedAt := JoinedAt a; ds_AgentId := Some (ag_Id agent);
          ds_MemberChannelId := ch_id <$> mChannel; ds_AgentChannelId := ch_id <$> aChannel;
          ds_Communication := at_communication a; ds_Variables := vars;
          ds_HasReporting := hasReporting && negb (at_processTransfer a);
          ds_HasForm := HasForm b; ds_Autosave := bq_processingAutosave b;
          ds_TeamAcceptTimeout := teamAcceptTimeout |})).

Definition NewTransferEvent (l : loc) (toAttemptId userId : Z) (queue : QueueObject)
    (agent : Agent) (r : bool) (mChannel aChannel : option Channel) : M OC Event :=
  a ← get_attempt l;
  now ← GetMillis;
  let b := qo_base queue in
  form ← form_data a;
  vars ← (if decide (at_channel a = QueueChannelTask \/ TypeName b = "progressive"
                     \/ at_channel a = QueueChannelIM)
          then v ← export_schema l; mret (Some v) else mret None);
  let mwt := MaxWaitTimeFromQueue queue in
  mret (NewEvent "channel" userId
    (TransferEvent
       (MkChannelEvent (Some (at_Id a)) (at_channel a) ChannelTransfer now None)
       form toAttemptId
       {| ds_AppId := svc_node; ds_Channel := bq_channel b; ds_QueueId := bq_id b;
          ds_QueueName := bq_name b;
          ds_QueueMaxWaitTime := if decide (mwt > 0) then Some mwt else None;
          ds_MemberId := MemberId a; ds_MemberName := None;
          ds_MemberJoinedAt := JoinedAt a; ds_AgentId := Some (ag_Id agent);
          ds_MemberChannelId := ch_id <$> mChannel; ds_AgentChannelId := ch_id <$> aChannel;
          ds_Communication := at_communication a; ds_Variables := vars;
          ds_HasReporting := r; ds_HasForm := bool_decide (form <> None);
          ds_Autosave := false; ds_TeamAcceptTimeout := 0 |})).

(** ** Hooks *)

Definition Hook (q : BaseQueue) (nm : string) (l : loc) : M OC unit :=
  match getByName (bq_hooks q) nm with
  | None => mret tt
  | Some schema =>
      a ← get_attempt l;
      vars ← export_schema l;
      _ ← call (StartFlow schema (bq_domainId q)
                  (Some (UnionStringMaps
                     [vars; entries (bq_variables q);
                      {[ "state" := at_state a; "channel" := bq_channel q ]}])))
            svc_flow_start;
      mret tt
  end.

(** The attempt's queue is an interface: a method call on nil panics. *)
Definition attempt_queue (l : loc) : M OC QueueObject :=
  a ← get_attempt l;
  match at_queue a with
  | Some q => mret q
  | None => panic nil_deref
  end.

Definition SetState (l : loc) (st : string) : M OC unit :=
  now ← GetMillis;
  _ ← mod_attempt l (set_state now st);
  q ← attempt_queue l;
  Hook (qo_base q) st l.

Definition DistributeAgent (l agent : loc) : M OC unit :=
  a ← get_attempt l;
  if decide (at_state a <> MemberStateWaitAgent) then mret tt
  else
    _ ← mod_attempt l (SetAgent (Some agent));
    emit (EmitDistributeAgent l agent).

Definition TeamUpdatedAt (l : loc) : M OC Z :=
  a ← get_attempt l;
  match at_agent a with
  | Some ag => ag ← get_agent ag; mret (ag_TeamUpdatedAt ag)
  | None => mret (default 0 (ma_TeamUpdatedAt (at_member a)))
  end.

Definition Attempt_Display (l : loc) : M OC string :=
  a ← get_attempt l;
  if decide (default "" (mc_Display (at_communication a)) <> "")
  then mret (default "" (mc_Display (at_communication a)))
  else match at_resource a with
       | Some r =>
           r ← get_resource r;
           d ← ask (fun t => GetDisplay (svc_rand t) r);
           _ ← mod_attempt l (fun a => a <| at_communication :=
                 ((at_communication a) <| mc_Display := (Some d) |>) |>);
           mret d
       | None => mret ""
       end.

(** Attempt.Close *)
Definition Attempt_Close (l : loc) : M OC unit :=
  a ← get_attempt l;
  match at_processingForm a with
  | Some f => _ ← call_err (FormClose f); mret tt
  | None => mret tt
  end.

(** Attempt.SetCancel at a location. *)
Definition attempt_SetCancel (l : loc) : M OC unit := mod_attempt_o l SetCancel.

End Events.
