(* ===== verification/Schema.v ===== *)
(** * Schemas of the flow service: queue/schema.go

    The schema run before a member is distributed, the schema run on the result of an
    attempt, and the processing form of an agent. singleflight runs the function it is
    given. *)

From S2P Require Import Prelude Model Queue Attempt World Events.

Section Schema.
Context {OC : Type -> Type} {HOC : ObjectCache OC} {SV : Services}.

(** AfterDistributeSchema of the manager: the result of the schema, if there is one. *)
Definition qm_AfterDistributeSchema (l : loc) : M OC (option SchemaResult) :=
  a ← get_attempt l;
  match at_queue a with
  | None => mret None
  | Some q =>
      match bq_afterSchemaId (qo_base q) with
      | None => mret None
      | Some schema =>
          vars ← ask (fun t =>
            match at_memberChannel a with
            | None => ∅
            | Some m =>
                let stats := channel_stats t m in
                if decide (Result a = "") then
                  let both := match at_agentChannel a with
                              | Some ac => channel_answered t ac && channel_answered t m
                              | None => false
                              end in
                  let stats := <["cc_result" := if both then "success" else "abandoned"]> stats in
                  if channel_answered t m then stats else <["cc_result" := "failed"]> stats
                else stats
            end);
          let scope := match at_memberChannel a with
                       | Some m => if decide (at_channel a = QueueChannelCall)
                                   then Some (at_channel a, ch_id m) else None
                       | None => None
                       end in
          exported ← export_schema l;
          r ← call (ResultAttemptFlow (bq_domainId (qo_base q)) schema scope
                      (UnionStringMaps [entries (bq_variables (qo_base q)); exported; vars]))
                svc_resultAttempt;
          mret match r with
               | inl _ => None
               | inr (rvars, RA_Success) =>
                   Some (MkSchemaResult SchemaResultTypeSuccess AttemptResultSuccess
                           0 0 false false rvars 0 false "" 0 false 0)
               | inr (rvars, RA_Abandoned st mx wt ex rd ag di de) =>
                   Some (MkSchemaResult SchemaResultTypeAbandoned st mx wt ex rd rvars ag di de
                           0 false 0)
               | inr (_, RA_Retry sl nr ri) =>
                   Some (MkSchemaResult SchemaResultTypeRetry "" 0 0 false false None 0 false ""
                           sl nr ri)
               | inr (_, RA_None) => None
               end
      end
  end.

(** AfterDistributeSchema of the attempt: the result also changes the attempt. *)
Definition AfterDistributeSchema (l : loc) : M OC (option SchemaResult) :=
  r ← qm_AfterDistributeSchema l;
  match r with
  | None => mret None
  | Some res => _ ← mod_attempt l (apply_schema_result res); mret (Some res)
  end.

(** ApplyCallbackRules on a live attempt. The callback is shared between the caller and
    the attempt, so the changes made after SetCallback are seen through both. *)
Definition ApplyCallbackRules (l : loc) (result : AttemptCallback) : M OC AttemptCallback :=
  _ ← mod_attempt l (SetCallback result);
  r ← AfterDistributeSchema l;
  match r with
  | None => mret result
  | Some r =>
      let result := result <| cb_Status := (cmp_or (sr_Status r) (cb_Status result)) |> in
      let result := match sr_Variables r with
                    | Some vars => result <| cb_Variables :=
                        (Some (UnionStringMaps [entries (cb_Variables result); vars])) |>
                    | None => result
                    end in
      _ ← mod_attempt l (fun a => a <| at_result := (Some result) |>);
      mret result
  end.

Definition DoDistributeSchema (queue : BaseQueue) (l : loc) : M OC bool :=
  match bq_doSchema queue with
  | None => mret true
  | Some schema =>
      exported ← export_schema l;
      r ← call (DoDistributeAttemptFlow (bq_domainId queue) schema
                  (UnionStringMaps [entries (bq_variables queue); exported]))
            svc_distributeAttempt;
      match r with
      | inl _ => mret true
      | inr (rvars, res) =>
          a ← get_attempt l;
          confirm ← match res with
                    | DA_Cancel d n s =>
                        _ ← call_err (SetDistributeCancel (at_Id a) d n s rvars); mret false
                    | DA_Confirm d v =>
                        _ ← (if decide (d <> "") then mod_attempt l (fun a => a <| at_communication :=
                               ((at_communication a) <| mc_Destination := d |>) |>) else mret tt);
                        _ ← (if decide (v <> "") then mod_attempt l (fun a => a <| at_communication :=
                               ((at_communication a) <| mc_Display := (Some v) |>) |>) else mret tt);
                        mret true
                    | DA_None => mret true
                    end;
          _ ← match rvars with
              | Some vars => mod_attempt l (AddVariables vars)
              | None => mret tt
              end;
          mret confirm
      end
  end.

(** ** Processing forms *)

Definition qm_StartProcessingForm (schemaId : Z) (l : loc) : M OC unit :=
  if decide (schemaId = 0) then mret tt
  else
    _ ← mod_attempt l MarkProcessingFormStarted;
    vars ← export_schema l;
    a ← get_attempt l;
    r ← call (NewProcessingFlow (at_domainId a) schemaId vars) svc_newProcessing;
    match r with
    | inl _ => mret tt
    | inr pf =>
        form ← ask (fun t => svc_form t pf);
        fields ← ask (fun t => svc_formFields t pf);
        err ← call_err (StoreForm (at_Id a) form fields);
        match err with
        | Some _ => mret tt
        | None =>
            _ ← mod_attempt l (fun a => a <| at_processingForm := (Some pf) |>);
            a ← get_attempt l;
            ag ← opt_agent (at_agent a);
            match ag with
            | None => mret tt
            | Some ag =>
                e ← NewNextFormEvent l (Agent_UserId ag);
                _ ← call_err (AgentChannelEvent (at_channel a) (at_domainId a) (at_QueueId a)
                                (Agent_UserId ag) e);
                mret tt
            end
        end
    end.

(** BaseQueue.StartProcessingForm starts it in a goroutine. *)
Definition StartProcessingForm (q : BaseQueue) (l : loc) : M OC unit :=
  a ← get_attempt l;
  match bq_formSchemaId q with
  | Some schema =>
      if bq_processing q && negb (at_processingFormStarted a)
      then emit (EGo (JobProcessingForm schema l)) else mret tt
  | None => mret tt
  end.

Definition attemptProcessingActionForm (attemptId : Z) (action : string) (fields : strmap)
    : M OC (option AppError) :=
  o ← members_get attemptId;
  match o with
  | None => mret (Some (NewAppError "" "not found" "" 0))
  | Some l =>
      a ← get_attempt l;
      match at_processingForm a, at_agent a with
      | Some f, Some agl =>
          _ ← mod_attempt l (UpdateProcessingFields fields);
          err ← call_err (FormAction f action fields);
          stop ← match err with
                 | Some _ =>
                     _ ← mod_attempt l (fun a => a <| at_processingForm := None |>);
                     _ ← call_err (StoreFormFields (at_Id a) fields);
                     mret false
                 | None =>
                     form ← ask (fun t => svc_form t f);
                     ffields ← ask (fun t => svc_formFields t f);
                     e ← call_err (StoreForm (at_Id a) form ffields);
                     mret (bool_decide (e <> None))
                 end;
          if (stop : bool) then mret None
          else
            ag ← get_agent agl;
            e ← NewNextFormEvent l (Agent_UserId ag);
            call_err (AgentChannelEvent (at_channel a) (at_domainId a) (at_QueueId a)
                        (Agent_UserId ag) e)
      | _, _ => mret None
      end
  end.

End Schema.
