(* ===== verification/Manager.v ===== *)
(** * The queue manager: queue/queue_manager.go, queue/resource_manager.go

    Creation, distribution and leaving of attempts, the reporting of an agent, the
    caches of queues and resources. The code of a queue kind is in the file Distribute,
    the operations of a team in Team. *)

From S2P Require Import Prelude Model Queue Attempt TaskChannel Resource World Agents.
From S2P Require Import Events Schema.

Section Manager.
Context {OC : Type -> Type} {HOC : ObjectCache OC} {SV : Services} {DE : Decoders}.

(** ** Resources: queue/resource_manager.go *)

Definition ResourceManager_Get (id updatedAt : Z) : M OC (result loc) :=
  item ← resources_get id;
  hit ← match item with
        | Some l =>
            r ← get_resource l;
            mret (if Resource_IsExpire r updatedAt then None else Some l)
        | None => mret None
        end;
  match hit with
  | Some l => mret (inr l)
  | None =>
      config ←ok call (ResourceGetById id) svc_resource;
      gw ←ok call (GatewayGet (or_GatewayId config)) svc_gateway;
      l ← new_resource (NewResource config gw);
      _ ← resources_add id l;
      mret (inr l)
  end.

Definition RemoveFromCacheById (id : Z) : M OC unit := resources_remove id.

Definition SetResourceSuccessful (l : loc) : M OC unit :=
  r ← get_resource l;
  if decide (rs_successivelyErrors r > 0) then
    _ ← call_err (ResourceSetErrors (rs_id r) 0);
    mod_resource l (SetSuccessivelyErrors 0)
  else mret tt.

Definition SetResourceError (l : loc) (errorId : string) : M OC unit :=
  r ← get_resource l;
  bad ← lift (CheckCodeError r errorId);
  if (bad : bool) then
    err ← call_err (ResourceSetError (rs_id r) 1 errorId);
    match err with
    | Some _ => mret tt
    | None => RemoveFromCacheById (rs_id r)
    end
  else SetResourceSuccessful l.

Definition GetAttemptResource (l : loc) : M OC (option loc) :=
  a ← get_attempt l;
  match ma_ResourceId (at_member a), ma_ResourceUpdatedAt (at_member a) with
  | Some id, Some u =>
      r ← ResourceManager_Get id u;
      mret match r with inl _ => None | inr r => Some r end
  | _, _ => mret None
  end.

Definition FlipAttemptResource (l : loc) (skip : list Z) : M OC (result AttemptFlipResource) :=
  a ← get_attempt l;
  res ←ok call (FlipResourceStore (at_Id a) skip) svc_flip;
  match fr_ResourceId res with
  | None => mret (inr res)
  | Some _ =>
      _ ← mod_attempt l (Attempt_FlipResource res);
      r ← GetAttemptResource l;
      _ ← mod_attempt l (fun a => a <| at_resource := r |>);
      match r with
      | None => panic nil_deref
      | Some rl =>
          r ← get_resource rl;
          d ← ask (fun t => GetDisplay (svc_rand t) r);
          _ ← mod_attempt l (fun a => a <| at_communication :=
                ((at_communication a) <| mc_Display := (Some d) |>) |>);
          mret (inr res)
      end
  end.

(** ** Attempts *)

Definition GetAttempt (id : Z) : M OC (option loc) := members_get id.

Definition GetAttemptAgent (l : loc) : M OC (option loc) :=
  a ← get_attempt l;
  match ma_AgentId (at_member a), ma_AgentUpdatedAt (at_member a) with
  | Some id, Some u =>
      r ← GetAgent id u;
      mret match r with inl _ => None | inr ag => Some ag end
  | _, _ => mret None
  end.

Definition createAttempt (conf : MemberAttempt) : M OC loc :=
  l ← new_attempt (NewAttempt MemberDestinationFromBytes conf);
  _ ← members_add (ma_Id conf) l;
  _ ← wg_add 1;
  _ ← modify (fun w => w <| w_attemptCount := (i64 (w_attemptCount w + 1)) |>);
  mret l.

Definition CreateAttemptIfNotExists (attempt : MemberAttempt) : M OC loc :=
  o ← GetAttempt (ma_Id attempt);
  match o with
  | Some _ => panic "panic: ERROR"
  | None =>
      l ← createAttempt attempt;
      match ma_AgentId attempt, ma_AgentUpdatedAt attempt with
      | Some id, Some u =>
          r ← GetAgent id u;
          match r with
          | inl err => panic ("panic: " +:+ err_Where err +:+ ": " +:+ err_Detail err)
          | inr ag => _ ← mod_attempt l (SetAgent (Some ag)); mret l
          end
      | _, _ => mret l
      end
  end.

Definition GetQueue (id updatedAt : Z) : M OC (result QueueObject) :=
  item ← queues_get id;
  match keep_if (fun q => negb (BaseQueue_IsExpire (qo_base q) updatedAt)) item with
  | Some q => mret (inr q)
  | None =>
      params ←ok call (QueueGetById id) svc_queue;
      q ←ok lift (NewQueue params);
      _ ← queues_add id q;
      mret (inr q)
  end.

Definition SetAgentWaitingChannel (agent : loc) (channel : string) : M OC (option AppError) :=
  ag ← get_agent agent;
  r ← call (AgentWaitingChannel (ag_Id ag) channel) svc_timestamp;
  match r with
  | inl e => mret (Some e)
  | inr ts =>
      call_err (AgentChannelEvent channel (ag_DomainId ag) 0 (Agent_UserId ag)
                  (NewWaitingChannelEvent channel (Agent_UserId ag) None ts))
  end.

Definition FlushAttemptFields (l : loc) : M OC unit :=
  a ← get_attempt l;
  if decide (entries (ProcessingFields a) = ∅) then mret tt
  else _ ← call_err (UpdateProcessingForm (at_Id a) (ProcessingFields a)); mret tt.

(** [if cfg ...; store.SchemaResult(...)] with the configuration of the attempt. *)
Definition save_schema_result (a : Attempt) (cb : AttemptCallback) : M OC (result AttemptLeaving) :=
  let cfg := Attempt_ReportingConfig (Some a) in
  call (SchemaResultSave (at_Id a) cb (rc_MaxAttempts cfg) (rc_WaitBetween cfg) (rc_PerNumbers cfg))
    svc_leaving.

(** The part of LeavingMember for an attempt that is still cached. SetState runs the hooks of
    the queue of the attempt and panics if it has none, so the line that logs the queue at
    the end has one. *)
Definition leave_cached (l : loc) (a : Attempt) : M OC unit :=
  _ ← (if IsProcessingAutosaveEnabled a then
         _ ← FlushAttemptFields l;
         a ← get_attempt l;
         match at_draft a with
         | Some d => _ ← save_schema_result a d; mret tt
         | None => mret tt
         end
       else mret tt);
  _ ← SetState l HookLeaving;
  _ ← Attempt_Close l;
  _ ← members_remove (at_Id a);
  wg_done.

Definition LeavingMember (l : loc) : M OC unit :=
  a ← get_attempt l;
  _ ← (if decide (Result a = "") then mod_attempt l (SetResult AttemptResultAbandoned) else mret tt);
  _ ← (if at_manualDistribution a && bool_decide (at_bridgedAt a = 0) then
         _ ← call_err (NotificationIntercept (at_domainId a) (at_QueueId a) (at_channel a) (at_Id a) 0);
         mret tt
       else mret tt);
  o ← members_get (at_Id a);
  match o with
  | None => mret tt
  | Some _ => leave_cached l a
  end.

Definition set_stop_cause (l : loc) (c : option string) : M OC unit :=
  match c with
  | Some _ => mod_attempt l (SetMemberStopCause c)
  | None => mret tt
  end.

Definition Abandoned (l : loc) : M OC unit :=
  a ← get_attempt l;
  r ← call (SetAttemptAbandoned (at_Id a) 0 0 None (at_perNumbers a) (at_excludeCurrNumber a)
              (at_redial a) (at_description a) (at_stickyAgentId a)) svc_leaving;
  _ ← match r with
      | inl _ => mret tt
      | inr res => set_stop_cause l (al_MemberStopCause res)
      end;
  a ← get_attempt l;
  _ ← (if decide (Result a = "") then mod_attempt l (SetResult AttemptResultAbandoned) else mret tt);
  LeavingMember l.

Definition Barred (l : loc) : M OC (option AppError) :=
  a ← get_attempt l;
  call_err (SetBarred (at_Id a) (ma_BlockAllMemberNumbersFromList (at_member a))).

Definition SetAttemptSuccess (l : loc) (vars : gomap) : M OC unit :=
  a ← get_attempt l;
  r ← call (SetAttemptResult (at_Id a) AttemptResultSuccess "" 0 vars (at_maxAttempts a)
              (at_waitBetween a) (at_perNumbers a) (at_description a) (at_stickyAgentId a)) svc_missed;
  match r with
  | inl _ => mret tt
  | inr res =>
      _ ← set_stop_cause l (mi_MemberStopCause res);
      mod_attempt l (SetResult AttemptResultSuccess)
  end.

Definition SetAttemptAbandonedWithParams (l : loc) (maxAttempts sleep : Z) (vars : gomap) : M OC unit :=
  a ← get_attempt l;
  r ← call (SetAttemptAbandoned (at_Id a) maxAttempts sleep vars (at_perNumbers a)
              (at_excludeCurrNumber a) (at_redial a) (at_description a) (at_stickyAgentId a)) svc_leaving;
  match r with
  | inl _ => mret tt
  | inr res =>
      _ ← set_stop_cause l (al_MemberStopCause res);
      mod_attempt l (SetResult (default AttemptResultAbandoned (al_Result res)))
  end.

Definition SendAfterDistributeSchema (l : loc) : M OC bool :=
  r ← AfterDistributeSchema l;
  match r with
  | None => mret false
  | Some res =>
      a ← get_attempt l;
      _ ← (if decide (sr_Status res = AttemptResultSuccess)
           then SetAttemptSuccess l (sr_Variables res)
           else SetAttemptAbandonedWithParams l (at_maxAttempts a) (at_waitBetween a) (sr_Variables res));
      _ ← LeavingMember l;
      mret true
  end.

Definition TimeoutLeavingMember (l : loc) : M OC unit :=
  a ← get_attempt l;
  match at_queue a with
  | None => mret tt
  | Some q =>
      let result := callback_of_status
        (if bq_isProlongationTimeoutRetry (qo_base q) then "timeout"
         else AttemptResultCancelledByTimeout) in
      r ← AfterDistributeSchema l;
      result ← match r with
               | Some cb =>
                   _ ← mod_attempt l DropDraft;
                   mret ((callback_of_status (sr_Status cb))
                           <| cb_Description := (sr_Description cb) |>
                           <| cb_Display := (sr_Display cb) |>
                           <| cb_Variables := (sr_Variables cb) |>
                           <| cb_StickyAgentId :=
                                (if decide (sr_AgentId cb > 0) then Some (sr_AgentId cb) else None) |>)
               | None => mret result
               end;
      a ← get_attempt l;
      match at_draft a with
      | Some _ => LeavingMember l
      | None =>
          res ← save_schema_result a result;
          match res with
          | inl _ => mret tt
          | inr res =>
              _ ← set_stop_cause l (al_MemberStopCause res);
              _ ← mod_attempt l (SetResult (default AttemptResultAbandoned (al_Result res)));
              LeavingMember l
          end
      end
  end.

Definition SetAttemptCancel (id : Z) (result : string) : M OC bool :=
  o ← GetAttempt id;
  match o with
  | None => mret false
  | Some l =>
      _ ← mod_attempt l (SetResult result);
      _ ← attempt_SetCancel l;
      mret true
  end.

(** ** Reporting *)

Definition errNotFoundConnection : AppError :=
  NewAppError "QM" "qm.connection.not_found" "Not found" 404.

Definition getAgentTaskFromAttemptId (id : Z) : M OC (result loc) :=
  o ← GetAttempt id;
  match o with
  | None => mret (inl (NewAppError "Queue.AcceptAgentTask" "queue.task.accept.not_found"
                         ("not found attempt_id=" +:+ fmt_d id) 404))
  | Some l =>
      a ← get_attempt l;
      mret match at_channelData a with
           | None => inl (NewAppError "Queue.AcceptAgentTask" "queue.task.accept.valid.channel"
                            ("attempt_id=" +:+ fmt_d id +:+ " not a agent task") 400)
           | Some t => inr t
           end
  end.

(** An operation of a task channel at a location, with the clock in milliseconds. *)
Definition task_op_at (f : Z -> TaskChannel -> outcome (option AppError * TaskChannel)) (t : loc)
    : M OC (option AppError) :=
  now ← GetMillis;
  c ← get_task t;
  '(e, c) ← lift (f now c);
  _ ← put_task t c;
  mret e.

Definition AcceptAgentTask (canceled : bool) (attemptId : Z) : M OC (option AppError) :=
  if canceled then
    mret (Some (NewAppError "Queue.AcceptAgentTask"
                  "queue.queue_manager.accept_agent_task_canceled" "canceled due to user request" 499))
  else
    r ← getAgentTaskFromAttemptId attemptId;
    match r with inl e => mret (Some e) | inr t => task_op_at SetAnswered t end.

Definition CloseAgentTask (attemptId : Z) : M OC (option AppError) :=
  r ← getAgentTaskFromAttemptId attemptId;
  match r with inl e => mret (Some e) | inr t => task_op_at SetClosed t end.

Definition report_task (attemptId : Z) : M OC (option AppError) :=
  r ← getAgentTaskFromAttemptId attemptId;
  match r with inl e => mret (Some e) | inr t => task_op_at Task_Reporting t end.

(** GetChat then Reporting of the conversation. *)
Definition chat_reporting (convId : string) (leave : bool) : M OC (option AppError) :=
  err ← call (GetChatConv convId) (fun t => svc_chatExists t convId);
  match err with
  | Some e => mret (Some e)
  | None => call_err (ChatReporting convId leave)
  end.

Definition closeBeforeReporting (attemptId : Z) (res : AttemptReportingResult) (ccCause : string)
    (a : option loc) : M OC (option AppError) :=
  match rr_Channel res, rr_AgentCallId res with
  | Some ch, Some callId =>
      if decide (ch = QueueChannelCall \/ ch = QueueChannelOutCall) then
        found ← ask (fun t => svc_callExists t callId);
        if (found : bool) then call_err (CallHangup callId "" true {[ "cc_result" := ccCause ]})
        else mret None
      else if decide (ch = QueueChannelChat) then
        match a with
        | None => mret None
        | Some l =>
            a ← get_attempt l;
            if decide (at_transferredAt a = 0) then
              match at_memberChannel a with
              | Some m => chat_reporting (ch_id m) false
              | None => panic nil_deref
              end
            else mret None
        end
      else if decide (ch = QueueChannelIM \/ ch = QueueChannelTask) then report_task attemptId
      else mret None
  | _, _ => mret None
  end.

Definition setChannelReporting (l : loc) (ccCause : string) (leave : bool) : M OC (option AppError) :=
  a ← get_attempt l;
  match at_agentChannel a with
  | None => mret (Some errNotFoundConnection)
  | Some ch =>
      if decide (at_channel a = QueueChannelCall) then
        found ← ask (fun t => svc_callExists t (ch_id ch));
        if (found : bool) then
          now ← GetMillis;
          _ ← call_err (CallSetVariables (ch_id ch)
                 {[ "cc_result" := ccCause; "cc_reporting_at" := fmt_d now ]});
          mret None
        else mret (Some errNotFoundConnection)
      else if decide (at_channel a = QueueChannelChat) then
        err ← call (GetChatConv (ch_id ch)) (fun t => svc_chatExists t (ch_id ch));
        match err with
        | Some _ => mret (Some errNotFoundConnection)
        | None => call_err (ChatReporting (ch_id ch) leave)
        end
      else if decide (at_channel a = QueueChannelTask) then
        r ← getAgentTaskFromAttemptId (at_Id a);
        match r with
        | inl _ => mret (Some errNotFoundConnection)
        | inr t => task_op_at Task_Reporting t
        end
      else mret None
  end.

Definition RenewalAttempt (domainId attemptId renewal : Z) : M OC (option AppError) :=
  r ← call (RenewalProcessingStore domainId attemptId renewal) svc_renewal;
  match r with
  | inl e => mret (Some e)
  | inr d =>
      let prolongation := if rp_IsProlongationEnabled d
        then Some (NewProcessingProlongation (rp_RemainingProlongations d) (rp_ProlongationSec d))
        else None in
      call_err (AgentChannelEvent (rp_Channel d) (rp_DomainId d) (rp_QueueId d) (rp_UserId d)
        (NewRenewalProcessingEvent (rp_AttemptId d) (rp_UserId d) (rp_Channel d) (rp_Timeout d)
           (rp_Timestamp d) (rp_RenewalSec d) prolongation (rp_ProcessingAutosave d)))
  end.

(** processAttemptCallback: the error, or the callback as the rules leave it. The error
    values errNotFoundConnection of the source is one shared pointer, so it is compared
    as a value. *)
Definition processAttemptCallback (a : option loc) (result : AttemptCallback) (system : bool)
    : M OC (AppError + AttemptCallback) :=
  match a with
  | None => mret (inr result)
  | Some l =>
      _ ← mod_attempt l (SetCallback result);
      stop ← (if svc_waitChannelClose && negb system then
                err ← setChannelReporting l (cb_Status result) true;
                match err with
                | None => mret None
                | Some e =>
                    a ← get_attempt l;
                    mret (if decide (e <> errNotFoundConnection /\ at_state a <> MemberStateProcessing)
                          then Some e else None)
                end
              else mret None);
      match stop with
      | Some e => mret (inl e)
      | None => r ← ApplyCallbackRules l result; mret (inr r)
      end
  end.

Definition doLeavingReporting (attemptId : Z) (attempt : option loc) (res : AttemptReportingResult)
    (result : AttemptCallback) : M OC (option AppError) :=
  err ← match rr_UserId res, rr_DomainId res with
        | Some user, Some domain =>
            let ch := default "" (rr_Channel res) in
            let timeout := match rr_AgentTimeout res with
                           | Some t => if decide (t > 0) then t else 0
                           | None => 0
                           end in
            call_err (AgentChannelEvent "" domain (default 0 (rr_QueueId res)) user
              (NewWrapTimeEventEvent ch (Some attemptId) user (rr_Timestamp res) timeout))
        | _, _ => mret None
        end;
  match attempt with
  | None => mret err
  | Some l =>
      _ ← mod_attempt l (SetMemberStopCause (rr_MemberStopCause res));
      _ ← mod_attempt l (SetCallback result);
      a ← get_attempt l;
      _ ← (if decide (at_channel a = "chat" /\ at_state a = MemberStateWaitAgent /\ at_canceled a = false)
           then attempt_SetCancel l else mret tt);
      q ← attempt_queue l;
      _ ← match at_memberChannel a with
          | Some ch =>
              if decide (TypeName (qo_base q) = "predictive" \/ TypeName (qo_base q) = "inbound") then
                match ch_kind ch with
                | ChCall => emit (WaitHangup (ch_id ch))
                | _ => panic "interface conversion"
                end
              else mret tt
          | None => mret tt
          end;
      _ ← LeavingMember l;
      mret err
  end.

Definition ReportingAttempt (attemptId : Z) (result : AttemptCallback) (system draft : bool)
    : M OC (option AppError) :=
  let result := result <| cb_Status := (cmp_or (cb_Status result) "abandoned") |> in
  attempt ← GetAttempt attemptId;
  match attempt, draft with
  | Some l, true =>
      _ ← mod_attempt l (UseDraft result);
      _ ← setChannelReporting l (cb_Status result) false;
      mret None
  | _, _ =>
      _ ← match attempt with Some l => mod_attempt l DropDraft | None => mret tt end;
      r ← processAttemptCallback attempt result system;
      match r with
      | inl e => mret (Some e)
      | inr result =>
          cfg ← match attempt with
                | Some l => a ← get_attempt l; mret (Attempt_ReportingConfig (Some a))
                | None => mret (Attempt_ReportingConfig None)
                end;
          r ← call (CallbackReporting attemptId result (rc_MaxAttempts cfg) (rc_WaitBetween cfg)
                      (rc_PerNumbers cfg)) svc_reporting;
          match r with
          | inl e => mret (Some e)
          | inr res =>
              _ ← (if system then mret tt
                   else _ ← closeBeforeReporting attemptId res (cb_Status result) attempt; mret tt);
              doLeavingReporting attemptId attempt res result
          end
      end
  end.

(** closeAttempts: every attempt of the cache is reported at shutdown. *)
Definition closeAttempts : M OC unit :=
  w ← get_world;
  ks ← lift (oc_keys (w_membersCache w));
  for_each ks (fun k =>
    match k with
    | None => mret tt
    | Some id => _ ← ReportingAttempt id (callback_of_status "shutdown") false false; mret tt
    end).

(** ** Transfers, forms and cancellation of the distribution *)

Definition TransferTo (l : loc) (toAttemptId : Z) : M OC unit :=
  _ ← mod_attempt l (SetResult AttemptResultAbandoned);
  a ← get_attempt l;
  _ ← call_err (TransferredTo (at_Id a) toAttemptId);
  LeavingMember l.

Definition LosePredictAgent (id : Z) : M OC unit :=
  _ ← call_err (AgentLosePredict id); mret tt.

Definition CancelAgentDistribute (agentId : Z) : M OC (option AppError) :=
  r ← call (CancelAgentDistributeStore agentId) svc_ids;
  match r with
  | inl e => mret (Some e)
  | inr ids =>
      _ ← for_each ids (fun v =>
            o ← GetAttempt v;
            match o with
            | Some l =>
                a ← get_attempt l;
                if at_canceled a then mret tt else attempt_SetCancel l
            | None => mret tt
            end);
      mret None
  end.

Definition SaveFormFields (domainId id : Z) (fields : strmap) (form : string) : M OC (option AppError) :=
  let not_found := Some (NewAppError "QM" "qm.save_form_fields.valid" "Not found" 404) in
  o ← GetAttempt id;
  match o with
  | None => mret not_found
  | Some l =>
      a ← get_attempt l;
      if decide (at_domainId a <> domainId) then mret not_found
      else if at_processingFormStarted a then
        _ ← mod_attempt l (UpdateProcessingFields fields);
        match at_processingForm a with
        | Some f => _ ← call_err (FormUpdate f form fields); mret None
        | None => panic nil_deref
        end
      else mret None
  end.

Definition ResumeAttempt (id domainId : Z) : M OC (option AppError) :=
  let not_found := Some (NewAppError "QM" "qm.resume_attempt.valid" "Not found" 404) in
  o ← GetAttempt id;
  match o with
  | None => mret not_found
  | Some l =>
      a ← get_attempt l;
      if decide (at_domainId a <> domainId) then mret not_found
      else match at_agentChannel a with
           | None => panic nil_deref
           | Some ch =>
               match ch_kind ch with
               | ChCall =>
                   err ← call_err (CallBreakPark (ch_id ch));
                   mret match err with
                        | Some e => Some (NewAppError "QM" "qm.resume_attempt.call" (err_Detail e) 500)
                        | None => None
                        end
               | _ => mret None
               end
           end
  end.

Definition SetFindAgentState (id : Z) : M OC (option AppError) := call_err (SetAttemptFindAgent id).

Definition AnswerPredictAndFindAgent (id : Z) (holdAgent : bool) : M OC (option AppError) :=
  call_err (AnswerPredict id holdAgent).

End Manager.
