(* ===== verification/Team.v ===== *)
(** * Teams: queue/team.go and the team operations of queue/queue.go

    What happens to the agent's channel: offering, bridging, reporting, wrap up, missed
    and cancelled attempts. *)

From S2P Require Import Prelude Model Queue Attempt World Agents Events Schema Manager.

Section Team.
Context {OC : Type -> Type} {HOC : ObjectCache OC} {SV : Services} {DE : Decoders}.

(** ** The team manager *)

Definition GetTeam (id updatedAt : Z) : M OC (result agentTeam) :=
  item ← teams_get id;
  match keep_if (fun t => bool_decide (updatedAt = 0 \/ tm_UpdatedAt (te_data t) = updatedAt)) item with
  | Some t => mret (inr t)
  | None =>
      data ←ok call (TeamStoreGet id) svc_team;
      let team := NewTeam data in
      _ ← teams_add id team;
      mret (inr team)
  end.

Definition HookAgent (event : string) (agent : loc) (teamUpdatedAt : Z) : M OC (option AppError) :=
  ag ← get_agent agent;
  r ← GetTeam (ag_TeamId ag) teamUpdatedAt;
  match r with
  | inl e => mret (Some e)
  | inr team =>
      match getByName (te_hook team) event with
      | None => mret None
      | Some schema =>
          r ← call (StartFlow schema (ag_DomainId ag) (Some (HookData ag))) svc_flow_start;
          mret match r with
               | inl err => Some (NewAppError "HookAgent" "queue.team.hook_agent.flow_request" err 500)
               | inr _ => None
               end
      end
  end.

Definition HookAgentStatus : string := "agent_status".

(** AgentTeamHook of the manager drops the error. *)
Definition AgentTeamHook (event : string) (agent : loc) (teamUpdatedAt : Z) : M OC unit :=
  _ ← HookAgent event agent teamUpdatedAt; mret tt.

(** GetTeam of BaseQueue *)
Definition BaseQueue_GetTeam (l : loc) : M OC (result agentTeam) :=
  a ← get_attempt l;
  match at_agent a with
  | Some g =>
      ag ← get_agent g;
      u ← TeamUpdatedAt l;
      GetTeam (ag_TeamId ag) u
  | None => mret (inl (NewAppError "BaseQueue.GetTeam" "queue.team.get_by_id.app_error"
                         "Not found parameters" 500))
  end.

(** ** Events of the agent's channel *)

(** AgentChannelEvent for the attempt's channel, domain and queue; the error is logged. *)
Definition publish (l : loc) (userId : Z) (e : Event) : M OC unit :=
  a ← get_attempt l;
  _ ← call_err (AgentChannelEvent (at_channel a) (at_domainId a) (at_QueueId a) userId e);
  mret tt.

(** Distribute of agentTeam *)
Definition Team_Distribute (queue : QueueObject) (agent : Agent) (e : Event) : M OC unit :=
  let b := qo_base queue in
  _ ← call_err (AgentChannelEvent (bq_channel b) (bq_domainId b) (bq_id b) (Agent_UserId agent) e);
  mret tt.

Definition Team_Offering (l : loc) (agent : Agent) (aChannel : Channel) (mChannel : option Channel)
    : M OC unit :=
  a ← get_attempt l;
  r ← call (SetAttemptOffering (at_Id a) (Some (ag_Id agent)) (Some (ch_id aChannel))
              (ch_id <$> mChannel) (Some (mc_Destination (at_communication a)))
              (mc_Display (at_communication a))) svc_timestamp;
  match r with
  | inl _ => mret tt
  | inr ts =>
      _ ← SetState l MemberStateOffering;
      a ← get_attempt l;
      publish l (Agent_UserId agent)
        (NewOfferingEvent a (Agent_UserId agent) ts (Some aChannel) mChannel)
  end.

Definition Team_Cancel (l : loc) (agent : Agent) : M OC unit :=
  _ ← AfterDistributeSchema l;
  a ← get_attempt l;
  r ← call (SetAttemptAbandoned (at_Id a) (at_maxAttempts a) (at_waitBetween a) None (at_perNumbers a)
              (at_excludeCurrNumber a) (at_redial a) (at_description a) (at_stickyAgentId a)) svc_leaving;
  match r with
  | inl _ => mret tt
  | inr res =>
      _ ← set_stop_cause l (al_MemberStopCause res);
      publish l (Agent_UserId agent)
        (NewWaitingChannelEvent (at_channel a) (Agent_UserId agent) (Some (at_Id a)) (al_Timestamp res))
  end.

Definition Team_Answered (l : loc) (agent : Agent) : M OC unit :=
  a ← get_attempt l;
  _ ← match at_queue a with
      | Some q => StartProcessingForm (qo_base q) l
      | None => mret tt
      end;
  ts ← GetMillis;
  _ ← SetState l MemberStateActive;
  a ← get_attempt l;
  publish l (Agent_UserId agent) (NewAnsweredEvent a (Agent_UserId agent) ts).

Definition Team_Bridged (l : loc) (agent : Agent) : M OC unit :=
  a ← get_attempt l;
  _ ← match at_queue a with
      | Some q => if at_processTransfer a then mret tt else StartProcessingForm (qo_base q) l
      | None => mret tt
      end;
  r ← call (SetAttemptBridged (at_Id a)) svc_timestamp;
  match r with
  | inl _ => mret tt
  | inr ts =>
      _ ← SetState l MemberStateBridged;
      e ← NewBridgedEventEvent l (Agent_UserId agent) ts;
      publish l (Agent_UserId agent) e
  end.

(** The deadline of the wrap time event: the product is computed in uint16. *)
Definition wrap_deadline (tm : agentTeam) (timestamp : Z) : Z :=
  i64 (timestamp + u16 (tm_WrapUpTime (te_data tm) * 1000)).

Definition SetWrap (tm : agentTeam) (queue : QueueObject) (l : loc) (agent : Agent)
    (result : string) : M OC unit :=
  let t := if ag_OnDemand agent then 0 else tm_WrapUpTime (te_data tm) in
  let result := if bq_endless (qo_base queue) && bool_decide (result <> AttemptResultTransfer)
                then AttemptResultEndless else result in
  s ← AfterDistributeSchema l;
  let '(result, vars) := match s with
                         | Some res => (cmp_or (sr_Status res) result, sr_Variables res)
                         | None => (result, None)
                         end in
  a ← get_attempt l;
  r ← call (SetAttemptResult (at_Id a) result ChannelStateWrapTime t vars (at_maxAttempts a)
              (at_waitBetween a) (at_perNumbers a) (at_description a) (at_stickyAgentId a)) svc_missed;
  _ ← match r with
      | inl _ => mret tt
      | inr res =>
          _ ← set_stop_cause l (mi_MemberStopCause res);
          _ ← mod_attempt l (SetResult result);
          publish l (Agent_UserId agent)
            (NewWrapTimeEventEvent (at_channel a) (Some (at_Id a)) (Agent_UserId agent)
               (mi_Timestamp res) (wrap_deadline tm (mi_Timestamp res)))
      end;
  LeavingMember l.

Definition Team_Reporting (tm : agentTeam) (queue : QueueObject) (l : loc) (agent : Agent)
    (agentSendReporting transfer : bool) : M OC unit :=
  a ← get_attempt l;
  match (if svc_waitChannelClose then at_result a else None) with
  | Some cb => _ ← ReportingAttempt (at_Id a) cb true false; mret tt
  | None =>
      if agentSendReporting && bool_decide (at_draft a = None) then
        if decide (Result a = "") then mod_attempt l (SetResult AttemptResultSuccess) else mret tt
      else
        let transfer := transfer && ProcessingTransfer (qo_base queue) in
        if negb (bq_processing (qo_base queue)) || transfer || at_processTransfer a then
          let s := if transfer then AttemptResultTransfer
                   else if at_processTransfer a then AttemptResultCancel
                   else cmp_or (Result a) AttemptResultSuccess in
          SetWrap tm queue l agent s
        else
          _ ← (if decide (Result a = "") then mod_attempt l (SetResult AttemptResultPostProcessing)
               else mret tt);
          let timeoutSec := bq_processingSec (qo_base queue) in
          r ← call (SetAttemptReporting (at_Id a) timeoutSec) svc_timestamp;
          match r with
          | inl _ => mret tt
          | inr ts =>
              _ ← SetState l MemberStateProcessing;
              a ← get_attempt l;
              let b := qo_base queue in
              let prolongation := if bq_isProlongationEnabled b
                then Some (NewProcessingProlongation (bq_prolongationSteps b) (bq_prolongationSec b))
                else None in
              publish l (Agent_UserId agent)
                (NewProcessingEventEvent a (Agent_UserId agent) ts timeoutSec
                   (bq_processingRenewalSec b) prolongation (bq_processingAutosave b))
          end
  end.

(** ** Missed and cancelled attempts *)

(** App.SetAgentBreakOut, and the team's use of it (the error is logged). *)
Definition SetAgentBreakOut (agent : loc) : M OC (option AppError) :=
  then_ (SetBreakOut agent)
    (ag ← get_agent agent;
     _ ← AgentTeamHook HookAgentStatus agent (ag_TeamUpdatedAt ag);
     mret None).

Definition SetAgentMaxNoAnswer (agent : loc) : M OC unit :=
  _ ← SetAgentBreakOut agent; mret tt.

Definition Team_MissedAgent (tm : agentTeam) (missed : MissedAgent) (l agent : loc)
    (errState : option string) : M OC unit :=
  _ ← match mi_NoAnswers missed with
      | Some n => if decide (n >= tm_MaxNoAnswer (te_data tm)) then SetAgentMaxNoAnswer agent
                  else mret tt
      | None => mret tt
      end;
  _ ← SetState l HookMissed;
  a ← get_attempt l;
  ag ← get_agent agent;
  publish l (Agent_UserId ag)
    (NewMissedEventEvent a (Agent_UserId ag) (mi_Timestamp missed)
       (i64 (mi_Timestamp missed + tm_NoAnswerDelayTime (te_data tm) * 1000)) errState).

Definition Team_Missed (tm : agentTeam) (l agent : loc) : M OC unit :=
  _ ← AfterDistributeSchema l;
  a ← get_attempt l;
  r ← call (SetAttemptMissed (at_Id a) (tm_NoAnswerDelayTime (te_data tm)) (at_maxAttempts a)
              (at_waitBetween a) (at_perNumbers a)) svc_missed;
  match r with
  | inl _ => mret tt
  | inr missed =>
      _ ← set_stop_cause l (mi_MemberStopCause missed);
      _ ← mod_attempt l (SetResult MemberStateCancel);
      Team_MissedAgent tm missed l agent None
  end.

Definition CancelAttemptAndReleaseAgent (l agent : loc) : M OC unit :=
  a ← get_attempt l;
  err ← call_err (CancelAttemptRelease (at_Id a) 0);
  match err with
  | Some _ => mret tt
  | None =>
      _ ← mod_attempt l (SetResult MemberStateCancel);
      now ← GetMillis;
      ag ← get_agent agent;
      _ ← call_err (AgentChannelEvent (at_channel a) (ag_DomainId ag) (at_QueueId a) (Agent_UserId ag)
             (NewWaitingChannelEvent (at_channel a) (Agent_UserId ag) (Some (at_Id a)) now));
      mret tt
  end.

Definition CancelAgentAttempt (tm : agentTeam) (l agent : loc) : M OC unit :=
  _ ← mod_attempt l (SetResult MemberStateCancel);
  a ← get_attempt l;
  r ← call (CancelAgentAttemptStore (at_Id a) (tm_NoAnswerDelayTime (te_data tm))) svc_missed;
  match r with
  | inl _ => mret tt
  | inr missed => Team_MissedAgent tm missed l agent None
  end.

Definition detach_agent (l : loc) : M OC unit :=
  mod_attempt l (fun a => a <| at_agent := None |> <| at_agentChannel := None |>).

(** MissedAgentAndWaitingAttempt and, with an error, MissedAgentAndWaitingAttemptWithError *)
Definition MissedAgentAndWaitingAttemptWithError (tm : agentTeam) (l agent : loc)
    (stateErr : option string) : M OC unit :=
  a ← get_attempt l;
  r ← call (SetAttemptMissedAgent (at_Id a) (tm_NoAnswerDelayTime (te_data tm))) svc_missed;
  match r with
  | inl _ => mret tt
  | inr missed =>
      _ ← Team_MissedAgent tm missed l agent stateErr;
      detach_agent l
  end.

Definition MissedAgentAndWaitingAttempt (tm : agentTeam) (l agent : loc) : M OC unit :=
  MissedAgentAndWaitingAttemptWithError tm l agent None.

Definition WaitingAgentAndWaitingAttempt (tm : agentTeam) (l agent : loc) : M OC unit :=
  a ← get_attempt l;
  err ← call_err (SetAttemptWaitingAgent (at_Id a) (tm_NoAnswerDelayTime (te_data tm)));
  match err with
  | Some _ => mret tt
  | None =>
      now ← GetMillis;
      ag ← get_agent agent;
      _ ← call_err (AgentChannelEvent (at_channel a) (ag_DomainId ag) (at_QueueId a) (Agent_UserId ag)
             (NewWaitingChannelEvent (at_channel a) (Agent_UserId ag) (Some (at_Id a)) now));
      detach_agent l
  end.

Definition Team_Transfer (tm : agentTeam) (l agent : loc) : M OC unit :=
  ts ← GetMillis;
  a ← get_attempt l;
  ag ← get_agent agent;
  publish l (Agent_UserId ag)
    (NewWrapTimeEventEvent (at_channel a) (Some (at_Id a)) (Agent_UserId ag) ts (wrap_deadline tm ts)).

(** TransferFrom of the manager. *)
Definition TransferFrom (tm : agentTeam) (l : loc) (toAttemptId toAgentId : Z)
    (toAgentSession : string) (ch : option Channel) : M OC (result loc) :=
  g ←ok GetAgent toAgentId 0;
  ag ← get_agent g;
  a ← get_attempt l;
  _ ← call_err (TransferredFrom (at_Id a) toAttemptId (ag_Id ag) toAgentSession);
  _ ← match at_agent a with
      | Some old => Team_Transfer tm l old
      | None => mret tt
      end;
  _ ← mod_attempt l (SetAgent (Some g));
  q ← attempt_queue l;
  e ← NewTransferEvent l toAttemptId (Agent_UserId ag) q ag (bq_processing (qo_base q)) None ch;
  _ ← Team_Distribute q ag e;
  mret (inr g).

End Team.
