(* ===== verification/Calling.v ===== *)
(** * What the call queues share: queue/call.go

    The goroutine of a call queue waits in a [select] for the states of its calls, its timer,
    the cancellation of the attempt and the agents found for it. It is a function of the list
    of the events it receives ([QEvent]); [select_loop] is the loop around a select, which
    blocks when the events run out, and stays where it is for an event that no case of the
    select waits for. A call is named by its id. Every reading of a call object is the effect
    [CallPeek]: it answers with the call as it is at that time ([cq_view]), so a call may
    change between two readings. A request is recorded when the call is made and when it is
    invited, as the queue built it. *)

From S2P Require Import Prelude Model Queue Attempt TaskChannel Resource Calls World Agents.
From S2P Require Import Events Schema Manager Team.

(** The answers of the call manager, the store and the configuration. [cq_range] is the order
    in which a loop visits a map, [cq_address] the address a pointer prints as. *)
Class CallViews := {
  cq_view : trace -> string -> CallImpl;
  cq_newLeg : trace -> string;
  cq_newCall : trace -> result string;
  cq_call : trace -> result CallInfo;
  cq_connect : trace -> result string;
  cq_confirm : trace -> result (list string);
  cq_recordAll : trace -> bool;
  cq_cdr : trace -> string;
  cq_bridgeSleep : QueueObject -> Z;
  cq_range : trace -> strmap -> list (string * string);
  cq_address : trace -> Z;
}.

Inductive QEvent :=
| QTimeout                              (* the timer of the maximal wait *)
| QContext                              (* the context of the attempt *)
| QCancel                               (* Cancel of the attempt *)
| QAgent                                (* an agent was found *)
| QState (callId : string) (st : CallState)
| QHangup (callId : string).            (* the hangup channel of a call *)

(** How the goroutine of an attempt ends: it took the attempt out, or handed it to the end
    of the conversation ([Team_Reporting]), or returned without either. *)
Inductive RunEnd := RunLeft | RunReporting | RunDropped.

#[export] Instance RunEnd_eq_dec : EqDecision RunEnd.
Proof. solve_decision. Defined.

Record Caller := MkCaller {
  cl_Number : string;
  cl_Name : string;
}.

Definition CreateCaller (number name : string) : Caller := MkCaller number name.

Inductive CallTransfer := CallTransferSkip | CallTransferForward | CallTransferSuccess.

#[export] Instance CallTransfer_eq_dec : EqDecision CallTransfer.
Proof. solve_decision. Defined.

Definition call_channel (id : string) : Channel := MkChannel ChCall id.

Definition amdMachineApplication : string := "hangup::NORMAL_UNSPECIFIED".

(** recordings, mono, all *)
Definition bridgeRecordings (recordAllCalls recordings mono all : bool) : bool * bool * bool :=
  if negb recordings && recordAllCalls then (true, false, true) else (recordings, mono, all).

(** SetAmdCall: the settings keep the defaults that ToArgs fills in, which gives the same
    string the next time. The sleep is computed in uint16. *)
Definition SetAmdCall (b : BaseQueue) (amd : option QueueAmdSettings) (onHuman : string)
    (rq : CallRequest) : bool * CallRequest :=
  match amd with
  | None => (false, rq)
  | Some amd =>
      if negb (amd_Enabled amd) then (false, rq)
      else if amd_Ai amd then
        (true, add_app "park" "" (add_app "wbt_amd" (AiTags amd)
                 (put_var "amd_on_positive" onHuman (put_var "ignore_early_media" "false" rq))))
      else
        let rq := put_var "amd_on_notsure"
                    (if amd_AllowNotSure amd then onHuman else amdMachineApplication) rq in
        let rq := put_var "amd_on_human" onHuman (put_var "amd_on_machine" amdMachineApplication rq) in
        let rq := add_app "wait_for_answer" "" rq in
        let '(args, amd) := ToArgs amd in
        let rq := add_app "amd" args rq in
        let rq := match bq_amdPlaybackFileUri b with Some u => add_app "playback" u rq | None => rq end in
        (true, add_app "sleep" (fmt_d (u16 (amd_TotalAnalysisTime amd + 100))) rq)
  end.

(** FlipCaller, given the direction of the member's call. *)
Definition FlipCaller (direction : CallDirection) (ag : Agent) (a : Attempt) : Caller :=
  if decide (direction = CALL_DIRECTION_OUTBOUND) then CreateCaller (CallNumber ag) (ag_Name ag)
  else CreateCaller (Destination a) (ma_Name (at_member a)).

(** SetRecordings of the call a request was made with. *)
Definition set_recordings (id : string) (domainId : Z) (all mono : bool) (rq : CallRequest)
    : outcome CallRequest :=
  c ← Calls.SetRecordings domainId all mono (zero_call id "" CALL_DIRECTION_OUTBOUND (Some rq));
  Ret (default rq (ca_callRequest c)).

(** The variables of the call to an agent. *)
Definition agent_variables (b : BaseQueue) (ag : Agent) (tm : agentTeam) (a : Attempt) (caller : Caller)
    : strmap :=
  list_to_map [
    ("hangup_after_bridge", "true"); ("ignore_display_updates", "true");
    ("cc_reporting", fmt_b (bq_processing b));
    ("sip_h_X-Webitel-Domain-Id", fmt_d (bq_domainId b));
    ("sip_h_X-Webitel-User-Id", fmt_d (Agent_UserId ag));
    ("bridge_export_vars", "cc_agent_id"); ("sip_h_X-Webitel-Direction", "internal");
    ("wbt_destination", Destination a); ("wbt_to_id", fmt_d (Agent_UserId ag));
    ("wbt_to_number", CallNumber ag); ("wbt_to_name", ag_Name ag); ("wbt_to_type", "user");
    ("wbt_from_name", ma_Name (at_member a)); ("wbt_from_type", "member");
    ("wbt_from_number", Destination a);
    ("origination_caller_id_name", cl_Name caller); ("origination_caller_id_number", cl_Number caller);
    ("cc_agent_id", fmt_d (ag_Id ag)); ("cc_team_id", fmt_d (tm_Id (te_data tm)));
    ("cc_queue_name", bq_name b); ("cc_queue_type", TypeName b); ("cc_attempt_id", fmt_d (at_Id a))].

Section SelectLoop.
Context {OC : Type -> Type} {S R Ev : Type}.
Variable finished : S -> bool.
Variable handle : S -> Ev -> option (M OC (R + S)).

(** [for !finished { select { ... } }]; [inl] is a return from within the loop. *)
Fixpoint select_loop (evs : list Ev) (s : S) : M OC (R + S) :=
  if finished s then mret (inr s)
  else match evs with
       | [] => fun _ => Block "select"
       | ev :: evs =>
           match handle s ev with
           | None => select_loop evs s
           | Some m =>
               r ← m;
               match r with
               | inl x => mret (inl x)
               | inr s' => select_loop evs s'
               end
           end
       end.

End SelectLoop.

Section Calling.
Context {OC : Type -> Type} {HOC : ObjectCache OC} {SV : Services} {DE : Decoders} {CV : CallViews}.

Definition peek (id : string) : M OC CallImpl := call (CallPeek id) (fun t => cq_view t id).

Definition hangup_call (id cause : string) : M OC unit :=
  _ ← call_err (CallHangup id cause false ∅); mret tt.

(** [if queue.bridgeSleep > 0 { time.Sleep(queue.bridgeSleep) }] *)
Definition bridge_sleep (q : QueueObject) : M OC unit :=
  if decide (cq_bridgeSleep q > 0) then emit (SleepNs (cq_bridgeSleep q)) else mret tt.

(** [go func() { attempt.Emit(AttemptHookLeaving); attempt.Off("*") }()] *)
Definition leaving_hooks (l : loc) : M OC unit :=
  _ ← emit (EmitHook l "leaving"); emit (HooksOff l).

Definition RecordAllCalls (b : BaseQueue) : M OC bool :=
  call (RecordAllCallsGet (bq_domainId b)) cq_recordAll.

Definition SetHoldMusic (q : QueueObject) (rq : CallRequest) : M OC CallRequest :=
  match qo_HoldMusic q with
  | Some f =>
      hm ← ask (fun t => Manager_RingtoneUri (cq_cdr t) (bq_domainId (qo_base q)) (rt_Id f) (rt_Type f));
      mret (put_var "transfer_ringback" hm (put_var "hold_music" hm rq))
  | None => mret rq
  end.

(** IsHuman of call.go *)
Definition Queue_IsHuman (amd : option QueueAmdSettings) (id : string) : M OC bool :=
  match amd with
  | None => mret true
  | Some amd =>
      if negb (amd_Enabled amd) then mret true
      else if amd_Ai amd then
        c ← peek id;
        let ai := ca_amdAiResult c in
        c ← peek id;
        let answered := Call_Answered c in
        if decide (ai_Error ai <> "" \/ ai_Result ai = "undefined") then mret answered
        else if decide (ai_Result ai ∈ amd_PositiveTags amd) then
          if answered then mret true
          else
            c ← peek id;
            if decide (ca_hangupAt c = 0)
            then _ ← hangup_call id CALL_HANGUP_NORMAL_UNSPECIFIED; mret false
            else mret true
        else mret false
      else
        c ← peek id; mret (Calls.IsHuman c)
  end.

(** The condition of hasProcessAmd. *)
Definition amd_pending (amd : option QueueAmdSettings) (id : string) (st : CallState) : M OC bool :=
  if decide (st = CALL_STATE_ACCEPT) then
    c ← peek id;
    mret (negb (HasAmdError c) && match amd with Some amd => amd_Enabled amd | None => false end)
  else if decide (st = CALL_STATE_DETECT_AMD) then h ← Queue_IsHuman amd id; mret (negb h)
  else mret false.

Definition hasProcessAmd (q : QueueObject) (amd : option QueueAmdSettings) (id : string) (st : CallState)
    : M OC bool :=
  p ← amd_pending amd id st;
  if p : bool then
    match amd with
    | None => panic nil_deref
    | Some amd =>
        if amd_Ai amd then
          match bq_amdPlaybackFile (qo_base q) with
          | Some f =>
              c ← peek id;
              if HasAmdError c then mret true
              else _ ← call_err (CallBroadcastFile id (bq_domainId (qo_base q)) (Some f) "aleg"); mret true
          | None => mret true
          end
        else mret true
    end
  else mret false.

Definition AgentCallRequest (q : QueueObject) (ag : Agent) (tm : agentTeam) (a : Attempt) (caller : Caller)
    (apps : list (string * string)) : M OC CallRequest :=
  let b := qo_base q in
  let cr := {|
    cr_Id := None; cr_Endpoints := GetCallEndpoints ag; cr_Strategy := 0; cr_Destination := Destination a;
    cr_Variables := Some (UnionStringMaps [ExportVariables a; entries (bq_variables b);
                                           entries (ag_Variables ag); agent_variables b ag tm a caller]);
    cr_Timeout := tm_CallTimeout (te_data tm); cr_CallerName := ""; cr_CallerNumber := "";
    cr_Dialplan := ""; cr_Context := ""; cr_Applications := []; cr_CheckParentId := "";
    cr_OriginationNumber := cl_Number caller |} in
  let cr := if ag_HasPush ag then SetPush cr else cr in
  cr ← SetHoldMusic q cr;
  let cr := if decide (bq_id b > 0) then put_var "cc_queue_id" (fmt_d (bq_id b)) cr else cr in
  let cr := match MemberId a with
            | Some m => put_var "cc_member_id" (fmt_d m) (put_var "wbt_from_id" (fmt_d m) cr)
            | None => cr
            end in
  mret (match ag_GreetingMedia ag with
        | Some f => cr <| cr_Applications :=
            (("playback", RingtoneUri (ag_DomainId ag) (rt_Id f) (rt_Type f)) :: apps) |>
        | None => cr <| cr_Applications := apps |>
        end).

Definition HangupManyCall (skipId cause : string) (ids : list string) : M OC unit :=
  if decide (length ids = 1%nat) then mret tt
  else
    let res := filter (fun v => v <> skipId) ids in
    if decide (res <> []) then emit (CallHangupMany cause res) else mret tt.

(** The request gets the variables of the resource and of its gateway. *)
Definition NewCallUseResource (rq : CallRequest) (resource : loc) : M OC (result string * CallRequest) :=
  e ← call_err (ResourceTake resource);
  match e with
  | Some e => mret (inl e, rq)
  | None =>
      r ← get_resource resource;
      let rq := rq <| cr_Variables := (Some (UnionStringMaps
                  [entries (cr_Variables rq); Resource_Variables r; SipGateway_Variables (rs_gateway r)])) |> in
      c ← call (CallNew rq) cq_newCall;
      mret (c, rq)
  end.

Definition CallCheckResourceError (resource : loc) (id : string) : M OC unit :=
  c ← peek id;
  match Call_Err c with
  | Some _ => c ← peek id; SetResourceError resource (fmt_d (HangupCauseCode c))
  | None => SetResourceSuccessful resource
  end.

Definition GetTransferredCall (id : string) : M OC (result string) :=
  ok ← ask (fun t => svc_callExists t id);
  alive ← (if ok : bool then c ← peek id; mret (bool_decide (ca_hangupAt c = 0)) else mret false);
  if alive : bool then mret (inr id)
  else
    info ←ok call (CallStoreGet id) cq_call;
    call (ConnectCallCM info "") cq_connect.

Definition MissedAgentAttempt (attemptId agentId : Z) (id : string) : M OC (option AppError) :=
  c ← peek id;
  c' ← peek id;
  call_err (CreateMissed attemptId agentId (HangupCause c) (ca_hangupAt c')).

(** The fields of a hangup are written before the state is sent and never after: they are
    read together. *)
Definition transferResult (q : QueueObject) (l : loc) (mCall : string) : M OC (string * CallTransfer) :=
  c ← peek mCall;
  match ca_transferToAttemptId c with
  | Some to => _ ← TransferTo l to; mret (mCall, CallTransferForward)
  | None =>
      a ← get_attempt l;
      match ca_transferFrom c with
      | Some from =>
          if at_processTransfer a || bool_decide (HangupCause c = "ATTENDED_TRANSFER") then
            _ ← (if at_processTransfer a then
                   _ ← mod_attempt l (fun a => a <| at_processTransfer := false |>);
                   if bq_processing (qo_base q)
                   then aq ← attempt_queue l; StartProcessingForm (qo_base aq) l
                   else mret tt
                 else mret tt);
            r ← GetTransferredCall from;
            match r with
            | inr nc =>
                _ ← mod_attempt l (fun a => a <| at_memberChannel := (Some (call_channel nc)) |>);
                mret (nc, CallTransferSuccess)
            | inl _ => mret (mCall, CallTransferSkip)
            end
          else mret (mCall, CallTransferSkip)
      | None => mret (mCall, CallTransferSkip)
      end
  end.

(** The block that follows the hangup of an agent's call: a transfer to another agent gives
    the goroutine a new call and a new agent. *)
Definition receive_transfer (tm : agentTeam) (l agent : loc) (id : string) : M OC (option (string * loc)) :=
  c ← peek id;
  match ca_transferTo c, ca_transferToAgentId c, ca_transferFromAttemptId c with
  | Some to, Some toAgent, Some fromAttempt =>
      r ← GetTransferredCall to;
      match r with
      | inl _ => mret None
      | inr nc =>
          n ← peek nc;
          if decide (ca_hangupAt n = 0) then
            x ← TransferFrom tm l fromAttempt toAgent to (Some (call_channel nc));
            mret (Some (nc, match x with inr g => g | inl _ => agent end))
          else mret None
      end
  | _, _, _ => mret None
  end.

(** [team.Distribute(queue, agent, NewDistributeEvent(...))] with the team's call timeout. *)
Definition distribute_event (q : QueueObject) (tm : agentTeam) (l agent : loc)
    (mChannel aChannel : option Channel) : M OC unit :=
  ag ← get_agent agent;
  e ← NewDistributeEvent l (Agent_UserId ag) q ag (bq_processing (qo_base q)) mChannel aChannel
        (tm_CallTimeout (te_data tm));
  Team_Distribute q ag e.

(** [team.Bridged(attempt, agent)], [team.Offering], [team.Answered], [team.Cancel] for the agent object. *)
Definition with_agent {A} (agent : loc) (f : Agent -> M OC A) : M OC A := ag ← get_agent agent; f ag.

(** [if attempt.state != model.MemberStateBridged { team.Bridged(attempt, agent) }] *)
Definition bridge_once (l agent : loc) : M OC unit :=
  a ← get_attempt l;
  if decide (at_state a <> MemberStateBridged) then with_agent agent (Team_Bridged l) else mret tt.

(** [team.Reporting(queue, attempt, agent, call.ReportingAt() > 0, call.Transferred())] *)
Definition report_call (tm : agentTeam) (q : QueueObject) (l agent : loc) (id : string) : M OC unit :=
  c ← peek id;
  c' ← peek id;
  with_agent agent (fun ag => Team_Reporting tm q l ag (bool_decide (ca_reportingAt c > 0)) (Transferred c')).

(** [agentCall.Hangup], when the member's call ended: the cause depends on the bridge. *)
Definition hangup_agent (mCall agentCall : string) : M OC unit :=
  m ← peek mCall;
  _ ← hangup_call agentCall (if decide (ca_bridgeAt m > 0) then CALL_HANGUP_NORMAL_CLEARING
                             else CALL_HANGUP_ORIGINATOR_CANCEL);
  emit (WaitHangup agentCall).

(** [if agentCall.ShouldMarkAsMissed() { missed } else { waiting }] for an attempt that goes on
    waiting. *)
Definition release_agent (tm : agentTeam) (l agent : loc) (agentCall : string) : M OC unit :=
  c ← peek agentCall;
  if ShouldMarkAsMissed (Some c) then MissedAgentAndWaitingAttempt tm l agent
  else WaitingAgentAndWaitingAttempt tm l agent.

End Calling.
