(* ===== verification/CallInbound.v ===== *)
(** * Inbound calls: queue/call_inbound.go, queue/call_agent.go and queue/call_outbound.go

    The goroutines of the queues whose member is already on the line: InboundQueue waits for
    agents and offers them the call one after the other, JoinAgentCallQueue connects one given
    agent, OutboundCallQueue follows a call an agent made. The two nested loops of an inbound
    attempt are one loop over its state: [Inner] holds the agent's call, the agent and the
    team while the inner loop runs. *)

From S2P Require Import Prelude Model Queue Attempt TaskChannel Resource Calls World Agents.
From S2P Require Import Events Schema Manager Team Calling.

(** The agent's call, the agent and the team. *)
Record talk := MkTalk {
  tk_call : string;
  tk_agent : loc;
  tk_team : agentTeam;
}.

Inductive InMode := Outer | Inner (t : talk).

(** [il_talk] is set when agentCall is not nil outside the inner loop, [il_timer] while the
    timer of the maximal wait is running. *)
Record InLoop := MkInLoop {
  il_mode : InMode;
  il_calling : bool;
  il_mCall : string;
  il_talk : option talk;
  il_timer : bool;
}.

#[export] Instance eta_InLoop : Eta InLoop := fun s =>
  MkInLoop (il_mode s) (il_calling s) (il_mCall s) (il_talk s) (il_timer s).

Definition in_finished (s : InLoop) : bool :=
  match il_mode s with Outer => negb (il_calling s) | Inner _ => false end.

(** [timeout.Stop()], when the block around it runs. *)
Definition stop_wait (b : bool) (s : InLoop) : InLoop := if b then s <| il_timer := false |> else s.

Section Inbound.
Context {OC : Type -> Type} {HOC : ObjectCache OC} {SV : Services} {DE : Decoders} {CV : CallViews}.

(** ** InboundQueue *)

Section InboundQueue.
Variable q : QueueObject.
Variable props : QueueInboundSettings.
Variable l : loc.

(** After the inner loop. *)
Definition inbound_after (s : InLoop) (t : talk) : M OC (RunEnd + InLoop) :=
  c ← peek (tk_call t);
  if decide (ca_bridgeAt c = 0) then
    _ ← release_agent (tk_team t) l (tk_agent t) (tk_call t);
    _ ← SetState l MemberStateWaitAgent;
    m ← peek (il_mCall s);
    m' ← peek (il_mCall s);
    mret (inr (s <| il_mode := Outer |> <| il_talk := None |>
                 <| il_calling := (bool_decide (ca_hangupAt m = 0) && bool_decide (ca_bridgeAt m' = 0)) |>))
  else
    mret (inr (s <| il_mode := Outer |> <| il_talk := (Some t) |> <| il_calling := false |>)).

(** The condition of the inner loop. *)
Definition inbound_again (s : InLoop) (t : talk) : M OC (RunEnd + InLoop) :=
  if negb (il_calling s) then inbound_after s t
  else
    c ← peek (tk_call t);
    if decide (HangupCause c <> "") then inbound_after s t
    else
      m ← peek (il_mCall s);
      if decide (HangupCause m <> "") then inbound_after s t
      else mret (inr (s <| il_mode := (Inner t) |>)).

(** [case <-ags] *)
Definition inbound_distribute (s : InLoop) : M OC (RunEnd + InLoop) :=
  a ← get_attempt l;
  r ← BaseQueue_GetTeam l;
  match r, at_agent a with
  | inl _, _ => _ ← emit (SleepNs 3000000000); mret (inr s)
  | inr _, None => panic nil_deref
  | inr tm, Some agent =>
      let mCall := il_mCall s in
      m ← peek mCall;
      if decide (HangupCause m <> "") then mret (inr (s <| il_calling := false |>))
      else
        ag ← get_agent agent;
        m ← peek mCall;
        a ← get_attempt l;
        cr ← AgentCallRequest q ag tm a (FlipCaller (ca_direction m) ag a) [("park", "")];
        let cr := if qi_ManualDistribution props
                  then put_var "cc_manual_distribution" "true" (SetAutoAnswer cr) else cr in
        m ← peek mCall;
        let cr := put_var "wbt_parent_id" (ParentOrId m) cr in
        let cr := cr <| cr_Variables := (delete "bridge_export_vars" <$> cr_Variables cr) |> in
        ac ← call (CallNewLeg mCall cr) cq_newLeg;
        _ ← mod_attempt l (fun a => a <| at_agentChannel := (Some (call_channel ac)) |>);
        _ ← distribute_event q tm l agent (Some (call_channel mCall)) (Some (call_channel ac));
        _ ← call_err (CallInvite ac cr);
        inbound_again s (MkTalk ac agent tm)
  end.

(** [if attempt.state != model.MemberStateBridged { timeout.Stop(); team.Bridged(attempt, agent) }] *)
Definition inbound_bridged (s : InLoop) (t : talk) : M OC (RunEnd + InLoop) :=
  a ← get_attempt l;
  _ ← bridge_once l (tk_agent t);
  inbound_again (stop_wait (bool_decide (at_state a <> MemberStateBridged)) s) t.

(** The agent accepted. *)
Definition inbound_accept (s : InLoop) (t : talk) : M OC (RunEnd + InLoop) :=
  let mCall := il_mCall s in
  let ac := tk_call t in
  _ ← emit (EmitHook l "bridged");
  ag ← get_agent (tk_agent t);
  _ ← call_err (CallSetVariables mCall
         {[ "cc_result" := if bq_processing (qo_base q) then AttemptResultPostProcessing
                           else AttemptResultSuccess;
            "cc_agent_id" := fmt_d (ag_Id ag) ]});
  _ ← bridge_sleep q;
  err ← call_err (CallBridge ac mCall);
  a ← get_attempt l;
  stop ← match err with
         | Some _ =>
             c ← peek ac;
             _ ← (if decide (ca_hangupAt c = 0) then hangup_call ac CALL_HANGUP_LOSE_RACE else mret tt);
             mret false
         | None =>
             m ← peek mCall;
             if negb (at_processTransfer a) && bool_decide (ca_direction m = CALL_DIRECTION_OUTBOUND)
                && bool_decide (at_state a <> MemberStateBridged)
             then _ ← with_agent (tk_agent t) (Team_Bridged l); mret true
             else mret false
         end;
  _ ← (if qi_AllowGreetingAgent props && bool_decide (ag_GreetingMedia ag <> None)
       then emit (CallBroadcastFile mCall (ag_DomainId ag) (ag_GreetingMedia ag) "both")
       else if AutoAnswer (qo_base q) then emit (CallBroadcastTone ac (qi_AutoAnswerTone props) "aleg")
       else mret tt);
  inbound_again (stop_wait stop s) t.

(** The agent's call ended. *)
Definition inbound_agent_hangup (s : InLoop) (t : talk) : M OC (RunEnd + InLoop) :=
  r ← receive_transfer (tk_team t) l (tk_agent t) (tk_call t);
  match r with
  | Some (nc, agent) => inbound_again s (MkTalk nc agent (tk_team t))
  | None => inbound_after s t
  end.

Definition inbound_agent_state (s : InLoop) (t : talk) (st : CallState) : M OC (RunEnd + InLoop) :=
  match st with
  | CALL_STATE_RINGING =>
      _ ← emit (EmitHook l "offering");
      _ ← with_agent (tk_agent t) (fun ag =>
            Team_Offering l ag (call_channel (tk_call t)) (Some (call_channel (il_mCall s))));
      inbound_again s t
  | CALL_STATE_ACCEPT => inbound_accept s t
  | CALL_STATE_BRIDGE => inbound_bridged s t
  | CALL_STATE_HANGUP => inbound_agent_hangup s t
  | _ => inbound_again s t
  end.

(** The member's call ended. *)
Definition inbound_member_hangup (s : InLoop) (t : talk) : M OC (RunEnd + InLoop) :=
  r ← transferResult q l (il_mCall s);
  let '(mCall, tr) := r in
  match tr with
  | CallTransferForward => mret (inl RunLeft)
  | CallTransferSuccess => inbound_again (s <| il_mCall := mCall |>) t
  | CallTransferSkip =>
      c ← peek (tk_call t);
      m ← peek mCall;
      _ ← (if bool_decide (ca_hangupAt c = 0)
              && negb (bool_decide (ca_direction m = CALL_DIRECTION_OUTBOUND)
                       && bool_decide (ca_transferFrom m <> None))
           then hangup_agent mCall (tk_call t) else mret tt);
      inbound_after s t
  end.

Definition inbound_member_state (s : InLoop) (t : talk) (st : CallState) : M OC (RunEnd + InLoop) :=
  match st with
  | CALL_STATE_BRIDGE => inbound_bridged s t
  | CALL_STATE_HANGUP => inbound_member_hangup s t
  | _ => inbound_again s t
  end.

(** [case c := <-mCall.State()] of the outer loop *)
Definition inbound_outer_state (s : InLoop) (st : CallState) : M OC (RunEnd + InLoop) :=
  if decide (st = CALL_STATE_HANGUP) then
    s ← match il_talk s with
        | Some t =>
            c ← peek (tk_call t);
            if decide (ca_bridgeAt c = 0) then
              _ ← release_agent (tk_team t) l (tk_agent t) (tk_call t);
              _ ← SetState l MemberStateWaitAgent;
              mret (s <| il_talk := None |>)
            else mret s
        | None => mret s
        end;
    mret (inr (s <| il_calling := false |>))
  else mret (inr s).

Definition inbound_handle (s : InLoop) (ev : QEvent) : option (M OC (RunEnd + InLoop)) :=
  match il_mode s, ev with
  | Outer, QTimeout => if il_timer s then Some (mret (inr (s <| il_calling := false |>))) else None
  | Outer, QContext | Outer, QCancel => Some (mret (inr (s <| il_calling := false |>)))
  | Outer, QAgent => Some (inbound_distribute s)
  | Outer, QState id st => if decide (id = il_mCall s) then Some (inbound_outer_state s st) else None
  | Inner t, QCancel => Some (inbound_again (s <| il_calling := false |>) t)
  | Inner t, QState id st =>
      if decide (id = tk_call t) then Some (inbound_agent_state s t st)
      else if decide (id = il_mCall s) then Some (inbound_member_state s t st) else None
  | _, _ => None
  end.

(** After the loops. *)
Definition inbound_finish (s : InLoop) : M OC RunEnd :=
  talking ← match il_talk s with
            | Some t => c ← peek (tk_call t); mret (if decide (ca_bridgeAt c > 0) then Some t else None)
            | None => mret None
            end;
  x ← match talking with
      | Some t => _ ← report_call (tk_team t) q l (tk_agent t) (tk_call t); mret RunReporting
      | None =>
          sent ← SendAfterDistributeSchema l;
          if sent : bool then mret RunLeft else _ ← Abandoned l; mret RunLeft
      end;
  m ← peek (il_mCall s);
  m' ← peek (il_mCall s);
  _ ← (if bool_decide (ca_hangupAt m = 0) && bool_decide (ca_bridgeAt m' = 0)
       then _ ← call_err (CallStopPlayback (il_mCall s)); mret tt else mret tt);
  _ ← leaving_hooks l;
  mret x.

Definition inbound_run (mCall : string) (evs : list QEvent) : M OC RunEnd :=
  _ ← SetState l MemberStateJoined;
  a ← get_attempt l;
  err ← SetFindAgentState (at_Id a);
  match err with
  | Some _ => mret RunDropped
  | None =>
      _ ← SetState l MemberStateWaitAgent;
      m ← peek mCall;
      r ← select_loop in_finished inbound_handle evs
            (MkInLoop Outer (bool_decide (ca_hangupAt m = 0)) mCall None true);
      match r with
      | inl x => mret x
      | inr s => inbound_finish s
      end
  end.

End InboundQueue.

(** ** JoinAgentCallQueue *)

(** One loop; [jl_done] when it ended. *)
Record JoinLoop := MkJoinLoop {
  jl_mCall : string;
  jl_call : string;
  jl_agent : loc;
  jl_done : bool;
}.

#[export] Instance eta_JoinLoop : Eta JoinLoop := fun s =>
  MkJoinLoop (jl_mCall s) (jl_call s) (jl_agent s) (jl_done s).

Section JoinAgentCallQueue.
Variable q : QueueObject.
Variable l : loc.
Variable tm : agentTeam.

(** The condition of the loop. *)
Definition join_again (s : JoinLoop) : M OC (RunEnd + JoinLoop) :=
  c ← peek (jl_call s);
  if decide (HangupCause c <> "") then mret (inr (s <| jl_done := true |>))
  else
    m ← peek (jl_mCall s);
    mret (inr (s <| jl_done := (bool_decide (HangupCause m <> "")) |>)).

Definition join_accept (s : JoinLoop) : M OC (RunEnd + JoinLoop) :=
  _ ← call_err (CallSetVariables (jl_mCall s)
         {[ "cc_result" := if bq_processing (qo_base q) then AttemptResultPostProcessing
                           else AttemptResultSuccess ]});
  _ ← bridge_sleep q;
  err ← call_err (CallBridge (jl_call s) (jl_mCall s));
  a ← get_attempt l;
  _ ← match err with
      | Some _ =>
          c ← peek (jl_call s);
          if decide (ca_hangupAt c = 0) then hangup_call (jl_call s) CALL_HANGUP_LOSE_RACE else mret tt
      | None =>
          m ← peek (jl_mCall s);
          if negb (at_processTransfer a) && bool_decide (ca_direction m = CALL_DIRECTION_OUTBOUND)
          then bridge_once l (jl_agent s) else mret tt
      end;
  join_again s.

Definition join_agent_state (s : JoinLoop) (st : CallState) : M OC (RunEnd + JoinLoop) :=
  match st with
  | CALL_STATE_RINGING =>
      _ ← with_agent (jl_agent s) (fun ag =>
            Team_Offering l ag (call_channel (jl_call s)) (Some (call_channel (jl_mCall s))));
      join_again s
  | CALL_STATE_ACCEPT => join_accept s
  | CALL_STATE_BRIDGE => _ ← bridge_once l (jl_agent s); join_again s
  | CALL_STATE_HANGUP =>
      r ← receive_transfer tm l (jl_agent s) (jl_call s);
      match r with
      | Some (nc, agent) => join_again (s <| jl_call := nc |> <| jl_agent := agent |>)
      | None => mret (inr (s <| jl_done := true |>))
      end
  | _ => join_again s
  end.

Definition join_member_state (s : JoinLoop) (st : CallState) : M OC (RunEnd + JoinLoop) :=
  match st with
  | CALL_STATE_BRIDGE => _ ← bridge_once l (jl_agent s); join_again s
  | CALL_STATE_HANGUP =>
      r ← transferResult q l (jl_mCall s);
      let '(mCall, tr) := r in
      match tr with
      | CallTransferForward => mret (inl RunLeft)
      | CallTransferSuccess => join_again (s <| jl_mCall := mCall |>)
      | CallTransferSkip =>
          c ← peek (jl_call s);
          _ ← (if decide (ca_hangupAt c = 0) then hangup_agent mCall (jl_call s) else mret tt);
          mret (inr (s <| jl_done := true |>))
      end
  | _ => join_again s
  end.

Definition join_handle (s : JoinLoop) (ev : QEvent) : option (M OC (RunEnd + JoinLoop)) :=
  match ev with
  | QState id st =>
      if decide (id = jl_call s) then Some (join_agent_state s st)
      else if decide (id = jl_mCall s) then Some (join_member_state s st) else None
  | _ => None
  end.

Definition join_finish (s : JoinLoop) : M OC RunEnd :=
  c ← peek (jl_call s);
  x ← (if decide (ca_bridgeAt c > 0) then
         _ ← report_call tm q l (jl_agent s) (jl_call s); mret RunReporting
       else
         _ ← call_err (CallStopPlayback (jl_mCall s));
         c ← peek (jl_call s);
         _ ← (if ShouldMarkAsMissed (Some c) then Team_Missed tm l (jl_agent s)
              else CancelAttemptAndReleaseAgent l (jl_agent s));
         _ ← LeavingMember l;
         mret RunLeft);
  _ ← leaving_hooks l;
  mret x.

End JoinAgentCallQueue.

Definition join_run (q : QueueObject) (l : loc) (mCall : string) (evs : list QEvent) : M OC RunEnd :=
  _ ← SetState l MemberStateJoined;
  a ← get_attempt l;
  match at_agent a with
  | None => panic nil_deref
  | Some agent =>
      r ← BaseQueue_GetTeam l;
      match r with
      | inl _ => mret RunDropped
      | inr tm =>
          m ← peek mCall;
          let lost := bool_decide (HangupCause m <> "") in
          ag ← get_agent agent;
          m ← peek mCall;
          a ← get_attempt l;
          cr ← AgentCallRequest q ag tm a (FlipCaller (ca_direction m) ag a) [("park", "")];
          m ← peek mCall;
          let cr := put_var "wbt_parent_id" (ParentOrId m) cr in
          ac ← call (CallNewLeg mCall cr) cq_newLeg;
          _ ← mod_attempt l (fun a => a <| at_agentChannel := (Some (call_channel ac)) |>);
          _ ← distribute_event q tm l agent (Some (call_channel mCall)) (Some (call_channel ac));
          _ ← call_err (CallInvite ac cr);
          let s := MkJoinLoop mCall ac agent lost in
          s ← (if lost then mret (inr s) else join_again s);
          match s with
          | inl x => mret x
          | inr s =>
              r ← select_loop jl_done (join_handle q l tm) evs s;
              match r with
              | inl x => mret x
              | inr s => join_finish q l tm s
              end
          end
      end
  end.

(** ** OutboundCallQueue *)

Record OutLoop := MkOutLoop {
  ol_call : string;
  ol_agent : loc;
  ol_done : bool;
}.

#[export] Instance eta_OutLoop : Eta OutLoop := fun s => MkOutLoop (ol_call s) (ol_agent s) (ol_done s).

Section OutboundCallQueue.
Variable q : QueueObject.
Variable processingWithoutAnswer : bool.
Variable l : loc.
Variable tm : agentTeam.

Definition outbound_again (s : OutLoop) : M OC (RunEnd + OutLoop) :=
  c ← peek (ol_call s);
  mret (inr (s <| ol_done := (bool_decide (HangupCause c <> "")) |>)).

Definition outbound_state (s : OutLoop) (st : CallState) : M OC (RunEnd + OutLoop) :=
  match st with
  | CALL_STATE_ACCEPT | CALL_STATE_BRIDGE => _ ← bridge_once l (ol_agent s); outbound_again s
  | CALL_STATE_HANGUP =>
      r ← receive_transfer tm l (ol_agent s) (ol_call s);
      match r with
      | Some (nc, agent) => outbound_again (s <| ol_call := nc |> <| ol_agent := agent |>)
      | None => outbound_again s
      end
  | _ => outbound_again s
  end.

Definition outbound_handle (s : OutLoop) (ev : QEvent) : option (M OC (RunEnd + OutLoop)) :=
  match ev with
  | QCancel => Some (mret (inr (s <| ol_done := true |>)))
  | QState id st => if decide (id = ol_call s) then Some (outbound_state s st) else None
  | _ => None
  end.

Definition outbound_finish (s : OutLoop) : M OC RunEnd :=
  c ← peek (ol_call s);
  x ← (if Call_Answered c || processingWithoutAnswer then
         _ ← report_call tm q l (ol_agent s) (ol_call s); mret RunReporting
       else
         sent ← SendAfterDistributeSchema l;
         if sent : bool then mret RunLeft
         else _ ← with_agent (ol_agent s) (fun ag => SetWrap tm q l ag "not_answered"); mret RunLeft);
  _ ← leaving_hooks l;
  mret x.

Definition outbound_run (id : string) (agent : loc) (evs : list QEvent) : M OC RunEnd :=
  _ ← distribute_event q tm l agent None (Some (call_channel id));
  _ ← with_agent agent (fun ag => Team_Offering l ag (call_channel id) None);
  c ← peek id;
  _ ← (if bool_decide (ca_bridgeAt c > 0) || processingWithoutAnswer
       then with_agent agent (Team_Bridged l) else mret tt);
  c ← peek id;
  s ← (if decide (ca_hangupAt c = 0) then outbound_again (MkOutLoop id agent false)
       else mret (inr (MkOutLoop id agent true)));
  match s with
  | inl x => mret x
  | inr s =>
      r ← select_loop ol_done outbound_handle evs s;
      match r with
      | inl x => mret x
      | inr s => outbound_finish s
      end
  end.

End OutboundCallQueue.

End Inbound.
