(* ===== verification/CallDial.v ===== *)
(** * Calls the queues make: call_ivr.go, call_offline.go, call_preview.go, call_progressive.go

    The goroutines of the queues that dial: IVRQueue calls the member and plays a schema,
    OfflineCallQueue and PreviewCallQueue call the agent, whose leg then bridges to the
    member, ProgressiveCallQueue calls the member and, on the answer, the agent. *)

From S2P Require Import Prelude Model Queue Attempt TaskChannel Resource Calls World Agents.
From S2P Require Import Events Schema Manager Team Calling.

(** The variables of a call to a member: what the maps of the three dialers share. *)
Definition member_variables (b : BaseQueue) (a : Attempt) (r : Resource) (display : string)
    : list (string * string) := [
  ("domain_name", bq_domainName b); ("sip_h_X-Webitel-Domain-Id", fmt_d (bq_domainId b));
  ("sip_h_X-Webitel-Gateway-Id", fmt_d (gw_Id (rs_gateway r)));
  ("hangup_after_bridge", "true"); ("ignore_display_updates", "true");
  ("sip_h_X-Webitel-Display-Direction", "outbound"); ("sip_h_X-Webitel-Origin", "request");
  ("wbt_destination", Destination a); ("wbt_from_id", fmt_d (gw_Id (rs_gateway r)));
  ("wbt_from_number", display); ("wbt_from_type", "gateway");
  ("wbt_to_name", ma_Name (at_member a)); ("wbt_to_type", "member"); ("wbt_to_number", Destination a);
  ("effective_caller_id_number", display); ("effective_callee_id_name", ma_Name (at_member a));
  ("effective_callee_id_number", Destination a); ("origination_caller_id_number", display);
  ("origination_callee_id_name", ma_Name (at_member a)); ("origination_callee_id_number", Destination a);
  ("cc_queue_id", fmt_d (bq_id b)); ("cc_queue_name", bq_name b); ("cc_queue_type", TypeName b);
  ("cc_side", "member"); ("cc_attempt_id", fmt_d (at_Id a)); ("cc_resource_id", fmt_d (rs_id r))].

(** The request of a call to a member. *)
Definition member_request (a : Attempt) (dst display : string) (timeout : Z) (vars : strmap) : CallRequest := {|
  cr_Id := ma_MemberCallId (at_member a); cr_Endpoints := [dst]; cr_Strategy := 0;
  cr_Destination := Destination a; cr_Variables := Some vars; cr_Timeout := timeout;
  cr_CallerName := ma_Name (at_member a); cr_CallerNumber := Destination a; cr_Dialplan := "";
  cr_Context := ""; cr_Applications := []; cr_CheckParentId := ""; cr_OriginationNumber := display |}.

(** The variables of a call to an agent that bridges to the member by itself. *)
Definition leg_variables (b : BaseQueue) (tm : agentTeam) (ag : Agent) (a : Attempt) (r : Resource)
    (memberId : Z) : strmap := list_to_map [
  ("domain_name", bq_domainName b); ("sip_h_X-Webitel-Domain-Id", fmt_d (bq_domainId b));
  ("sip_h_X-Webitel-User-Id", fmt_d (Agent_UserId ag)); ("sip_h_X-Webitel-Direction", "internal");
  ("hangup_after_bridge", "true"); ("cc_reporting", fmt_b (bq_processing b));
  ("sip_h_X-Webitel-Display-Direction", "outbound"); ("sip_h_X-Webitel-Origin", "request");
  ("wbt_destination", Destination a); ("wbt_from_id", fmt_d (Agent_UserId ag));
  ("wbt_from_number", CallNumber ag); ("wbt_from_name", ag_Name ag); ("wbt_from_type", "user");
  ("wbt_to_id", fmt_d memberId); ("wbt_to_name", ma_Name (at_member a)); ("wbt_to_type", "member");
  ("wbt_to_number", Destination a);
  ("effective_caller_id_number", CallNumber ag); ("effective_caller_id_name", ag_Name ag);
  ("effective_callee_id_name", ma_Name (at_member a)); ("effective_callee_id_number", Destination a);
  ("origination_caller_id_name", ma_Name (at_member a)); ("origination_caller_id_number", Destination a);
  ("origination_callee_id_name", ag_Name ag); ("origination_callee_id_number", CallNumber ag);
  ("cc_agent_id", fmt_d (ag_Id ag)); ("cc_team_id", fmt_d (tm_Id (te_data tm)));
  ("cc_queue_id", fmt_d (bq_id b)); ("cc_queue_name", bq_name b); ("cc_queue_type", TypeName b);
  ("cc_member_id", fmt_d memberId); ("cc_attempt_id", fmt_d (at_Id a)); ("cc_resource_id", fmt_d (rs_id r))].

Definition leg_request (tm : agentTeam) (ag : Agent) (a : Attempt) (display : string) (vars : strmap)
    : CallRequest := {|
  cr_Id := None; cr_Endpoints := GetCallEndpoints ag; cr_Strategy := 0; cr_Destination := "";
  cr_Variables := Some vars; cr_Timeout := tm_CallTimeout (te_data tm);
  cr_CallerName := ma_Name (at_member a); cr_CallerNumber := Destination a; cr_Dialplan := "";
  cr_Context := ""; cr_Applications := []; cr_CheckParentId := ""; cr_OriginationNumber := display |}.

Definition auto_dtmf (a : Attempt) (rq : CallRequest) : CallRequest :=
  match mc_Dtmf (at_communication a) with Some d => SetAutoDtmf d rq | None => rq end.

(** Applications, [app] when the detection of machines is off. *)
Definition with_amd (b : BaseQueue) (amd : option QueueAmdSettings) (onHuman : string)
    (app args : string) (rq : CallRequest) : CallRequest :=
  let '(on, rq) := SetAmdCall b amd onHuman rq in if on then rq else add_app app args rq.

(** The loop of a goroutine with one call. *)
Record LegLoop := MkLegLoop {
  lg_call : string;
  lg_agent : loc;
  lg_done : bool;
}.

#[export] Instance eta_LegLoop : Eta LegLoop := fun s => MkLegLoop (lg_call s) (lg_agent s) (lg_done s).

Section Dial.
Context {OC : Type -> Type} {HOC : ObjectCache OC} {SV : Services} {DE : Decoders} {CV : CallViews}.

(** [attempt.resource], whose methods panic on nil. *)
Definition attempt_resource (l : loc) : M OC loc :=
  a ← get_attempt l;
  match at_resource a with Some r => mret r | None => panic nil_deref end.

(** [*attempt.MemberId()] *)
Definition member_id (a : Attempt) : M OC Z :=
  match MemberId a with Some i => mret i | None => panic nil_deref end.

(** An attempt that cannot be dialed. *)
Definition give_up_dial (l : loc) (maxAttempts wait : Z) : M OC RunEnd :=
  _ ← SetAttemptAbandonedWithParams l maxAttempts wait None;
  _ ← LeavingMember l;
  mret RunLeft.

(** [if recordings { SetRecordings(call, all, mono) } else if RecordAllCalls() { SetRecordings(call, all', false) }] *)
Definition record_call (b : BaseQueue) (id : string) (recordings all mono allCalls : bool) (rq : CallRequest)
    : M OC CallRequest :=
  if recordings then lift (set_recordings id (bq_domainId b) all mono rq)
  else
    every ← RecordAllCalls b;
    if every : bool then lift (set_recordings id (bq_domainId b) allCalls false rq) else mret rq.

(** The application that bridges the agent's leg to the member. *)
Definition bridge_app (q : QueueObject) (a : Attempt) (r : Resource) (id display : string)
    (timeout : Z) (recordings mono all : bool) (rq : CallRequest) : M OC CallRequest :=
  every ← RecordAllCalls (qo_base q);
  let '(rec, mono, all) := bridgeRecordings every recordings mono all in
  order ← ask (fun t => cq_range t (SipGateway_Variables (rs_gateway r)));
  mret (add_app "bridge" (Gateway_Bridge (rs_gateway r) order {|
    br_Id := ma_MemberCallId (at_member a); br_GranteeId := qo_granteeId q; br_ParentId := id;
    br_Name := ma_Name (at_member a); br_Destination := Destination a; br_Display := display;
    br_Timeout := timeout; br_Recordings := rec; br_RecordMono := mono; br_RecordAll := all |}) rq).

(** [call.SetOtherChannelVar] of a queue that transfers after the bridge *)
Definition transfer_vars (target : string) : strmap :=
  {[ "transfer_after_bridge" := target; "hangup_after_bridge" := "false" ]}.

Definition transfer_after (target id : string) : M OC unit :=
  if decide (target <> "") then emit (CallSetOtherVars id (transfer_vars target)) else mret tt.

(** ** IVRQueue *)

Section IVRQueue.
Variable q : QueueObject.
Variable s : QueueIVRSettings.
Variable l : loc.

Definition ivr_state (dst display id : string) (st : CallState) : M OC (RunEnd + bool) :=
  match st with
  | CALL_STATE_RINGING =>
      _ ← SetState l MemberStateOffering;
      a ← get_attempt l;
      _ ← call (SetAttemptOffering (at_Id a) None None (Some id) (Some dst) (Some display)) svc_timestamp;
      mret (inr false)
  | CALL_STATE_DETECT_AMD | CALL_STATE_ACCEPT =>
      p ← hasProcessAmd q (iv_Amd s) id st;
      if p : bool then mret (inr false)
      else
        _ ← SetState l MemberStateBridged;
        a ← get_attempt l;
        _ ← call (SetAttemptBridged (at_Id a)) svc_timestamp;
        mret (inr false)
  | CALL_STATE_HANGUP => mret (inr true)
  | _ => mret (inr false)
  end.

Definition ivr_handle (dst display id : string) (_ : bool) (ev : QEvent) : option (M OC (RunEnd + bool)) :=
  match ev with
  | QHangup id' => if decide (id' = id) then Some (mret (inr true)) else None
  | QState id' st => if decide (id' = id) then Some (ivr_state dst display id st) else None
  | _ => None
  end.

Definition ivr_finish (resource : loc) (id : string) : M OC RunEnd :=
  _ ← CallCheckResourceError resource id;
  a ← get_attempt l;
  c ← peek id;
  c1 ← peek id;
  c2 ← peek id;
  _ ← mod_attempt l (SetResult
        (if decide (at_state a = MemberStateBridged /\ ca_acceptAt c > 0 /\
                    Z.quot (ca_hangupAt c1 - ca_acceptAt c2) 1000 > i64 (iv_MinDuration s))
         then AttemptResultSuccess else AttemptResultAbandoned));
  r ← AfterDistributeSchema l;
  a ← get_attempt l;
  _ ← match r with
      | Some res =>
          if decide (sr_Status res = AttemptResultSuccess) then SetAttemptSuccess l (sr_Variables res)
          else SetAttemptAbandonedWithParams l (at_maxAttempts a) (at_waitBetween a) (sr_Variables res)
      | None =>
          if decide (Result a = AttemptResultSuccess) then SetAttemptSuccess l None
          else SetAttemptAbandonedWithParams l (iv_MaxAttempts s) (iv_WaitBetweenRetries s) None
      end;
  _ ← LeavingMember l;
  mret RunLeft.

Definition ivr_request (resource : loc) (display : string) : M OC CallRequest :=
  r ← get_resource resource;
  a ← get_attempt l;
  schema ← export_schema l;
  member ← member_id a;
  address ← ask cq_address;
  let vars := UnionStringMaps [entries (bq_variables (qo_base q)); Resource_Variables r; schema;
    ExportVariables a;
    list_to_map (("wbt_to_id", fmt_d address) :: ("cc_member_id", fmt_d member)
                 :: member_variables (qo_base q) a r display)] in
  rq ← SetHoldMusic q (member_request a (Endpoint (rs_gateway r) (Destination a)) display
         (u16 (iv_OriginateTimeout s)) vars);
  mret (auto_dtmf a rq).

Definition ivr_run (evs : list QEvent) : M OC RunEnd :=
  go ← DoDistributeSchema (qo_base q) l;
  if negb go then _ ← LeavingMember l; mret RunLeft
  else
    resource ← attempt_resource l;
    r ← get_resource resource;
    a ← get_attempt l;
    let dst := Endpoint (rs_gateway r) (Destination a) in
    display ← Attempt_Display l;
    rq ← ivr_request resource display;
    p ← NewCallUseResource rq resource;
    match p with
    | (inl _, _) => give_up_dial l (iv_MaxAttempts s) (iv_WaitBetweenRetries s)
    | (inr id, rq) =>
        rq ← record_call (qo_base q) id (iv_Recordings s) true (iv_RecordMono s) true rq;
        let rq := with_amd (qo_base q) (iv_Amd s) ("transfer::" +:+ Destination a) "socket" "$${acr_srv}" rq in
        _ ← SetState l MemberStateJoined;
        _ ← mod_attempt l (fun a => a <| at_memberChannel := (Some (call_channel id)) |>);
        _ ← call_err (CallInvite id rq);
        c ← peek id;
        match Call_Err c with
        | Some _ => mret RunDropped
        | None =>
            x ← select_loop (fun done => done) (ivr_handle dst display id) evs false;
            match x with
            | inl e => mret e
            | inr _ => ivr_finish resource id
            end
        end
    end.

End IVRQueue.

(** ** OfflineCallQueue and PreviewCallQueue *)

Section AgentLeg.
Variable l : loc.
Variable tm : agentTeam.
(** What the queue does on the bridge, besides [team.Bridged]. *)
Variable on_bridge : loc -> string -> M OC unit.

Definition leg_state (s : LegLoop) (st : CallState) : M OC (RunEnd + LegLoop) :=
  match st with
  | CALL_STATE_RINGING =>
      _ ← with_agent (lg_agent s) (fun ag => Team_Offering l ag (call_channel (lg_call s)) None);
      mret (inr s)
  | CALL_STATE_ACCEPT => _ ← with_agent (lg_agent s) (Team_Answered l); mret (inr s)
  | CALL_STATE_BRIDGE =>
      _ ← with_agent (lg_agent s) (Team_Bridged l);
      _ ← on_bridge (lg_agent s) (lg_call s);
      mret (inr s)
  | _ => mret (inr s)
  end.

Definition leg_hangup (s : LegLoop) : M OC (RunEnd + LegLoop) :=
  r ← receive_transfer tm l (lg_agent s) (lg_call s);
  match r with
  | Some (nc, agent) => mret (inr (s <| lg_call := nc |> <| lg_agent := agent |>))
  | None => mret (inr (s <| lg_done := true |>))
  end.

Definition leg_handle (s : LegLoop) (ev : QEvent) : option (M OC (RunEnd + LegLoop)) :=
  match ev with
  | QState id st => if decide (id = lg_call s) then Some (leg_state s st) else None
  | QHangup id => if decide (id = lg_call s) then Some (leg_hangup s) else None
  | _ => None
  end.

End AgentLeg.

Definition offline_request (q : QueueObject) (tm : agentTeam) (l agent resource : loc) (display : string)
    : M OC CallRequest :=
  a ← get_attempt l;
  ag ← get_agent agent;
  r ← get_resource resource;
  member ← member_id a;
  let rq := leg_request tm ag a display (UnionStringMaps
    [entries (bq_variables (qo_base q)); ExportVariables a; entries (ag_Variables ag);
     leg_variables (qo_base q) tm ag a r member]) in
  mret (auto_dtmf a (if ag_HasPush ag then SetPush rq else rq)).

Definition offline_finish (q : QueueObject) (l : loc) (tm : agentTeam) (s : LegLoop) : M OC RunEnd :=
  now ← GetMillis;
  c ← peek (lg_call s);
  c' ← peek (lg_call s);
  if decide (BillSeconds now c > 0 \/ ca_acceptAt c' > 0)
  then _ ← report_call tm q l (lg_agent s) (lg_call s); mret RunReporting
  else _ ← Team_Missed tm l (lg_agent s); mret RunDropped.

Definition offline_run (q : QueueObject) (s : OfflineQueueSettings) (l : loc) (tm : agentTeam) (agent : loc)
    (evs : list QEvent) : M OC RunEnd :=
  go ← DoDistributeSchema (qo_base q) l;
  if negb go then _ ← LeavingMember l; mret RunLeft
  else
    display ← Attempt_Display l;
    resource ← attempt_resource l;
    rq ← offline_request q tm l agent resource display;
    c ← call (CallNew rq) cq_newCall;
    match c with
    | inl _ => give_up_dial l (of_MaxAttempts s) (of_WaitBetweenRetries s)
    | inr id =>
        rq ← SetHoldMusic q rq;
        a ← get_attempt l;
        r ← get_resource resource;
        rq ← bridge_app q a r id display (of_OriginateTimeout s) (of_Recordings s) (of_RecordMono s)
               (of_RecordAll s) rq;
        _ ← mod_attempt l (fun a => a <| at_agentChannel := (Some (call_channel id)) |>);
        _ ← distribute_event q tm l agent None (Some (call_channel id));
        _ ← call_err (CallInvite id rq);
        x ← select_loop lg_done (leg_handle l tm (fun _ => transfer_after (of_transferAfter s)))
              evs (MkLegLoop id agent false);
        match x with
        | inl e => mret e
        | inr s => offline_finish q l tm s
        end
    end.

Definition preview_request (q : QueueObject) (tm : agentTeam) (l agent resource : loc) (display : string)
    : M OC CallRequest :=
  a ← get_attempt l;
  ag ← get_agent agent;
  r ← get_resource resource;
  member ← member_id a;
  let rq := leg_request tm ag a display (UnionStringMaps
    [entries (bq_variables (qo_base q)); entries (ag_Variables ag); ExportVariables a;
     leg_variables (qo_base q) tm ag a r member]) in
  mret (auto_dtmf a (if ag_HasPush ag then SetPush rq else rq)).

Definition preview_bridge (s : PreviewSettings) (agent : loc) (id : string) : M OC unit :=
  ag ← get_agent agent;
  _ ← (if pv_AllowGreetingAgent s
       then emit (CallBroadcastFile id (ag_DomainId ag) (ag_GreetingMedia ag) "both") else mret tt);
  transfer_after (pv_transferAfter s) id.

Definition preview_finish (q : QueueObject) (l : loc) (tm : agentTeam) (s : LegLoop) : M OC RunEnd :=
  c ← peek (lg_call s);
  c1 ← peek (lg_call s);
  c2 ← peek (lg_call s);
  a ← get_attempt l;
  if decide (ca_acceptAt c > 0 /\ ca_bridgeAt c1 = 0 /\ bq_processing (qo_base q) = false)
  then _ ← with_agent (lg_agent s) (fun ag => SetWrap tm q l ag AttemptResultAbandoned); mret RunLeft
  else if decide (ca_acceptAt c2 > 0 \/ at_result a <> None)
  then _ ← report_call tm q l (lg_agent s) (lg_call s); mret RunReporting
  else
    _ ← CancelAgentAttempt tm l (lg_agent s);
    _ ← LeavingMember l;
    mret RunLeft.

Definition preview_run (q : QueueObject) (s : PreviewSettings) (l : loc) (tm : agentTeam) (agent : loc)
    (evs : list QEvent) : M OC RunEnd :=
  go ← DoDistributeSchema (qo_base q) l;
  if negb go then _ ← LeavingMember l; mret RunLeft
  else
    display ← Attempt_Display l;
    resource ← attempt_resource l;
    rq ← preview_request q tm l agent resource display;
    c ← call (CallNew rq) cq_newCall;
    match c with
    | inl _ => give_up_dial l (pv_MaxAttempts s) (pv_WaitBetweenRetries s)
    | inr id =>
        _ ← mod_attempt l (fun a => a <| at_memberChannel := (Some (call_channel id)) |>
                                      <| at_agentChannel := (Some (call_channel id)) |>);
        let rq := if pv_usePark s
                  then add_app "playback" "tone_stream://L=1;%(400,400,425)" (add_app "park" "" rq) else rq in
        a ← get_attempt l;
        r ← get_resource resource;
        rq ← bridge_app q a r id display (pv_OriginateTimeout s) (pv_Recordings s) (pv_RecordMono s)
               (pv_RecordAll s) rq;
        let rq := add_app "playback" "tone_stream://L=3;%(400,400,425)" rq in
        _ ← distribute_event q tm l agent None (Some (call_channel id));
        _ ← call_err (CallInvite id rq);
        x ← select_loop lg_done (leg_handle l tm (preview_bridge s)) evs (MkLegLoop id agent false);
        match x with
        | inl e => mret e
        | inr s => preview_finish q l tm s
        end
    end.

End Dial.
