(* ===== verification/CallPredict.v ===== *)
(** * Calls with detection and retries: call_progressive.go, call_predict.go

    ProgressiveCallQueue dials a member for a reserved agent and calls the agent when the
    member answers. PredictCallQueue dials first, redials over other resources while the
    schema asks for it ([predict_loop], whose fuel is maxRetryCount), and looks for an agent
    when the member answers. The events of a dial are those its select receives; every dial
    of a predictive attempt has its own. *)

From S2P Require Import Prelude Model Queue Attempt TaskChannel Resource Calls World Agents.
From S2P Require Import Events Schema Manager Team Calling CallInbound CallDial.

(** [pl_inner] while the inner loop runs; the agent's call is kept after it. *)
Record ProgLoop := MkProgLoop {
  pl_inner : bool;
  pl_calling : bool;
  pl_call : option string;
  pl_agent : loc;
}.

#[export] Instance eta_ProgLoop : Eta ProgLoop := fun s =>
  MkProgLoop (pl_inner s) (pl_calling s) (pl_call s) (pl_agent s).

Definition pl_finished (s : ProgLoop) : bool := negb (pl_inner s) && negb (pl_calling s).

(** ** PredictCallQueue: the retries of runPark *)

Definition maxRetryCount : nat := 10.
Definition maxRetrySleep : Z := 60 * 1000.

Record Retry := MkRetry {
  rt_counter : nat;
  rt_resourceIds : list Z;
  rt_allow : bool;
  rt_last : bool;
}.

#[export] Instance eta_Retry : Eta Retry := fun s =>
  MkRetry (rt_counter s) (rt_resourceIds s) (rt_allow s) (rt_last s).

(** Where the block at last_ goes on. *)
Inductive Jump := GotoRetry | GotoLast.

Definition out_of_fuel : string := "more retries than maxRetryCount".

Section Predict.
Context {OC : Type -> Type} {HOC : ObjectCache OC} {SV : Services} {DE : Decoders} {CV : CallViews}.

(** ** ProgressiveCallQueue *)

Section ProgressiveCallQueue.
Variable q : QueueObject.
Variable s : ProgressiveCallQueueSettings.
Variable l : loc.
Variable tm : agentTeam.
Variable mCall : string.

(** The condition of the inner loop. *)
Definition prog_again (p : ProgLoop) (ac : string) : M OC (RunEnd + ProgLoop) :=
  let out := inr (p <| pl_call := (Some ac) |> <| pl_inner := false |>) in
  c ← peek ac;
  if decide (HangupCause c <> "") then mret out
  else
    m ← peek mCall;
    if decide (HangupCause m <> "") then mret out
    else
      c ← peek ac;
      if decide (ca_transferTo c <> None) then mret out
      else mret (inr (p <| pl_call := (Some ac) |> <| pl_inner := true |>)).

(** The member answered: the agent is confirmed and called. *)
Definition prog_confirmed (p : ProgLoop) (others : list string) : M OC (RunEnd + ProgLoop) :=
  _ ← HangupManyCall mCall CALL_HANGUP_ORIGINATOR_CANCEL others;
  _ ← (if bool_decide (bq_ringtoneUri (qo_base q) <> None)
       then emit (CallParkFile mCall (bq_domainId (qo_base q)) (bq_ringtone (qo_base q)) "aleg")
       else mret tt);
  ag ← get_agent (pl_agent p);
  a ← get_attempt l;
  cr ← AgentCallRequest q ag tm a (CreateCaller (Destination a) (ma_Name (at_member a)))
         [("set", "bridge_export_vars=cc_agent_id,cc_team_id"); ("park", "")];
  let cr := (put_var "wbt_parent_id" mCall cr) <| cr_CheckParentId := mCall |> in
  ac ← call (CallNewLeg mCall cr) cq_newLeg;
  _ ← mod_attempt l (fun a => a <| at_agentChannel := (Some (call_channel ac)) |>);
  m ← peek mCall;
  if decide (HangupCause m <> "")
  then mret (inr (p <| pl_call := (Some ac) |> <| pl_calling := false |>))
  else
    _ ← call_err (CallInvite ac cr);
    prog_again p ac.

Definition prog_answer (p : ProgLoop) (st : CallState) : M OC (RunEnd + ProgLoop) :=
  pending ← hasProcessAmd q (pg_Amd s) mCall st;
  if pending : bool then mret (inr p)
  else
    ag ← get_agent (pl_agent p);
    a ← get_attempt l;
    cnt ← call (ConfirmAttempt (ag_Id ag) (at_Id a)) cq_confirm;
    match cnt with
    | inl _ | inr [] => _ ← hangup_call mCall CALL_HANGUP_ORIGINATOR_CANCEL; mret (inr p)
    | inr others => prog_confirmed p others
    end.

Definition prog_accept (p : ProgLoop) (ac : string) : M OC (RunEnd + ProgLoop) :=
  _ ← bridge_sleep q;
  err ← call_err (CallBridge ac mCall);
  match err with
  | Some _ =>
      c ← peek ac;
      _ ← (if decide (ca_hangupAt c = 0) then hangup_call ac CALL_HANGUP_LOSE_RACE else mret tt);
      prog_again (p <| pl_calling := false |>) ac
  | None =>
      ag ← get_agent (pl_agent p);
      _ ← (if pg_AllowGreetingAgent s && bool_decide (ag_GreetingMedia ag <> None)
           then emit (CallBroadcastFile mCall (ag_DomainId ag) (ag_GreetingMedia ag) "both")
           else if AutoAnswer (qo_base q) then emit (CallBroadcastTone ac (pg_AutoAnswerTone s) "aleg")
           else mret tt);
      _ ← (if decide (pg_transferAfter s <> "")
           then _ ← call_err (CallSetVariables mCall (transfer_vars (pg_transferAfter s))); mret tt
           else mret tt);
      prog_again p ac
  end.

Definition prog_agent_hangup (p : ProgLoop) (ac : string) : M OC (RunEnd + ProgLoop) :=
  r ← receive_transfer tm l (pl_agent p) ac;
  match r with
  | Some (nc, agent) =>
      _ ← mod_attempt l (fun a => a <| at_agentChannel := (Some (call_channel nc)) |>);
      mret (inr (p <| pl_call := (Some nc) |> <| pl_agent := agent |> <| pl_inner := false |>))
  | None =>
      m ← peek mCall;
      now ← GetMillis;
      c ← peek ac;
      c' ← peek ac;
      _ ← (if decide (ca_hangupAt m = 0 /\ BillSeconds now c = 0 /\ ca_transferTo c' = None)
           then hangup_call mCall CALL_HANGUP_LOSE_RACE else mret tt);
      mret (inr (p <| pl_calling := false |> <| pl_inner := false |>))
  end.

Definition prog_agent_state (p : ProgLoop) (ac : string) (st : CallState) : M OC (RunEnd + ProgLoop) :=
  match st with
  | CALL_STATE_RINGING =>
      _ ← with_agent (pl_agent p) (fun ag =>
            Team_Offering l ag (call_channel ac) (Some (call_channel mCall)));
      prog_again p ac
  | CALL_STATE_ACCEPT => prog_accept p ac
  | CALL_STATE_HANGUP => prog_agent_hangup p ac
  | _ => prog_again p ac
  end.

Definition prog_member_state (p : ProgLoop) (ac : string) (st : CallState) : M OC (RunEnd + ProgLoop) :=
  match st with
  | CALL_STATE_BRIDGE => _ ← with_agent (pl_agent p) (Team_Bridged l); prog_again p ac
  | CALL_STATE_HANGUP =>
      c ← peek ac;
      _ ← (if decide (ca_hangupAt c = 0) then hangup_agent mCall ac else mret tt);
      mret (inr (p <| pl_inner := false |>))
  | _ => prog_again p ac
  end.

Definition prog_handle (p : ProgLoop) (ev : QEvent) : option (M OC (RunEnd + ProgLoop)) :=
  match pl_inner p, pl_call p, ev with
  | true, Some ac, QState id st =>
      if decide (id = ac) then Some (prog_agent_state p ac st)
      else if decide (id = mCall) then Some (prog_member_state p ac st) else None
  | false, _, QCancel => Some (_ ← hangup_call mCall CALL_HANGUP_ORIGINATOR_CANCEL; mret (inr p))
  | false, _, QState id st =>
      if decide (id = mCall) then
        Some (if decide (st = CALL_STATE_ACCEPT \/ st = CALL_STATE_DETECT_AMD)
              then prog_answer p st else mret (inr p))
      else None
  | false, _, QHangup id =>
      if decide (id = mCall) then Some (mret (inr (p <| pl_calling := false |>))) else None
  | _, _, _ => None
  end.

Definition prog_finish (resource : loc) (p : ProgLoop) : M OC RunEnd :=
  _ ← CallCheckResourceError resource mCall;
  match pl_call p with
  | None =>
      _ ← with_agent (pl_agent p) (Team_Cancel l);
      _ ← LeavingMember l;
      mret RunLeft
  | Some ac =>
      c ← peek ac;
      if decide (ca_bridgeAt c > 0) then _ ← report_call tm q l (pl_agent p) ac; mret RunReporting
      else
        c ← peek ac;
        c' ← peek ac;
        m ← peek mCall;
        _ ← (if decide (ca_hangupAt c = 0 /\ ca_transferTo c' = None /\ ca_hangupAt m > 0)
             then _ ← emit (SleepNs 200000000); hangup_call ac CALL_HANGUP_ORIGINATOR_CANCEL
             else mret tt);
        c ← peek ac;
        _ ← (if ShouldMarkAsMissed (Some c) then Team_Missed tm l (pl_agent p)
             else CancelAttemptAndReleaseAgent l (pl_agent p));
        _ ← LeavingMember l;
        mret RunLeft
  end.

End ProgressiveCallQueue.

Definition prog_request (q : QueueObject) (s : ProgressiveCallQueueSettings) (l resource : loc)
    (dst display : string) : M OC CallRequest :=
  a ← get_attempt l;
  r ← get_resource resource;
  member ← member_id a;
  mret (member_request a dst display (pg_OriginateTimeout s)
    (UnionStringMaps [entries (bq_variables (qo_base q)); ExportVariables a;
       list_to_map (("ignore_early_media", "true") :: ("wbt_to_id", fmt_d member)
                    :: ("cc_member_id", fmt_d member) :: member_variables (qo_base q) a r display)])).

Definition prog_run (q : QueueObject) (s : ProgressiveCallQueueSettings) (l : loc) (tm : agentTeam)
    (agent : loc) (evs : list QEvent) : M OC RunEnd :=
  go ← DoDistributeSchema (qo_base q) l;
  if negb go then _ ← LeavingMember l; mret RunLeft
  else
    resource ← attempt_resource l;
    r ← get_resource resource;
    a ← get_attempt l;
    display ← Attempt_Display l;
    rq ← prog_request q s l resource (Endpoint (rs_gateway r) (Destination a)) display;
    c ← NewCallUseResource rq resource;
    match c with
    | (inl _, _) => give_up_dial l (pg_MaxAttempts s) (pg_WaitBetweenRetries s)
    | (inr mCall, rq) =>
        rq ← record_call (qo_base q) mCall (pg_Recordings s) (pg_RecordAll s) (pg_RecordMono s) false rq;
        a ← get_attempt l;
        let rq := with_amd (qo_base q) (pg_Amd s) "park" "park" "" (auto_dtmf a rq) in
        if at_canceled a then give_up_dial l ((pg_MaxAttempts s + 1) `mod` 2 ^ 64) 0
        else
          _ ← distribute_event q tm l agent None (Some (call_channel mCall));
          _ ← mod_attempt l (fun a => a <| at_memberChannel := (Some (call_channel mCall)) |>);
          _ ← call_err (CallInvite mCall rq);
          x ← select_loop pl_finished (prog_handle q s l tm mCall) evs (MkProgLoop false true None agent);
          match x with
          | inl e => mret e
          | inr p => prog_finish q l tm mCall resource p
          end
    end.

(** ** PredictCallQueue.runOfferingAgents *)

Section Offering.
Variable q : QueueObject.
Variable s : PredictCallQueueSettings.
Variable l : loc.

(** [mCall.Hangup(ORIGINATOR_CANCEL); mCall.WaitForHangup()] *)
Definition cancel_member (mCall : string) : M OC unit :=
  _ ← hangup_call mCall CALL_HANGUP_ORIGINATOR_CANCEL; emit (WaitHangup mCall).

(** After the inner loop. *)
Definition offer_after (st : InLoop) (t : talk) : M OC (RunEnd + InLoop) :=
  a ← get_attempt l;
  c ← peek (tk_call t);
  _ ← (if decide (at_bridgedAt a = 0 /\ ca_hangupAt c = 0)
       then hangup_call (tk_call t) CALL_HANGUP_ORIGINATOR_CANCEL else mret tt);
  c ← peek (tk_call t);
  if decide (ca_bridgeAt c = 0) then
    _ ← release_agent (tk_team t) l (tk_agent t) (tk_call t);
    _ ← SetState l MemberStateWaitAgent;
    m ← peek (il_mCall st);
    m' ← peek (il_mCall st);
    mret (inr (st <| il_mode := Outer |> <| il_talk := None |>
                  <| il_calling := (bool_decide (ca_hangupAt m = 0) && bool_decide (ca_bridgeAt m' = 0)) |>))
  else mret (inr (st <| il_mode := Outer |> <| il_talk := (Some t) |> <| il_calling := false |>)).

Definition offer_again (st : InLoop) (t : talk) : M OC (RunEnd + InLoop) :=
  c ← peek (tk_call t);
  if decide (HangupCause c <> "") then offer_after st t
  else
    m ← peek (il_mCall st);
    if decide (HangupCause m <> "") then offer_after st t
    else mret (inr (st <| il_mode := (Inner t) |>)).

Definition offer_distribute (st : InLoop) : M OC (RunEnd + InLoop) :=
  a ← get_attempt l;
  r ← BaseQueue_GetTeam l;
  match r, at_agent a with
  | inl _, _ => _ ← emit (SleepNs 3000000000); mret (inl RunDropped)
  | inr _, None => panic nil_deref
  | inr tm, Some agent =>
      let mCall := il_mCall st in
      m ← peek mCall;
      if decide (HangupCause m <> "") then mret (inr (st <| il_calling := false |>))
      else
        ag ← get_agent agent;
        a ← get_attempt l;
        cr ← AgentCallRequest q ag tm a (CreateCaller (Destination a) (ma_Name (at_member a))) [("park", "")];
        let cr := put_var "wbt_parent_id" mCall cr in
        ac ← call (CallNewLeg mCall cr) cq_newLeg;
        _ ← mod_attempt l (fun a => a <| at_agentChannel := (Some (call_channel ac)) |>);
        _ ← distribute_event q tm l agent (Some (call_channel mCall)) (Some (call_channel ac));
        _ ← call_err (CallInvite ac cr);
        offer_again st (MkTalk ac agent tm)
  end.

Definition offer_accept (st : InLoop) (t : talk) : M OC (RunEnd + InLoop) :=
  let mCall := il_mCall st in
  let ac := tk_call t in
  _ ← bridge_sleep q;
  err ← call_err (CallBridge ac mCall);
  match err with
  | Some _ =>
      c ← peek ac;
      _ ← (if decide (ca_hangupAt c = 0) then hangup_call ac CALL_HANGUP_LOSE_RACE else mret tt);
      offer_again st t
  | None =>
      ag ← get_agent (tk_agent t);
      _ ← (if pr_AllowGreetingAgent s && bool_decide (ag_GreetingMedia ag <> None)
           then emit (CallBroadcastFile mCall (ag_DomainId ag) (ag_GreetingMedia ag) "both")
           else if AutoAnswer (qo_base q) then emit (CallBroadcastTone ac (pr_AutoAnswerTone s) "aleg")
           else mret tt);
      _ ← (if decide (pr_transferAfter s <> "")
           then _ ← call_err (CallSetVariables mCall (transfer_vars (pr_transferAfter s))); mret tt
           else mret tt);
      offer_again st t
  end.

Definition offer_agent_state (st : InLoop) (t : talk) (cs : CallState) : M OC (RunEnd + InLoop) :=
  match cs with
  | CALL_STATE_RINGING =>
      _ ← with_agent (tk_agent t) (fun ag =>
            Team_Offering l ag (call_channel (tk_call t)) (Some (call_channel (il_mCall st))));
      offer_again st t
  | CALL_STATE_ACCEPT => offer_accept st t
  | CALL_STATE_HANGUP =>
      r ← receive_transfer (tk_team t) l (tk_agent t) (tk_call t);
      match r with
      | Some (nc, agent) => offer_again st (MkTalk nc agent (tk_team t))
      | None => offer_after st t
      end
  | _ => offer_again st t
  end.

Definition offer_member_state (st : InLoop) (t : talk) (cs : CallState) : M OC (RunEnd + InLoop) :=
  match cs with
  | CALL_STATE_BRIDGE =>
      _ ← with_agent (tk_agent t) (Team_Bridged l);
      offer_again (stop_wait true st) t
  | CALL_STATE_HANGUP =>
      c ← peek (tk_call t);
      _ ← (if decide (ca_hangupAt c = 0) then hangup_agent (il_mCall st) (tk_call t) else mret tt);
      offer_after st t
  | _ => offer_again st t
  end.

Definition offer_stop (st : InLoop) : M OC (RunEnd + InLoop) :=
  _ ← cancel_member (il_mCall st); mret (inr (st <| il_calling := false |>)).

Definition offer_handle (st : InLoop) (ev : QEvent) : option (M OC (RunEnd + InLoop)) :=
  match il_mode st, ev with
  | Outer, QCancel => Some (_ ← cancel_member (il_mCall st); mret (inr st))
  | Outer, QTimeout => if il_timer st then Some (offer_stop st) else None
  | Outer, QContext => Some (offer_stop st)
  | Outer, QAgent => Some (offer_distribute st)
  | Outer, QState id cs =>
      if decide (id = il_mCall st) then
        Some (mret (inr (if decide (cs = CALL_STATE_HANGUP) then st <| il_calling := false |>
                         else stop_wait (bool_decide (cs = CALL_STATE_BRIDGE)) st)))
      else None
  | Inner t, QCancel => Some (_ ← cancel_member (il_mCall st); offer_again st t)
  | Inner t, QState id cs =>
      if decide (id = tk_call t) then Some (offer_agent_state st t cs)
      else if decide (id = il_mCall st) then Some (offer_member_state st t cs) else None
  | _, _ => None
  end.

(** [predictAgentId] is the agent the attempt was dialed for. The wait for the hangup of the
    member's call takes a second at most. *)
Definition offer_finish (predictAgentId : Z) (st : InLoop) : M OC RunEnd :=
  m ← peek (il_mCall st);
  _ ← (if decide (HangupCause m = "") then
         transferred ← match il_talk st with
                       | Some t => c ← peek (tk_call t); mret (Transferred c)
                       | None => mret false
                       end;
         if transferred : bool then mret tt else emit (SleepNs 1000000000)
       else mret tt);
  talking ← match il_talk st with
            | Some t => c ← peek (tk_call t); mret (if decide (ca_bridgeAt c > 0) then Some t else None)
            | None => mret None
            end;
  x ← match talking with
      | Some t => _ ← report_call (tk_team t) q l (tk_agent t) (tk_call t); mret RunReporting
      | None =>
          _ ← LosePredictAgent predictAgentId;
          sent ← SendAfterDistributeSchema l;
          if sent : bool then mret RunLeft
          else if pr_RetryAbandoned s then
            _ ← SetAttemptAbandonedWithParams l (pr_MaxAttempts s) (pr_WaitBetweenRetries s) None;
            _ ← LeavingMember l; mret RunLeft
          else _ ← Abandoned l; mret RunLeft
      end;
  _ ← emit (HooksOff l);
  mret x.

Definition runOfferingAgents (mCall : string) (evs : list QEvent) : M OC RunEnd :=
  a ← get_attempt l;
  predictAgentId ← match at_agent a with
                   | Some g => ag ← get_agent g; mret (ag_Id ag)
                   | None => mret 0
                   end;
  _ ← SetState l MemberStateWaitAgent;
  a ← get_attempt l;
  err ← AnswerPredictAndFindAgent (at_Id a) (pr_HoldReservedAgent s);
  match err with
  | Some _ => _ ← emit (SleepNs 3000000000); mret RunDropped
  | None =>
      m ← peek mCall;
      r ← select_loop in_finished offer_handle evs
            (MkInLoop Outer (bool_decide (ca_hangupAt m = 0)) mCall None true);
      match r with
      | inl x => mret x
      | inr st => offer_finish predictAgentId st
      end
  end.

End Offering.

(** ** PredictCallQueue.runPark *)

Section Park.
Variable q : QueueObject.
Variable s : PredictCallQueueSettings.
Variable l : loc.

Definition predict_request (resource : loc) (dst display : string) : M OC CallRequest :=
  a ← get_attempt l;
  r ← get_resource resource;
  let rq := member_request a dst display (pr_OriginateTimeout s)
    (UnionStringMaps [entries (bq_variables (qo_base q)); ExportVariables a;
       list_to_map (("ignore_early_media", "true") :: member_variables (qo_base q) a r display)]) in
  mret (match MemberId a with
        | Some m => put_var "wbt_to_id" (fmt_d m) (put_var "cc_member_id" (fmt_d m) rq)
        | None => rq
        end).

(** The applications of the call. *)
Definition predict_apps (allow : bool) (id : string) (rq : CallRequest) : M OC CallRequest :=
  if allow then
    rq ← record_call (qo_base q) id (pr_Recordings s) (pr_RecordAll s) (pr_RecordMono s) false rq;
    a ← get_attempt l;
    mret (auto_dtmf a (with_amd (qo_base q) (pr_Amd s) "park" "park" "" rq))
  else mret (rq <| cr_Applications := [("hangup", "REQUESTED_CHAN_UNAVAIL")] |>).

(** The loop of a dial: [inl] when the member answered, [true] when the call ended. *)
Definition predict_handle (resource : loc) (mCall : string) (_ : bool) (ev : QEvent)
    : option (M OC (unit + bool)) :=
  match ev with
  | QCancel => Some (_ ← cancel_member mCall; mret (inr false))
  | QState id st =>
      if decide (id = mCall) then
        Some (if decide (st = CALL_STATE_ACCEPT \/ st = CALL_STATE_DETECT_AMD) then
                p ← hasProcessAmd q (pr_Amd s) mCall st;
                if p : bool then mret (inr false)
                else
                  _ ← (if bool_decide (bq_ringtoneUri (qo_base q) <> None)
                       then emit (CallParkFile mCall (bq_domainId (qo_base q)) (bq_ringtone (qo_base q)) "aleg")
                       else mret tt);
                  _ ← CallCheckResourceError resource mCall;
                  mret (inl tt)
              else mret (inr false))
      else None
  | QHangup id => if decide (id = mCall) then Some (mret (inr true)) else None
  | _ => None
  end.

(** From retry_ to last_: [inl] when the goroutine ends in here. *)
Definition predict_dial (allow : bool) (evs offer : list QEvent) : M OC (RunEnd + unit) :=
  resource ← attempt_resource l;
  r ← get_resource resource;
  a ← get_attempt l;
  display ← (if allow then Attempt_Display l else mret "");
  let dst := if allow then Endpoint (rs_gateway r) (Destination a) else "null" in
  rq ← predict_request resource dst display;
  c ← NewCallUseResource rq resource;
  match c with
  | (inl _, _) => x ← give_up_dial l (pr_MaxAttempts s) (pr_WaitBetweenRetries s); mret (inl x)
  | (inr mCall, rq) =>
      rq ← predict_apps allow mCall rq;
      _ ← mod_attempt l (fun a => a <| at_memberChannel := (Some (call_channel mCall)) |>);
      _ ← call_err (CallInvite mCall rq);
      x ← select_loop (fun done => done) (predict_handle resource mCall) evs false;
      match x with
      | inl _ => e ← runOfferingAgents q s l mCall offer; mret (inl e)
      | inr _ => _ ← CallCheckResourceError resource mCall; mret (inr tt)
      end
  end.

(** The schema asks for a retry. *)
Definition predict_retry (res : SchemaResult) (rt : Retry) : M OC (RunEnd + Jump * Retry) :=
  resource ← attempt_resource l;
  r ← get_resource resource;
  let ids := rt_resourceIds rt ++ [rs_id r] in
  flip ← FlipAttemptResource l ids;
  let n := S (rt_counter rt) in
  _ ← mod_attempt l (AddVariables {[ "cc_retry_count" := fmt_d (Z.of_nat n) ]});
  let rt := rt <| rt_counter := n |> <| rt_resourceIds := ids |> in
  match match flip with inr f => (fun _ => f) <$> fr_ResourceId f | inl _ => None end with
  | None =>
      if rt_last rt then
        a ← get_attempt l;
        _ ← SetAttemptAbandonedWithParams l (at_maxAttempts a) (at_waitBetween a) (sr_Variables res);
        _ ← LeavingMember l;
        mret (inl RunLeft)
      else
        _ ← mod_attempt l (AddVariables {[ "cc_retry_last" := "true" ]});
        mret (inr (GotoLast, rt <| rt_last := true |>))
  | Some f =>
      let allow := default false (fr_AllowCall f) in
      _ ← (if allow && bool_decide (0 < sr_RetrySleep res < maxRetrySleep)
           then emit (SleepNs (sr_RetrySleep res * 1000000)) else mret tt);
      mret (inr (GotoRetry, rt <| rt_allow := allow |>))
  end.

(** The block at last_. *)
Definition predict_last (rt : Retry) : M OC (RunEnd + Jump * Retry) :=
  r ← AfterDistributeSchema l;
  a ← get_attempt l;
  match r with
  | Some res =>
      if decide (sr_Status res = AttemptResultSuccess) then
        _ ← SetAttemptSuccess l (sr_Variables res);
        _ ← LeavingMember l;
        mret (inl RunLeft)
      else if decide (sr_Type res = SchemaResultTypeRetry /\ (rt_counter rt < maxRetryCount)%nat)
      then predict_retry res rt
      else
        _ ← SetAttemptAbandonedWithParams l (at_maxAttempts a) (at_waitBetween a) (sr_Variables res);
        _ ← LeavingMember l;
        mret (inl RunLeft)
  | None => x ← give_up_dial l (pr_MaxAttempts s) (pr_WaitBetweenRetries s); mret (inl x)
  end.

(** The jumps; [evs n] are the events of the dial with the retry counter [n], [exhausted] is
    what happens when the fuel runs out. *)
Fixpoint predict_loop (exhausted : M OC RunEnd) (fuel : nat) (j : Jump) (rt : Retry)
    (evs : nat -> list QEvent) (offer : list QEvent) : M OC RunEnd :=
  match fuel with
  | O => exhausted
  | S fuel =>
      d ← match j with
          | GotoRetry => predict_dial (rt_allow rt) (evs (rt_counter rt)) offer
          | GotoLast => mret (inr tt)
          end;
      match d with
      | inl x => mret x
      | inr _ =>
          r ← predict_last rt;
          match r with
          | inl x => mret x
          | inr (j, rt) => predict_loop exhausted fuel j rt evs offer
          end
      end
  end.

Definition runPark (evs : nat -> list QEvent) (offer : list QEvent) : M OC RunEnd :=
  go ← DoDistributeSchema (qo_base q) l;
  if negb go then _ ← LeavingMember l; mret RunLeft
  else predict_loop (panic out_of_fuel) maxRetryCount GotoRetry (MkRetry 1 [] true false) evs offer.

End Park.

End Predict.
