(* ===== verification/Chat.v ===== *)
(** * Chats: the package chat

    [Conversation] and [ChatSession] are the structs of chat/conversation.go and
    chat/session.go; the sessions of a conversation are only ever appended, so a pointer to a
    session is the location of its conversation with an index. [cv_state] is the Go channel
    of states, first in first out. [ChatState_] is the manager: the LRU cache of the store
    (chat/store.go) with the heap of conversations. A call to the chat service is recorded
    in [cs_trace] and answered by the class [ChatServer]; the sends and receives on the
    channel of states are recorded there too, and so is the wait of a send that found it
    full. The client handle of the service is left out: one manager has one.

    An operation runs to its end before the next one starts, except [InviteInternal]: its
    two halves, before and after the answer of the chat service, are operations of their
    own, since the events of the conversation are handled in between. *)

From S2P Require Import Prelude Lru Model Queue Attempt World.
Import Lru.

(** ** Data *)

Inductive ChatState :=
| ChatStateIdle | ChatStateInvite | ChatStateDeclined | ChatStateBridge | ChatStateClose.

#[export] Instance ChatState_eq_dec : EqDecision ChatState.
Proof. solve_decision. Defined.

Inductive ChatDirection := ChatDirectionInbound | ChatDirectionOutbound.

#[export] Instance ChatDirection_eq_dec : EqDecision ChatDirection.
Proof. solve_decision. Defined.

Record ChatSession := MkChatSession {
  se_inviterId : string;
  se_inviterUserId : string;
  se_UserId : Z;
  se_Direction : ChatDirection;
  se_ConversationId : string;
  se_ChannelId : string;
  se_InviteId : string;
  se_InviteAt : Z;
  se_CreatedAt : Z;
  se_AnsweredAt : Z;
  se_stopAt : Z;
  se_ActivityAt : Z;
  se_variables : gomap;
  se_cause : string;
}.

#[export] Instance eta_ChatSession : Eta ChatSession := fun s =>
  MkChatSession (se_inviterId s) (se_inviterUserId s) (se_UserId s) (se_Direction s)
    (se_ConversationId s) (se_ChannelId s) (se_InviteId s) (se_InviteAt s) (se_CreatedAt s)
    (se_AnsweredAt s) (se_stopAt s) (se_ActivityAt s) (se_variables s) (se_cause s).

Record Conversation := MkConversation {
  cv_id : string;
  cv_inviterId : string;
  cv_inviterUserId : string;
  cv_DomainId : Z;
  cv_variables : gomap;
  cv_sessions : list ChatSession;
  cv_bridgetAt : Z;
  cv_closeAt : Z;
  cv_reportingAt : Z;
  cv_lastMessageAt : Z;
  cv_state : list ChatState;
  cv_stateStalled : bool;
  cv_cause : string;
}.

#[export] Instance eta_Conversation : Eta Conversation := fun c =>
  MkConversation (cv_id c) (cv_inviterId c) (cv_inviterUserId c) (cv_DomainId c) (cv_variables c)
    (cv_sessions c) (cv_bridgetAt c) (cv_closeAt c) (cv_reportingAt c) (cv_lastMessageAt c)
    (cv_state c) (cv_stateStalled c) (cv_cause c).

Definition STATE_BUFFER_SIZE : nat := 50.

Definition ErrChannelNotFound : AppError :=
  NewAppError "Chat.InviteInternal" "chat.invite.not_found" "channel not found" 404.
Definition ErrNotFound : AppError :=
  NewAppError "Chat" "chat.not_found" "not found conversation" 404.
Definition ErrBadId : AppError :=
  NewAppError "Chat" "chat.valid.id" "bad conversation_id" 400.

(** An event of the chat service: model/chat.go. A value of the JSON data is a string, a
    number (kept as the integer that the conversion to int64 gives), an object, or another
    value. *)
Inductive dyn :=
| DString (s : string)
| DNumber (n : Z)
| DObject (fields : gmap string string) (* its fields that are strings *)
| DOther.

Record ChatEvent := MkChatEvent {
  xe_Name : string;
  xe_DomainId : Z;
  xe_UserId : Z;
  xe_Data : gmap string dyn;
}.

Definition dyn_string (d : option dyn) : string :=
  match d with Some (DString s) => s | _ => "" end.

Definition ConversationId (e : ChatEvent) : string := dyn_string (xe_Data e !! "conversation_id").

Definition Event_Timestamp (e : ChatEvent) : Z :=
  match xe_Data e !! "timestamp" with Some (DNumber n) => n | _ => 0 end.

Definition Event_Cause (e : ChatEvent) : string := dyn_string (xe_Data e !! "cause").

Definition ChannelId (e : ChatEvent) : string :=
  match xe_Data e !! "member" with Some (DObject o) => default "" (o !! "id") | _ => "" end.

Definition MessageChannelId (e : ChatEvent) : string := dyn_string (xe_Data e !! "channel_id").

Definition InviteId (e : ChatEvent) : string := dyn_string (xe_Data e !! "invite_id").

(** strings.ToLower, on ASCII: a cause is one of the constants of the chat service. *)
Definition lower_ascii (a : ascii) : ascii :=
  let n := nat_of_ascii a in
  if decide (65 <= n /\ n <= 90)%nat then ascii_of_nat (n + 32) else a.

Fixpoint ToLower (s : string) : string :=
  match s with
  | EmptyString => EmptyString
  | String a s => String (lower_ascii a) (ToLower s)
  end.

(** [strings.Index(err.Error(), "channel not found") != -1] *)
Definition isChannelClose (err : string) : bool :=
  match String.index 0 "channel not found" err with Some _ => true | None => false end.

(** ** Sessions: chat/session.go *)

Definition OutboundChat (now userId : Z) (conversationId inviterId invUserId : string) : ChatSession := {|
  se_inviterId := inviterId; se_inviterUserId := invUserId; se_UserId := userId;
  se_Direction := ChatDirectionOutbound; se_ConversationId := conversationId; se_ChannelId := "";
  se_InviteId := ""; se_InviteAt := 0; se_CreatedAt := now; se_AnsweredAt := 0; se_stopAt := 0;
  se_ActivityAt := 0; se_variables := None; se_cause := "" |}.

Definition SessionId (s : ChatSession) : string :=
  if decide (se_ChannelId s <> "") then se_ChannelId s else se_InviteId s.

Definition Session_Id (s : ChatSession) : string :=
  if decide (se_Direction s = ChatDirectionOutbound) then SessionId s else se_ConversationId s.

Definition Session_Answered (s : ChatSession) : bool := bool_decide (se_AnsweredAt s > 0).

Definition SetActivity (now : Z) (s : ChatSession) : ChatSession := s <| se_ActivityAt := now |>.

Definition IdleSec (now : Z) (s : ChatSession) : Z := Z.quot (now - se_ActivityAt s) 1000.

Definition Session_Stats (s : ChatSession) : strmap :=
  if decide (se_cause s <> "")
  then {[ "chat_transferred" := if decide (se_cause s = "transfer") then "true" else "false" ]}
  else ∅.

(** ** Reading a conversation *)

Definition SilentSec (now : Z) (c : Conversation) : Z := Z.quot (now - cv_lastMessageAt c) 1000.

Definition Conversation_Active (c : Conversation) : bool := bool_decide (cv_closeAt c = 0).

Definition SetStop (now : Z) (c : Conversation) : Conversation :=
  if decide (cv_closeAt c = 0) then c <| cv_closeAt := now |> else c.

(** The index of the first session that is not stopped and satisfies a test. *)
Fixpoint find_session (test : ChatSession -> bool) (i : nat) (l : list ChatSession) : option nat :=
  match l with
  | [] => None
  | s :: l => if test s && bool_decide (se_stopAt s = 0) then Some i else find_session test (S i) l
  end.

Definition getSessionByInviteId (invId : string) (c : Conversation) : option nat :=
  find_session (fun s => bool_decide (se_InviteId s = invId)) 0 (cv_sessions c).

Definition getSessionByChannelId (chanId : string) (c : Conversation) : option nat :=
  find_session (fun s => bool_decide (se_ChannelId s = chanId)) 0 (cv_sessions c).

(** The loop of setJoined keeps the last session that matches. *)
Fixpoint last_session (channelId : string) (i : nat) (l : list ChatSession) (res : option nat) : option nat :=
  match l with
  | [] => res
  | s :: l => last_session channelId (S i) l
      (if bool_decide (se_InviteId s = channelId) && bool_decide (se_stopAt s = 0) then Some i else res)
  end.

Definition newConversation (now domainId : Z) (id inviterId inviterUserId : string) (variables : gomap)
    : Conversation :=
  let sess := {|
    se_inviterId := inviterId; se_inviterUserId := inviterUserId; se_UserId := 0;
    se_Direction := ChatDirectionInbound; se_ConversationId := id; se_ChannelId := inviterId;
    se_InviteId := ""; se_InviteAt := 0; se_CreatedAt := 0; se_AnsweredAt := 0; se_stopAt := 0;
    se_ActivityAt := now; se_variables := variables; se_cause := "" |} in
  {| cv_id := id; cv_inviterId := inviterId; cv_inviterUserId := inviterUserId;
     cv_DomainId := domainId; cv_variables := variables; cv_sessions := [sess]; cv_bridgetAt := 0;
     cv_closeAt := 0; cv_reportingAt := 0; cv_lastMessageAt := now; cv_state := [];
     cv_stateStalled := false; cv_cause := "" |}.

(** ** The manager *)

Inductive ChatCmd :=
| ApiClient
| InviteToConversation (domainId userId : Z) (convId inviterId inviterUserId title : string)
    (timeout : Z) (vars : strmap)
| CliLeave (userId : Z) (channelId convId cause : string)
| CliDecline (userId : Z) (inviteId cause : string)
| CliSendText (userId : Z) (channelId convId text : string)
| ChanSend (conv : loc) (st : ChatState)
| ChanRecv (conv : loc) (st : ChatState)
| ChanWait (conv : loc)
| ChanDrop (conv : loc) (st : ChatState).

(** [csv_invite] answers an invite ([inl] is the error text), [csv_reads] tells whether the
    reader of a full channel takes a state before the timer of pushState fires,
    [csv_AgentLeave] is the constant AgentLeave of the client library. *)
Class ChatServer := {
  csv_now : list ChatCmd -> Z; (* nanoseconds since the epoch *)
  csv_client : list ChatCmd -> option string;
  csv_err : list ChatCmd -> option string;
  csv_invite : list ChatCmd -> string + string;
  csv_reads : list ChatCmd -> bool;
  csv_AgentLeave : string;
}.

Record ChatState_ := MkChatState {
  cs_chats : Cache string loc;
  cs_heap : gmap loc Conversation;
  cs_next : loc;
  cs_trace : list ChatCmd;
}.

#[export] Instance eta_ChatState_ : Eta ChatState_ := fun s =>
  MkChatState (cs_chats s) (cs_heap s) (cs_next s) (cs_trace s).

Definition maxOpenedChat : Z := 50000.
Definition expireCacheChat : Z := 0.

Definition NewChatManager : ChatState_ := {|
  cs_chats := NewLruWithParams maxOpenedChat "Chats" expireCacheChat "";
  cs_heap := ∅; cs_next := 0%nat; cs_trace := [] |}.

Definition CH (A : Type) : Type := ChatState_ -> outcome (A * ChatState_).

#[global] Instance CH_ret : MRet CH := fun A a s => Ret (a, s).

#[global] Instance CH_bind : MBind CH := fun A B f m s =>
  match m s with
  | Ret (a, s') => f a s'
  | Panic w => Panic w
  | Block w => Block w
  end.

Section Chats.
Context {SRV : ChatServer}.

Definition ch_call {A} (e : ChatCmd) (answer : list ChatCmd -> A) : CH A := fun s =>
  let s := s <| cs_trace := (e :: cs_trace s) |> in Ret (answer (cs_trace s), s).

Definition ch_emit (e : ChatCmd) : CH unit := ch_call e (fun _ => tt).

Definition ch_modify (f : ChatState_ -> ChatState_) : CH unit := fun s => Ret (tt, f s).

Definition ch_millis : CH Z := fun s => Ret (Z.quot (csv_now (cs_trace s)) 1000000, s).

(** Allocation. *)
Definition new_conv (c : Conversation) : CH loc := fun s =>
  Ret (cs_next s, s <| cs_heap := (<[cs_next s := c]> (cs_heap s)) |> <| cs_next := (S (cs_next s)) |>).

Definition get_conv (l : loc) : CH Conversation := fun s =>
  match cs_heap s !! l with Some c => Ret (c, s) | None => Panic nil_deref end.

Definition mod_conv (l : loc) (f : Conversation -> Conversation) : CH unit := fun s =>
  match cs_heap s !! l with
  | Some c => Ret (tt, s <| cs_heap := (<[l := f c]> (cs_heap s)) |>)
  | None => Panic nil_deref
  end.

(** A write through the pointer to a session. *)
Definition mod_session (l : loc) (i : nat) (f : ChatSession -> ChatSession) : CH unit :=
  mod_conv l (fun c => c <| cv_sessions := (alter f i (cv_sessions c)) |>).

Definition index_range : string := "index out of range".

Definition session_at (c : Conversation) (i : nat) : CH ChatSession := fun s =>
  match cv_sessions c !! i with Some x => Ret (x, s) | None => Panic index_range end.

(** The error of a call to the chat service. *)
Definition chat_error (whr key err : string) : AppError := NewAppError whr key err 500.

Definition cli_err (e : ChatCmd) (whr key : string) : CH (option AppError) :=
  r ← ch_call e csv_err;
  mret (match r with Some err => Some (chat_error whr key err) | None => None end).

(** *** chat/store.go *)

Definition chats_get (id : string) : CH (option loc) := fun s =>
  let '(v, c) := Get (Z.quot (csv_now (cs_trace s)) 1000000000) id (cs_chats s) in
  Ret (v, s <| cs_chats := c |>).

Definition GetConversation (conversationId : string) : CH (result loc) :=
  if decide (conversationId = "") then mret (inl ErrBadId)
  else
    v ← chats_get conversationId;
    match v with Some l => mret (inr l) | None => mret (inl ErrNotFound) end.

(** The branch for a conversation that exists only adds a log line. *)
Definition StoreConversation (l : loc) : CH unit :=
  c ← get_conv l;
  _ ← chats_get (cv_id c);
  ch_modify (fun s => s <| cs_chats :=
    (AddWithDefaultExpires (Z.quot (csv_now (cs_trace s)) 1000000000) (cv_id c) l (cs_chats s)) |>).

Definition RemoveConversation (l : loc) : CH unit :=
  c ← get_conv l;
  ch_modify (fun s => s <| cs_chats :=
    ((RemoveFunc (cv_id c) (fun v => bool_decide (v = l)) (cs_chats s)).2) |>).

Definition NewConversation (domainId : Z) (id inviterId inviterUserId : string) (variables : gomap)
    : CH (result loc) :=
  e ← ch_call ApiClient csv_client;
  match e with
  | Some err => mret (inl (chat_error "Chat.Inbound" "chat.inbound.app_err" err))
  | None =>
      now ← ch_millis;
      l ← new_conv (newConversation now domainId id inviterId inviterUserId variables);
      _ ← StoreConversation l;
      mret (inr l)
  end.

(** *** chat/conversation.go *)

(** [case c.state <- state] *)
Definition send_state (l : loc) (st : ChatState) : CH unit :=
  _ ← mod_conv l (fun c => c <| cv_state := (cv_state c ++ [st]) |>);
  ch_emit (ChanSend l st).

(** The goroutine of the queue receives from State(). *)
Definition recv_state (l : loc) : CH (option ChatState) :=
  c ← get_conv l;
  match cv_state c with
  | [] => mret None
  | st :: rest =>
      _ ← mod_conv l (fun c => c <| cv_state := rest |>);
      _ ← ch_emit (ChanRecv l st);
      mret (Some st)
  end.

Definition pushState (l : loc) (st : ChatState) : CH unit :=
  c ← get_conv l;
  if decide (length (cv_state c) < STATE_BUFFER_SIZE)%nat then send_state l st
  else if cv_stateStalled c then ch_emit (ChanDrop l st)
  else
    read ← ch_call (ChanWait l) csv_reads;
    if read : bool then _ ← recv_state l; send_state l st
    else
      _ ← mod_conv l (fun c => c <| cv_stateStalled := true |>);
      ch_emit (ChanDrop l st).

(** The first half: the session is added, the chat service is called. *)
Definition InviteInternal_call (l : loc) (userId timeout : Z) (title : string) (vars : gomap)
    : CH (nat * (string + string)) :=
  now ← ch_millis;
  c ← get_conv l;
  let i := length (cv_sessions c) in
  let sess := OutboundChat now userId (cv_id c) (cv_inviterId c) (cv_inviterUserId c) in
  _ ← mod_conv l (fun c => c <| cv_sessions := (cv_sessions c ++ [sess]) |>);
  r ← ch_call (InviteToConversation (cv_DomainId c) userId (cv_id c) (cv_inviterId c)
                 (cv_inviterUserId c) title timeout
                 (UnionStringMaps [entries (cv_variables c); entries vars])) csv_invite;
  mret (i, r).

(** The second half: the answer of the chat service. *)
Definition InviteInternal_answer (l : loc) (i : nat) (r : string + string) : CH (option AppError) :=
  match r with
  | inl err =>
      if isChannelClose err then
        now ← ch_millis;
        _ ← mod_conv l (SetStop now);
        mret (Some ErrChannelNotFound)
      else mret (Some (chat_error "Chat.InviteInternal" "chat.invite.internal.app_err" err))
  | inr invId =>
      now ← ch_millis;
      _ ← mod_session l i (fun s => SetActivity now s <| se_InviteId := invId |> <| se_InviteAt := now |>);
      _ ← pushState l ChatStateInvite;
      mret None
  end.

Definition InviteInternal (l : loc) (userId timeout : Z) (title : string) (vars : gomap)
    : CH (option AppError) :=
  p ← InviteInternal_call l userId timeout title vars;
  InviteInternal_answer l p.1 p.2.

(** [c.sessions[0]] *)
Definition MemberSession (l : loc) : CH ChatSession :=
  c ← get_conv l; session_at c 0.

(** [c.sessions[len(c.sessions)-1]], which is out of range for no session *)
Definition LastSession (l : loc) : CH ChatSession :=
  c ← get_conv l;
  match last (cv_sessions c) with
  | Some x => mret x
  | None => (fun _ => Panic index_range) : CH ChatSession
  end.

Definition Reporting (l : loc) (noLeave : bool) : CH (option AppError) :=
  sess ← LastSession l;
  if decide (se_stopAt sess <> 0)
  then mret (Some (NewAppError "Chat.Reporting" "chat.reporting.valid.stop_at" "Chat is closed" 400))
  else
    now ← ch_millis;
    _ ← mod_conv l (fun c => c <| cv_reportingAt := now |>);
    if noLeave then mret None
    else cli_err (CliLeave (se_UserId sess) (se_ChannelId sess) (se_ConversationId sess) csv_AgentLeave)
           "Chat.Reporting" "chat.leave.app_err".

Definition SendText (l : loc) (text : string) : CH (option AppError) :=
  c ← get_conv l;
  match find_session (fun _ => true) 0 (cv_sessions c) with
  | Some i =>
      s ← session_at c i;
      cli_err (CliSendText (se_UserId s) (se_ChannelId s) (cv_id c) text)
        "Chat.SendText" "chat.send.text.app_err"
  | None => mret None
  end.

Definition setInvite (l : loc) (inviteId : string) (timestamp : Z) : CH unit :=
  c ← get_conv l;
  match getSessionByInviteId inviteId c with
  | Some i =>
      now ← ch_millis;
      _ ← mod_session l i (fun s => SetActivity now s <| se_InviteId := inviteId |>
                                                    <| se_InviteAt := timestamp |>);
      pushState l ChatStateInvite
  | None => mret tt
  end.

Definition setJoined (l : loc) (channelId : string) (timestamp : Z) : CH unit :=
  c ← get_conv l;
  let sess := last_session channelId 0 (cv_sessions c) None in
  now ← ch_millis;
  _ ← mod_conv l (fun c => c <| cv_lastMessageAt := now |>);
  match sess with
  | Some i =>
      _ ← mod_session l i (fun s => SetActivity now (s <| se_ChannelId := channelId |>
                                                       <| se_AnsweredAt := timestamp |>));
      _ ← mod_conv l (fun c => c <| cv_bridgetAt := timestamp |>);
      pushState l ChatStateBridge
  | None => mret tt
  end.

Definition setNewMessage (l : loc) (channelId : string) : CH unit :=
  now ← ch_millis;
  _ ← mod_conv l (fun c => c <| cv_lastMessageAt := now |>);
  c ← get_conv l;
  match getSessionByChannelId channelId c with
  | Some i => mod_session l i (SetActivity now)
  | None => mret tt
  end.

Definition setClose (l : loc) (timestamp : Z) (cause : string) : CH unit :=
  _ ← mod_conv l (fun c => c <| cv_closeAt := timestamp |> <| cv_cause := cause |>);
  _ ← MemberSession l;
  _ ← mod_session l 0 (fun s => s <| se_cause := cause |>);
  pushState l ChatStateClose.

Definition setDeclined (l : loc) (inviteId : string) (timestamp : Z) : CH unit :=
  c ← get_conv l;
  match getSessionByInviteId inviteId c with
  | Some i =>
      _ ← mod_session l i (fun s => s <| se_stopAt := timestamp |>);
      pushState l ChatStateDeclined
  | None => mret tt
  end.

(** *** chat/session.go, the calls to the chat service *)

Definition Session_Leave (s : ChatSession) (cause : string) : CH (option AppError) :=
  cli_err (CliLeave (se_UserId s) (SessionId s) (se_ConversationId s) cause)
    "ChatSession" "chat_session.leave.app_err".

Definition Session_Decline (s : ChatSession) : CH (option AppError) :=
  cli_err (CliDecline (se_UserId s) (se_InviteId s) "") "ChatSession" "chat_session.decline.app_err".

Definition Session_Close (s : ChatSession) : CH (option AppError) :=
  if decide (se_ChannelId s = "") then
    if decide (se_InviteId s <> "") then Session_Decline s else mret None
  else Session_Leave s "agent_leave".

(** *** chat/events.go *)

Definition handleEvent (e : ChatEvent) : CH unit :=
  r ← GetConversation (ConversationId e);
  match r with
  | inl _ => mret tt
  | inr l =>
      if decide (xe_Name e = "user_invite") then mret tt
      else if decide (xe_Name e = "decline_invite") then setDeclined l (InviteId e) (Event_Timestamp e)
      else if decide (xe_Name e = "join_conversation") then setJoined l (ChannelId e) (Event_Timestamp e)
      else if decide (xe_Name e = "message") then setNewMessage l (MessageChannelId e)
      else if decide (xe_Name e = "leave_conversation" \/ xe_Name e = "close_conversation")
      then setClose l (Event_Timestamp e) (ToLower (Event_Cause e))
      else mret tt
  end.

End Chats.
