(* ===== verification/ChatQueue.v ===== *)
(** * Inbound chats: queue/chat_inbound.go

    The goroutine of a chat attempt, on the queue manager and on the conversations of the
    package chat. The two nested loops are one loop over their variables; [xl_inner] while
    the inner loop runs. The timer of the goroutine is a flag: a fired timer does not fire
    again until it is reset. The channel of states is the one of the conversation: [XState]
    receives from it, [XServer] is an event of the chat service that the manager of the
    chats handles between two steps of the goroutine, while the channel has room. *)

From S2P Require Import Prelude Model Queue Attempt World Sessions Agents Events Schema Manager Team.
From S2P Require Import Calling Chat.

Definition transferResultVar : string := "cc_transfer_result".

Inductive XEvent := XCancel | XContext | XTimer | XAgent | XState | XServer (e : ChatEvent).

(** [xl_agent], [xl_team] and [xl_sess] are the variables agent, team and aSess, with nil as
    [None]; a session is its index in the conversation. *)
Record ChatLoop := MkChatLoop {
  xl_loop : bool;
  xl_inner : bool;
  xl_agent : option loc;
  xl_team : option agentTeam;
  xl_sess : option nat;
  xl_timer : bool;
}.

#[export] Instance eta_ChatLoop : Eta ChatLoop := fun s =>
  MkChatLoop (xl_loop s) (xl_inner s) (xl_agent s) (xl_team s) (xl_sess s) (xl_timer s).

Definition chat_finished (s : ChatLoop) : bool := negb (xl_inner s) && negb (xl_loop s).

Definition chat_channel (x : ChatSession) : Channel := MkChannel ChChat (Session_Id x).

Section ChatQueue.
Context {OC : Type -> Type} {HOC : ObjectCache OC} {SV : Services} {DE : Decoders} {SRV : ChatServer}.

Abbreviation X := (ST ChatState_ OC).

Section InboundChatQueue.
Variable q : QueueObject.
Variable set : InboundChatQueueSettings.
Variable l : loc.

Section Conv.
Variable cl : loc. (* the conversation *)

Definition conv_get : X Conversation := own (get_conv cl).

Definition conv_session (i : nat) : X ChatSession := own (c ← get_conv cl; session_at c i).

Definition conv_stop : X unit := own (now ← ch_millis; mod_conv cl (SetStop now)).

(** [loop = conv.Active()], after the select of the outer loop. *)
Definition chat_next (s : ChatLoop) : X (RunEnd + ChatLoop) :=
  c ← conv_get;
  mret (inr (s <| xl_inner := false |> <| xl_loop := (Conversation_Active c) |>)).

(** The condition of the inner loop. *)
Definition chat_again (s : ChatLoop) : X (RunEnd + ChatLoop) :=
  c ← conv_get;
  if Conversation_Active c then
    match xl_sess s with
    | None => up (panic nil_deref)
    | Some i =>
        x ← conv_session i;
        if decide (se_stopAt x = 0) then mret (inr (s <| xl_inner := true |>)) else chat_next s
    end
  else chat_next s.

(** The variables of the invitation. *)
Definition invite_variables (tm : agentTeam) (ag : Agent) (a : Attempt) : strmap :=
  let b := qo_base q in
  let vars := UnionStringMaps [ExportVariables a; entries (bq_variables b);
    list_to_map [
      ("wbt_agent_chat_name", ag_ChatName ag); ("wbt_agent_name", ag_Name ag);
      ("cc_agent_id", fmt_d (ag_Id ag)); ("cc_team_id", fmt_d (tm_Id (te_data tm)));
      ("cc_queue_id", fmt_d (bq_id b)); ("cc_queue_name", bq_name b); ("cc_queue_type", TypeName b);
      ("cc_attempt_id", fmt_d (at_Id a)); ("cc_reporting", fmt_b (bq_processing b))]] in
  if ic_ManualDistribution set
  then <["cc_manual_distribution" := "true"]> (<["wbt_auto_answer" := "true"]> vars) else vars.

(** An invitation that the chat service refused. *)
Definition chat_refused (s : ChatLoop) (tm : agentTeam) (agent : loc) (err : AppError) : X (RunEnd + ChatLoop) :=
  let s := s <| xl_agent := None |> <| xl_team := None |> in
  if decide (err = ErrChannelNotFound) then
    _ ← up (CancelAgentAttempt tm l agent);
    mret (inr (s <| xl_loop := false |>))
  else
    _ ← up (MissedAgentAndWaitingAttempt tm l agent);
    _ ← up (SetState l MemberStateWaitAgent);
    mret (inr s).

(** [case <-ags] *)
Definition chat_distribute (s : ChatLoop) : X (RunEnd + ChatLoop) :=
  a ← up (get_attempt l);
  r ← up (BaseQueue_GetTeam l);
  match r, at_agent a with
  | inl _, _ => mret (inl RunDropped)
  | inr _, None => up (panic nil_deref)
  | inr tm, Some agent =>
      ag ← up (get_agent agent);
      let s := s <| xl_agent := (Some agent) |> <| xl_team := (Some tm) |> in
      let timeout := tm_InviteChatTimeout (te_data tm) in
      err ← own (InviteInternal cl (Agent_UserId ag) timeout (bq_name (qo_base q))
                   (Some (invite_variables tm ag a)));
      match err with
      | Some e => chat_refused s tm agent e
      | None =>
          _ ← up (emit (EmitHook l "offering"));
          c ← conv_get;
          let i := pred (length (cv_sessions c)) in
          m ← conv_session 0;
          x ← conv_session i;
          e ← up (NewDistributeEvent l (Agent_UserId ag) q ag (bq_processing (qo_base q))
                    (Some (chat_channel m)) (Some (chat_channel x)) timeout);
          _ ← up (Team_Distribute q ag e);
          chat_again (s <| xl_sess := (Some i) |>)
      end
  end.

(** Which idle limit of the queue is reached: the result of the attempt and the cause with
    which the agent's session leaves, which have the same text for the first two. *)
Definition chat_idle (now : Z) (c : Conversation) (m x : ChatSession) : option (string * string) :=
  let late sess other mx :=
    if ic_LastMessageTimeout set
    then bool_decide (SilentSec now c >= mx) && bool_decide (IdleSec now sess > IdleSec now other)
    else bool_decide (IdleSec now sess >= mx) in
  if bool_decide (ic_MaxIdleAgent set > 0) && late x m (ic_MaxIdleAgent set)
  then Some (AttemptResultAgentTimeout, "agent_timeout")
  else if bool_decide (ic_MaxIdleClient set > 0) && late m x (ic_MaxIdleClient set)
  then Some (AttemptResultClientTimeout, "client_timeout")
  else if bool_decide (ic_MaxIdleDialog set > 0) && bool_decide (SilentSec now c >= ic_MaxIdleDialog set)
  then Some (AttemptResultDialogTimeout, "silence_timeout")
  else None.

(** [case <-timeout.C] of the inner loop *)
Definition chat_inner_timer (s : ChatLoop) (i : nat) : X (RunEnd + ChatLoop) :=
  c ← conv_get;
  let s := s <| xl_timer := false |> in
  if decide (cv_bridgetAt c > 0) then
    now ← own ch_millis;
    m ← conv_session 0;
    x ← conv_session i;
    match chat_idle now c m x with
    | Some (result, cause) =>
        _ ← up (mod_attempt l (SetResult result));
        _ ← own (Session_Leave x cause);
        chat_again s
    | None => chat_again (s <| xl_timer := true |>)
    end
  else _ ← conv_stop; chat_again s.

(** [case state := <-conv.State()] *)
Definition chat_state (s : ChatLoop) (agent : loc) (tm : agentTeam) (i : nat) (st : ChatState)
    : X (RunEnd + ChatLoop) :=
  match st with
  | ChatStateInvite =>
      m ← conv_session 0;
      x ← conv_session i;
      _ ← up (mod_attempt l (fun a => a <| at_agentChannel := (Some (chat_channel m)) |>));
      _ ← up (with_agent agent (fun ag => Team_Offering l ag (chat_channel x) (Some (chat_channel m))));
      chat_again s
  | ChatStateDeclined =>
      _ ← up (MissedAgentAndWaitingAttempt tm l agent);
      _ ← up (SetState l MemberStateWaitAgent);
      _ ← up (emit (EmitHook l "missed"));
      chat_next (s <| xl_agent := None |> <| xl_sess := None |>)
  | ChatStateBridge =>
      _ ← own (now ← ch_millis; mod_session cl 0 (SetActivity now));
      _ ← up (emit (EmitHook l "bridged"));
      _ ← up (with_agent agent (Team_Bridged l));
      chat_again (s <| xl_timer := true |>)
  | ChatStateClose => _ ← conv_stop; chat_again s
  | ChatStateIdle => chat_again s
  end.

(** [case <-timeout.C] of the outer loop *)
Definition chat_outer_timer (s : ChatLoop) : X (RunEnd + ChatLoop) :=
  c ← conv_get;
  if decide (cv_bridgetAt c > 0) then chat_next s
  else _ ← conv_stop; chat_next (s <| xl_timer := false |>).

Definition chat_server (s : ChatLoop) (e : ChatEvent) : X (RunEnd + ChatLoop) :=
  c ← conv_get;
  _ ← (if decide (length (cv_state c) < STATE_BUFFER_SIZE)%nat then own (handleEvent e) else mret tt);
  mret (inr s).

Definition chat_inner (s : ChatLoop) (agent : loc) (tm : agentTeam) (i : nat) (ev : XEvent)
    : option (X (RunEnd + ChatLoop)) :=
  match ev with
  | XCancel => Some (_ ← conv_stop; chat_again (s <| xl_loop := false |>))
  | XContext => Some (_ ← conv_stop; chat_again s)
  | XTimer => if xl_timer s then Some (chat_inner_timer s i) else None
  | XState => Some (st ← own (recv_state cl);
                    match st with Some st => chat_state s agent tm i st | None => mret (inr s) end)
  | XServer e => Some (chat_server s e)
  | XAgent => None
  end.

Definition chat_outer (s : ChatLoop) (ev : XEvent) : option (X (RunEnd + ChatLoop)) :=
  match ev with
  | XCancel | XContext => Some (_ ← conv_stop; chat_next s)
  | XTimer => if xl_timer s then Some (chat_outer_timer s) else None
  | XAgent => Some (chat_distribute s)
  | XServer e => Some (chat_server s e)
  | XState => None
  end.

Definition chat_handle (s : ChatLoop) (ev : XEvent) : option (X (RunEnd + ChatLoop)) :=
  if xl_inner s then
    match xl_agent s, xl_team s, xl_sess s with
    | Some agent, Some tm, Some i => chat_inner s agent tm i ev
    | _, _, _ => Some (up (panic nil_deref))
    end
  else chat_outer s ev.

(** The agent was not connected, or the chat goes on elsewhere. *)
Definition chat_missed (c : Conversation) (tm : agentTeam) (agent : loc) : X RunEnd :=
  _ ← up (if decide (cv_cause c = "client_leave") then CancelAttemptAndReleaseAgent l agent
          else Team_Missed tm l agent);
  _ ← up (LeavingMember l);
  mret RunLeft.

(** After the loops. *)
Definition chat_end (s : ChatLoop) : X RunEnd :=
  match xl_agent s, xl_team s with
  | Some agent, Some tm =>
      c ← conv_get;
      _ ← match xl_sess s with
          | Some i =>
              x ← conv_session i;
              if bool_decide (se_stopAt x = 0) && bool_decide (cv_cause c = "")
              then _ ← own (Session_Close x); mret tt else mret tt
          | None => mret tt
          end;
      let transferred := bool_decide (cv_cause c = "transfer") in
      now ← up GetMillis;
      _ ← up (if transferred then mod_attempt l (MarkTransferred now) else mret tt);
      if bool_decide (cv_bridgetAt c > 0)
         && negb (transferred && bool_decide (BaseQueue_GetVariable (qo_base q) transferResultVar = "abandoned"))
      then
        _ ← up (with_agent agent (fun ag =>
                  Team_Reporting tm q l ag (bool_decide (cv_reportingAt c > 0)) transferred));
        mret RunReporting
      else chat_missed c tm agent
  | _, _ => _ ← up (Abandoned l); mret RunLeft
  end.

Definition chat_loop (evs : list XEvent) : X RunEnd :=
  c ← conv_get;
  m ← conv_session 0;
  _ ← up (mod_attempt l (fun a => a <| at_memberChannel := (Some (chat_channel m)) |>));
  r ← st_loop chat_finished chat_handle evs
        (MkChatLoop (Conversation_Active c) false None None None true);
  match r with
  | inl x => mret x
  | inr s =>
      x ← chat_end s;
      _ ← up (leaving_hooks l);
      _ ← own (RemoveConversation cl);
      mret x
  end.

End Conv.

Definition chat_process (inviterId invUserId : string) (evs : list XEvent) : X RunEnd :=
  _ ← up (Hook (qo_base q) HookJoined l);
  a ← up (get_attempt l);
  err ← up (SetFindAgentState (at_Id a));
  match err with
  | Some e => up (panic (AppError_Error e))
  | None =>
      _ ← up (SetState l MemberStateWaitAgent);
      a ← up (get_attempt l);
      match ma_MemberCallId (at_member a) with
      | None => up (panic nil_deref)
      | Some id =>
          r ← own (NewConversation (bq_domainId (qo_base q)) id inviterId invUserId
                     (Some (UnionStringMaps [ExportVariables a; entries (bq_variables (qo_base q))])));
          match r with
          | inl _ => _ ← up (Abandoned l); _ ← up (leaving_hooks l); mret RunLeft
          | inr cl => chat_loop cl evs
          end
      end
  end.

End InboundChatQueue.
End ChatQueue.
