(* ===== verification/Im.v ===== *)
(** * Instant messages: the package im and model/im.go

    [ImSession] is the struct Session of im/session.go, [ImState] the client of im/client.go:
    its list of sessions, in order, with the heap of session objects. A call to the gateway
    is recorded in [im_trace] with its headers and answered by the class [ImServer]. The
    context of a session is the flag [is_cancelled]. Log lines and the connection to the
    gateway are left out. *)

From S2P Require Import Prelude Model Attempt World.

(** ** Durations *)

Definition second_ns : Z := 1000000000.

(** MaxPreviewDuration: [time.Hour] *)
Definition MaxPreviewDuration : Z := 3600 * second_ns.

(** The [prec] last digits of [v] without trailing zeros. *)
Fixpoint frac_digits (prec : nat) (v : Z) (acc : string) : string :=
  match prec with
  | O => acc
  | S prec =>
      let d := v mod 10 in
      frac_digits prec (v / 10) (if decide (acc = "" /\ d = 0) then "" else fmt_d d +:+ acc)
  end.

(** fmtFrac of the package time: the fraction and the integral part. *)
Definition fmtFrac (prec : nat) (v : Z) : string * Z :=
  let s := frac_digits prec v "" in
  ((if decide (s = "") then "" else "." +:+ s), v / 10 ^ Z.of_nat prec).

(** String of a time.Duration. *)
Definition Duration_String (d : Z) : string :=
  let u := Z.abs d in
  let body :=
    if decide (u = 0) then "0s"
    else if decide (u < 1000) then fmt_d u +:+ "ns"
    else if decide (u < 1000000) then let '(f, i) := fmtFrac 3 u in fmt_d i +:+ f +:+ "µs"
    else if decide (u < second_ns) then let '(f, i) := fmtFrac 6 u in fmt_d i +:+ f +:+ "ms"
    else
      let '(f, i) := fmtFrac 9 u in
      let s := fmt_d (i mod 60) +:+ f +:+ "s" in
      if decide (i / 60 > 0) then
        let s := fmt_d (i / 60 mod 60) +:+ "m" +:+ s in
        if decide (i / 3600 > 0) then fmt_d (i / 3600) +:+ "h" +:+ s else s
      else s in
  if decide (d < 0) then "-" +:+ body else body.

Example duration_hour : Duration_String MaxPreviewDuration = "1h0m0s".
Proof. reflexivity. Qed.

Example duration_frac : Duration_String 62005000000 = "1m2.005s".
Proof. reflexivity. Qed.

(** ** Errors *)

(** An error of the gateway with its status code, or the one of a bad duration. *)
Inductive ImError :=
| ImRpc (code : Z) (text : string)
| ImRange (duration : Z).

Definition codes_Unknown : Z := 2.
Definition codes_AlreadyExists : Z := 6.

(** status.Code *)
Definition status_Code (e : ImError) : Z :=
  match e with ImRpc code _ => code | ImRange _ => codes_Unknown end.

Definition ImError_Error (e : ImError) : string :=
  match e with
  | ImRpc _ text => text
  | ImRange d => "preview duration " +:+ Duration_String d +:+ " out of range (0, "
                   +:+ Duration_String MaxPreviewDuration +:+ "]"
  end.

Definition IsAlreadyMember (e : ImError) : bool := bool_decide (status_Code e = codes_AlreadyExists).

(** ** Messages: model/im.go *)

Definition IMTimeoutReasonNone : string := "".
Definition IMTimeoutReasonClient : string := "client_timeout".
Definition IMTimeoutReasonAgent : string := "agent_timeout".
Definition IMTimeoutReasonDialog : string := "dialog_timeout".

Record IMSystemMetadata := MkIMSystemMetadata {
  sm_RemovedMemberId : string;
  sm_RemovedMemberContactId : string;
  sm_TransferredMemberId : string;
  sm_TransferredMemberContactId : string;
}.

Record IMSystem := MkIMSystem {
  sy_Type : string;
  sy_Metadata : IMSystemMetadata;
}.

Definition AffectsMember (s : IMSystem) (memberID : string) : bool :=
  if decide (memberID = "") then false
  else bool_decide (sm_RemovedMemberId (sy_Metadata s) = memberID)
       || bool_decide (sm_TransferredMemberId (sy_Metadata s) = memberID).

Record IMMessage := MkIMMessage {
  mm_ThreadID : string;
  mm_FromSub : string;
  mm_System : option IMSystem;
}.

(** ** The session *)

Record ImSession := MkImSession {
  is_tagID : Z;
  is_threadId : string;
  is_agentMemberId : string;
  is_clientMemberId : string;
  is_subBot : string;
  is_subMember : string;
  is_hdrs : strmap;
  is_lastMessageAt : Z;
  is_lastMessageAtFromMember : Z;
  is_lastMessageAtFromAgent : Z;
  is_ActivityAt : Z;
  is_userId : string;
  is_previewUserId : string;
  is_botActive : bool;
  is_cancelled : bool;
}.

#[export] Instance eta_ImSession : Eta ImSession := fun s =>
  MkImSession (is_tagID s) (is_threadId s) (is_agentMemberId s) (is_clientMemberId s) (is_subBot s)
    (is_subMember s) (is_hdrs s) (is_lastMessageAt s) (is_lastMessageAtFromMember s)
    (is_lastMessageAtFromAgent s) (is_ActivityAt s) (is_userId s) (is_previewUserId s)
    (is_botActive s) (is_cancelled s).

Definition Im_Bridged (s : ImSession) : bool := bool_decide (is_userId s <> "").

Definition Im_SetBotActive (now : Z) (active : bool) (s : ImSession) : ImSession :=
  let s := if is_botActive s && negb active
           then s <| is_lastMessageAt := now |> <| is_lastMessageAtFromMember := now |>
                  <| is_lastMessageAtFromAgent := now |>
           else s in
  s <| is_botActive := active |>.

Definition Im_SetActivity (now : Z) (s : ImSession) : ImSession := s <| is_ActivityAt := now |>.

Definition Im_IdleSec (now : Z) (s : ImSession) : Z := Z.quot (now - is_ActivityAt s) 1000.

Definition onMessage (now : Z) (fromSub : string) (s : ImSession) : ImSession :=
  let s := s <| is_lastMessageAt := now |> in
  if decide (fromSub = is_subMember s) then s <| is_lastMessageAtFromMember := now |>
  else if decide (fromSub = is_userId s) then s <| is_lastMessageAtFromAgent := now |>
  else s.

Definition Im_SilentSec (now : Z) (s : ImSession) : Z := Z.quot (now - is_lastMessageAt s) 1000.

Definition MemberIdleMessage (now : Z) (s : ImSession) : Z :=
  if decide (is_lastMessageAtFromMember s = 0) then 0
  else Z.quot (now - is_lastMessageAtFromMember s) 1000.

Definition OperatorIdleMessage (now : Z) (s : ImSession) : Z :=
  if decide (is_lastMessageAtFromAgent s = 0) then 0
  else Z.quot (now - is_lastMessageAtFromAgent s) 1000.

Definition HasPreview (s : ImSession) : bool := bool_decide (is_previewUserId s <> "").

Definition MarkUserJoined (userId : Z) (s : ImSession) : ImSession := s <| is_userId := (fmt_d userId) |>.

Definition IsUserJoined (userId : Z) (s : ImSession) : bool :=
  bool_decide (is_userId s <> "") && bool_decide (is_userId s = fmt_d userId).

Definition setAgent (memberId : string) (userId : Z) (s : ImSession) : ImSession :=
  (if decide (memberId <> "") then s <| is_agentMemberId := memberId |> else s) <| is_userId := (fmt_d userId) |>.

(** The queue reported to the gateway, and the headers of a call with it. *)
Record ImQueue := MkImQueue {
  iq_Id : Z;
  iq_Name : string;
}.

Definition queueContext (q : ImQueue) (s : ImSession) : strmap :=
  if decide (iq_Id q > 0)
  then <["x-webitel-queue-name-bin" := iq_Name q]> (<["x-webitel-queue-id" := fmt_d (iq_Id q)]> (is_hdrs s))
  else is_hdrs s.

(** ** The client *)

Inductive ImCmd :=
| GivePreview (hdrs : strmap) (threadId sub : string) (durationMs : Z)
| RemoveFromPreview (hdrs : strmap) (threadId sub : string)
| UpgradePreviewToFullMember (hdrs : strmap) (threadId sub : string)
| AddMember (hdrs : strmap) (threadId sub : string)
| TransferThread (hdrs : strmap) (threadId sub initiator : string)
| RemoveMember (hdrs : strmap) (threadId memberId : string) (reason : option string).

(** An error of the gateway is its status code and text; [isv_member] answers the calls that
    return a member, with its id. *)
Class ImServer := {
  isv_now : list ImCmd -> Z; (* nanoseconds since the epoch *)
  isv_err : list ImCmd -> option (Z * string);
  isv_member : list ImCmd -> (Z * string) + string;
}.

Definition rpc_error (e : Z * string) : ImError := ImRpc e.1 e.2.

Record ImState := MkImState {
  im_heap : gmap loc ImSession;
  im_threads : list loc;
  im_next : loc;
  im_trace : list ImCmd;
}.

#[export] Instance eta_ImState : Eta ImState := fun s =>
  MkImState (im_heap s) (im_threads s) (im_next s) (im_trace s).

Definition NewClient : ImState := MkImState ∅ [] 0%nat [].

Definition IC (A : Type) : Type := ImState -> outcome (A * ImState).

#[global] Instance IC_ret : MRet IC := fun A a s => Ret (a, s).

#[global] Instance IC_bind : MBind IC := fun A B f m s =>
  match m s with
  | Ret (a, s') => f a s'
  | Panic w => Panic w
  | Block w => Block w
  end.

Section Client.
Context {SRV : ImServer}.

Definition ic_call {A} (e : ImCmd) (answer : list ImCmd -> A) : IC A := fun s =>
  let s := s <| im_trace := (e :: im_trace s) |> in Ret (answer (im_trace s), s).

Definition ic_millis : IC Z := fun s => Ret (Z.quot (isv_now (im_trace s)) 1000000, s).

Definition get_session (l : loc) : IC ImSession := fun s =>
  match im_heap s !! l with Some x => Ret (x, s) | None => Panic nil_deref end.

Definition mod_im (l : loc) (f : ImSession -> ImSession) : IC unit := fun s =>
  match im_heap s !! l with
  | Some x => Ret (tt, s <| im_heap := (<[l := f x]> (im_heap s)) |>)
  | None => Panic nil_deref
  end.

(** *** im/session.go, the calls to the gateway *)

Definition GivePreviewUser (l : loc) (userId duration : Z) : IC (option ImError) :=
  if decide (duration <= 0 \/ duration > MaxPreviewDuration) then mret (Some (ImRange duration))
  else
    x ← get_session l;
    err ← ic_call (GivePreview (is_hdrs x) (is_threadId x) (fmt_d userId) (Z.quot duration 1000000)) isv_err;
    match err with
    | Some e => mret (Some (rpc_error e))
    | None => _ ← mod_im l (fun s => s <| is_previewUserId := (fmt_d userId) |>); mret None
    end.

Definition RemovePreviewUser (l : loc) : IC (option ImError) :=
  x ← get_session l;
  if decide (is_previewUserId x = "") then mret None
  else
    err ← ic_call (RemoveFromPreview (is_hdrs x) (is_threadId x) (is_previewUserId x)) isv_err;
    _ ← mod_im l (fun s => s <| is_previewUserId := "" |>);
    mret (rpc_error <$> err).

Definition UpgradePreviewUser (l : loc) (userId : Z) (queue : ImQueue) : IC (option ImError) :=
  x ← get_session l;
  r ← ic_call (UpgradePreviewToFullMember (queueContext queue x) (is_threadId x) (fmt_d userId)) isv_member;
  match r with
  | inl e => mret (Some (rpc_error e))
  | inr id =>
      _ ← mod_im l (fun s => setAgent id userId s <| is_previewUserId := "" |>);
      mret None
  end.

Definition AddMemberUser (l : loc) (userId : Z) (queue : ImQueue) : IC (option ImError) :=
  x ← get_session l;
  r ← ic_call (AddMember (queueContext queue x) (is_threadId x) (fmt_d userId)) isv_member;
  match r with
  | inl e => mret (Some (rpc_error e))
  | inr id => _ ← mod_im l (setAgent id userId); mret None
  end.

Definition TransferMemberUser (l : loc) (userId : Z) (fromUserId : string) (queue : ImQueue)
    : IC (option ImError) :=
  x ← get_session l;
  r ← ic_call (TransferThread (queueContext queue x) (is_threadId x) (fmt_d userId) fromUserId) isv_member;
  match r with
  | inl e => mret (Some (rpc_error e))
  | inr id => _ ← mod_im l (setAgent id userId); mret None
  end.

Definition RemoveMemberUser (l : loc) (endReason : string) : IC (option ImError) :=
  x ← get_session l;
  if decide (is_agentMemberId x = "") then mret None
  else
    err ← ic_call (RemoveMember (is_hdrs x) (is_threadId x) (is_agentMemberId x)
                     (if decide (endReason = "") then None else Some endReason)) isv_err;
    mret (rpc_error <$> err).

(** *** im/client.go *)

(** [sess.threadId == threadID] for the session at a location. *)
Definition in_thread (threadID : string) (s : ImState) (l : loc) : bool :=
  match im_heap s !! l with Some x => bool_decide (is_threadId x = threadID) | None => false end.

Definition threadSessions (threadID : string) (s : ImState) : list loc :=
  filter (fun l => in_thread threadID s l = true) (im_threads s).

Definition countThreadSessions (threadID : string) (s : ImState) : nat := length (threadSessions threadID s).

Definition GetSession (threadID : string) (s : ImState) : option loc := head (threadSessions threadID s).

Definition BridgedSession (threadID : string) (s : ImState) : option loc :=
  last (filter (fun l => (match im_heap s !! l with Some x => Im_Bridged x | None => false end) = true)
          (threadSessions threadID s)).

Definition addSession (x : ImSession) : IC loc := fun s =>
  Ret (im_next s, s <| im_heap := (<[im_next s := x]> (im_heap s)) |> <| im_next := (S (im_next s)) |>
                    <| im_threads := (im_threads s ++ [im_next s]) |>).

Definition NewSession (domainID : Z) (threadID subBot subMember memberId : string) (tagID : Z) : IC loc :=
  now ← ic_millis;
  addSession {|
    is_tagID := tagID; is_threadId := threadID; is_agentMemberId := ""; is_clientMemberId := memberId;
    is_subBot := subBot; is_subMember := subMember;
    is_hdrs := {[ "x-webitel-type" := "schema";
                  "x-webitel-schema" := fmt_d domainID +:+ "." +:+ subBot ]};
    is_lastMessageAt := now; is_lastMessageAtFromMember := 0; is_lastMessageAtFromAgent := 0;
    is_ActivityAt := 0; is_userId := ""; is_previewUserId := ""; is_botActive := false;
    is_cancelled := false |}.

Definition closeSession (threadID : string) (tagID : Z) : IC unit := fun s =>
  let gone l := match im_heap s !! l with
                | Some x => bool_decide (is_threadId x = threadID) && bool_decide (is_tagID x = tagID)
                | None => false
                end in
  Ret (tt, s <| im_threads := (filter (fun l => gone l = false) (im_threads s)) |>).

Definition Im_Close (l : loc) (tagID : Z) : IC unit :=
  x ← get_session l; closeSession (is_threadId x) tagID.

Definition Im_handleEvent (l : loc) (msg : IMMessage) : IC unit :=
  now ← ic_millis;
  match mm_System msg with
  | None => mod_im l (onMessage now (mm_FromSub msg))
  | Some sy =>
      if decide (sy_Type sy = "bot_control_granted") then mod_im l (Im_SetBotActive now true)
      else if decide (sy_Type sy = "bot_control_released") then mod_im l (Im_SetBotActive now false)
      else if decide (sy_Type sy = "member_removed" \/ sy_Type sy = "transfer") then
        x ← get_session l;
        if AffectsMember sy (is_clientMemberId x) || AffectsMember sy (is_agentMemberId x)
        then mod_im l (fun s => s <| is_cancelled := true |>)
        else mret tt
      else mod_im l (onMessage now (mm_FromSub msg))
  end.

Fixpoint ic_each (ls : list loc) (f : loc -> IC unit) : IC unit :=
  match ls with
  | [] => mret tt
  | l :: ls => _ ← f l; ic_each ls f
  end.

(** One message of listenEvents. *)
Definition im_event (msg : IMMessage) : IC unit := fun s =>
  ic_each (threadSessions (mm_ThreadID msg) s) (fun l => Im_handleEvent l msg) s.

End Client.
