(* ===== verification/CallManager.v ===== *)
(** * CallManager: call_manager/call_manager.go, call_events.go and the calls to the switch

    [CMState] is the manager with the heap of its calls: the cache of calls is the LRU cache
    of the file Lru, its values are locations. The goroutines that Invite starts are in
    [cm_jobs] until they run. A call to the switch (FreeSWITCH, behind model.CallCommands)
    or to the pool of connections is recorded in [cm_trace] with the name of the connection,
    and answered by the class [Switch], a function of the trace. A panic ends the process. *)

From S2P Require Import Prelude Lru Model Queue Attempt World Calls.
Import Lru.

(** ** State and effects *)

Inductive SwitchCmd :=
| SwNewCall (conn : string) (rq : option CallRequest)
| SwHangupCall (conn id cause : string) (reporting : bool) (vars : gomap)
| SwBridgeCall (conn legA legB reserve : string)
| SwJoinQueue (conn id file : string) (vars : strmap)
| SwUpdateCid (conn id number name : string)
| SwSetCallVariables (conn id : string) (vars : gomap)
| SwBroadcastPlaybackFile (conn id path leg : string)
| SwParkPlaybackFile (conn id path leg : string)
| SwStopPlayback (conn id : string)
| SwBreakPark (conn id : string) (vars : gomap)
| SwHold (conn id : string)
| SwDTMF (conn id : string) (val : Z)
| SwSetConnectionSps (conn : string) (sps : Z)
| PoolGet
| PoolGetById (id : string)
| PoolAppend (conn : string)
| NewUuid.

Abbreviation cmds := (list SwitchCmd).

(** [sw_get] and [sw_getById] are the pool of connections ([inl] is the error text, [inr] the
    name of the connection), [sw_all] the readiness of its connections ([None] for nil). *)
Class Switch := {
  sw_now : cmds -> Z; (* nanoseconds since the epoch *)
  sw_err : cmds -> option AppError;
  sw_newCall : cmds -> string * Z * option AppError; (* cause, code, error *)
  sw_get : cmds -> string + string;
  sw_getById : cmds -> string + string;
  sw_all : cmds -> list (option bool);
  sw_uuid : cmds -> string;
}.

Record CMState := MkCMState {
  cm_nodeId : string;
  cm_proxy : string;
  cm_cdr : string;
  cm_flowSocketUri : string;
  cm_calls : Cache string loc;
  cm_heap : gmap loc CallImpl;
  cm_next : loc;
  cm_jobs : list loc;
  cm_trace : cmds;
}.

#[export] Instance eta_CMState : Eta CMState := fun s =>
  MkCMState (cm_nodeId s) (cm_proxy s) (cm_cdr s) (cm_flowSocketUri s) (cm_calls s) (cm_heap s)
    (cm_next s) (cm_jobs s) (cm_trace s).

Definition MAX_CALL_CACHE : Z := 50000.
Definition MAX_CALL_EXPIRE_CACHE : Z := 60 * 60 * 24.

Definition NewCallManager (nodeId : string) : CMState := {|
  cm_nodeId := nodeId; cm_proxy := ""; cm_cdr := ""; cm_flowSocketUri := "";
  cm_calls := NewLruWithParams MAX_CALL_CACHE "CallManager" MAX_CALL_EXPIRE_CACHE "";
  cm_heap := ∅; cm_next := 0%nat; cm_jobs := []; cm_trace := [] |}.

Definition CM (A : Type) : Type := CMState -> outcome (A * CMState).

#[global] Instance CM_ret : MRet CM := fun A a s => Ret (a, s).

#[global] Instance CM_bind : MBind CM := fun A B f m s =>
  match m s with
  | Ret (a, s') => f a s'
  | Panic w => Panic w
  | Block w => Block w
  end.

(** [v, err := m; if err != nil { return nil, err }] *)
Definition cm_ok {A B} (m : CM (result A)) (k : A -> CM (result B)) : CM (result B) :=
  r ← m; match r with inl e => mret (inl e) | inr a => k a end.

Section Manager.
Context {SW : Switch}.

Definition cm_modify (f : CMState -> CMState) : CM unit := fun s => Ret (tt, f s).

Definition cm_get : CM CMState := fun s => Ret (s, s).

Definition cm_ask {A} (answer : cmds -> A) : CM A := fun s => Ret (answer (cm_trace s), s).

Definition cm_call {A} (e : SwitchCmd) (answer : cmds -> A) : CM A := fun s =>
  let s := s <| cm_trace := (e :: cm_trace s) |> in Ret (answer (cm_trace s), s).

Definition cm_call_err (e : SwitchCmd) : CM (option AppError) := cm_call e sw_err.

Definition cm_millis : CM Z := cm_ask (fun t => Z.quot (sw_now t) 1000000).

Definition cm_secs (t : cmds) : Z := Z.quot (sw_now t) 1000000000.

Definition get_call (l : loc) : CM CallImpl := fun s =>
  match cm_heap s !! l with Some c => Ret (c, s) | None => Panic nil_deref end.

Definition put_call (l : loc) (c : CallImpl) : CM unit :=
  cm_modify (fun s => s <| cm_heap := (<[l := c]> (cm_heap s)) |>).

Definition mod_call (l : loc) (f : CallImpl -> CallImpl) : CM unit :=
  c ← get_call l; put_call l (f c).

Definition mod_call_o (l : loc) (f : CallImpl -> outcome CallImpl) : CM unit :=
  c ← get_call l;
  match f c with
  | Ret c' => put_call l c'
  | Panic w => fun _ => Panic w
  | Block w => fun _ => Block w
  end.

Definition new_call (c : CallImpl) : CM loc := fun s =>
  Ret (cm_next s, s <| cm_heap := (<[cm_next s := c]> (cm_heap s)) |> <| cm_next := (S (cm_next s)) |>).

Definition calls_get (id : string) : CM (option loc) := fun s =>
  let '(v, c) := Get (cm_secs (cm_trace s)) id (cm_calls s) in Ret (v, s <| cm_calls := c |>).

Definition saveToCacheCall (l : loc) : CM unit :=
  c ← get_call l;
  cm_modify (fun s => s <| cm_calls :=
    (AddWithDefaultExpires (cm_secs (cm_trace s)) (ca_id c) l (cm_calls s)) |>).

Definition removeFromCacheCall (l : loc) : CM unit :=
  c ← get_call l;
  cm_modify (fun s => s <| cm_calls := (Remove (ca_id c) (cm_calls s)) |>).

(** ** The methods of a call that reach the manager or the switch *)

(** setHangup with the removal from the cache. *)
Definition Call_setHangup (l : loc) (e : CallActionHangup) : CM unit :=
  c ← get_call l;
  if decide (ca_hangupAt c = 0) then
    _ ← removeFromCacheCall l;
    now ← cm_millis;
    mod_call_o l (setHangup now e)
  else mret tt.

Definition errInviteDirection : AppError := NewAppError "Call" "call.invite.validate.direction" "" 400.
Definition errBadBridgeNode : AppError :=
  NewAppError "Call" "call.bridge.bad_request.node_difference" "" 400.
Definition errBadBridgeState : AppError :=
  NewAppError "Call" "call.bridge.validate.state" "call is hangup" 400.

(** The goroutine is [Invite_go]. Its [call.action] is a field that nothing assigns: the zero
    value, with time 0. *)
Definition Invite (l : loc) : CM (option AppError) :=
  _ ← saveToCacheCall l;
  c ← get_call l;
  if decide (ca_direction c <> CALL_DIRECTION_OUTBOUND) then mret (Some errInviteDirection)
  else
    _ ← put_call l (c <| ca_state := CALL_STATE_INVITE |>);
    _ ← cm_modify (fun s => s <| cm_jobs := (cm_jobs s ++ [l]) |>);
    mret None.

Definition Invite_go (l : loc) : CM unit :=
  c ← get_call l;
  r ← cm_call (SwNewCall (ca_node c) (ca_callRequest c)) sw_newCall;
  let '(cause, code, err) := r in
  match err with
  | Some _ => Call_setHangup l (local_hangup 0 cause (Some code))
  | None => mret tt
  end.

Definition Hangup (l : loc) (cause : string) (reporting : bool) (vars : gomap)
    : CM (option AppError) :=
  c ← get_call l;
  if decide (state_num (ca_state c) < state_num CALL_STATE_INVITE) then
    _ ← mod_call l (setCancel cause);
    _ ← (if decide (ca_state c = CALL_STATE_NEW) then mod_call_o l close_hangup else mret tt);
    mret None
  else
    let cause := if decide (cause = "") then CALL_HANGUP_NORMAL_CLEARING else cause in
    err ← cm_call_err (SwHangupCall (ca_node c) (ca_id c) cause reporting vars);
    c ← get_call l;
    match err with
    | Some _ =>
        _ ← (if decide (HangupCause c = "")
             then now ← cm_millis; Call_setHangup l (local_hangup now cause None)
             else mret tt);
        mret err
    | None => mret err
    end.

(** The function of the ring timer. *)
Definition ring_timeout (l : loc) : CM unit :=
  c ← get_call l;
  if decide (state_num (ca_state c) < state_num CALL_STATE_ACCEPT)
  then _ ← Hangup l CALL_HANGUP_NO_ANSWER false None; mret tt
  else mret tt.

(** The runtime runs the function of a timer that runs, once. *)
Definition timer_fires (l : loc) : CM unit :=
  c ← get_call l;
  match ca_ringTimeout c with
  | Some TimerRunning =>
      _ ← put_call l (c <| ca_ringTimeout := (Some TimerStopped) |>);
      ring_timeout l
  | _ => mret tt
  end.

Definition Call_Bridge (l other : loc) : CM (option AppError) :=
  c ← get_call l;
  o ← get_call other;
  if decide (ca_node c <> ca_node o) then mret (Some errBadBridgeNode)
  else if decide (HangupCause o <> "" \/ HangupCause c <> "") then mret (Some errBadBridgeState)
  else
    err ← cm_call_err (SwBridgeCall (ca_node c) (ca_id o) (ca_id c) "");
    match err with
    | Some _ => mret err
    | None =>
        now ← cm_millis;
        _ ← mod_call l (fun c => c <| ca_bridgeAt := now |>);
        mret None
    end.

Definition Hold (l : loc) : CM (option AppError) :=
  c ← get_call l; cm_call_err (SwHold (ca_node c) (ca_id c)).

Definition DTMF (l : loc) (val : Z) : CM (option AppError) :=
  c ← get_call l; cm_call_err (SwDTMF (ca_node c) (ca_id c) val).

Definition StopPlayback (l : loc) : CM (option AppError) :=
  c ← get_call l; cm_call_err (SwStopPlayback (ca_node c) (ca_id c)).

Definition SerVariables (l : loc) (vars : gomap) : CM (option AppError) :=
  c ← get_call l; cm_call_err (SwSetCallVariables (ca_node c) (ca_id c) vars).

Definition BreakPark (l : loc) (vars : gomap) : CM (option AppError) :=
  c ← get_call l; cm_call_err (SwBreakPark (ca_node c) (ca_id c) vars).

Definition SetOtherChannelVar (l : loc) (vars : gomap) : CM (option AppError) :=
  c ← get_call l;
  match ca_bridgedId c with
  | Some br => cm_call_err (SwSetCallVariables (ca_node c) br vars)
  | None => mret None
  end.

Definition UpdateCid (l : loc) : CM (option AppError) :=
  c ← get_call l;
  match in_To (ca_info c) with
  | None => mret None
  | Some t => cm_call_err (SwUpdateCid (ca_node c) (ca_id c) (ep_Number t) (ep_Name t))
  end.

Definition BroadcastPlaybackFile (l : loc) (domainId : Z) (file : option RingtoneFile) (leg : string)
    : CM (option AppError) :=
  match file with
  | None => mret None
  | Some f =>
      c ← get_call l;
      cm_call_err (SwBroadcastPlaybackFile (ca_node c) (ca_id c)
                     (RingtoneUri domainId (rt_Id f) (rt_Type f)) leg)
  end.

Definition ParkPlaybackFile (l : loc) (domainId : Z) (file : option RingtoneFile) (leg : string)
    : CM (option AppError) :=
  match file with
  | None => mret None
  | Some f =>
      c ← get_call l;
      cm_call_err (SwParkPlaybackFile (ca_node c) (ca_id c)
                     (RingtoneUri domainId (rt_Id f) (rt_Type f)) leg)
  end.

Definition BroadcastPlaybackSilenceBeforeFile (l : loc) (domainId silence : Z)
    (file : option RingtoneFile) (leg : string) : CM (option AppError) :=
  match file with
  | None => mret None
  | Some f =>
      c ← get_call l;
      let uri := RingtoneUri domainId (rt_Id f) (rt_Type f) in
      cm_call_err (SwBroadcastPlaybackFile (ca_node c) (ca_id c)
        (if decide (silence = 0) then uri
         else "file_string://silence_stream://" +:+ fmt_d silence +:+ "!" +:+ uri) leg)
  end.

Definition BroadcastTone (l : loc) (tone : option string) (leg : string) : CM (option AppError) :=
  let t := match tone with
           | None => "L=1;%(500,500,1000)"
           | Some k => default "" ((list_to_map ToneList : strmap) !! k)
           end in
  if decide (t = "" \/ t = "none") then mret None
  else
    c ← get_call l;
    cm_call_err (SwBroadcastPlaybackFile (ca_node c) (ca_id c) ("tone_stream://" +:+ t) leg).

(** ** The manager *)

Definition Proxy (s : CMState) : string := "sip:" +:+ cm_proxy s.

(** The answers of a new connection; [GetParameter] and [GetSocketUri] give a value besides
    the error. *)
Record Client := MkClient {
  cl_name : string;
  cl_connect : option AppError;
  cl_version : result string;
  cl_sps : result Z;
  cl_cdr : result string;
  cl_proxy : string * option AppError;
  cl_socket : string * option AppError;
}.

Definition registerConnection (v : Client) (s : CMState) : CMState :=
  match cl_connect v, cl_version v, cl_sps v, cl_cdr v with
  | None, inr _, inr sps, inr cdr =>
      let s := if decide (cm_cdr s = "") then s <| cm_cdr := cdr |> else s in
      let s := s <| cm_trace := (SwSetConnectionSps (cl_name v) sps :: cm_trace s) |> in
      let s := s <| cm_proxy := (cl_proxy v).1 |> in
      match (cl_proxy v).2 with
      | Some _ => s
      | None =>
          let append s := s <| cm_trace := (PoolAppend (cl_name v) :: cm_trace s) |> in
          if decide (cm_flowSocketUri s = "") then
            let s := s <| cm_flowSocketUri := (cl_socket v).1 |> in
            match (cl_socket v).2 with Some _ => s | None => append s end
          else append s
      end
  | _, _, _, _ => s
  end.

Definition client_error (text : string) : AppError :=
  NewAppError "CallManager" "call_manager.get_client.app_error" text 500.

Definition conn_result (r : string + string) : result string :=
  match r with inl e => inl (client_error e) | inr n => inr n end.

Definition getApiConnection : CM (result string) :=
  r ← cm_call PoolGet sw_get; mret (conn_result r).

Definition getApiConnectionById (id : string) : CM (result string) :=
  r ← cm_call (PoolGetById id) sw_getById; mret (conn_result r).

(** NewCall of the package: the object at its location. *)
Definition newCall (direction : CallDirection) (rq : CallRequest) (api : string) : CM loc :=
  uuid ← (match cr_Id rq with Some _ => mret "" | None => cm_call NewUuid sw_uuid end);
  s ← cm_get;
  new_call (NewCall direction rq (cm_nodeId s) (Proxy s) api uuid).

(** CallManagerImpl.NewCall, and the NewCall method of a call. *)
Definition CM_NewCall (rq : CallRequest) : CM (result loc) :=
  cm_ok getApiConnection (fun api =>
    l ← newCall CALL_DIRECTION_OUTBOUND rq api; mret (inr l)).

Definition Call_NewCall (l : loc) (rq : CallRequest) : CM loc :=
  c ← get_call l; newCall CALL_DIRECTION_OUTBOUND rq (ca_node c).

Definition GetCall (id : string) : CM (option loc) := calls_get id.

Definition ActiveCalls (s : CMState) : Z := Len (cm_calls s).

Fixpoint CM_HangupManyCall (cause : string) (ids : list string) : CM unit :=
  match ids with
  | [] => mret tt
  | id :: ids =>
      v ← calls_get id;
      _ ← (match v with
           | Some l => _ ← Hangup l cause false None; mret tt
           | None => mret tt
           end);
      CM_HangupManyCall cause ids
  end.

Definition HangupById (id node : string) : CM (option AppError) :=
  r ← getApiConnectionById node;
  match r with
  | inl e => mret (Some e)
  | inr cli => cm_call_err (SwHangupCall cli id CALL_HANGUP_LOSE_RACE false None)
  end.

(** The object of a call that the switch already has. *)
Definition adopt (call : CallInfo) (cli : string) (parent : option string) : CallImpl :=
  (zero_call (ci_Id call) cli
     (if decide (ci_Direction call = "outbound") then CALL_DIRECTION_OUTBOUND else CALL_DIRECTION_INBOUND)
     None)
    <| ca_acceptAt := (ci_AnsweredAt call) |> <| ca_ringingAt := (ci_CreatedAt call) |>
    <| ca_state := CALL_STATE_ACCEPT |>
    <| ca_info := (MkCallActionInfo None None (ci_Direction call) (ci_Destination call)
         (Some (MkCallEndpoint "dest" (ci_FromNumber call) (ci_FromNumber call) (ci_FromName call)))
         None parent None) |>.

(** A call of the cache joins a queue again. *)
Definition rejoin (l : loc) : CM (option loc * option AppError) :=
  c ← get_call l;
  err ← (if decide (ca_direction c = CALL_DIRECTION_OUTBOUND) then UpdateCid l else mret None);
  _ ← mod_call l ResetBridge;
  mret (Some l, err).

Definition join_vars (nodeId : string) : strmap :=
  {[ "cc_app_id" := nodeId; "cc_result" := "abandoned" ]}.

(** The pair of Go: the call and the error; both are there when the update of the caller id
    of a cached call fails. *)
Definition CM_InboundCallQueue (call : CallInfo) (ringtone : string) (vars : gomap)
    : CM (option loc * option AppError) :=
  cli ← getApiConnectionById (ci_AppId call);
  match cli with
  | inl e => mret (None, Some e)
  | inr cli =>
      s ← cm_get;
      err ← cm_call_err (SwJoinQueue cli (ci_Id call) ringtone
                           (UnionStringMaps [entries vars; join_vars (cm_nodeId s)]));
      match err with
      | Some e => mret (None, Some e)
      | None =>
          v ← calls_get (ci_Id call);
          match v with
          | Some l => rejoin l
          | None =>
              l ← new_call (adopt call cli None);
              _ ← saveToCacheCall l;
              mret (Some l, None)
          end
      end
  end.

Definition ConnectCall (call : CallInfo) (ringtone : string) : CM (option loc * option AppError) :=
  v ← calls_get (ci_Id call);
  match v with
  | Some l => rejoin l
  | None =>
      cli ← getApiConnectionById (ci_AppId call);
      match cli with
      | inl e => mret (None, Some e)
      | inr cli =>
          s ← cm_get;
          err ← cm_call_err (SwJoinQueue cli (ci_Id call) ringtone (join_vars (cm_nodeId s)));
          match err with
          | Some e => mret (None, Some e)
          | None =>
              l ← new_call (adopt call cli (ci_ParentId call));
              _ ← cm_call_err (SwSetCallVariables cli (ci_Id call) (Some (join_vars (cm_nodeId s))));
              _ ← saveToCacheCall l;
              mret (Some l, None)
          end
      end
  end.

Definition CountConnection (s : CMState) : nat := length (sw_all (cm_trace s)).

(** Nil connections are skipped. *)
Definition Ready (s : CMState) : option string :=
  let conns := sw_all (cm_trace s) in
  if decide (conns = []) then Some "no freeswitch connection registered"
  else if existsb (fun r => default false r) conns then None
  else Some "no freeswitch connection is ready".

Definition CM_RingtoneUri (s : CMState) (domainId id : Z) (mimeType : string) : string :=
  Manager_RingtoneUri (cm_cdr s) domainId id mimeType.

Definition GetFlowUri (s : CMState) : string := "socket " +:+ cm_flowSocketUri s.

(** ** Events of the switch: call_events.go *)

Inductive CallEvent :=
| EvRinging (timestamp : Z) (info : CallActionInfo)
| EvProgress (timestamp : Z)
| EvActive (timestamp : Z)
| EvHold
| EvBridge (timestamp : Z) (bridgedId : string)
| EvAmd (ai : AmdAiResult) (res cause : string)
| EvHangup (e : CallActionHangup)
| EvOther.

Record CallActionData := MkCallActionData {
  ad_Id : string;
  ad_Timestamp : Z;
  ad_Event : string;
  ad_Data : option string;
  ad_parsed : option CallEvent;
}.

(** json.Unmarshal of the data into the value the event's name chose. *)
Class CallJson := unmarshal : string -> CallEvent -> CallEvent.

Definition GetEvent `{CallJson} (d : CallActionData) : CallEvent :=
  match ad_parsed d with
  | Some e => e
  | None =>
      let ev := ad_Event d in
      let ts := ad_Timestamp d in
      let e := if decide (ev = "ringing") then EvRinging ts zero_info
               else if decide (ev = "progress") then EvProgress ts
               else if decide (ev = "active") then EvActive ts
               else if decide (ev = "hold") then EvHold
               else if decide (ev = "bridge") then EvBridge ts ""
               else if decide (ev = "amd") then EvAmd (MkAmdAiResult "" "") "" ""
               else if decide (ev = "hangup") then EvHangup (local_hangup ts "" None)
               else EvOther in
      match ad_Data d with Some text => unmarshal text e | None => e end
  end.

(** What the handler does with an event of a call it has. *)
Definition call_event (l : loc) (e : CallEvent) : CM unit :=
  match e with
  | EvRinging ts info => mod_call_o l (setRinging ts info)
  | EvProgress ts => mod_call_o l (setProgress ts)
  | EvActive ts => mod_call l (setActive ts)
  | EvBridge ts id => mod_call l (setBridge ts id)
  | EvHold => mod_call l setHold
  | EvHangup h => Call_setHangup l h
  | EvAmd ai res cause => mod_call l (setAmd res cause ai)
  | EvOther => mret tt
  end.

Definition handleCallAction `{CallJson} (data : CallActionData) : CM unit :=
  let action := GetEvent data in
  v ← calls_get (ad_Id data);
  match v with
  | Some l => call_event l action
  | None => mret tt
  end.

(** The goroutine of the queue takes the next state of a call. *)
Definition State_recv (l : loc) : CM (option CallState) :=
  c ← get_call l;
  match Call_recv c with
  | Some (st, c') => _ ← put_call l c'; mret (Some st)
  | None => mret None
  end.

End Manager.
