(* ===== verification/SwitchConn.v ===== *)
(** * The connection to the switch: external_commands/grpc/call_connection.go

    The commands of model.CallCommands as requests of the switch's gRPC interface
    ([FsRequest]) and its answers as errors. [FsApi] answers a request, as a function of the
    requests made so far, latest first. The instance [conn_switch] gives the call manager
    the switch it works on: each command of the manager is answered by the connection. The
    version of the server, which is only logged, is left out. *)

From S2P Require Import Prelude Lru Model Queue Attempt World Calls CallManager.

(** ** Codes *)

Definition switchCodeToSip : list (Z * Z) :=
  [(0, 500); (1, 404); (2, 404); (3, 404); (6, 405); (7, 405); (16, 200); (17, 486); (18, 408);
   (19, 480); (20, 480); (21, 603); (22, 410); (23, 410); (25, 483); (27, 502); (28, 484); (29, 501);
   (30, 501); (31, 480); (34, 503); (38, 502); (41, 503); (42, 503); (43, 503); (44, 503); (45, 503);
   (47, 503); (50, 503); (52, 403); (54, 403); (57, 403); (58, 503); (63, 503); (65, 488); (66, 488);
   (69, 501); (79, 501); (81, 501); (88, 488); (95, 488); (96, 488); (97, 488); (98, 488); (99, 488);
   (100, 488); (101, 488); (102, 504); (103, 504); (111, 504); (127, 504); (487, 487); (500, 487); (501, 487);
   (502, 487); (503, 487); (600, 487); (601, 487); (602, 487); (603, 487); (604, 487); (605, 487); (606, 487);
   (607, 487); (609, 487)].

Definition switchErrToSipCode (e : Z) : Z :=
  match list_find (fun p => p.1 = e) switchCodeToSip with
  | Some (_, (_, v)) => v
  | None => 500
  end.

(** ** Strings *)

Definition is_digit (a : ascii) : bool := match digit_of a with Some _ => true | None => false end.

(** [patternSps.ReplaceAllString(str, "")]: the digits of a string. *)
Fixpoint digits (s : string) : string :=
  match s with
  | EmptyString => ""
  | String a s => if is_digit a then String a (digits s) else digits s
  end.

(** The value strconv.Atoi returns for a string of digits, besides the error: 0 for none,
    the largest int if it is out of range. *)
Definition atoi_digits (s : string) : Z :=
  match parse_uint s with
  | Some n => Z.min n (2 ^ 63 - 1)
  | None => 0
  end.

Definition parseSps (str : string) : Z := atoi_digits (digits str).

(** %c: the UTF-8 encoding of a code point; an invalid one prints U+FFFD. *)
Definition byte (z : Z) : ascii := ascii_of_N (Z.to_N z).

Definition fmt_c (r : Z) : string :=
  let three r := String (byte (224 + r / 4096)) (String (byte (128 + r / 64 mod 64)) (String (byte (128 + r mod 64)) "")) in
  if decide (r < 0 \/ 1114111 < r \/ 55296 <= r <= 57343) then three 65533
  else if decide (r < 128) then String (byte r) ""
  else if decide (r < 2048) then String (byte (192 + r / 64)) (String (byte (128 + r mod 64)) "")
  else if decide (r < 65536) then three r
  else String (byte (240 + r / 262144)) (String (byte (128 + r / 4096 mod 64))
         (String (byte (128 + r / 64 mod 64)) (String (byte (128 + r mod 64)) ""))).

(** ** Requests of the switch *)

Inductive OriginateStrategy := STRATEGY_DEFAULT | STRATEGY_FAILOVER | STRATEGY_MULTIPLE.

Record OriginateRequest := MkOriginateRequest {
  or_Endpoints : list string;
  or_Destination : string;
  or_CallerNumber : string;
  or_CallerName : string;
  or_Timeout : Z;
  or_Context : string;
  or_Dialplan : string;
  or_Variables : gomap;
  or_CheckId : string;
  or_Extensions : list (string * string);
  or_Strategy : OriginateStrategy;
}.

Inductive FsRequest :=
| FsExecute (command args : string)
| FsOriginate (rq : OriginateRequest)
| FsHangup (id cause : string) (reporting : bool) (vars : gomap)
| FsStopPlayback (id : string)
| FsSetVariables (id : string) (vars : gomap)
| FsBridge (legA legB reserve : string)
| FsQueue (id : string) (vars : strmap) (file : string)
| FsBroadcast (id leg args : string)
| FsSetProfileVar (id : string) (vars : strmap)
| FsBreakPark (id : string) (vars : gomap).

Record FsError := MkFsError { fe_Message : string; fe_text : string }.

(** The answer to the first request of the list: the error of the transport, and the parts of
    the response. *)
Class FsApi := {
  fs_err : list FsRequest -> option string;
  fs_error : list FsRequest -> option FsError;
  fs_errorCode : list FsRequest -> Z;
  fs_data : list FsRequest -> string;
  fs_string : list FsRequest -> string; (* the response, printed *)
  fs_ok : list FsRequest -> bool;
}.

Definition CALL_STRATEGY_FAILOVER : Z := 1.
Definition CALL_STRATEGY_MULTIPLE : Z := 2.

(** The timeout of the request is not the one of the settings. *)
Definition originate_request (settings : CallRequest) : OriginateRequest := {|
  or_Endpoints := cr_Endpoints settings;
  or_Destination := cr_Destination settings;
  or_CallerNumber := cr_CallerNumber settings;
  or_CallerName := cr_CallerName settings;
  or_Timeout := 60;
  or_Context := cr_Context settings;
  or_Dialplan := cr_Dialplan settings;
  or_Variables := cr_Variables settings;
  or_CheckId := cr_CheckParentId settings;
  or_Extensions := cr_Applications settings;
  or_Strategy := (if decide (cr_Strategy settings = CALL_STRATEGY_FAILOVER) then STRATEGY_FAILOVER
                  else if decide (cr_Strategy settings = CALL_STRATEGY_MULTIPLE) then STRATEGY_MULTIPLE
                  else STRATEGY_DEFAULT) |}.

Section Conn.
Context {FS : FsApi}.

(** An error of the transport. *)
Definition transport (where_ id : string) (t : list FsRequest) : option AppError :=
  match fs_err t with Some e => Some (NewAppError where_ id e 500) | None => None end.

(** An error of the transport or of the response. *)
Definition either_error (where_ id : string) (t : list FsRequest) : option AppError :=
  match transport where_ id t with
  | Some e => Some e
  | None => match fs_error t with Some e => Some (NewAppError where_ id (fe_text e) 500) | None => None end
  end.

(** The cause, the code and the error of NewCall; the id of the response is not used. *)
Definition NewCallContext (t : list FsRequest) : string * Z * option AppError :=
  match fs_err t with
  | Some e => ("", 500, Some (NewAppError "NewCall" "external.new_call.app_error" e (-1)))
  | None =>
      match fs_error t with
      | Some e =>
          let code := switchErrToSipCode (fs_errorCode t) in
          (fe_Message e, code, Some (NewAppError "NewCall" "external.new_call.app_error" (fe_text e) code))
      | None => ("", 0, None)
      end
  end.

Definition Conn_HangupCall : list FsRequest -> option AppError :=
  either_error "HangupCall" "external.hangup_call.app_error".

Definition Conn_StopPlayback : list FsRequest -> option AppError :=
  transport "StopPlayback" "external.break_playback.app_error".

Definition Conn_SetCallVariables : list FsRequest -> option AppError :=
  either_error "SetCallVariables" "external.set_call_variables.app_error".

Definition Conn_Hold : list FsRequest -> option AppError := either_error "Hold" "external.hold_call.app_error".

Definition Conn_BridgeCall : list FsRequest -> option AppError :=
  either_error "BridgeCall" "external.bridge_call.app_error".

Definition Conn_DTMF : list FsRequest -> option AppError := transport "DTMF" "external.dtmf.app_error".

Definition Conn_JoinQueue : list FsRequest -> option AppError := transport "JoinQueue" "external.join_queue.app_error".

Definition Conn_BroadcastPlaybackFile : list FsRequest -> option AppError :=
  transport "BroadcastPlaybackFile" "external.broadcast_playback.app_error".

Definition Conn_ParkPlaybackFile : list FsRequest -> option AppError :=
  transport "BroadcastPlaybackFile" "external.park_playback.app_error".

Definition Conn_UpdateCid : list FsRequest -> option AppError := transport "UpdateCid" "external.set_profile_var.app_error".

Definition Conn_BreakPark (t : list FsRequest) : option AppError :=
  match transport "BreakPark" "external.break_park.app_error" t with
  | Some e => Some e
  | None => if fs_ok t then None else Some (NewAppError "BreakPark" "external.break_park.valid" "Bad request" 400)
  end.

(** ** Setting a connection up *)

(** GetSocketUri and GetCdrUri: the value of a global variable, which must not be empty. *)
Definition global_uri (where_ id variable : string) (t : list FsRequest) : result string :=
  match either_error where_ (id +:+ ".app_error") t with
  | Some e => inl e
  | None =>
      if decide (fs_data t = "")
      then inl (NewAppError where_ (id +:+ ".not_found") ("global '" +:+ variable +:+ "' not found") 500)
      else inr (fs_data t)
  end.

Definition GetSocketUri (t : list FsRequest) : result string :=
  global_uri "GetSocketUri" "external.get_flow_socket" "acr_srv" (FsExecute "global_getvar" "acr_srv" :: t).

Definition GetCdrUri (t : list FsRequest) : result string :=
  global_uri "GetCdrUri" "external.get_flow_cdr" "cdr_url" (FsExecute "global_getvar" "cdr_url" :: t).

(** The text of an error of the response is its message here. *)
Definition GetParameter (name : string) (t : list FsRequest) : string * option AppError :=
  let t := FsExecute "global_getvar" name :: t in
  match transport "GetParameter" "external.get_param.app_error" t with
  | Some e => ("", Some e)
  | None =>
      match fs_error t with
      | Some e => ("", Some (NewAppError "GetParameter" "external.get_param.app_error" (fe_Message e) 500))
      | None => (fs_data t, None)
      end
  end.

(** The digits of the printed response; its error is not looked at. *)
Definition GetRemoteSps (t : list FsRequest) : result Z :=
  let t := FsExecute "fsctl" "sps" :: t in
  match transport "GetRemoteSps" "external.get_sps.app_error" t with
  | Some e => inl e
  | None => inr (parseSps (fs_string t))
  end.

(** The interval of the rate limiter: [time.Second / time.Duration(perSec)] of
    utils/rate_limit.go. *)
Definition NewRateLimiter (perSec : Z) : outcome Z :=
  if decide (perSec = 0) then Panic "integer divide by zero" else Ret (Z.quot 1000000000 perSec).

(** [None] is no limiter. *)
Definition SetConnectionSps (sps : Z) : outcome (option Z) :=
  if decide (sps > 0) then r ← NewRateLimiter (u16 sps); Ret (Some r) else Ret None.

(** ** The connection *)

(** The states of a gRPC connection. *)
Inductive ConnState := ConnIdle | ConnConnecting | ConnReady | ConnTransientFailure | ConnShutdown.

Record CallConnection := MkCallConnection {
  cc_name : string;
  cc_host : string;
  cc_rateLimiter : option Z; (* its interval *)
}.

(** [dial] is the error of grpc.Dial, which waits two seconds for the connection. *)
Definition NewCallConnection (dial : option string) (name url : string) : result CallConnection :=
  match dial with
  | Some err => inl (NewAppError "NewCallConnection" "grpc.create_connection.app_error" err 500)
  | None => inr (MkCallConnection name url None)
  end.

Definition CallConnection_Ready (s : ConnState) : bool :=
  match s with ConnIdle | ConnReady => true | _ => false end.

(** [err] is the error of closing the gRPC connection. *)
Definition CallConnection_Close (err : option string) : option AppError :=
  (fun err => NewAppError "CallConnection" "grpc.close_connection.app_error" err 500) <$> err.

(** ** The switch of the call manager *)

(** The request of a command; the pool and the rest make none. *)
Definition request_of (c : SwitchCmd) : option FsRequest :=
  match c with
  | SwNewCall _ (Some rq) => Some (FsOriginate (originate_request rq))
  | SwHangupCall _ id cause reporting vars => Some (FsHangup id cause reporting vars)
  | SwBridgeCall _ a b r => Some (FsBridge a b r)
  | SwJoinQueue _ id file vars => Some (FsQueue id vars file)
  | SwUpdateCid _ id number name =>
      Some (FsSetProfileVar id {[ "callee_id_number" := number; "callee_id_name" := name ]})
  | SwSetCallVariables _ id vars => Some (FsSetVariables id vars)
  | SwBroadcastPlaybackFile _ id path leg =>
      Some (FsExecute "uuid_broadcast" (id +:+ " playback::" +:+ path +:+ " " +:+ leg))
  | SwParkPlaybackFile _ id path leg => Some (FsBroadcast id leg ("playback::" +:+ path))
  | SwStopPlayback _ id => Some (FsStopPlayback id)
  | SwBreakPark _ id vars => Some (FsBreakPark id vars)
  | SwHold _ id => Some (FsExecute "uuid_hold" id)
  | SwDTMF _ id val => Some (FsExecute "uuid_recv_dtmf" (id +:+ " " +:+ fmt_c val))
  | _ => None
  end.

Definition requests (t : cmds) : list FsRequest := omap request_of t.

(** How the connection answers the last command. *)
Definition command_error (t : cmds) : option AppError :=
  let r := requests t in
  match t with
  | SwHangupCall _ _ _ _ _ :: _ => Conn_HangupCall r
  | SwBridgeCall _ _ _ _ :: _ => Conn_BridgeCall r
  | SwJoinQueue _ _ _ _ :: _ => Conn_JoinQueue r
  | SwUpdateCid _ _ _ _ :: _ => Conn_UpdateCid r
  | SwSetCallVariables _ _ _ :: _ => Conn_SetCallVariables r
  | SwBroadcastPlaybackFile _ _ _ _ :: _ => Conn_BroadcastPlaybackFile r
  | SwParkPlaybackFile _ _ _ _ :: _ => Conn_ParkPlaybackFile r
  | SwStopPlayback _ _ :: _ => Conn_StopPlayback r
  | SwBreakPark _ _ _ :: _ => Conn_BreakPark r
  | SwHold _ _ :: _ => Conn_Hold r
  | SwDTMF _ _ _ :: _ => Conn_DTMF r
  | _ => None
  end.

(** The clock, the pool and the ids are those of [rest]. *)
Definition conn_switch (rest : Switch) : Switch := {|
  sw_now := sw_now;
  sw_err := command_error;
  sw_newCall := fun t => NewCallContext (requests t);
  sw_get := sw_get; sw_getById := sw_getById; sw_all := sw_all; sw_uuid := sw_uuid |}.

End Conn.
