(* ===== verification/Broker.v ===== *)
(** * The message broker client: mq/rabbit/client.go

    The client of RabbitMQ has one goroutine that reads the deliveries ([listen]) and one
    for instant messages ([im_delivery]); they hand messages to four channels of 100
    places, which the managers read. [Stream] is such a channel with its flag of a stalled
    consumer; [sm_sent], [sm_taken], [sm_dropped] and [sm_waits] log what happened to it.
    Whether a consumer reads before the timer of a wait fires is the class [Readers]. The
    decoding of JSON is the class [BrokerJson]; the calls to the broker that set a
    connection up are recorded and answered by [BrokerServer]. *)

From S2P Require Import Prelude Model Queue Attempt World Calls CallManager Chat Im.

Module Broker.

(** ** Channels to the consumers *)

Record Stream (T : Type) := MkStream {
  sm_buf : list T;
  sm_stalled : bool;
  sm_sent : list T;
  sm_taken : list T;
  sm_dropped : list T;
  sm_waits : nat;
}.
Arguments MkStream {T}.
Arguments sm_buf {T}.
Arguments sm_stalled {T}.
Arguments sm_sent {T}.
Arguments sm_taken {T}.
Arguments sm_dropped {T}.
Arguments sm_waits {T}.

#[export] Instance eta_Stream T : Eta (Stream T) := fun s =>
  MkStream (sm_buf s) (sm_stalled s) (sm_sent s) (sm_taken s) (sm_dropped s) (sm_waits s).

Definition new_stream {T} : Stream T := MkStream [] false [] [] [] 0.

(** [make(chan T, 100)] *)
Definition buffer_size : nat := 100.

(** [reads nm n]: the consumer of the stream [nm] takes a message during the [n]th wait. *)
Class Readers := reads : string -> nat -> bool.

(** A send on a channel with room. *)
Definition put {T} (msg : T) (s : Stream T) : Stream T :=
  s <| sm_buf := (sm_buf s ++ [msg]) |> <| sm_sent := (sm_sent s ++ [msg]) |>.

Definition lose {T} (msg : T) (s : Stream T) : Stream T :=
  s <| sm_dropped := (sm_dropped s ++ [msg]) |>.

(** The consumer receives. *)
Definition take_msg {T} (s : Stream T) : Stream T :=
  match sm_buf s with
  | [] => s
  | m :: rest => s <| sm_buf := rest |> <| sm_taken := (sm_taken s ++ [m]) |>
  end.

Definition enqueue `{Readers} {T} (nm : string) (msg : T) (s : Stream T) : Stream T :=
  if decide (length (sm_buf s) < buffer_size)%nat then put msg s <| sm_stalled := false |>
  else if sm_stalled s then lose msg s
  else
    let s' := s <| sm_waits := S (sm_waits s) |> in
    if reads nm (sm_waits s) then put msg (take_msg s')
    else lose msg s' <| sm_stalled := true |>.

(** ** The client *)

Record AMQP := MkAMQP {
  mb_callEvent : Stream CallActionData;
  mb_chatEvent : Stream ChatEvent;
  mb_imEvent : Stream IMMessage;
  mb_systemSettingEvent : Stream SystemSettingEvent;
  mb_acked : list Z;
}.

#[export] Instance eta_AMQP : Eta AMQP := fun a =>
  MkAMQP (mb_callEvent a) (mb_chatEvent a) (mb_imEvent a) (mb_systemSettingEvent a) (mb_acked a).

Definition NewRabbitMQ : AMQP := MkAMQP new_stream new_stream new_stream new_stream [].

Record Delivery := MkDelivery {
  dl_Exchange : string;
  dl_RoutingKey : string;
  dl_Body : string;
  dl_Tag : Z;
}.

Definition CallExchange : string := "call".
Definition ChatExchange : string := "chat".
Definition EventExchange : string := "event".
Definition CallCenterExchange : string := "callcenter".
Definition IMExchange : string := "im_delivery.broadcast".
Definition IMQueueNamePrefix : string := "im-delivery.cc-processor.v1".

Record BotGrantedMessage := MkBotGrantedMessage {
  bg_ThreadId : string;
  bg_Reason : string;
  bg_Agents : list string; (* their member_id *)
}.

Record BotReleasedMessage := MkBotReleasedMessage { br_ThreadId : string }.

(** The part of IMMessageWrapper that is read. *)
Record IMMessageWrapper := MkIMMessageWrapper {
  iw_Message : IMMessage;
  iw_Echo : bool;
}.

(** json.Unmarshal into the types of the messages: [inl] is the error. The error of an
    instant message is ignored, so its decoding is what it leaves in the zero value. *)
Class BrokerJson := {
  bj_call : string -> string + CallActionData;
  bj_chat : string -> string + gmap string dyn;
  bj_im : string -> IMMessageWrapper;
  bj_granted : string -> string + BotGrantedMessage;
  bj_released : string -> string + BotReleasedMessage;
}.

Section Client.
Context {RD : Readers} {BJ : BrokerJson}.

(** What readChatEvent makes of a delivery; [None] if it only logs. *)
Definition chat_event_of (rk data : string) : option ChatEvent :=
  match split_on "." rk with
  | [_; name; dom; usr] =>
      domainId ← ParseInt dom;
      userId ← ParseInt usr;
      match bj_chat data with
      | inl _ => None
      | inr body => Some (MkChatEvent name domainId userId body)
      end
  | _ => None
  end.

Definition readChatEvent (data rk : string) (a : AMQP) : AMQP :=
  match chat_event_of rk data with
  | Some ev => a <| mb_chatEvent := (enqueue "chat" ev (mb_chatEvent a)) |>
  | None => a
  end.

Definition readMessage (msg : Delivery) (a : AMQP) : AMQP :=
  if decide (dl_Exchange msg = CallExchange) then
    match bj_call (dl_Body msg) with
    | inl _ => a
    | inr ev =>
        if decide (ad_Event ev = "heartbeat") then a
        else a <| mb_callEvent := (enqueue "call" ev (mb_callEvent a)) |>
    end
  else if decide (dl_Exchange msg = ChatExchange) then readChatEvent (dl_Body msg) (dl_RoutingKey msg) a
  else if decide (dl_Exchange msg = EventExchange) then
    match NewSystemSettingEventFromRoutingKey (dl_RoutingKey msg) with
    | inl _ => a
    | inr ev => a <| mb_systemSettingEvent := (enqueue "system_setting" ev (mb_systemSettingEvent a)) |>
    end
  else a.

(** strings.HasSuffix *)
Definition HasSuffix (s suf : string) : bool :=
  (String.length suf <=? String.length s)%nat &&
  bool_decide (String.substring (String.length s - String.length suf) (String.length suf) s = suf).

Definition no_metadata : IMSystemMetadata := MkIMSystemMetadata "" "" "" "".

Definition control_message (thread ty : string) (md : IMSystemMetadata) : IMMessage :=
  MkIMMessage thread "" (Some (MkIMSystem ty md)).

Definition send_im (msg : IMMessage) (a : AMQP) : AMQP :=
  a <| mb_imEvent := (enqueue "im" msg (mb_imEvent a)) |>.

Definition ack (d : Delivery) (a : AMQP) : AMQP := a <| mb_acked := (mb_acked a ++ [dl_Tag d]) |>.

(** The event "bot control granted". A transfer is sent to the channel without enqueue, and
    waits while it is full. *)
Definition bot_granted (d : Delivery) (a : AMQP) : outcome AMQP :=
  match bj_granted (dl_Body d) with
  | inl _ => Ret a
  | inr grm =>
      match bg_Agents grm with
      | id :: _ =>
          if decide (bg_Reason grm = "transfer") then
            if decide (length (sm_buf (mb_imEvent a)) < buffer_size)%nat
            then Ret (a <| mb_imEvent := (put (control_message (bg_ThreadId grm) (bg_Reason grm)
                                           (MkIMSystemMetadata "" "" id "")) (mb_imEvent a)) |>)
            else Block "imEvent"
          else Ret (send_im (control_message (bg_ThreadId grm) "bot_control_granted" no_metadata) a)
      | [] => Ret (send_im (control_message (bg_ThreadId grm) "bot_control_granted" no_metadata) a)
      end
  end.

Definition bot_released (d : Delivery) (a : AMQP) : AMQP :=
  match bj_released (dl_Body d) with
  | inl _ => a
  | inr rel => send_im (control_message (br_ThreadId rel) "bot_control_released" no_metadata) a
  end.

Definition granted_key (rk : string) : bool :=
  String.prefix "im_thread." rk && HasSuffix rk ".bot.control.granted.v1".

Definition released_key (rk : string) : bool :=
  String.prefix "im_thread." rk && HasSuffix rk ".bot.control.released.v1".

(** One round of the goroutine of subscribeIM. *)
Definition im_delivery (d : Delivery) (a : AMQP) : outcome AMQP :=
  if decide (dl_Exchange d = IMExchange) then
    let data := bj_im (dl_Body d) in
    if iw_Echo data then Ret a
    else Ret (ack d (send_im (iw_Message data) a))
  else if decide (dl_Exchange d = "im_message.events") then
    if granted_key (dl_RoutingKey d) then a ← bot_granted d a; Ret (ack d a)
    else if released_key (dl_RoutingKey d) then Ret (ack d (bot_released d a))
    else Ret (ack d a)
  else Ret (ack d a).

End Client.

(** ** Connecting *)

Definition MAX_ATTEMPTS_CONNECT : Z := 100.
Definition RECONNECT_SEC : Z := 5.
Definition EXIT_DECLARE_EXCHANGE : Z := 110.

Inductive BrokerCall :=
| Dial
| OpenChannel
| ExchangeDeclare (name : string)
| QueueDeclare (name : string)
| Consume (queue : string)
| QueueBind (queue key exchange : string)
| NotifyClose
| SleepSec (n : Z).

(** [bs_err] answers a call with an error or none; [bs_id] is model.NewId. *)
Class BrokerServer := {
  bs_err : list BrokerCall -> option string;
  bs_id : list BrokerCall -> string;
}.

(** How initConnection ends. *)
Inductive Connection :=
| Connected
| Exited (code : Z)
| Panicked (why : string).

Record ConnState := MkConnState {
  cn_attempts : Z;
  cn_trace : list BrokerCall;
}.

Section Connect.
Context {BS : BrokerServer} (nodeName : string) (useIM : bool).

Definition emit (c : BrokerCall) (t : list BrokerCall) : list BrokerCall := t ++ [c].

(** A sequence of calls that stops at the first error. *)
Fixpoint calls (cs : list BrokerCall) (t : list BrokerCall) : option string * list BrokerCall :=
  match cs with
  | [] => (None, t)
  | c :: cs =>
      let t := emit c t in
      match bs_err t with
      | Some e => (Some e, t)
      | None => calls cs t
      end
  end.

Definition initExchange : list BrokerCall := [ExchangeDeclare CallCenterExchange; ExchangeDeclare EventExchange].

Definition queue_name : string := "callcenter." +:+ nodeName.

Definition connect : list BrokerCall :=
  [QueueDeclare queue_name; Consume queue_name; QueueBind queue_name "#" ChatExchange;
   QueueBind queue_name "system_settings.record_all_calls.#" EventExchange;
   QueueBind queue_name ("events.*." +:+ nodeName +:+ ".*.*") CallExchange].

(** [model.NewId()[0:8]]; the id has 26 characters. *)
Definition im_queue_name (t : list BrokerCall) : string :=
  IMQueueNamePrefix +:+ "." +:+ String.substring 0 8 (bs_id t) +:+ ".any".

(** The last binding panics, the calls before it exit. *)
Definition subscribeIM (t : list BrokerCall) : Connection * list BrokerCall :=
  let q := im_queue_name t in
  match calls [QueueDeclare q; QueueBind q "#" IMExchange; Consume q] t with
  | (Some _, t) => (Exited 1, emit (SleepSec 1) t)
  | (None, t) =>
      match calls [QueueBind q "im_thread.*.bot.control.#" "im_message.events"] t with
      | (Some _, t) => (Panicked "error during binding IM queue to message exchange", t)
      | (None, t) => (Connected, t)
      end
  end.

(** The branch of initConnection after a successful dial. *)
Definition open_channel (t : list BrokerCall) : Connection * list BrokerCall :=
  match calls [OpenChannel] t with
  | (Some _, t) => (Exited 1, emit (SleepSec 1) t)
  | (None, t) =>
      match calls initExchange t with
      | (Some _, t) => (Exited EXIT_DECLARE_EXCHANGE, emit (SleepSec 1) t)
      | (None, t) =>
          match calls connect t with
          | (Some e, t) => (Panicked e, t)
          | (None, t) =>
              let t := emit NotifyClose t in
              if useIM then subscribeIM t else (Connected, t)
          end
      end
  end.

(** [None]: the fuel did not last. *)
Fixpoint initConnection (fuel : nat) (s : ConnState) : option (Connection * ConnState) :=
  match fuel with
  | O => None
  | S fuel =>
      if decide (cn_attempts s >= MAX_ATTEMPTS_CONNECT)
      then Some (Exited 1, MkConnState (cn_attempts s) (emit (SleepSec 1) (cn_trace s)))
      else
        let n := cn_attempts s + 1 in
        let t := emit Dial (cn_trace s) in
        match bs_err t with
        | Some _ => initConnection fuel (MkConnState n (emit (SleepSec RECONNECT_SEC) t))
        | None => let '(c, t) := open_channel t in Some (c, MkConnState 0 t)
        end
  end.

End Connect.

End Broker.
