(* ===== verification/Distribute.v ===== *)
(** * Distribution: how a member gets into a queue

    DistributeAttempt of every kind of queue (the goroutine it starts is the effect
    [EGo]), DistributeAttempt of the manager, and the entry points that create an attempt
    from a request: call, chat, task, instant message, direct member, transfer
    (queue/queue_manager.go). A request is a record of the fields of the gRPC message the
    code reads. *)

From S2P Require Import Prelude Model Queue Attempt TaskChannel Resource World Agents.
From S2P Require Import Events Schema Manager Team.

(** ** Errors: queue/errors.go *)

Definition NewErrorResourceRequired : AppError :=
  NewAppError "Queue" "queue.distribute.invalid_resource.error" "" 401.
Definition NewErrorCallRequired : AppError :=
  NewAppError "Queue" "queue.distribute.invalid_call.error" "" 401.
Definition NewErrorAgentRequired : AppError :=
  NewAppError "Queue" "queue.distribute.invalid_agent.error" "" 400.
Definition NewErrorVariableRequired : AppError :=
  NewAppError "Queue" "queue.distribute.invalid_variable.error" "" 400.

Definition inviterChannelId : string := "inviter_channel_id".
Definition inviterUserId : string := "inviter_user_id".

(** ** Instant message members: queue/im_inbound.go *)

Definition IsBot (m : IMMemberInfo) : bool :=
  bool_decide (imm_Iss m = "bot") || bool_decide (imm_Type m = "bot").

Definition IsInternalUser (m : IMMemberInfo) : bool := bool_decide (imm_Iss m = "webitel").

(** The name of the first bot with the type of the first external member. *)
Definition NewIMChannelFromMembers (members : list IMMemberInfo) : option IMChannel :=
  '(_, bot) ← list_find (fun m => IsBot m = true) members;
  '(_, ext) ← list_find (fun m => negb (IsInternalUser m) && negb (IsBot m) = true) members;
  Some (MkIMChannel (imm_Name bot) (imm_Type ext)).

(** ** Requests *)

Record ProlongationRequest := MkProlongationRequest {
  pl_Enabled : bool;
  pl_RepeatsNumber : Z;
  pl_ProlongationTimeSec : Z;
  pl_IsTimeoutRetry : bool;
}.

Record ProcessingRequest := MkProcessingRequest {
  pq_Enabled : bool;
  pq_Autosave : bool;
  pq_Sec : Z;
  pq_RenewalSec : Z;
  pq_FormId : Z; (* 0 without a form *)
  pq_WithoutAnswer : bool;
  pq_Prolongation : option ProlongationRequest;
}.

Record CallJoinToQueueRequest := MkCallJoinToQueueRequest {
  cj_DomainId : Z;
  cj_QueueId : Z;
  cj_MemberCallId : string;
  cj_Variables : gomap;
  cj_BucketId : Z;
  cj_Priority : Z;
  cj_StickyAgentId : Z;
  cj_WaitingMusic : option RingtoneFile;
  cj_IsTransfer : bool;
}.

Record JoinToAgentRequest := MkJoinToAgentRequest {
  ja_DomainId : Z;
  ja_CallId : string;
  ja_Variables : gomap;
  ja_AgentId : Z; (* user id for outbound calls *)
  ja_CancelDistribute : bool;
  ja_QueueName : string;
  ja_Processing : option ProcessingRequest;
  ja_WaitingMusic : option RingtoneFile;
  ja_IsTransfer : bool;
  ja_Destination : string; (* tasks *)
}.

(** The dump parameters of a processing request; [with_autosave] is false for tasks. *)
Definition dump_params (queueName : string) (with_autosave : bool) (p : option ProcessingRequest)
    : QueueDumpParams :=
  let none := MkQueueDumpParams None None 0 false 0 queueName None 0 0 false in
  match p with
  | None => none
  | Some p =>
      if pq_Enabled p then
        let '(has, rem, sec, retry) :=
          match pq_Prolongation p with
          | Some pl => if pl_Enabled pl
                       then (Some true, pl_RepeatsNumber pl, pl_ProlongationTimeSec pl, pl_IsTimeoutRetry pl)
                       else (None, 0, 0, false)
          | None => (None, 0, 0, false)
          end in
        MkQueueDumpParams (Some true) (if decide (pq_FormId p > 0) then Some true else None)
          (pq_Sec p) (with_autosave && pq_Autosave p) (pq_RenewalSec p) queueName has rem sec retry
      else none
  end.

(** The settings of the queue made for an attempt joined straight to an agent. *)
Definition join_settings (domainId type_ teamId : Z) (vars : gomap) (params : QueueDumpParams)
    (formId : Z) (with_prolongation : bool) : Queue :=
  let s := {|
    q_Id := 0; q_DomainId := domainId; q_DomainName := "TODO"; q_Type := type_;
    q_Name := qd_QueueName params; q_Strategy := ""; q_Payload := ""; q_UpdatedAt := 0;
    q_Variables := vars; q_TeamId := Some teamId; q_RingtoneId := None; q_RingtoneType := None;
    q_SchemaId := None; q_DoSchemaId := None; q_AfterSchemaId := None; q_Processing := false;
    q_ProcessingSec := 30; q_ProcessingRenewalSec := 15; q_ProcessingAutosave := false;
    q_Endless := false; q_Hooks := []; q_GranteeId := None; q_HoldMusic := None;
    q_FormSchemaId := None; q_AmdPlaybackFile := None; q_IsProlongationEnabled := false;
    q_ProlongationRepeats := 0; q_ProlongationSec := 0; q_IsProlongationTimeoutRetry := false |} in
  if bool_decide (qd_HasReporting params = Some true) then
    let s := s <| q_Processing := true |> <| q_ProcessingSec := (qd_ProcessingSec params) |>
               <| q_ProcessingRenewalSec := (qd_ProcessingRenewalSec params) |> in
    let s := if decide (formId > 0) then s <| q_FormSchemaId := (Some formId) |> else s in
    if with_prolongation && HasProlongationParams params then UseProlongationOptions s params else s
  else s.

Definition call_info (domainId : Z) (c : inboundCallData) (parent : option string) : CallInfo := {|
  ci_Id := cd_CallId c; ci_State := cd_CallState c; ci_DomainId := domainId;
  ci_Direction := cd_CallDirection c; ci_Destination := cd_CallDestination c;
  ci_ParentId := parent; ci_Timestamp := cd_CallTimestamp c; ci_AppId := cd_CallAppId c;
  ci_FromNumber := default "" (cd_CallFromNumber c); ci_FromName := default "" (cd_CallFromName c);
  ci_AnsweredAt := cd_CallAnsweredAt c; ci_BridgedAt := cd_CallBridgedAt c;
  ci_CreatedAt := cd_CallCreatedAt c |}.

Definition waiting_ringtone (domainId : Z) (m : option RingtoneFile) : string :=
  match m with
  | Some f => if decide (rt_Id f <> 0 /\ rt_Type f <> "")
              then "wbt_queue_playback::" +:+ RingtoneUri domainId (rt_Id f) (rt_Type f) else ""
  | None => ""
  end.

(** A pointer to a request value, nil for zero. *)
Definition nonzero (z : Z) : option Z := if decide (z <> 0) then Some z else None.

Section Distribute.
Context {OC : Type -> Type} {HOC : ObjectCache OC} {SV : Services} {DE : Decoders}.

(** ** DistributeAttempt of the kinds of queues *)

Definition set_limits (l : loc) (wait max : Z) (per : bool) : M OC unit :=
  mod_attempt l (fun a => a <| at_waitBetween := wait |> <| at_maxAttempts := max |>
                            <| at_perNumbers := per |>).

Definition go_run (q : QueueObject) (l : loc) : M OC (option AppError) :=
  _ ← emit (EGo (JobRun (bq_id (qo_base q)) l)); mret None.

(** [if attempt.resource == nil] and the like. *)
Definition require {A} (o : option A) (err : AppError) (k : M OC (option AppError))
    : M OC (option AppError) :=
  match o with Some _ => k | None => mret (Some err) end.

Definition with_team (l : loc) (k : M OC (option AppError)) : M OC (option AppError) :=
  t ← BaseQueue_GetTeam l;
  match t with inl e => mret (Some e) | inr _ => k end.

(** The call of the member, [*attempt.member.MemberCallId] in the call manager. *)
Definition with_member_call (a : Attempt) (k : Channel -> M OC (option AppError))
    : M OC (option AppError) :=
  match ma_MemberCallId (at_member a) with
  | None => panic nil_deref
  | Some id =>
      found ← ask (fun t => svc_callExists t id);
      if (found : bool) then k (MkChannel ChCall id) else mret (Some NewErrorCallRequired)
  end.

(** NewTaskChannel(strconv.Itoa(attempt.Id())), kept as the channel data of the attempt. *)
Definition attach_task (l : loc) : M OC loc :=
  a ← get_attempt l;
  now ← GetMillis;
  t ← new_task (NewTaskChannel now (fmt_d (at_Id a)));
  _ ← mod_attempt l (fun a => a <| at_channelData := (Some t) |>);
  mret t.

(** OfflineCallQueue, PreviewCallQueue and ProgressiveCallQueue dial with a resource, for an
    agent that is already reserved. *)
Definition dial_for_agent (l : loc) (wait max : Z) (per : bool) (q : QueueObject)
    : M OC (option AppError) :=
  a ← get_attempt l;
  require (at_resource a) NewErrorResourceRequired
    (require (at_agent a) NewErrorAgentRequired
       (with_team l (_ ← set_limits l wait max per; go_run q l))).

Definition Offline_DistributeAttempt (s : OfflineQueueSettings) (q : QueueObject) (l : loc)
    : M OC (option AppError) :=
  dial_for_agent l (of_WaitBetweenRetries s) (of_MaxAttempts s) (of_PerNumbers s) q.

Definition Preview_DistributeAttempt (s : PreviewSettings) (q : QueueObject) (l : loc)
    : M OC (option AppError) :=
  dial_for_agent l (pv_WaitBetweenRetries s) (pv_MaxAttempts s) (pv_PerNumbers s) q.

Definition Progressive_DistributeAttempt (s : ProgressiveCallQueueSettings) (q : QueueObject) (l : loc)
    : M OC (option AppError) :=
  dial_for_agent l (pg_WaitBetweenRetries s) (pg_MaxAttempts s) (pg_PerNumbers s) q.

Definition IVR_DistributeAttempt (s : QueueIVRSettings) (q : QueueObject) (l : loc)
    : M OC (option AppError) :=
  a ← get_attempt l;
  require (at_resource a) NewErrorResourceRequired
    (_ ← set_limits l (iv_WaitBetweenRetries s) (iv_MaxAttempts s) (iv_PerNumbers s);
     go_run q l).

Definition Predict_DistributeAttempt (s : PredictCallQueueSettings) (q : QueueObject) (l : loc)
    : M OC (option AppError) :=
  a ← get_attempt l;
  require (at_resource a) NewErrorResourceRequired
    (_ ← set_limits l (pr_WaitBetweenRetries s) (pr_MaxAttempts s) (pr_PerNumbers s);
     go_run q l).

Definition Inbound_DistributeAttempt (s : QueueInboundSettings) (q : QueueObject) (l : loc)
    : M OC (option AppError) :=
  a ← get_attempt l;
  with_member_call a (fun ch =>
    _ ← mod_attempt l (fun a => a <| at_memberChannel := (Some ch) |>
                                  <| at_manualDistribution := (qi_ManualDistribution s) |>);
    go_run q l).

Definition JoinAgent_DistributeAttempt (q : QueueObject) (l : loc) : M OC (option AppError) :=
  a ← get_attempt l;
  with_member_call a (fun _ => go_run q l).

Definition Outbound_DistributeAttempt (q : QueueObject) (l : loc) : M OC (option AppError) :=
  a ← get_attempt l;
  with_member_call a (fun ch =>
    require (at_agent a) NewErrorAgentRequired
      (with_team l
         (_ ← mod_attempt l (fun a => a <| at_agentChannel := (Some ch) |>
                                        <| at_memberChannel := (Some ch) |>);
          go_run q l))).

Definition Chat_DistributeAttempt (s : InboundChatQueueSettings) (q : QueueObject) (l : loc)
    : M OC (option AppError) :=
  a ← get_attempt l;
  require (ma_MemberCallId (at_member a)) NewErrorCallRequired
    (require (GetVariable inviterChannelId a) NewErrorVariableRequired
       (require (GetVariable inviterUserId a) NewErrorVariableRequired
          (_ ← mod_attempt l (fun a => RemoveVariable inviterUserId (RemoveVariable inviterChannelId a));
           _ ← mod_attempt l (fun a => a <| at_manualDistribution := (ic_ManualDistribution s) |>);
           go_run q l))).

Definition TaskInbound_DistributeAttempt (s : TaskInboundQueueSettings) (q : QueueObject) (l : loc)
    : M OC (option AppError) :=
  a ← get_attempt l;
  require (at_agent a) NewErrorAgentRequired
    (with_team l
       (_ ← attach_task l;
        _ ← set_limits l (ti_WaitBetweenRetries s) (ti_MaxAttempts s) (ti_PerNumbers s);
        go_run q l)).

Definition TaskAgent_DistributeAttempt (q : QueueObject) (l : loc) : M OC (option AppError) :=
  a ← get_attempt l;
  require (at_agent a) NewErrorAgentRequired (with_team l (_ ← attach_task l; go_run q l)).

Definition TaskOutbound_DistributeAttempt (s : TaskOutboundQueueSettings) (q : QueueObject) (l : loc)
    : M OC (option AppError) :=
  _ ← mod_attempt l (fun a => a <| at_waitBetween := (to_WaitBetweenRetries s) |>
                                <| at_maxAttempts := (to_MaxAttempts s) |>);
  go_run q l.

(** The error of json.Unmarshal is dropped: whatever was decoded is used. *)
Definition IM_DistributeAttempt (q : QueueObject) (l : loc) : M OC (option AppError) :=
  a ← get_attempt l;
  let info := (decode_im (ma_Destination (at_member a))).1 in
  match ma_MemberCallId (at_member a) with
  | None => panic nil_deref
  | Some thread =>
      _ ← emit (NewIMSessionEff (at_domainId a) thread (imd_ApiSub info) (imd_MemberSub info)
             (imd_MemberId info) (at_Id a));
      go_run q l
  end.

(** The method of the interface, by the kind of the queue. *)
Definition queue_DistributeAttempt (q : QueueObject) (l : loc) : M OC (option AppError) :=
  match qo_kind q with
  | KOffline s => Offline_DistributeAttempt s q l
  | KPreview s => Preview_DistributeAttempt s q l
  | KProgressive s => Progressive_DistributeAttempt s q l
  | KIVR s => IVR_DistributeAttempt s q l
  | KPredict s => Predict_DistributeAttempt s q l
  | KInbound s => Inbound_DistributeAttempt s q l
  | KJoinAgentCall => JoinAgent_DistributeAttempt q l
  | KOutboundCall _ => Outbound_DistributeAttempt q l
  | KChat s => Chat_DistributeAttempt s q l
  | KTaskInbound s => TaskInbound_DistributeAttempt s q l
  | KTaskAgent => TaskAgent_DistributeAttempt q l
  | KTaskOutbound s => TaskOutbound_DistributeAttempt s q l
  | KIM _ => IM_DistributeAttempt q l
  end.

(** ** DistributeAttempt of the manager *)

(** [qm.Abandoned(attempt); qm.LeavingMember(attempt)] after a failed distribution. *)
Definition drop_attempt (l : loc) : M OC unit := _ ← Abandoned l; LeavingMember l.

Definition DistributeAttempt (l : loc) : M OC (result (option QueueObject)) :=
  a ← get_attempt l;
  r ← GetQueue (at_QueueId a) (ma_QueueUpdatedAt (at_member a));
  match r with
  | inl e => mret (inl e)
  | inr q =>
      let b := qo_base q in
      _ ← mod_attempt l (fun a => a <| at_domainId := (bq_domainId b) |>
                                    <| at_channel := (bq_channel b) |> <| at_queue := (Some q) |>);
      if IsBarred a then
        _ ← Barred l;
        _ ← LeavingMember l;
        mret (inr None)
      else
        res ← GetAttemptResource l;
        _ ← mod_attempt l (fun a => a <| at_resource := res |>);
        err ← queue_DistributeAttempt q l;
        match err with
        | Some e => _ ← drop_attempt l; mret (inl e)
        | None => mret (inr (Some q))
        end
  end.

(** ** Entry points *)

Definition cancel_call_queue (id : Z) : M OC unit :=
  _ ← call_err (DistributeCallToQueueCancel id); mret tt.

Definition now_ns : M OC Z := ask svc_now.

Definition DistributeCall (rq : CallJoinToQueueRequest) : M OC (result loc) :=
  let bucketId := nonzero (cj_BucketId rq) in
  res ←ok call (DistributeCallToQueueStore svc_node (cj_QueueId rq) (cj_MemberCallId rq)
                 (cj_Variables rq) bucketId (cj_Priority rq) (nonzero (cj_StickyAgentId rq)))
           svc_inboundCall;
  let info := call_info (cj_DomainId rq) (iq_call res) (cd_ParentCallId (iq_call res)) in
  q ←ok GetQueue (iq_QueueId res) (iq_QueueUpdatedAt res);
  let ringtone := cmp_or (waiting_ringtone (cj_DomainId rq) (cj_WaitingMusic rq))
                    (BaseQueue_RingtoneUri (qo_base q)) in
  err ← call_err (InboundCallQueueCM info ringtone (bq_variables (qo_base q)));
  match err with
  | Some e => _ ← cancel_call_queue (iq_AttemptId res); mret (inl e)
  | None =>
      now ← now_ns;
      l ← CreateAttemptIfNotExists
            ((zero_MemberAttempt (iq_AttemptId res))
               <| ma_QueueId := (iq_QueueId res) |>
               <| ma_QueueUpdatedAt := (iq_QueueUpdatedAt res) |>
               <| ma_CreatedAt := now |> <| ma_Destination := (iq_Destination res) |>
               <| ma_TeamUpdatedAt := (iq_TeamUpdatedAt res) |>
               <| ma_Variables := (iq_Variables res) |> <| ma_Name := (iq_Name res) |>
               <| ma_MemberCallId := (Some (cd_CallId (iq_call res))) |>
               <| ma_BucketId := bucketId |>);
      _ ← mod_attempt l (fun a => a <| at_processTransfer := (cj_IsTransfer rq) |>);
      r ← DistributeAttempt l;
      match r with
      | inl e => _ ← cancel_call_queue (iq_AttemptId res); mret (inl e)
      | inr _ => mret (inr l)
      end
  end.

(** The end DistributeCallToAgent, OutboundCall and DistributeTaskToAgent share: the queue
    made for the attempt is attached and the attempt distributed. *)
Definition join_queue (l agent : loc) (q : QueueObject) (channel : string) : M OC (result loc) :=
  _ ← mod_attempt l (fun a => a <| at_queue := (Some q) |> <| at_agent := (Some agent) |>
                                <| at_domainId := (bq_domainId (qo_base q)) |>
                                <| at_channel := channel |>);
  err ← queue_DistributeAttempt q l;
  match err with
  | Some e => _ ← drop_attempt l; mret (inl e)
  | None => mret (inr l)
  end.

(** [if in.CancelDistribute { qm.CancelAgentDistribute(..) }], the error is logged. *)
Definition cancel_distribute (b : bool) (agentId : Z) : M OC unit :=
  if b then _ ← CancelAgentDistribute agentId; mret tt else mret tt.

Definition form_id (p : option ProcessingRequest) : Z :=
  match p with Some p => pq_FormId p | None => 0 end.

(** The attempt of a join to an agent. *)
Definition agent_attempt (id now agentId agentUpdatedAt teamUpdatedAt : Z) (dest : string)
    (vars : gomap) (nm : string) (callId : option string) : MemberAttempt :=
  (zero_MemberAttempt id) <| ma_CreatedAt := now |> <| ma_Destination := dest |>
    <| ma_AgentId := (Some agentId) |> <| ma_AgentUpdatedAt := (Some agentUpdatedAt) |>
    <| ma_TeamUpdatedAt := (Some teamUpdatedAt) |> <| ma_Variables := vars |>
    <| ma_Name := nm |> <| ma_MemberCallId := callId |>.

Definition DistributeCallToAgent (rq : JoinToAgentRequest) : M OC (result loc) :=
  let params := dump_params (cmp_or (ja_QueueName rq) "agent") true (ja_Processing rq) in
  res ←ok call (DistributeCallToAgentStore svc_node (ja_CallId rq) (ja_Variables rq)
                 (ja_AgentId rq) (ja_CancelDistribute rq) params) svc_callAgent;
  _ ← cancel_distribute (ja_CancelDistribute rq) (ja_AgentId rq);
  agent ←ok GetAgent (ja_AgentId rq) (ia_AgentUpdatedAt res);
  let info := call_info (ja_DomainId rq) (ia_call res) (cd_ParentCallId (ia_call res)) in
  err ← call_err (ConnectCallCM info (waiting_ringtone (ja_DomainId rq) (ja_WaitingMusic rq)));
  match err with
  | Some e => _ ← cancel_call_queue (ia_AttemptId res); mret (inl e)
  | None =>
      now ← now_ns;
      l ← CreateAttemptIfNotExists
            (agent_attempt (ia_AttemptId res) now (ja_AgentId rq) (ia_AgentUpdatedAt res)
               (ia_TeamUpdatedAt res) (ia_Destination res) (ia_Variables res) (ia_Name res)
               (Some (cd_CallId (ia_call res))));
      _ ← mod_attempt l (fun a => a <| at_processTransfer := (ja_IsTransfer rq) |>);
      b ← lift (NewBaseQueue (join_settings (ja_DomainId rq) QueueTypeOutboundCall (ia_TeamId res) None
                                params (form_id (ja_Processing rq)) true));
      join_queue l agent (MkQueueObject b KJoinAgentCall None None) QueueChannelCall
  end.

Definition OutboundCall (rq : JoinToAgentRequest) : M OC (result loc) :=
  let params := dump_params (ja_QueueName rq) true (ja_Processing rq) in
  let withoutAnswer := match ja_Processing rq with
                       | Some p => pq_Enabled p && pq_WithoutAnswer p
                       | None => false
                       end in
  res ←ok call (DistributeOutboundCallStore svc_node (ja_CallId rq) (ja_Variables rq)
                 (ja_AgentId rq) params) svc_callAgent;
  match ia_AgentId res with
  | None => panic nil_deref
  | Some agentId =>
      _ ← cancel_distribute (ja_CancelDistribute rq) agentId;
      agent ←ok GetAgent agentId (ia_AgentUpdatedAt res);
      let info := call_info (ja_DomainId rq) (ia_call res) None in
      err ← call_err (ConnectCallCM info "");
      match err with
      | Some e => _ ← cancel_call_queue (ia_AttemptId res); mret (inl e)
      | None =>
          now ← now_ns;
          l ← CreateAttemptIfNotExists
                (agent_attempt (ia_AttemptId res) now agentId (ia_AgentUpdatedAt res)
                   (ia_TeamUpdatedAt res) (ia_Destination res) (ia_Variables res) (ia_Name res)
                   (Some (cd_CallId (ia_call res))));
          b ← lift (NewBaseQueue (join_settings (ja_DomainId rq) QueueTypeOutboundCall (ia_TeamId res)
                                    None params (form_id (ja_Processing rq)) true));
          join_queue l agent (NewOutboundCallQueue b withoutAnswer) QueueChannelOutCall
      end
  end.

Definition DistributeTaskToAgent (rq : JoinToAgentRequest) : M OC (result loc) :=
  let params := dump_params (cmp_or (ja_QueueName rq) "agent") false (ja_Processing rq) in
  res ←ok call (DistributeTaskToAgentStore svc_node (ja_DomainId rq) (ja_AgentId rq)
                 (ja_Destination rq) (ja_Variables rq) (ja_CancelDistribute rq) params) svc_taskAgent;
  _ ← cancel_distribute (ja_CancelDistribute rq) (ja_AgentId rq);
  agent ←ok GetAgent (ja_AgentId rq) (tt_AgentUpdatedAt res);
  now ← now_ns;
  l ← CreateAttemptIfNotExists
        (agent_attempt (tt_AttemptId res) now (ja_AgentId rq) (tt_AgentUpdatedAt res)
           (tt_TeamUpdatedAt res) (tt_Destination res) (tt_Variables res) (tt_Name res) None);
  b ← lift (NewBaseQueue (join_settings (ja_DomainId rq) QueueTypeAgentTask (tt_TeamId res)
                            (Some {[ "wbt_auto_answer" := "true" ]}) params
                            (form_id (ja_Processing rq)) false));
  join_queue l agent (MkQueueObject b KTaskAgent None None) QueueChannelTask.

End Distribute.

(** ** What a join request makes of its processing parameters *)

Lemma NewBaseQueue_plain (s : Queue) :
  q_GranteeId s = None ->
  exists b, NewBaseQueue s = Ret b /\ bq_processing b = q_Processing s /\
    bq_processingSec b = q_ProcessingSec s /\ bq_processingRenewalSec b = q_ProcessingRenewalSec s /\
    bq_formSchemaId b = q_FormSchemaId s /\ bq_isProlongationEnabled b = q_IsProlongationEnabled s /\
    bq_prolongationSteps b = q_ProlongationRepeats s /\ bq_prolongationSec b = q_ProlongationSec s /\
    bq_isProlongationTimeoutRetry b = q_IsProlongationTimeoutRetry s /\
    bq_processingAutosave b = q_ProcessingAutosave s.
Proof. intros Hg. unfold NewBaseQueue. rewrite Hg. eexists. split; [reflexivity|]. by split_and!. Qed.

Lemma join_settings_fixed domainId type_ teamId vars params formId wp :
  q_GranteeId (join_settings domainId type_ teamId vars params formId wp) = None /\
  q_ProcessingAutosave (join_settings domainId type_ teamId vars params formId wp) = false.
Proof. unfold join_settings, UseProlongationOptions. by repeat case_match. Qed.

Lemma dump_params_on nm auto p :
  pq_Enabled p = true ->
  dump_params nm auto (Some p) =
    let pl := match pq_Prolongation p with Some pl => if pl_Enabled pl then Some pl else None | None => None end in
    MkQueueDumpParams (Some true) (if decide (pq_FormId p > 0) then Some true else None)
      (pq_Sec p) (auto && pq_Autosave p) (pq_RenewalSec p) nm
      (match pl with Some _ => Some true | None => None end)
      (match pl with Some pl => pl_RepeatsNumber pl | None => 0 end)
      (match pl with Some pl => pl_ProlongationTimeSec pl | None => 0 end)
      (match pl with Some pl => pl_IsTimeoutRetry pl | None => false end).
Proof.
  intros He. unfold dump_params. rewrite He.
  destruct (pq_Prolongation p) as [pl|]; [destruct (pl_Enabled pl)|]; reflexivity.
Qed.

(** A call or task joined straight to an agent gets a queue of its own. The processing
    time, the renewal time and the form of the request reach that queue and, for calls, the
    prolongation; the autosave flag reaches the parameters stored with the attempt but
    never the queue, whose autosave stays off. Building the queue cannot panic. *)
Theorem join_queue_processing (domainId type_ teamId : Z) (vars : gomap) (nm : string) (is_call : bool)
    (p : ProcessingRequest) :
  pq_Enabled p = true ->
  let params := dump_params nm is_call (Some p) in
  exists b, NewBaseQueue (join_settings domainId type_ teamId vars params (pq_FormId p) is_call) = Ret b /\
    bq_processing b = true /\ bq_processingSec b = pq_Sec p /\ bq_processingRenewalSec b = pq_RenewalSec p /\
    bq_formSchemaId b = (if decide (pq_FormId p > 0) then Some (pq_FormId p) else None) /\
    bq_isProlongationEnabled b =
      is_call && match pq_Prolongation p with Some pl => pl_Enabled pl | None => false end /\
    (forall pl, is_call = true -> pq_Prolongation p = Some pl -> pl_Enabled pl = true ->
       bq_prolongationSteps b = pl_RepeatsNumber pl /\ bq_prolongationSec b = pl_ProlongationTimeSec pl /\
       bq_isProlongationTimeoutRetry b = pl_IsTimeoutRetry pl) /\
    bq_processingAutosave b = false /\ qd_ProcessingAutosave params = is_call && pq_Autosave p.
Proof.
  intros He params.
  destruct (NewBaseQueue_plain (join_settings domainId type_ teamId vars params (pq_FormId p) is_call))
    as (b & Eb & E1 & E2 & E3 & E4 & E5 & E6 & E7 & E8 & E9).
  { apply join_settings_fixed. }
  exists b. split; [done|]. rewrite E1, E2, E3, E4, E5, E6, E7, E8, E9. clear Eb E1 E2 E3 E4 E5 E6 E7 E8 E9 b.
  rewrite (proj2 (join_settings_fixed _ _ _ _ _ _ _)).
  assert (qd_HasReporting params = Some true) as Hr by (subst params; by rewrite dump_params_on).
  unfold join_settings. rewrite bool_decide_eq_true_2 by done. unfold params.
  rewrite dump_params_on by done.
  destruct (pq_Prolongation p) as [pl|]; [destruct (pl_Enabled pl) eqn:El|];
    destruct is_call, (decide (pq_FormId p > 0)); simpl; split_and!; try done;
    intros; simplify_eq; done || congruence.
Qed.

Definition demo_processing : ProcessingRequest :=
  MkProcessingRequest true true 40 10 7 false (Some (MkProlongationRequest true 2 20 false)).

Lemma join_queue_processing_witness :
  exists b, NewBaseQueue (join_settings 1 QueueTypeOutboundCall 2 None
                            (dump_params "agent" true (Some demo_processing)) 7 true) = Ret b /\
    bq_processingSec b = 40 /\ bq_processingAutosave b = false.
Proof.
  destruct (join_queue_processing 1 QueueTypeOutboundCall 2 None "agent" true demo_processing eq_refl)
    as (b & E & _ & Es & _ & _ & _ & _ & Ea & _).
  exists b. split; [exact E|]. split; [exact Es|exact Ea].
Defined.
