(* ===== verification/Messages.v ===== *)
(** * Chats, instant messages and direct members: queue/queue_manager.go

    The entry points for conversations and the transfer of an instant message
    conversation between agents, which runs two attempts on one thread: the source
    attempt is reserved, the new attempt is created, and the new one completes or
    releases the reservation. *)

From S2P Require Import Prelude Model Queue Attempt World Agents Events Schema Manager.
From S2P Require Import Team Distribute.

Record ChatJoinToQueueRequest := MkChatJoinToQueueRequest {
  cq_QueueId : Z;
  cq_ConversationId : string;
  cq_Variables : gomap;
  cq_BucketId : Z;
  cq_Priority : Z;
  cq_StickyAgentId : Z;
  cq_ExtraChatCount : bool;
}.

Record IMJoinToQueueRequest := MkIMJoinToQueueRequest {
  ij_QueueId : Z;
  ij_ThreadId : string;
  ij_Variables : gomap;
  ij_BucketId : Z;
  ij_Priority : Z;
  ij_StickyAgentId : Z;
  ij_Subject : string;
  ij_LastMessage : string;
  ij_From : IMMemberInfo;
  ij_To : IMMemberInfo;
  ij_Members : list IMMemberInfo;
}.

(** The destination stored with an instant message attempt. *)
Definition im_destination (rq : IMJoinToQueueRequest) : IMThreadCommunication := {|
  imd_Destination := imm_Sub (ij_From rq);
  imd_Thread := {| imt_ID := ij_ThreadId rq; imt_Subject := ij_Subject rq;
                   imt_Members := ij_Members rq; imt_LastMessage := ij_LastMessage rq;
                   imt_Channel := NewIMChannelFromMembers (ij_Members rq) |};
  imd_ApiSub := imm_Sub (ij_To rq);
  imd_MemberSub := imm_Sub (ij_From rq);
  imd_MemberId := imm_MemberId (ij_From rq);
  imd_TransferFrom := "";
  imd_TransferAttemptId := 0;
  imd_TransferAgentId := 0 |}.

Section Messages.
Context {OC : Type -> Type} {HOC : ObjectCache OC} {SV : Services} {DE : Decoders}.

(** [if _, err = qm.DistributeAttempt(attempt); err != nil] cancels in the store. *)
Definition distribute_or_cancel (l : loc) (attemptId : Z) : M OC (result loc) :=
  r ← DistributeAttempt l;
  match r with
  | inl e => _ ← cancel_call_queue attemptId; mret (inl e)
  | inr _ => mret (inr l)
  end.

Definition DistributeChatToQueue (rq : ChatJoinToQueueRequest) : M OC (result loc) :=
  let bucketId := nonzero (cq_BucketId rq) in
  res ←ok call (DistributeChatStore svc_node (cq_QueueId rq) (cq_ConversationId rq) (cq_Variables rq)
                 bucketId (cq_Priority rq) (nonzero (cq_StickyAgentId rq)) (cq_ExtraChatCount rq))
           svc_inboundChat;
  now ← now_ns;
  l ← CreateAttemptIfNotExists
        ((zero_MemberAttempt (ch_AttemptId res))
           <| ma_QueueId := (ch_QueueId res) |> <| ma_QueueUpdatedAt := (ch_QueueUpdatedAt res) |>
           <| ma_CreatedAt := now |> <| ma_Destination := (ch_Destination res) |>
           <| ma_ListCommunicationId := (ch_ListCommunicationId res) |>
           <| ma_TeamUpdatedAt := (ch_TeamUpdatedAt res) |> <| ma_Variables := (ch_Variables res) |>
           <| ma_Name := (ch_Name res) |> <| ma_MemberCallId := (Some (ch_ConversationId res)) |>
           <| ma_BucketId := bucketId |>);
  distribute_or_cancel l (ch_AttemptId res).

Definition startIMAttempt (res : InboundIMQueue) (agentId bucketId : option Z) : M OC (result loc) :=
  now ← now_ns;
  l ← CreateAttemptIfNotExists
        ((zero_MemberAttempt (imq_AttemptId res))
           <| ma_QueueId := (imq_QueueId res) |> <| ma_QueueUpdatedAt := (imq_QueueUpdatedAt res) |>
           <| ma_CreatedAt := now |> <| ma_Destination := (imq_Destination res) |>
           <| ma_ListCommunicationId := (imq_ListCommunicationId res) |>
           <| ma_AgentId := agentId |> <| ma_AgentUpdatedAt := (imq_AgentUpdatedAt res) |>
           <| ma_TeamUpdatedAt := (imq_TeamUpdatedAt res) |> <| ma_Variables := (imq_Variables res) |>
           <| ma_Name := (imq_Name res) |> <| ma_MemberCallId := (Some (imq_ThreadId res)) |>
           <| ma_BucketId := bucketId |>);
  distribute_or_cancel l (imq_AttemptId res).

Definition distributeIMDestination (queueId : Z) (threadId : string) (dest : IMThreadCommunication)
    (vars : gomap) (bucketId : option Z) (priority : Z) (stickyAgentId : option Z) : M OC (result loc) :=
  res ←ok call (DistributeIMStore svc_node queueId threadId (encode_im dest) vars bucketId priority
                 stickyAgentId) svc_inboundIM;
  startIMAttempt res None bucketId.

(** The attempt, and whether the member rejoined the attempt it is bridged to. *)
Definition DistributeIMToQueue (rq : IMJoinToQueueRequest) : M OC (result (loc * bool)) :=
  tag ← ask (fun t => svc_bridgedSession t (ij_ThreadId rq));
  joined ← match tag with
           | Some tag => o ← GetAttempt tag;
                         match o with
                         | Some l => _ ← emit (IMSetBotActive tag false); mret (Some l)
                         | None => mret None
                         end
           | None => mret None
           end;
  match joined with
  | Some l => mret (inr (l, true))
  | None =>
      l ←ok distributeIMDestination (ij_QueueId rq) (ij_ThreadId rq) (im_destination rq)
              (ij_Variables rq) (nonzero (ij_BucketId rq)) (ij_Priority rq)
              (nonzero (ij_StickyAgentId rq));
      mret (inr (l, false))
  end.

Definition distributeIMTransfer (l : loc) (dest : IMThreadCommunication) (agentId queueId : Z)
    : M OC (result loc) :=
  a ← get_attempt l;
  let m := at_member a in
  match ma_MemberCallId m with
  | None => panic nil_deref
  | Some threadId =>
      if decide (agentId <> 0) then
        res ←ok call (DistributeIMToAgentStore svc_node (at_QueueId a) agentId threadId (encode_im dest)
                       (ma_Variables m) (ma_BucketId m)) svc_inboundIM;
        startIMAttempt res (Some agentId) (ma_BucketId m)
      else
        let bucketId := if decide (queueId = at_QueueId a) then ma_BucketId m else None in
        priority ←ok call (AttemptWeight (at_Id a)) svc_timestamp;
        distributeIMDestination queueId threadId dest (ma_Variables m) bucketId priority None
  end.

Definition im_error (id detail : string) (code : Z) : option AppError :=
  Some (NewAppError "QM" ("qm.transfer_im." +:+ id) detail code).

Definition TransferIM (domainId attemptId agentId queueId : Z) : M OC (option AppError) :=
  let att := "attempt " +:+ fmt_d attemptId in
  o ← GetAttempt attemptId;
  match o with
  | None => mret (im_error "valid.attempt" "Not found" 404)
  | Some l =>
      a ← get_attempt l;
      if decide (at_domainId a <> domainId) then mret (im_error "valid.attempt" "Not found" 404)
      else if decide (at_channel a <> QueueChannelIM) then mret (im_error "valid.channel" (att +:+ " is not an im conversation") 400)
      else match ma_MemberCallId (at_member a) with
      | None => mret (im_error "valid.thread" (att +:+ " has no thread") 400)
      | Some _ =>
      match at_agent a with
      | None => mret (im_error "valid.state" (att +:+ " is not bridged to an agent") 409)
      | Some g =>
          if decide (at_state a <> MemberStateBridged) then mret (im_error "valid.state" (att +:+ " is not bridged to an agent") 409)
          else
            ag ← get_agent g;
            if decide (agentId <> 0 /\ agentId = ag_Id ag) then mret (im_error "valid.agent" (att +:+ " is already handled by agent " +:+ fmt_d agentId) 400)
            else match decode_im (ma_Destination (at_member a)) with
            | (_, Some err) => mret (im_error "destination" err 500)
            | (dest, None) =>
                _ ← mod_attempt l (fun a => (reserveIMTransfer a).2);
                if negb (reserveIMTransfer a).1 then
                  mret (im_error "valid.pending" (att +:+ " is already being transferred") 409)
                else
                  let dest := dest <| imd_TransferFrom := (fmt_d (Agent_UserId ag)) |>
                                   <| imd_TransferAttemptId := attemptId |>
                                   <| imd_TransferAgentId := agentId |> in
                  r ← distributeIMTransfer l dest agentId queueId;
                  match r with
                  | inl e => _ ← mod_attempt l (Attempt_releaseIMTransfer 0); mret (Some e)
                  | inr to =>
                      t ← get_attempt to;
                      _ ← mod_attempt l (setIMTransferTo (at_Id t));
                      mret None
                  end
            end
      end
      end
  end.

Definition completeIMTransfer (fromId : Z) (to toAgent : loc) : M OC unit :=
  o ← GetAttempt fromId;
  match o with
  | None => mret tt
  | Some l =>
      a ← get_attempt l;
      _ ← mod_attempt_o l Attempt_completeIMTransfer;
      match at_agent a with
      | None => mret tt
      | Some g =>
          from ← get_agent g;
          ta ← get_agent toAgent;
          t ← get_attempt to;
          _ ← call_err (TransferredIM fromId (at_Id t) (ag_Id from) (ag_Id ta));
          mret tt
      end
  end.

Definition releaseIMTransfer (fromId toId : Z) : M OC unit :=
  if decide (fromId = 0) then mret tt
  else
    o ← GetAttempt fromId;
    match o with
    | Some l => mod_attempt l (Attempt_releaseIMTransfer toId)
    | None => mret tt
    end.

(** ** Direct members and interception *)

Definition DistributeDirectMember (memberId communicationId agentId : Z) : M OC (result loc) :=
  member ←ok call (DistributeDirectStore svc_node memberId (communicationId - 1) agentId) svc_member;
  l ← CreateAttemptIfNotExists member;
  _ ← DistributeAttempt l;
  a ← get_attempt l;
  _ ← call_err (NotificationHideMember (at_domainId a) (at_QueueId a) (MemberId a) agentId);
  mret (inr l).

Definition InterceptAttempt (domainId attemptId agentId : Z) : M OC (option AppError) :=
  r ← call (InterceptStore domainId attemptId agentId) svc_timestamp;
  match r with
  | inl e => mret (Some e)
  | inr queueId =>
      _ ← call_err (NotificationIntercept domainId queueId "" attemptId agentId);
      mret None
  end.

End Messages.
