(* ===== verification/ImQueue.v ===== *)
(** * Inbound instant messages: queue/im_inbound.go

    The goroutine of an instant message attempt, on the queue manager and on the sessions of
    the package im. The loop of run and the one of handleAgentInteraction are one loop over
    their variables; [ml_inner] while handleAgentInteraction runs. The task channel is the
    one in the heap of the manager and the session the one of the client: [MState] and
    [MSession] look at them, [MTask], [MListen] and [MComplete] are what the agent's
    requests, the listener of the client and the transfer to another attempt do to them
    between two steps. The cleanup of a session, a goroutine of its own in the source, runs
    at once. *)

From S2P Require Import Prelude Model Queue Attempt TaskChannel World Sessions Agents Events Schema.
From S2P Require Import Manager Team Distribute Messages Calling Im.

Definition imTimerCheckIdle : Z := 30.
Definition imPreviewGrace : Z := 5 * second_ns.

Inductive MEvent :=
| MCancel | MContext | MSession | MAgent | MTimer | MInvite | MState | MTransferred
| MTask (op : task_op)
| MListen (msg : IMMessage)
| MComplete.

(** [ml_timer] and [ml_invite]: the timers of the wait and of the invite are running;
    [ml_cancel]: the variable cancel of handleAgentInteraction is not nil; [ml_ctx]: the
    context of the attempt is done. *)
Record ImLoop := MkImLoop {
  ml_inner : bool;
  ml_agent : option loc;
  ml_team : option agentTeam;
  ml_task : option loc;
  ml_timer : bool;
  ml_invite : bool;
  ml_cancel : bool;
  ml_ctx : bool;
}.

#[export] Instance eta_ImLoop : Eta ImLoop := fun s =>
  MkImLoop (ml_inner s) (ml_agent s) (ml_team s) (ml_task s) (ml_timer s) (ml_invite s) (ml_cancel s)
    (ml_ctx s).

Definition imInviteDuration (tm : agentTeam) : Z :=
  let d := tm_InviteChatTimeout (te_data tm) * second_ns in
  if decide (d > MaxPreviewDuration) then MaxPreviewDuration else d.

(** previewDur of givePreview *)
Definition preview_duration (d : Z) : Z :=
  if decide (d + imPreviewGrace > MaxPreviewDuration) then MaxPreviewDuration else d + imPreviewGrace.

Definition im_channel (x : ImSession) : Channel := MkChannel ChIM (is_threadId x).

Section ImQueue.
Context {OC : Type -> Type} {HOC : ObjectCache OC} {SV : Services} {DE : Decoders} {SRV : ImServer}.

Abbreviation I := (ST ImState OC).

Definition NotificationQueue (nm : string) (l : loc) : M OC unit :=
  a ← get_attempt l;
  _ ← call_err (NotifyQueue nm (at_Id a) (Result a));
  mret tt.

Section InboundIMQueue.
Variable q : QueueObject.
Variable set : InboundIMQueueSettings.
Variable l : loc.
Variable sess : loc.
Variable info : IMThreadCommunication.

Definition imQueue : ImQueue := MkImQueue (bq_id (qo_base q)) (bq_name (qo_base q)).

(** ** Previews and membership *)

Definition givePreview (ag : Agent) (d : Z) : I (option ImError) :=
  if decide (d <= 0) then mret None
  else own (GivePreviewUser sess (Agent_UserId ag) (preview_duration d)).

(** The error of the gateway is only logged. *)
Definition removePreview : I unit :=
  x ← own (get_session sess);
  if HasPreview x then _ ← own (RemovePreviewUser sess); mret tt else mret tt.

Definition transferAgent (agent : loc) : I (option ImError) :=
  _ ← removePreview;
  ag ← up (get_agent agent);
  err ← own (TransferMemberUser sess (Agent_UserId ag) (imd_TransferFrom info) imQueue);
  match err with
  | Some e => mret (Some e)
  | None => _ ← up (completeIMTransfer (imd_TransferAttemptId info) l agent); mret None
  end.

Definition joinAgent (agent : loc) : I (option ImError) :=
  if decide (imd_TransferFrom info <> "") then transferAgent agent
  else
    ag ← up (get_agent agent);
    x ← own (get_session sess);
    if IsUserJoined (Agent_UserId ag) x then mret None
    else if HasPreview x then own (UpgradePreviewUser sess (Agent_UserId ag) imQueue)
    else own (AddMemberUser sess (Agent_UserId ag) imQueue).

(** ** Idle limits *)

Definition isAgentIdle (now : Z) (task : option loc) (x : ImSession) : bool :=
  match task with
  | None => false
  | Some _ =>
      if ii_LastMessageTimeout set
      then bool_decide (Im_SilentSec now x >= ii_MaxIdleAgent set)
           && bool_decide (OperatorIdleMessage now x > MemberIdleMessage now x)
      else bool_decide (OperatorIdleMessage now x >= ii_MaxIdleAgent set)
  end.

Definition isClientIdle (now : Z) (task : option loc) (x : ImSession) : bool :=
  match task with
  | None => false
  | Some _ =>
      if ii_LastMessageTimeout set
      then bool_decide (Im_SilentSec now x >= ii_MaxIdleClient set)
           && bool_decide (MemberIdleMessage now x > OperatorIdleMessage now x)
      else bool_decide (MemberIdleMessage now x >= ii_MaxIdleClient set)
  end.

(** The limit that is reached: the result of the attempt and the reason. *)
Definition idle_limit (now : Z) (task : option loc) (x : ImSession) : option (string * string) :=
  if negb (is_botActive x) && bool_decide (ii_MaxIdleAgent set > 0) && isAgentIdle now task x
  then Some (AttemptResultAgentTimeout, IMTimeoutReasonAgent)
  else if negb (is_botActive x) && bool_decide (ii_MaxIdleClient set > 0) && isClientIdle now task x
  then Some (AttemptResultClientTimeout, IMTimeoutReasonClient)
  else if bool_decide (ii_MaxIdleDialog set > 0) && bool_decide (task <> None)
          && bool_decide (Im_SilentSec now x >= ii_MaxIdleDialog set)
  then Some (AttemptResultDialogTimeout, IMTimeoutReasonDialog)
  else None.

(** [None] to go on, or the reason of the end. *)
Definition checkIdleTimeouts (task : option loc) : I (option string) :=
  a ← up (get_attempt l);
  if decide (at_bridgedAt a = 0) then mret (Some IMTimeoutReasonNone)
  else
    now ← own ic_millis;
    x ← own (get_session sess);
    match idle_limit now task x with
    | Some (result, reason) => _ ← up (mod_attempt l (SetResult result)); mret (Some reason)
    | None => mret None
    end.

(** ** The end *)

Definition cleanupSession (agent : option loc) (endReason : string) : I unit :=
  _ ← match agent with Some _ => removePreview | None => mret tt end;
  a ← up (get_attempt l);
  _ ← (if bool_decide (agent <> None) && negb (IMTransferred a)
       then _ ← own (RemoveMemberUser sess endReason); mret tt else mret tt);
  _ ← up (leaving_hooks l);
  _ ← up (NotificationQueue MemberStateLeaving l);
  a ← up (get_attempt l);
  own (Im_Close sess (at_Id a)).

(** The agent of the attempt is told, or the attempt is given up. *)
Definition finalize_attempt (agent : option loc) (team : option agentTeam) (task : option loc) : M OC RunEnd :=
  match agent, team with
  | Some agent, Some tm =>
      t ← match task with Some t => t ← get_task t; mret (Some t) | None => mret None end;
      if match t with Some t => IsDeclined t && bool_decide (tc_reportingAt t = 0) | None => false end then
        _ ← Team_Missed tm l agent;
        _ ← LeavingMember l;
        mret RunLeft
      else
        a ← get_attempt l;
        _ ← with_agent agent (fun ag =>
              Team_Reporting tm q l ag
                (match t with Some t => bool_decide (tc_reportingAt t > 0) | None => false end)
                (IMTransferred a));
        mret RunReporting
  | _, _ => _ ← Abandoned l; mret RunLeft
  end.

Definition finalizeAttempt (agent : option loc) (team : option agentTeam) (task : option loc)
    (endReason : string) : I RunEnd :=
  a ← up (get_attempt l);
  _ ← up (if IMTransferred a then mod_attempt l (SetResult AttemptResultTransfer)
          else if decide (at_imTransferTo a <> 0)
          then _ ← SetAttemptCancel (at_imTransferTo a) AttemptResultCancel; mret tt
          else mret tt);
  x ← up (finalize_attempt agent team task);
  _ ← cleanupSession agent endReason;
  mret x.

(** [return queue.finalizeAttempt(...)] with the agent of the loop, or with the agent of the
    attempt after handleAgentInteraction. *)
Definition im_stop (s : ImLoop) (agent : option loc) (reason : string) : I (RunEnd + ImLoop) :=
  x ← finalizeAttempt agent (ml_team s) (ml_task s) reason;
  mret (inl x).

Definition im_stop_interaction (s : ImLoop) (reason : string) : I (RunEnd + ImLoop) :=
  a ← up (get_attempt l);
  im_stop s (at_agent a) reason.

(** handleTimeoutTick, [stop] being what follows the end *)
Definition im_tick (s : ImLoop) (stop : string -> I (RunEnd + ImLoop)) : I (RunEnd + ImLoop) :=
  r ← checkIdleTimeouts (ml_task s);
  match r with
  | Some reason => stop reason
  | None => mret (inr (s <| ml_timer := true |>))
  end.

(** ** Offering *)

(** The agent was missed: the attempt of a transfer to an agent ends, any other goes back to
    the loop of run. *)
Definition im_missed (s : ImLoop) (tm : agentTeam) (agent : loc) (err : option string)
    (stop : I (RunEnd + ImLoop)) : I (RunEnd + ImLoop) :=
  _ ← up (MissedAgentAndWaitingAttemptWithError tm l agent err);
  if decide (imd_TransferAgentId info <> 0) then stop
  else
    _ ← up (SetState l MemberStateWaitAgent);
    _ ← up (emit (EmitHook l "missed"));
    mret (inr (s <| ml_inner := false |>)).

(** The agent that asked for the transfer is not offered the attempt. *)
Definition im_skip (s : ImLoop) : I (RunEnd + ImLoop) :=
  a ← up (get_attempt l);
  _ ← up (SetFindAgentState (at_Id a));
  _ ← up (mod_attempt l (SetAgent None));
  _ ← up (SetState l MemberStateWaitAgent);
  mret (inr s).

(** The invitation of the agent, after the preview. *)
Definition im_invite (s : ImLoop) (tm : agentTeam) (agent task : loc) (alreadyMember : bool)
    : I (RunEnd + ImLoop) :=
  ag ← up (get_agent agent);
  t ← up (get_task task);
  x ← own (get_session sess);
  let ch := MkChannel ChTask (tc_id t) in
  e ← up (NewDistributeEvent l (Agent_UserId ag) q ag (bq_processing (qo_base q)) (Some (im_channel x))
            (Some ch) (tm_InviteChatTimeout (te_data tm)));
  _ ← up (Team_Distribute q ag e);
  _ ← up (Team_Offering l ag ch (Some (im_channel x)));
  _ ← (if alreadyMember then
         _ ← own (mod_im sess (MarkUserJoined (Agent_UserId ag)));
         _ ← up (task_op_at SetAnswered task);
         mret tt
       else mret tt);
  mret (inr (s <| ml_inner := true |> <| ml_invite := true |> <| ml_cancel := true |>)).

(** [case <-ags] *)
Definition im_distribute (s : ImLoop) : I (RunEnd + ImLoop) :=
  a ← up (get_attempt l);
  r ← up (BaseQueue_GetTeam l);
  match r, at_agent a with
  | inl _, _ => mret (inl RunDropped)
  | inr _, None => up (panic nil_deref)
  | inr tm, Some agent =>
      ag ← up (get_agent agent);
      let s := s <| ml_agent := (Some agent) |> <| ml_team := (Some tm) |> in
      if decide (imd_TransferFrom info = fmt_d (Agent_UserId ag)) then im_skip s
      else
        now ← up GetMillis;
        task ← up (new_task (NewTaskChannel now (fmt_d (at_Id a))));
        _ ← up (mod_attempt l (fun a => a <| at_channelData := (Some task) |>));
        let s := s <| ml_task := (Some task) |> in
        err ← givePreview ag (imInviteDuration tm);
        match err with
        | None => im_invite s tm agent task false
        | Some e =>
            if IsAlreadyMember e then im_invite s tm agent task true
            else im_missed s tm agent (Some (ImError_Error e)) (im_stop s None IMTimeoutReasonNone)
        end
  end.

(** ** handleAgentInteraction *)

(** [if task.bridgedAt == 0 { task.SetClosed() }] *)
Definition close_task (task : loc) : I unit :=
  t ← up (get_task task);
  if decide (tc_bridgedAt t = 0) then _ ← up (task_op_at SetClosed task); mret tt else mret tt.

(** [case state := <-task.stateC] *)
Definition im_state (s : ImLoop) (tm : agentTeam) (agent task : loc) (st : TaskState) : I (RunEnd + ImLoop) :=
  let s := s <| ml_invite := false |> in
  let stop := im_stop_interaction s IMTimeoutReasonNone in
  match st with
  | TaskStateBridged =>
      err ← joinAgent agent;
      match err with
      | Some e =>
          _ ← removePreview;
          im_missed s tm agent (Some (ImError_Error e)) stop
      | None =>
          _ ← up (NotificationQueue MemberStateBridged l);
          now ← own ic_millis;
          _ ← own (mod_im sess (Im_SetActivity now));
          _ ← up (with_agent agent (Team_Bridged l));
          mret (inr (s <| ml_timer := true |>))
      end
  | TaskStateClosed =>
      t ← up (get_task task);
      if IsDeclined t then
        _ ← removePreview;
        im_missed s tm agent None stop
      else stop
  | TaskStateIdle => mret (inr s)
  end.

(** The goroutine receives from the channel of the task. *)
Definition recv_task (task : loc) : M OC (option TaskState) :=
  t ← get_task task;
  match recv t with
  | Ret (st, t) => _ ← put_task task t; mret (Some st)
  | _ => mret None
  end.

(** ** What happens between the steps *)

(** A request of the agent, which waits while the channel is full. *)
Definition task_request (op : task_op) (task : loc) : M OC unit :=
  now ← GetMillis;
  t ← get_task task;
  match match op with
        | OpAnswer => SetAnswered now t
        | OpClose => SetClosed now t
        | OpReport => Task_Reporting now t
        | OpRecv => Block "task.stateC"
        end with
  | Ret (_, t) => put_task task t
  | _ => mret tt
  end.

Definition im_between (s : ImLoop) (ev : MEvent) : option (I (RunEnd + ImLoop)) :=
  match ev with
  | MTask op => task ← ml_task s; Some (_ ← up (task_request op task); mret (inr s))
  | MListen msg => Some (_ ← own (im_event msg); mret (inr s))
  | MComplete => Some (_ ← up (mod_attempt_o l Attempt_completeIMTransfer); mret (inr s))
  | _ => None
  end.

Definition im_inner (s : ImLoop) (tm : agentTeam) (agent task : loc) (ev : MEvent)
    : option (I (RunEnd + ImLoop)) :=
  match ev with
  | MCancel => if ml_cancel s
               then Some (_ ← close_task task; mret (inr (s <| ml_cancel := false |>))) else None
  | MTransferred =>
      Some (a ← up (get_attempt l);
            if IMTransferred a then im_stop_interaction s IMTimeoutReasonNone else mret (inr s))
  | MSession =>
      Some (x ← own (get_session sess);
            if is_cancelled x || ml_ctx s then im_stop_interaction s IMTimeoutReasonNone else mret (inr s))
  | MState => Some (st ← up (recv_task task);
                    match st with Some st => im_state s tm agent task st | None => mret (inr s) end)
  | MInvite => if ml_invite s then Some (_ ← close_task task; mret (inr (s <| ml_invite := false |>))) else None
  | MTimer => if ml_timer s then Some (im_tick (s <| ml_timer := false |>) (im_stop_interaction s)) else None
  | MContext => Some (mret (inr (s <| ml_ctx := true |>)))
  | MAgent => None
  | _ => im_between s ev
  end.

Definition im_outer (s : ImLoop) (ev : MEvent) : option (I (RunEnd + ImLoop)) :=
  let stop := im_stop s (ml_agent s) in
  match ev with
  | MCancel | MContext => Some (stop IMTimeoutReasonNone)
  | MSession => Some (x ← own (get_session sess);
                      if is_cancelled x || ml_ctx s then stop IMTimeoutReasonNone else mret (inr s))
  | MAgent => Some (im_distribute s)
  | MTimer => if ml_timer s then Some (im_tick (s <| ml_timer := false |>) stop) else None
  | MInvite | MState | MTransferred => None
  | _ => im_between s ev
  end.

Definition im_handle (s : ImLoop) (ev : MEvent) : option (I (RunEnd + ImLoop)) :=
  if ml_inner s then
    match ml_team s, ml_agent s, ml_task s with
    | Some tm, Some agent, Some task => im_inner s tm agent task ev
    | _, _, _ => Some (up (panic nil_deref))
    end
  else im_outer s ev.

(** ** run *)

Definition im_body (evs : list MEvent) : I RunEnd :=
  _ ← up (Hook (qo_base q) HookJoined l);
  a ← up (get_attempt l);
  err ← up (if decide (imd_TransferAgentId info = 0) then SetFindAgentState (at_Id a) else mret None);
  match err with
  | Some _ => mret RunDropped
  | None =>
      _ ← up (SetState l MemberStateWaitAgent);
      x ← own (get_session sess);
      _ ← up (mod_attempt l (fun a => a <| at_memberChannel := (Some (im_channel x)) |>));
      a ← up (get_attempt l);
      _ ← up (if decide (imd_TransferAgentId info = 0) then mret tt
              else match at_agent a with
                   | Some agent => DistributeAgent l agent
                   | None => panic nil_deref
                   end);
      r ← st_loop (fun _ => false) im_handle evs (MkImLoop false None None None true false false false);
      match r with
      | inl x => mret x
      | inr _ => mret RunDropped (* the loop has no other exit *)
      end
  end.

(** The transfer is released when the goroutine returns. *)
Definition inbound_im_run (evs : list MEvent) : I RunEnd :=
  x ← im_body evs;
  a ← up (get_attempt l);
  _ ← up (releaseIMTransfer (imd_TransferAttemptId info) (at_Id a));
  mret x.

End InboundIMQueue.
End ImQueue.
