(* ===== verification/Dialing.v ===== *)
(** * The dialing loop, the agents' operations of the app, and task queues

    queue/dialing.go: the periodic routing of members and agents; app/agent.go: the
    status operations of the API; queue/task_inbound.go, queue/task_agent.go and
    queue/task_outbound.go: the goroutines of the task queues. The select of a task's
    goroutine takes the next of the events it is given: a value of the task channel or
    the timeout; when they run out it waits ([Block]). *)

From S2P Require Import Prelude Model Queue Attempt TaskChannel World Agents Events Schema.
From S2P Require Import Manager Team Distribute Messages.

Inductive task_event := EvState (s : TaskState) | EvTimeout.

Section Dialing.
Context {OC : Type -> Type} {HOC : ObjectCache OC} {SV : Services} {DE : Decoders}.

(** ** queue/dialing.go *)

(** The channel [input] hands the attempt to the loop of the manager, which distributes it. *)
Definition routeIdleAttempts : M OC unit :=
  ready ← ask svc_ready;
  if negb ready then mret tt
  else
    chans ← call GetChannelTimeout svc_channelTimeouts;
    _ ← match chans with
        | inr l => for_each l (fun v =>
            _ ← call_err (AgentChannelEvent (ct_Channel v) (ct_DomainId v) 0 (ct_UserId v)
                   (NewWaitingChannelEvent (ct_Channel v) (ct_UserId v) None (ct_Timestamp v)));
            mret tt)
        | inl _ => mret tt
        end;
    members ← call (GetActiveMembers svc_node) svc_members;
    match members with
    | inl _ => emit SleepSecond
    | inr l => for_each l (fun v =>
        match ma_MemberId v with
        | None => mret tt
        | Some _ =>
            now ← now_ns;
            att ← CreateAttemptIfNotExists (v <| ma_CreatedAt := now |>);
            _ ← DistributeAttempt att;
            mret tt
        end)
    end.

(** One member of GetTimeouts. *)
Definition route_timeout (v : AttemptReportingTimeout) : M OC unit :=
  _ ← call_err (AgentChannelEvent (rto_Channel v) (rto_DomainId v) 0 (rto_UserId v)
         (NewWaitingChannelEvent (rto_Channel v) (rto_UserId v) (Some (rto_AttemptId v)) (rto_Timestamp v)));
  o ← GetAttempt (rto_AttemptId v);
  match o with
  | Some l =>
      _ ← mod_attempt l (SetResult AttemptResultTimeout);
      a ← get_attempt l;
      let isProlongationTimeout := match at_queue a with
        | Some q => bq_isProlongationEnabled (qo_base q)
                    && negb (bq_isProlongationTimeoutRetry (qo_base q))
        | None => false
        end in
      if bool_decide (rto_AfterSchemaId v = None) && negb isProlongationTimeout
      then LeavingMember l else TimeoutLeavingMember l
  | None => _ ← call_err (SetTimeoutError (rto_AttemptId v)); mret tt
  end.

Definition routeAgentToAttempt (attemptId : Z) (agent : loc) : M OC unit :=
  o ← members_get attemptId;
  match o with
  | Some l =>
      a ← get_attempt l;
      r ← GetQueue (at_QueueId a) (ma_QueueUpdatedAt (at_member a));
      match r with
      | inr _ => DistributeAgent l agent
      | inl _ => mret tt
      end
  | None => mret tt
  end.

Definition routeIdleAgents : M OC unit :=
  ready ← ask svc_ready;
  if negb ready then mret tt
  else
    ts ← call (GetTimeoutsStore svc_node) svc_timeouts;
    _ ← match ts with
        | inr l => for_each l route_timeout
        | inl _ => mret tt
        end;
    h ← call SaveToHistory svc_error;
    _ ← match h with Some _ => emit SleepSecond | None => mret tt end;
    rs ← call (ReservedForAttempt svc_node) svc_reserved;
    match rs with
    | inl _ => emit SleepSecond
    | inr l => for_each l (fun v =>
        g ← GetAgent (aa_AgentId v) (aa_AgentUpdatedAt v);
        match g with
        | inl _ => mret tt
        | inr agent =>
            _ ← mod_agent agent (SetTeamUpdatedAt (aa_TeamUpdatedAt v));
            routeAgentToAttempt (aa_AttemptId v) agent
        end)
    end.

Definition routeData : M OC unit := _ ← routeIdleAttempts; routeIdleAgents.

(** ** app/agent.go *)

Definition hangupNoAnswerChannels (chs : list CallNoAnswer) : M OC unit :=
  for_each chs (fun ch =>
    match na_Id ch, na_AppId ch with
    | Some id, Some app => _ ← call_err (CallHangupById id app); mret tt
    | _, _ =>
        o ← GetAttempt (na_AttemptId ch);
        match o with
        | Some l => attempt_SetCancel l
        | None => mret tt
        end
    end).

Definition drop_no_answer (agentId : Z) (queueTypes : list Z) : M OC unit :=
  chs ← call (AgentNoAnswerChannels agentId queueTypes) svc_noAnswer;
  match chs with Some l => hangupNoAnswerChannels l | None => mret tt end.

Definition AgentGoOnline (domainId agentId : Z) (onDemand : bool) (status : option Lookup)
    : M OC (result AgentOnlineData) :=
  d ←ok call (AgentSetOnlineAtomic domainId agentId onDemand status) svc_agentOnlineAtomic;
  let ad := MkAgentOnlineData (so_Timestamp d) (so_Channels d) (Some (so_StatusPreset d)) in
  l ← PutAgentCache (so_Agent d);
  _ ← mod_agent l (SetOnDemand onDemand);
  _ ← mod_agent l (StoreStatus (CreateAgentStatus AgentStatusOnline [WithStatusPreset (ao_StatusPreset ad)]));
  a ← get_agent l;
  _ ← AgentChangeStatus_mq l (NewAgentEventOnlineStatus a ad onDemand);
  _ ← AgentTeamHook HookAgentStatus l (ag_TeamUpdatedAt (so_Agent d));
  mret (inr ad).

Definition SetAgentLogout (agentId : Z) : M OC (option AppError) :=
  r ← call (AgentStoreGet agentId) svc_agent;
  match r with
  | inl e => mret (Some e)
  | inr agent =>
      if Agent_Offline agent then
        mret (Some (NewAppError "SetAgentLogout" "app.agent.set_logout.agent_logged_out" "" 400))
      else
        _ ← drop_no_answer agentId [QueueTypeProgressiveCall];
        g ← GetAgent agentId (ag_UpdatedAt agent);
        match g with
        | inl e => mret (Some e)
        | inr l =>
            then_ (SetOffline l None)
              (_ ← AgentTeamHook HookAgentStatus l (ag_TeamUpdatedAt agent); mret None)
        end
  end.

Definition getString (p : option string) : string := default "" p.

Definition SetAgentPause (agentId : Z) (payload comment : option string) : M OC (option AppError) :=
  r ← call (AgentStoreGet agentId) svc_agent;
  match r with
  | inl e => mret (Some e)
  | inr agent =>
      if decide (as_Status (ag_status agent) = AgentStatusPause /\
                 getString (as_StatusPayload (ag_status agent)) = getString payload) then
        mret (Some (NewAppError "SetAgentPause" "app.agent.set_pause.payload" "already payload" 400))
      else
        allow ← call (AgentCheckAllowPause (ag_DomainId agent) agentId) svc_allowed;
        match allow with
        | inl e => mret (Some e)
        | inr false =>
            mret (Some (NewAppError "SetAgentPause" "app.agent.set_pause.not_allow"
                          "You can't take a pause right now" 400))
        | inr true =>
            _ ← drop_no_answer agentId [];
            g ← GetAgent agentId (ag_UpdatedAt agent);
            match g with
            | inl e => mret (Some e)
            | inr l =>
                then_ (SetPause l payload comment)
                  (_ ← AgentTeamHook HookAgentStatus l (ag_TeamUpdatedAt agent); mret None)
            end
        end
  end.

Definition WaitingAgentChannel (agentId : Z) (channel : string) : M OC (option AppError) :=
  r ← call (AgentStoreGet agentId) svc_agent;
  match r with
  | inl e => mret (Some e)
  | inr agent =>
      g ← GetAgent agentId (ag_UpdatedAt agent);
      match g with
      | inl e => mret (Some e)
      | inr l => SetAgentWaitingChannel l channel
      end
  end.

Definition App_AcceptAgentTask (canceled : bool) (id agentID userID : Z) : M OC (option AppError) :=
  o ← GetAttempt id;
  match o with
  | None => mret (Some (NewAppError "App.AcceptAgentTask" "app.agent.accept_agent_task.attempt_not_found"
                          "miss attempt in store" 404))
  | Some l =>
      a ← get_attempt l;
      ag ← opt_agent (at_agent a);
      if IsReservedAgent ag agentID userID then AcceptAgentTask canceled id
      else mret (Some (NewAppError "App.AcceptAgentTask" "app.agent.accept_agent_task.forbidden"
                         "agent ID does not match the agent ID assigned to this attempt" 403))
  end.

(** ** Task queues *)

(** The loop of the select; [true] when it ended by the timeout. *)
Fixpoint task_loop (l agent : loc) (evs : list task_event) : M OC unit :=
  match evs with
  | [] => fun _ => Block "task.stateC"
  | EvTimeout :: _ => mret tt
  | EvState TaskStateBridged :: evs =>
      ag ← get_agent agent;
      _ ← Team_Bridged l ag;
      task_loop l agent evs
  | EvState TaskStateClosed :: _ => mret tt
  | EvState TaskStateIdle :: evs => task_loop l agent evs
  end.

(** run of TaskInboundQueue and of TaskAgent, whose bodies are the same. *)
Definition task_run_queue (q : QueueObject) (tm : agentTeam) (l agent task : loc)
    (evs : list task_event) : M OC unit :=
  go ← DoDistributeSchema (qo_base q) l;
  if negb go then LeavingMember l
  else
    ag ← get_agent agent;
    t ← get_task task;
    let ch := MkChannel ChTask (tc_id t) in
    e ← NewDistributeEvent l (Agent_UserId ag) q ag (bq_processing (qo_base q)) None (Some ch)
          (tm_TaskAcceptTimeout (te_data tm));
    _ ← Team_Distribute q ag e;
    _ ← Team_Offering l ag ch None;
    _ ← task_loop l agent evs;
    t ← get_task task;
    if IsDeclined t && bool_decide (tc_reportingAt t = 0) then
      _ ← CancelAgentAttempt tm l agent;
      LeavingMember l
    else
      ag ← get_agent agent;
      Team_Reporting tm q l ag (bool_decide (tc_reportingAt t > 0)) false.

(** execSchema of TaskOutboundQueue *)
Definition execSchema (q : QueueObject) (timeout : Z) (l : loc) (schemaId : Z) : M OC unit :=
  a ← get_attempt l;
  vars ← export_schema l;
  let b := qo_base q in
  _ ← call (StartSyncFlow (u32 schemaId) timeout (bq_domainId b)
              (UnionStringMaps [vars; entries (bq_variables b);
                                {[ "state" := at_state a; "channel" := bq_channel b ]}])) svc_flow_start;
  mret tt.

(** run of TaskOutboundQueue *)
Definition task_outbound_run (q : QueueObject) (s : TaskOutboundQueueSettings) (l : loc) : M OC unit :=
  go ← DoDistributeSchema (qo_base q) l;
  if negb go then LeavingMember l
  else
    _ ← SetState l MemberStateJoined;
    a ← get_attempt l;
    _ ← call (SetAttemptBridged (at_Id a)) svc_timestamp;
    _ ← SetState l MemberStateBridged;
    _ ← match bq_schemaId (qo_base q) with
        | Some schema => execSchema q (to_OriginateTimeout s) l schema
        | None => mret tt
        end;
    r ← AfterDistributeSchema l;
    a ← get_attempt l;
    _ ← match r with
        | Some res =>
            if decide (sr_Status res = AttemptResultSuccess)
            then SetAttemptSuccess l (sr_Variables res)
            else SetAttemptAbandonedWithParams l (at_maxAttempts a) (at_waitBetween a) (sr_Variables res)
        | None =>
            if decide (ma_Seq (at_member a) = Some (at_maxAttempts a))
            then SetAttemptSuccess l None
            else SetAttemptAbandonedWithParams l (at_maxAttempts a) (at_waitBetween a) None
        end;
    LeavingMember l.

End Dialing.
