(* ===== verification/Api.v ===== *)
(** * The gRPC interface: grpc_api/member.go, grpc_api/agent.go, and RunTeamTrigger

    The conversion of the requests, and the streams that follow an attempt. A request is a
    record of the fields of the generated message that the code reads. A handler of a stream
    subscribes to the hooks of the attempt and waits in a select: it is a function of the
    list of what it receives ([HookEvent]), each with what the other goroutines did to the
    manager since the event before it, on the manager and on the list of the events it sent,
    whose errors are the class [StreamPeer]. A handler that needs nothing but its arguments
    handed over is the operation itself. *)

From S2P Require Import Prelude Model Queue Attempt TaskChannel Resource World Sessions Agents.
From S2P Require Import Events Schema Manager Team Distribute Messages Dialing.

(** What an RPC fails with. *)
Inductive RpcError :=
| RApp (e : AppError)
| RText (s : string).

#[export] Instance AppError_eq_dec : EqDecision AppError.
Proof. solve_decision. Defined.

Definition ErrQueueMaxWaitSize : AppError :=
  NewAppError "Queue" "queue.bad_request.max_wait_size" "Queue max wait size" 400.

Definition AttemptResultMaxWaitSize : string := "max_wait_size".

(** ** Results of attempts *)

Record CommunicationRequest := MkCommunicationRequest {
  cmr_Destination : string;
  cmr_TypeId : Z;
  cmr_Priority : Z;
  cmr_Description : string;
  cmr_Display : string;
}.

Record AttemptResultRequest := MkAttemptResultRequest {
  ar_AttemptId : Z;
  ar_Status : string;
  ar_Description : string;
  ar_Display : bool;
  ar_Variables : gomap;
  ar_ExpireAt : Z;
  ar_NextDistributeAt : Z;
  ar_AgentId : Z;
  ar_ExcludeCurrentCommunication : bool;
  ar_Redial : bool;
  ar_WaitBetweenRetries : Z;
  ar_OnlyCurrentCommunication : bool;
  ar_AddCommunications : list CommunicationRequest;
  ar_Draft : bool;
}.

(** A switch on constants. *)
Definition terminateMember (status : string) : bool :=
  bool_decide (status = "success" \/ status = "terminate" \/ status = "cancel").

(** A time in milliseconds; 0 is the nil pointer. *)
Definition Int64ToTime (i : Z) : option Z := if decide (i = 0) then None else Some i.

(** [model.NewBool(true)] if the flag is set. *)
Definition flag (b : bool) : option bool := if b then Some true else None.

Definition communication_of (v : CommunicationRequest) : MemberCommunication := {|
  mc_Destination := cmr_Destination v;
  mc_Type := MkCommunication (cmr_TypeId v) "" None;
  mc_Priority := cmr_Priority v;
  mc_Display := (if decide (cmr_Display v = "") then None else Some (cmr_Display v));
  mc_Description := cmr_Description v;
  mc_Attempts := 0; mc_Dtmf := None; mc_Thread := None |}.

Definition callback_of (rq : AttemptResultRequest) : AttemptCallback := {|
  cb_Status := ar_Status rq;
  cb_NextCallAt := (if decide (ar_NextDistributeAt rq > 0 /\ terminateMember (ar_Status rq) = false)
                    then Int64ToTime (ar_NextDistributeAt rq) else None);
  cb_ExpireAt := (if decide (ar_ExpireAt rq > 0) then Int64ToTime (ar_ExpireAt rq) else None);
  cb_Description := ar_Description rq;
  cb_Display := ar_Display rq;
  cb_Variables := ar_Variables rq;
  cb_StickyAgentId := (if decide (ar_AgentId rq > 0) then Some (ar_AgentId rq) else None);
  cb_ExcludeCurrentCommunication := flag (ar_ExcludeCurrentCommunication rq);
  cb_Redial := flag (ar_Redial rq);
  cb_AddCommunications := communication_of <$> ar_AddCommunications rq;
  cb_WaitBetweenRetries := (if decide (ar_WaitBetweenRetries rq > 0) then Some (ar_WaitBetweenRetries rq) else None);
  cb_OnlyCurrentCommunication := flag (ar_OnlyCurrentCommunication rq) |}.

(** ** The events of a stream *)

Inductive QueueEvent :=
| QJoined (attemptId : Z) (appId : string)
| QLeaving (res : string)
| QOffering (agentId : Z) (callId name : string)
| QMissed
| QBridged (agentId : Z).

(** What a select of a stream receives: a hook, with its arguments or [None] if the channel
    is closed, or the end of the request's context. *)
Inductive HookEvent :=
| HLeaving
| HOffering (args : option (list string))
| HMissed (ok : bool)
| HBridged (ok : bool)
| HDone.

(** The error of the last send. *)
Class StreamPeer := sp_err : list QueueEvent -> option string.

Section Api.
Context {OC : Type -> Type} {HOC : ObjectCache OC} {SV : Services} {DE : Decoders} {SP : StreamPeer}.

(** What a stream receives, after the other goroutines changed the manager. *)
Definition Received : Type := (World OC -> World OC) * HookEvent.

(** The end of a handler, with what it sent in the state. *)
Abbreviation S := (ST (list QueueEvent) OC).

Definition send (e : QueueEvent) : S (option string) := fun sent =>
  mret (sp_err (sent ++ [e]), sent ++ [e]).

(** A send whose error is ignored. *)
Definition send_ (e : QueueEvent) : S unit := _ ← send e; mret tt.

(** [for { select {...} }]: [true] leaves the loop. The case that is taken reads the manager
    as it is then. *)
Fixpoint stream_loop (handle : HookEvent -> S bool) (evs : list Received) : S unit :=
  match evs with
  | [] => fun _ _ => Block "select"
  | (others, ev) :: evs =>
      _ ← up (modify others);
      stop ← handle ev;
      if stop : bool then mret tt else stream_loop handle evs
  end.

Definition send_leaving (l : loc) : S bool :=
  a ← up (get_attempt l);
  _ ← send_ (QLeaving (Result a));
  mret true.

Definition goes_on (m : S unit) : S bool := _ ← m; mret false.

(** [attempt.Agent()] *)
Definition attempt_agent (l : loc) : M OC (option Agent) :=
  a ← get_attempt l;
  match at_agent a with
  | None => mret None
  | Some g => ag ← get_agent g; mret (Some ag)
  end.

(** The select of CallJoinToQueue; it has no case for the context. *)
Definition call_hook (l : loc) (ev : HookEvent) : S bool :=
  match ev with
  | HLeaving => send_leaving l
  | HOffering args =>
      o ← up (attempt_agent l);
      goes_on (match o, args with
               | Some ag, Some (id :: _) => send_ (QOffering (ag_Id ag) id (ag_Name ag))
               | _, _ => mret tt
               end)
  | HBridged true => goes_on (send_ (QBridged 0))
  | _ => mret false
  end.

(** The select of ChatJoinToQueue. *)
Definition chat_hook (l : loc) (ev : HookEvent) : S bool :=
  match ev with
  | HDone => _ ← up (attempt_SetCancel l); mret true
  | HLeaving => send_leaving l
  | HOffering (Some _) =>
      o ← up (attempt_agent l);
      goes_on (match o with
               | Some ag => send_ (QOffering (ag_Id ag) "" (ag_Name ag))
               | None => up (panic nil_deref)
               end)
  | HMissed true => goes_on (send_ QMissed)
  | HBridged true => goes_on (send_ (QBridged 0))
  | _ => mret false
  end.

(** The select of CallJoinToAgent and of TaskJoinToAgent. *)
Definition agent_hook (l : loc) (ev : HookEvent) : S bool :=
  match ev with
  | HLeaving => send_leaving l
  | HBridged true =>
      o ← up (attempt_agent l);
      goes_on (send_ (QBridged (match o with Some ag => ag_Id ag | None => 0 end)))
  | _ => mret false
  end.

(** A stream into a queue: the limit of the queue is reported as leaving; the stream ends
    if the first event cannot be sent. *)
Definition join_stream (distribute : M OC (result loc)) (hook : loc -> HookEvent -> S bool) (evs : list Received)
    : S (option RpcError) :=
  r ← up distribute;
  match r with
  | inl e =>
      if decide (e = ErrQueueMaxWaitSize)
      then _ ← send_ (QLeaving AttemptResultMaxWaitSize); mret None
      else mret (Some (RApp e))
  | inr l =>
      a ← up (get_attempt l);
      e ← send (QJoined (at_Id a) svc_node);
      match e with
      | Some s => mret (Some (RText s))
      | None => _ ← stream_loop (hook l) evs; mret None
      end
  end.

Definition CallJoinToQueue (rq : CallJoinToQueueRequest) (evs : list Received) : S (option RpcError) :=
  join_stream (DistributeCall rq) call_hook evs.

Definition ChatJoinToQueue (rq : ChatJoinToQueueRequest) (evs : list Received) : S (option RpcError) :=
  join_stream (DistributeChatToQueue rq) chat_hook evs.

(** A stream to an agent: the error of the first send is ignored. *)
Definition agent_stream (distribute : M OC (result loc)) (evs : list Received) : S (option RpcError) :=
  r ← up distribute;
  match r with
  | inl e => mret (Some (RApp e))
  | inr l =>
      a ← up (get_attempt l);
      _ ← send_ (QJoined (at_Id a) "");
      _ ← stream_loop (agent_hook l) evs;
      mret None
  end.

Definition CallJoinToAgent (rq : JoinToAgentRequest) (evs : list Received) : S (option RpcError) :=
  agent_stream (DistributeCallToAgent rq) evs.

Definition TaskJoinToAgent (rq : JoinToAgentRequest) (evs : list Received) : S (option RpcError) :=
  agent_stream (DistributeTaskToAgent rq) evs.

(** ** The other requests of members *)

Definition rpc_of {A} (m : M OC (option AppError)) (a : A) : M OC (RpcError + A) :=
  e ← m; mret (match e with Some e => inl (RApp e) | None => inr a end).

Definition AttemptResult (rq : AttemptResultRequest) : M OC (RpcError + string) :=
  rpc_of (ReportingAttempt (ar_AttemptId rq) (callback_of rq) false (ar_Draft rq)) "success".

Definition CancelAttempt (attemptId : Z) (res : string) : M OC (RpcError + unit) :=
  ok ← SetAttemptCancel attemptId res;
  mret (if ok : bool then inr tt else inl (RText "not found")).

(** The attempt and its agent. *)
Definition Api_OutboundCall (rq : JoinToAgentRequest) : M OC (RpcError + Z * Z) :=
  r ← OutboundCall rq;
  match r with
  | inl e => mret (inl (RApp e))
  | inr l =>
      a ← get_attempt l;
      o ← attempt_agent l;
      mret (inr (at_Id a, match o with Some ag => ag_Id ag | None => 0 end))
  end.

Definition IMJoinToQueue (rq : IMJoinToQueueRequest) : M OC (RpcError + Z * bool) :=
  r ← DistributeIMToQueue rq;
  match r with
  | inl e => mret (inl (RApp e))
  | inr (l, bridged) => a ← get_attempt l; mret (inr (at_Id a, bridged))
  end.

Definition DirectAgentToMember (memberId communicationId agentId : Z) : M OC (RpcError + Z) :=
  r ← DistributeDirectMember memberId communicationId agentId;
  match r with
  | inl e => mret (inl (RApp e))
  | inr l => a ← get_attempt l; mret (inr (at_Id a))
  end.

Definition Transfer (domainId attemptId agentId queueId : Z) : M OC (RpcError + unit) :=
  if decide ((agentId = 0) <-> (queueId = 0))
  then mret (inl (RText "exactly one of agent_id or queue_id is required"))
  else rpc_of (TransferIM domainId attemptId agentId queueId) tt.

(** ** Requests of agents *)

(** model/agent.go *)
Definition IsStatusPresetEmpty (d : AgentOnlineData) : bool :=
  match ao_StatusPreset d with Some p => bool_decide (lk_Id p > 0) | None => false end.

(** cc.Channel: the channel, its state and the time it joined *)
Definition AgentChannelToCC (c : AgentChannel) : string * string * Z := (ac_Channel c, ac_State c, ac_JoinedAt c).

Definition AgentChannelsToCC (cs : list AgentChannel) : list (string * string * Z) := AgentChannelToCC <$> cs.

(** The timestamp, the channels and the preset of the answer. *)
Definition Api_Online (domainId agentId : Z) (onDemand : bool) (skill : Lookup)
    : M OC (RpcError + Z * list (string * string * Z) * option Lookup) :=
  r ← AgentGoOnline domainId agentId onDemand (Some skill);
  match r with
  | inl e => mret (inl (RApp e))
  | inr info =>
      if IsStatusPresetEmpty info then mret (inr (ao_Timestamp info, AgentChannelsToCC (ao_Channel info), None))
      else match ao_StatusPreset info with
           | Some p => mret (inr (ao_Timestamp info, AgentChannelsToCC (ao_Channel info), Some p))
           | None => panic nil_deref
           end
  end.

(** An empty string of the request is the nil pointer. *)
Definition text (s : string) : option string := if decide (s = "") then None else Some s.

Definition Api_Pause (agentId : Z) (payload comment : string) : M OC (RpcError + unit) :=
  rpc_of (SetAgentPause agentId (text payload) (text comment)) tt.

(** The timestamp of the answer is the 0 that SetAgentWaitingChannel returns. *)
Definition WaitingChannel (agentId : Z) (channel : string) : M OC (RpcError + Z) :=
  rpc_of (WaitingAgentChannel agentId channel) 0.

End Api.

(** ** Triggers of a team: app/agent.go *)

Record AgentTriggerJob := MkAgentTriggerJob {
  tr_SchemaId : Z;
  tr_Extension : string;
  tr_Email : string;
  tr_AgentId : Z;
  tr_Name : string;
  tr_Variables : strmap;
}.

(** The variables of the flow: those of the request, overwritten by those of the job, and by
    the agent's. *)
Definition trigger_variables (userId : Z) (data : AgentTriggerJob) (vars : gomap) : strmap :=
  <["agent_name" := tr_Name data]> (<["extension" := tr_Extension data]> (<["email" := tr_Email data]>
    (<["user_id" := fmt_d userId]> (<["agent_id" := fmt_d (tr_AgentId data)]>
      (tr_Variables data ∪ entries vars))))).

(** [job] is the answer of the store, [start] that of the flow service. *)
Definition RunTeamTrigger (job : AppError + AgentTriggerJob) (start : Z -> Z -> strmap -> string + string)
    (domainId userId : Z) (vars : gomap) : AppError + string :=
  match job with
  | inl e => inl e
  | inr data =>
      match start (tr_SchemaId data) domainId (trigger_variables userId data vars) with
      | inl err => inl (NewAppError "RunTeamTrigger" "app.fm.start_flow" err 500)
      | inr id => inr id
      end
  end.
