(* ===== verification/Rpc.v ===== *)
(** * The unary requests of the gRPC interface: grpc_api/member.go, agent.go, app/grpc_server.go

    [serve] is the handler of every unary request of the two services on the queue manager,
    and [unary] puts the interceptor of the server around it: an AppError becomes a status. The
    request RunTrigger, which does not reach the manager, is RunTeamTrigger of Api. *)

From S2P Require Import Prelude Model Queue Attempt TaskChannel Resource World Sessions Agents.
From S2P Require Import Events Schema Manager Team Distribute Messages Dialing Api.

(** ** Statuses *)

(** google.golang.org/grpc/codes *)
Inductive Code := InvalidArgument | ResourceExhausted | Unauthenticated | PermissionDenied | Internal.

#[export] Instance Code_eq_dec : EqDecision Code.
Proof. solve_decision. Defined.

Definition httpCodeToGrpc (c : Z) : Code :=
  if decide (c = 400) then InvalidArgument
  else if decide (c = 202) then ResourceExhausted
  else if decide (c = 401) then Unauthenticated
  else if decide (c = 403) then PermissionDenied
  else Internal.

(** What the caller of a request gets: its answer, a status, or an error that is no AppError. *)
Inductive Answer (A : Type) :=
| Done (a : A)
| Status (code : Code) (message : string)
| Plain (message : string).
Arguments Done {A}.
Arguments Status {A}.
Arguments Plain {A}.

Section Rpc.
Context {OC : Type -> Type} {HOC : ObjectCache OC} {SV : Services} {DE : Decoders}.

(** AppError.ToJson *)
Context (ToJson : AppError -> string).

Definition GetUnaryInterceptor {A} (handler : M OC (RpcError + A)) : M OC (Answer A) :=
  r ← handler;
  mret (match r with
        | inr a => Done a
        | inl (RApp e) => Status (httpCodeToGrpc (err_StatusCode e)) (ToJson e)
        | inl (RText s) => Plain s
        end).

(** ** Components of forms: queue/schema.go *)

(** [flow] is the answer of the flow service. *)
Definition AttemptProcessingActionComponent (attemptId : Z) (flow : option string) : M OC (option string) :=
  o ← members_get attemptId;
  match o with
  | None => mret (Some "not found")
  | Some l =>
      a ← get_attempt l;
      mret (match at_processingForm a, at_agent a with Some _, Some _ => flow | _, _ => None end)
  end.

(** [errors.New("not found")] of AttemptProcessingActionForm is, in Schema, the error without a
    place and a code. *)
Definition not_found : AppError := NewAppError "" "not found" "" 0.

Definition ProcessingFormAction (attemptId : Z) (action : string) (fields : strmap) : M OC (RpcError + unit) :=
  e ← attemptProcessingActionForm attemptId action fields;
  mret (match e with
        | None => inr tt
        | Some e => inl (if decide (e = not_found) then RText "not found" else RApp e)
        end).

(** ** The requests *)

(** The service of members. *)
Inductive MemberRequest :=
| RqCancelAgentDistribute (agentId : Z)
| RqCancelAttempt (attemptId : Z) (res : string)
| RqAttemptResult (rq : AttemptResultRequest)
| RqOutboundCall (rq : JoinToAgentRequest)
| RqIMJoinToQueue (rq : IMJoinToQueueRequest)
| RqEmailJoinToQueue
| RqAttemptRenewalResult (domainId attemptId renewal : Z)
| RqDirectAgentToMember (memberId communicationId agentId : Z)
| RqProcessingFormAction (attemptId : Z) (action : string) (fields : strmap)
| RqProcessingComponentAction (attemptId : Z) (flow : option string)
| RqInterceptAttempt (domainId attemptId agentId : Z)
| RqResumeAttempt (attemptId domainId : Z)
| RqProcessingFormSave (domainId attemptId : Z) (fields : strmap) (form : string)
| RqTransfer (domainId attemptId agentId queueId : Z).

(** The service of agents. *)
Inductive AgentRequest :=
| RqOnline (domainId agentId : Z) (onDemand : bool) (skill : Lookup)
| RqOffline (agentId : Z)
| RqPause (agentId : Z) (payload comment : string)
| RqWaitingChannel (agentId : Z) (channel : string)
| RqAcceptTask (canceled : bool) (id agentID userID : Z)
| RqCloseTask (id : Z).

Inductive Request := RqMember (rq : MemberRequest) | RqAgent (rq : AgentRequest).

(** The answers that carry something. *)
Inductive Response :=
| Empty
| NoMessage (* a nil pointer *)
| Attempt_ (attemptId : Z)
| Result_ (status : string)
| Attempted (attemptId : Z) (agentId : Z)
| Joined (attemptId : Z) (bridged : bool)
| Timestamp (t : Z)
| Online (t : Z) (channels : list (string * string * Z)) (preset : option Lookup)
| Ok (ok : bool).

Definition answer {A} (f : A -> Response) (m : M OC (RpcError + A)) : M OC (RpcError + Response) :=
  r ← m; mret (match r with inl e => inl e | inr a => inr (f a) end).

Definition serve_member (rq : MemberRequest) : M OC (RpcError + Response) :=
  match rq with
  | RqCancelAgentDistribute a => rpc_of (CancelAgentDistribute a) Empty
  | RqCancelAttempt i r => answer (fun _ => Empty) (CancelAttempt i r)
  | RqAttemptResult r => answer Result_ (AttemptResult r)
  | RqOutboundCall r => answer (fun '(i, a) => Attempted i a) (Api_OutboundCall r)
  | RqIMJoinToQueue r => answer (fun '(i, b) => Joined i b) (IMJoinToQueue r)
  | RqEmailJoinToQueue => mret (inr NoMessage)
  | RqAttemptRenewalResult d i r => rpc_of (RenewalAttempt d i r) Empty
  | RqDirectAgentToMember m c a => answer Attempt_ (DirectAgentToMember m c a)
  | RqProcessingFormAction i a f => answer (fun _ => Empty) (ProcessingFormAction i a f)
  | RqProcessingComponentAction i f =>
      e ← AttemptProcessingActionComponent i f; mret (match e with Some s => inl (RText s) | None => inr Empty end)
  | RqInterceptAttempt d i a => rpc_of (InterceptAttempt d i a) Empty
  | RqResumeAttempt i d => rpc_of (ResumeAttempt i d) (Ok true)
  | RqProcessingFormSave d i f m => rpc_of (SaveFormFields d i f m) Empty
  | RqTransfer d i a q => answer (fun _ => Empty) (Transfer d i a q)
  end.

Definition serve_agent (rq : AgentRequest) : M OC (RpcError + Response) :=
  match rq with
  | RqOnline d a o s => answer (fun '(t, c, p) => Online t c p) (Api_Online d a o s)
  | RqOffline a => rpc_of (SetAgentLogout a) Empty
  | RqPause a p c => answer (fun _ => Empty) (Api_Pause a p c)
  | RqWaitingChannel a c => answer Timestamp (WaitingChannel a c)
  | RqAcceptTask b i a u => rpc_of (App_AcceptAgentTask b i a u) Empty
  | RqCloseTask i => rpc_of (CloseAgentTask i) Empty
  end.

Definition serve (rq : Request) : M OC (RpcError + Response) :=
  match rq with RqMember rq => serve_member rq | RqAgent rq => serve_agent rq end.

Definition unary (rq : Request) : M OC (Answer Response) := GetUnaryInterceptor (serve rq).

End Rpc.
