(* ===== verification/StoreOps.v ===== *)
(** * The store: store/store.go and the operations of store/sqlstore

    An operation sends statements (StoreSql.v) with named arguments and turns the answer of
    the database into its result or an error with an HTTP code. The database is the class
    [Database], one field for each type the rows are scanned into; it answers the list of the
    statements sent so far, newest first. encoding/json is the class [StoreJson]. *)

From S2P Require Import Prelude Model Resource Calls World Jobs Sql StoreSql Api Calling.

Record HistoryAttempt := MkHistoryAttempt {
  ha_Id : Z;
  ha_Result : string;
}.

Record OutboundResourceErrorResult := MkOutboundResourceErrorResult {
  oe_CountSuccessivelyError : option Z;
  oe_Stopped : option bool;
  oe_UnReserveResourceId : option Z;
}.

(** model.MissedAgentAttempt *)
Record MissedAttemptRow := MkMissedAttemptRow {
  mt_AttemptId : Z;
  mt_AgentId : Z;
  mt_Cause : string;
  mt_MissedAt : Z;
}.

Record AgentOnlineRequest := MkAgentOnlineRequest {
  ao_DomainID : Z;
  ao_AgentID : Z;
  ao_OnDemand : bool;
  ao_Status : option Lookup;
}.

(** unicode.IsSpace *)
Definition is_space (r : Z) : bool :=
  bool_decide (r ∈ [9; 10; 11; 12; 13; 32; 133; 160; 5760; 8232; 8233; 8239; 8287; 12288]) ||
  ((8192 <=? r) && (r <=? 8202)).

(** [strings.TrimSpace(s) == ""] *)
Definition blank (s : string) : bool := forallb is_space (to_runes s).

Definition StatusIDPtr (r : AgentOnlineRequest) : option Z :=
  match ao_Status r with
  | Some st => if decide (lk_Id st <= 0) then None else Some (lk_Id st)
  | None => None
  end.

Definition StatusNamePtr (r : AgentOnlineRequest) : option string :=
  match ao_Status r with
  | Some st => if blank (lk_Name st) then None else Some (lk_Name st)
  | None => None
  end.

(** [uint64] of an int32 *)
Definition u64 (z : Z) : Z := z `mod` 2 ^ 64.

(** ** The database *)

Class Database := {
  db_exec : list Stmt -> option SqlErr;
  db_affected : list Stmt -> SqlErr + Z;
  db_int : list Stmt -> SqlErr + Z;       (* an int64; SelectInt and SelectNullInt give 0 for NULL and for no row *)
  db_str : list Stmt -> SqlErr + string;
  db_bool : list Stmt -> SqlErr + bool;
  db_ints : list Stmt -> SqlErr + list Z;
  db_strs : list Stmt -> SqlErr + list string;
  db_members : list Stmt -> SqlErr + list MemberAttempt;
  db_member : list Stmt -> SqlErr + MemberAttempt;
  db_inboundCall : list Stmt -> SqlErr + InboundCallQueue;
  db_callAgent : list Stmt -> SqlErr + InboundCallAgent;
  db_taskAgent : list Stmt -> SqlErr + TaskToAgent;
  db_inboundChat : list Stmt -> SqlErr + InboundChatQueue;
  db_inboundIM : list Stmt -> SqlErr + InboundIMQueue;
  db_leaving : list Stmt -> SqlErr + AttemptLeaving;
  db_missed : list Stmt -> SqlErr + MissedAgent;
  db_renewal : list Stmt -> SqlErr + RenewalProcessing;
  db_timeouts : list Stmt -> SqlErr + list AttemptReportingTimeout;
  db_reporting : list Stmt -> SqlErr + AttemptReportingResult;
  db_history : list Stmt -> SqlErr + list HistoryAttempt;
  db_expired : list Stmt -> SqlErr + list ExpiredMember;
  db_flip : list Stmt -> SqlErr + AttemptFlipResource;
  db_waiting : list Stmt -> SqlErr + list MemberWaitingByUsers;
  db_reserved : list Stmt -> SqlErr + list AgentsForAttempt;
  db_onlineAtomic : list Stmt -> SqlErr + SetOnlineAtomicResponse;
  db_agent : list Stmt -> SqlErr + Agent;
  db_online : list Stmt -> SqlErr + AgentOnlineData;
  db_noAnswer : list Stmt -> SqlErr + list CallNoAnswer;
  db_channels : list Stmt -> SqlErr + list ChannelTimeout;
  db_hashKeys : list Stmt -> SqlErr + list AgentHashKey;
  db_trigger : list Stmt -> SqlErr + AgentTriggerJob;
  db_call : list Stmt -> SqlErr + CallInfo;
  db_cluster : list Stmt -> SqlErr + bool;    (* the field Master *)
  db_gateway : list Stmt -> SqlErr + SipGateway;
  db_resource : list Stmt -> SqlErr + OutboundResource;
  db_resourceError : list Stmt -> SqlErr + OutboundResourceErrorResult;
  db_queue : list Stmt -> SqlErr + Queue;
  db_team : list Stmt -> SqlErr + Team;
  db_jobs : list Stmt -> SqlErr + list TriggerJob;
  db_millis : list Stmt -> Z;                 (* model.GetMillis *)
}.

(** json.Marshal of the values the store encodes; [inl] is its error. *)
Class StoreJson := {
  json_map : gomap -> string;
  json_params : QueueDumpParams -> string;
  json_comms : list MemberCommunication -> string + string;
}.

Definition DBM (A : Type) : Type := list Stmt -> A * list Stmt.

#[export] Instance DBM_ret : MRet DBM := fun A a t => (a, t).

#[export] Instance DBM_bind : MBind DBM := fun A B f m t => let '(a, t) := m t in f a t.

(** A statement and the answer to it. *)
Definition statement {A} (on : Conn) (text : string) (args : SqlArgs) (answer : list Stmt -> A) : DBM A :=
  fun t => let t := MkStmt on text args :: t in (answer t, t).

(** GetMaster().Select, SelectOne, SelectInt, ... with named arguments. *)
Definition select {A} (on : Conn) (answer : list Stmt -> SqlErr + A) (text : string) (args : list (string * SqlVal))
    (err : SqlErr -> AppError) : DBM (result A) :=
  r ← statement on text (Named args) answer;
  mret (match r with inl e => inl (err e) | inr a => inr a end).

(** The same without named arguments. *)
Definition select_plain {A} (on : Conn) (answer : list Stmt -> SqlErr + A) (text : string) (args : list SqlVal)
    (err : SqlErr -> AppError) : DBM (result A) :=
  r ← statement on text (Positional args) answer;
  mret (match r with inl e => inl (err e) | inr a => inr a end).

(** The result of a statement that is only read for its error. *)
Definition only_err {A} (m : DBM (result A)) : DBM (option AppError) :=
  r ← m; mret (match r with inl e => Some e | inr _ => None end).

(** Errors: the details are a prefix and the text of the error. *)
Definition err_with (code : SqlErr -> Z) (where_ id details : string) (e : SqlErr) : AppError :=
  NewAppError where_ id (details +:+ SqlErr_Error e) (code e).

Definition err500 : string -> string -> string -> SqlErr -> AppError := err_with (fun _ => 500).

Definition err_code : string -> string -> string -> SqlErr -> AppError := err_with extractCodeFromErr.

(** 404 for a missing row, 500 otherwise. *)
Definition err_found : string -> string -> string -> SqlErr -> AppError :=
  err_with (fun e => if decide (e = ErrNoRows) then 404 else 500).

(** The error of the distribute functions: the code MAXWS of the database is the sentinel that
    the gRPC interface looks for. *)
Definition err_maxws (where_ id details : string) (e : SqlErr) : AppError :=
  match e with
  | PqError "MAXWS" _ => ErrQueueMaxWaitSize
  | _ => err500 where_ id details e
  end.

Section Store.
Context {DB : Database} {SJ : StoreJson}.

(** Exec with named arguments. *)
Definition exec (text : string) (args : list (string * SqlVal)) (err : SqlErr -> AppError) : DBM (option AppError) :=
  e ← statement Master text (Named args) db_exec;
  mret (err <$> e).

Definition exec_plain (text : string) (err : SqlErr -> AppError) : DBM (option AppError) :=
  e ← statement Master text (Positional []) db_exec;
  mret (err <$> e).

(** mapToJson of member_store.go: NULL for a nil map. *)
Definition mapToJson (m : gomap) : SqlVal := match m with None => VNull | Some _ => VStr (json_map m) end.

(** model.MapToJson *)
Definition MapToJson (m : gomap) : SqlVal := VStr (json_map m).

(** JsonVariables of a callback *)
Definition JsonVariables (cb : AttemptCallback) : SqlVal :=
  match cb_Variables cb with
  | None => VNull
  | Some m => if decide (m = ∅) then VNull else VBytes (json_map (Some m))
  end.

(** ResultJson of a job: a nil slice is NULL. *)
Definition ResultJson (j : TriggerJob) : SqlVal :=
  match tj_Result j with None => VNull | Some m => VBytes (json_map (Some m)) end.

(** ** Members: member_store.go *)

Definition Member_ReserveMembersByNode (nodeId : string) (enableOmnichannel : bool) : DBM (result Z) :=
  select Master db_int Member_ReserveMembersByNode_sql [("DisableOmnichannel", VBool (negb enableOmnichannel))]
    (err500 "SqlMemberStore.ReserveMembers" "store.sql_member.reserve_member_resources.app_error" "").

Definition Member_UnReserveMembersByNode (nodeId cause : string) : DBM (result Z) :=
  select_plain Master db_int Member_UnReserveMembersByNode_sql [VStr nodeId; VStr cause]
    (err500 "SqlMemberStore.UnReserveMembers" "store.sql_member.un_reserve_member_resources.app_error" "").

Definition Member_GetActiveMembersAttempt (nodeId : string) : DBM (result (list MemberAttempt)) :=
  select_plain Master db_members Member_GetActiveMembersAttempt_sql [VStr nodeId]
    (err500 "SqlMemberStore.GetActiveMembersAttempt" "store.sql_member.get_active.app_error" "").

Definition Member_SetAttemptState (id state : Z) : DBM (option AppError) :=
  exec Member_SetAttemptState_sql [("Id", VInt id); ("State", VInt state)]
    (err500 "SqlMemberStore.SetAttemptState" "store.sql_member.set_attempt_state.app_error" ("Id=" +:+ fmt_d id +:+ ", ")).

Definition Member_SetAttemptFindAgent (id : Z) : DBM (option AppError) :=
  exec Member_SetAttemptFindAgent_sql
    [("Id", VInt id); ("State", VStr MemberStateWaitAgent); ("CancelState", VStr MemberStateCancel)]
    (err500 "SqlMemberStore.SetFindAgentState" "store.sql_member.set_attempt_state_find_agent.app_error"
       ("Id=" +:+ fmt_d id +:+ ", ")).

Definition Member_AnswerPredictAndFindAgent (id : Z) (holdAgent : bool) : DBM (option AppError) :=
  exec Member_AnswerPredictAndFindAgent_sql
    [("Id", VInt id); ("State", VStr MemberStateWaitAgent); ("CancelState", VStr MemberStateCancel);
     ("HoldAgent", VBool holdAgent)]
    (err500 "SqlMemberStore.AnswerPredictAndFindAgent" "store.sql_member.set_attempt_answer_find_agent.app_error"
       ("Id=" +:+ fmt_d id +:+ ", ")).

(** The variables are not sent. *)
Definition Member_SetDistributeCancel (id : Z) (description : string) (nextDistributeSec : Z) (stop : bool) (vars : gomap)
    : DBM (option AppError) :=
  exec Member_SetDistributeCancel_sql
    [("Id", VInt id); ("Desc", VStr description); ("NextSec", VInt nextDistributeSec); ("Stop", VBool stop); ("Vars", VNull)]
    (err500 "SqlMemberStore.SetDistributeCancel" "store.sql_member.set_distribute_cancel.app_error"
       ("Id=" +:+ fmt_d id +:+ ", ")).

Definition Member_DistributeCallToQueue (node : string) (queueId : Z) (callId : string) (vars : gomap)
    (bucketId : option Z) (priority : Z) (stickyAgentId : option Z) : DBM (result InboundCallQueue) :=
  select Master db_inboundCall Member_DistributeCallToQueue_sql
    [("AppId", VStr node); ("QueueId", VInt queueId); ("CallId", VStr callId); ("Variables", MapToJson vars);
     ("BucketId", opt_int bucketId); ("Priority", VInt priority); ("StickyAgentId", opt_int stickyAgentId)]
    (err_maxws "SqlMemberStore.DistributeCallToQueue" "store.sql_member.distribute_call.app_error"
       ("QueueId=" +:+ fmt_d queueId +:+ ", CallId=" +:+ callId +:+ " ")).

Definition Member_DistributeCallToAgent (node callId : string) (vars : gomap) (agentId : Z) (force : bool)
    (params : QueueDumpParams) : DBM (result InboundCallAgent) :=
  select Master db_callAgent Member_DistributeCallToAgent_sql
    [("Node", VStr node); ("MemberCallId", VStr callId); ("Variables", MapToJson vars); ("AgentId", VInt agentId);
     ("Force", VBool force); ("Prams", VBytes (json_params params))]
    (err500 "SqlMemberStore.DistributeCallToAgent" "store.sql_member.distribute_call_agent.app_error"
       ("AgentId=" +:+ fmt_d agentId +:+ ", CallId=" +:+ callId +:+ " ")).

Definition Member_DistributeOutboundCall (node callId : string) (vars : gomap) (userId : Z) (params : QueueDumpParams)
    : DBM (result InboundCallAgent) :=
  select Master db_callAgent Member_DistributeOutboundCall_sql
    [("Node", VStr node); ("MemberCallId", VStr callId); ("Variables", MapToJson vars); ("UserId", VInt userId);
     ("Prams", VBytes (json_params params))]
    (err500 "SqlMemberStore.DistributeOutbound" "store.sql_member.distribute_call_out.app_error"
       ("UserId=" +:+ fmt_d userId +:+ ", CallId=" +:+ callId +:+ " ")).

Definition Member_DistributeTaskToAgent (node : string) (domainId agentId : Z) (dest : string) (vars : gomap) (force : bool)
    (params : QueueDumpParams) : DBM (result TaskToAgent) :=
  select Master db_taskAgent Member_DistributeTaskToAgent_sql
    [("Node", VStr node); ("DomainId", VInt domainId); ("Dest", VBytes dest); ("Variables", MapToJson vars);
     ("AgentId", VInt agentId); ("Force", VBool force); ("Params", VBytes (json_params params))]
    (err500 "SqlMemberStore.DistributeTaskToAgent" "store.sql_member.distribute_task_agent.app_error"
       ("AgentId=" +:+ fmt_d agentId +:+ " ")).

Definition Member_DistributeCallToQueueCancel (id : Z) : DBM (option AppError) :=
  exec Member_DistributeCallToQueueCancel_sql [("Id", VInt id)]
    (err500 "SqlMemberStore.DistributeCallToQueue2Cancel" "store.sql_member.distribute_call_cancel.app_error"
       ("Id=" +:+ fmt_d id +:+ " ")).

Definition Member_DistributeChatToQueue (node : string) (queueId : Z) (convId : string) (vars : gomap)
    (bucketId : option Z) (priority : Z) (stickyAgentId : option Z) (extraChatCount : bool) : DBM (result InboundChatQueue) :=
  select Master db_inboundChat Member_DistributeChatToQueue_sql
    [("AppId", VStr node); ("QueueId", VInt queueId); ("ConvId", VStr convId); ("Variables", mapToJson vars);
     ("BucketId", opt_int bucketId); ("Priority", VInt priority); ("StickyAgentId", opt_int stickyAgentId);
     ("ExtraChatCount", VBool extraChatCount)]
    (err_maxws "SqlMemberStore.DistributeChatToQueue" "store.sql_member.distribute_chat.app_error"
       ("QueueId=" +:+ fmt_d queueId +:+ ", Id=" +:+ convId +:+ " ")).

Definition Member_DistributeIMToQueue (node : string) (queueId : Z) (threadId dest : string) (vars : gomap)
    (bucketId : option Z) (priority : Z) (stickyAgentId : option Z) : DBM (result InboundIMQueue) :=
  select Master db_inboundIM Member_DistributeIMToQueue_sql
    [("AppId", VStr node); ("QueueId", VInt queueId); ("ThreadId", VStr threadId); ("Destination", VBytes dest);
     ("Variables", mapToJson vars); ("BucketId", opt_int bucketId); ("Priority", VInt priority);
     ("StickyAgentId", opt_int stickyAgentId)]
    (err_maxws "SqlMemberStore.DistributeIMToQueue" "store.sql_member.distribute_im.app_error"
       ("QueueId=" +:+ fmt_d queueId +:+ ", Id=" +:+ threadId +:+ " ")).

Definition Member_DistributeIMToAgent (node : string) (queueId agentId : Z) (threadId dest : string) (vars : gomap)
    (bucketId : option Z) : DBM (result InboundIMQueue) :=
  select Master db_inboundIM Member_DistributeIMToAgent_sql
    [("AppId", VStr node); ("QueueId", VInt queueId); ("AgentId", VInt agentId); ("ThreadId", VStr threadId);
     ("Destination", VBytes dest); ("Variables", mapToJson vars); ("BucketId", opt_int bucketId)]
    (err500 "SqlMemberStore.DistributeIMToAgent" "store.sql_member.distribute_im_agent.app_error"
       ("QueueId=" +:+ fmt_d queueId +:+ ", AgentId=" +:+ fmt_d agentId +:+ ", Id=" +:+ threadId +:+ " ")).

Definition Member_AttemptWeight (id : Z) : DBM (result Z) :=
  select Master db_int Member_AttemptWeight_sql [("Id", VInt id)]
    (err500 "SqlMemberStore.AttemptWeight" "store.sql_member.attempt_weight.app_error" ("AttemptId=" +:+ fmt_d id +:+ " ")).

Definition Member_DistributeDirect (node : string) (memberId communicationId agentId : Z) : DBM (result MemberAttempt) :=
  select Master db_member Member_DistributeDirect_sql
    [("AppId", VStr node); ("MemberId", VInt memberId); ("AgentId", VInt agentId); ("CommunicationId", VInt communicationId)]
    (err_code "SqlMemberStore.DistributeDirect" "store.sql_member.distribute_direct.app_error"
       ("MemberId=" +:+ fmt_d memberId +:+ ", AgentId=" +:+ fmt_d agentId +:+ " ")).

Definition Member_SetAttemptOffering (attemptId : Z) (agentId : option Z)
    (agentCallId memberCallId destination display : option string) : DBM (result Z) :=
  select Master db_int Member_SetAttemptOffering_sql
    [("AttemptId", VInt attemptId); ("AgentId", opt_int agentId); ("AgentCallId", opt_str agentCallId);
     ("MemberCallId", opt_str memberCallId); ("Dest", opt_str destination); ("Displ", opt_str display)]
    (err500 "SqlMemberStore.SetAttemptOffering" "store.sql_member.set_attempt_offering.app_error"
       ("AttemptId=" +:+ fmt_d attemptId +:+ " ")).

Definition Member_SetAttemptBridged (attemptId : Z) : DBM (result Z) :=
  select Master db_int Member_SetAttemptBridged_sql [("AttemptId", VInt attemptId)]
    (err500 "SqlMemberStore.SetAttemptBridged" "store.sql_member.set_attempt_bridged.app_error"
       ("AttemptId=" +:+ fmt_d attemptId +:+ " ")).

Definition Member_SetAttemptAbandoned (attemptId : Z) : DBM (result AttemptLeaving) :=
  select Master db_leaving Member_SetAttemptAbandoned_sql [("AttemptId", VInt attemptId)]
    (err500 "SqlMemberStore.SetAttemptAbandoned" "store.sql_member.set_attempt_abandoned.app_error"
       ("AttemptId=" +:+ fmt_d attemptId +:+ " ")).

Definition Member_SetAttemptAbandonedWithParams (attemptId maxAttempts sleep : Z) (vars : gomap)
    (perNum excludeNum redial : bool) (desc : option string) (stickyAgentId : option Z) : DBM (result AttemptLeaving) :=
  select Master db_leaving Member_SetAttemptAbandonedWithParams_sql
    [("AttemptId", VInt attemptId); ("MaxAttempts", VInt maxAttempts); ("Sleep", VInt sleep); ("Vars", mapToJson vars);
     ("PerNum", VBool perNum); ("ExcludeNum", VBool excludeNum); ("Redial", VBool redial); ("Desc", opt_str desc);
     ("StickyAgentId", opt_int stickyAgentId)]
    (err500 "SqlMemberStore.SetAttemptAbandonedWithParams" "store.sql_member.set_attempt_abandoned.app_error"
       ("AttemptId=" +:+ fmt_d attemptId +:+ " ")).

Definition Member_SetAttemptMissedAgent (attemptId agentHoldSec : Z) : DBM (result MissedAgent) :=
  select Master db_missed Member_SetAttemptMissedAgent_sql
    [("AttemptId", VInt attemptId); ("AgentHoldSec", VInt agentHoldSec)]
    (err500 "SqlMemberStore.SetAttemptMissedAgent" "store.sql_member.set_attempt_missed_agent.app_error"
       ("AttemptId=" +:+ fmt_d attemptId +:+ " ")).

Definition Member_SetAttemptWaitingAgent (attemptId agentHoldSec : Z) : DBM (option AppError) :=
  only_err (select Master db_int Member_SetAttemptWaitingAgent_sql
    [("AttemptId", VInt attemptId); ("AgentHoldSec", VInt agentHoldSec)]
    (err500 "SqlMemberStore.SetAttemptWaitingAgent" "store.sql_member.set_attempt_waiting_agent.app_error"
       ("AttemptId=" +:+ fmt_d attemptId +:+ " "))).

Definition Member_SetAttemptReporting (attemptId deadlineSec : Z) : DBM (result Z) :=
  select Master db_int Member_SetAttemptReporting_sql
    [("State", VStr ChannelStateProcessing); ("Id", VInt attemptId); ("DeadlineSec", VInt deadlineSec)]
    (err500 "SqlMemberStore.SetAttemptReporting" "store.sql_member.set_attempt_reporting.app_error"
       ("AttemptId=" +:+ fmt_d attemptId +:+ " ")).

Definition Member_RenewalProcessing (domainId attId renewalSec : Z) : DBM (result RenewalProcessing) :=
  select Master db_renewal Member_RenewalProcessing_sql
    [("DomainId", VInt domainId); ("Id", VInt attId); ("Renewal", VInt renewalSec)]
    (err_code "SqlMemberStore.RenewalProcessing" "store.sql_member.set_attempt_renewal.app_error"
       ("AttemptId=" +:+ fmt_d attId +:+ " ")).

Definition Member_SetAttemptMissed (id agentHoldTime maxAttempts waitBetween : Z) (perNum : bool) : DBM (result MissedAgent) :=
  select Master db_missed Member_SetAttemptMissed_sql
    [("State", VStr ChannelStateMissed); ("Id", VInt id); ("AgentHoldTime", VInt agentHoldTime);
     ("MaxAttempts", VInt maxAttempts); ("WaitBetween", VInt waitBetween); ("PerNum", VBool perNum)]
    (err500 "SqlMemberStore.SetAttemptMissed" "store.sql_member.set_attempt_missed.app_error"
       ("AttemptId=" +:+ fmt_d id +:+ " ")).

Definition Member_CancelAgentAttempt (id agentHoldTime : Z) : DBM (result MissedAgent) :=
  select Master db_missed Member_CancelAgentAttempt_sql
    [("AttemptId", VInt id); ("Result", VStr ChannelStateMissed); ("AgentState", VStr ChannelStateMissed);
     ("AgentHoldSec", VInt agentHoldTime)]
    (err500 "SqlMemberStore.CancelAgentAttempt" "store.sql_member.set_attempt_agent_cancel.app_error"
       ("AttemptId=" +:+ fmt_d id +:+ " ")).

Definition Member_SetBarred (id : Z) (blockAllNumbers : bool) : DBM (option AppError) :=
  exec Member_SetBarred_sql [("AttemptId", VInt id); ("BlockAllNumbers", VBool blockAllNumbers)]
    (err500 "SqlMemberStore.SetBarred" "store.sql_member.set_attempt_barred.app_error"
       ("AttemptId=" +:+ fmt_d id +:+ " ")).

Definition Member_SetAttemptResult (id : Z) (result_ channelState : string) (agentHoldTime : Z) (vars : gomap)
    (maxAttempts waitBetween : Z) (perNum : bool) (desc : option string) (stickyAgentId : option Z)
    : DBM (result MissedAgent) :=
  select Master db_missed Member_SetAttemptResult_sql
    [("Result", VStr result_); ("State", VStr channelState); ("Id", VInt id); ("AgentHoldTime", VInt agentHoldTime);
     ("Vars", mapToJson vars); ("MaxAttempts", VInt maxAttempts); ("WaitBetween", VInt waitBetween);
     ("PerNum", VBool perNum); ("Desc", opt_str desc); ("StickyAgentId", opt_int stickyAgentId)]
    (err500 "SqlMemberStore.SetAttemptResult" "store.sql_member.set_attempt_result.app_error"
       ("AttemptId=" +:+ fmt_d id +:+ " ")).

Definition Member_GetTimeouts (nodeId : string) : DBM (result (list AttemptReportingTimeout)) :=
  select Master db_timeouts Member_GetTimeouts_sql [("NodeId", VStr nodeId)]
    (err500 "SqlMemberStore.GetTimeouts" "store.sql_member.get_timeouts.app_error" "").

Definition Member_SetTimeoutError (id : Z) : DBM (option AppError) :=
  exec Member_SetTimeoutError_sql [("Id", VInt id)]
    (err500 "SqlMemberStore.SetTimeoutError" "store.sql_member.set_timeouts.app_error" "").

(** The error of a failed encoding or of the database, as its text. *)
Definition Member_addCommunications (memberId : Z) (comm : list MemberCommunication) : DBM (option string) :=
  match json_comms comm with
  | inl e => mret (Some e)
  | inr data =>
      e ← statement Master Member_addCommunications_sql (Named [("Id", VInt memberId); ("Comm", VBytes data)]) db_exec;
      mret (SqlErr_Error <$> e)
  end.

Definition reporting_error (e : SqlErr) : AppError :=
  if decide (extractCodeFromErr e = 404)
  then NewAppError "SqlMemberStore.Reporting" "store.sql_member.reporting.not_found" "too many reporting function calls" 404
  else NewAppError "SqlMemberStore.Reporting" "store.sql_member.reporting.app_error" (SqlErr_Error e) (extractCodeFromErr e).

(** The statement of CallbackReporting; UtcTime changes only the location of the time. *)
Definition end_reporting (attemptId : Z) (callback : AttemptCallback) (maxAttempts waitBetween : Z) (perNum : bool)
    : DBM (result AttemptReportingResult) :=
  let waitBetween := from_option u64 waitBetween (cb_WaitBetweenRetries callback) in
  select Master db_reporting Member_CallbackReporting_sql
    [("AttemptId", VInt attemptId); ("Status", VStr (cb_Status callback)); ("Description", VStr (cb_Description callback));
     ("ExpireAt", opt_time (cb_ExpireAt callback)); ("NextCallAt", opt_time (cb_NextCallAt callback));
     ("StickyAgentId", opt_int (cb_StickyAgentId callback)); ("MaxAttempts", VInt maxAttempts);
     ("WaitBetween", VInt waitBetween); ("ExcludeDest", opt_bool (cb_ExcludeCurrentCommunication callback));
     ("PerNum", VBool perNum); ("Vars", JsonVariables callback); ("OnyCurr", opt_bool (cb_OnlyCurrentCommunication callback))]
    reporting_error.

Definition Member_CallbackReporting (attemptId : Z) (callback : AttemptCallback) (maxAttempts waitBetween : Z) (perNum : bool)
    : DBM (result AttemptReportingResult) :=
  r ← end_reporting attemptId callback maxAttempts waitBetween perNum;
  match r with
  | inl e => mret (inl e)
  | inr res =>
      match rr_MemberId res, cb_AddCommunications callback with
      | Some memberId, _ :: _ =>
          e ← Member_addCommunications memberId (cb_AddCommunications callback);
          match e with
          | Some e => mret (inl (NewAppError "SqlMemberStore.Reporting" "store.sql_member.reporting.add_comm" e 500))
          | None => mret (inr res)
          end
      | _, _ => mret (inr res)
      end
  end.

Definition schema_error (e : SqlErr) : AppError :=
  NewAppError "SqlMemberStore.SchemaResult"
    (if decide (extractCodeFromErr e = 404) then "store.sql_member.schema_result.not_found"
     else "store.sql_member.schema_result.app_error") (SqlErr_Error e) (extractCodeFromErr e).

Definition Member_SchemaResult (attemptId : Z) (callback : AttemptCallback) (maxAttempts waitBetween : Z) (perNum : bool)
    : DBM (result AttemptLeaving) :=
  select Master db_leaving Member_SchemaResult_sql
    [("AttemptId", VInt attemptId); ("Status", VStr (cb_Status callback)); ("Description", VStr (cb_Description callback));
     ("ExpireAt", opt_time (cb_ExpireAt callback)); ("NextCallAt", opt_time (cb_NextCallAt callback));
     ("StickyAgentId", opt_int (cb_StickyAgentId callback)); ("MaxAttempts", VInt maxAttempts);
     ("WaitBetween", VInt waitBetween); ("ExcludeDest", opt_bool (cb_ExcludeCurrentCommunication callback));
     ("PerNum", VBool perNum); ("Vars", JsonVariables callback)]
    schema_error.

Definition Member_SaveToHistory : DBM (result (list HistoryAttempt)) :=
  select_plain Master db_history Member_SaveToHistory_sql []
    (err500 "SqlMemberStore.SaveToHistory" "store.sql_member.save_history.app_error" "").

Definition Member_CreateConversationChannel (parentChannelId name : string) (attemptId : Z) : DBM (result string) :=
  select Master db_str Member_CreateConversationChannel_sql
    [("Name", VStr name); ("AttemptId", VInt attemptId); ("Parent", VStr parentChannelId)]
    (err500 "SqlMemberStore.CreateConversationChannel" "store.sql_member.create_conv_channel.app_error" "").

(** The names in the error are those of another operation. *)
Definition Member_RefreshQueueStatsLast2H : DBM (option AppError) :=
  exec_plain Member_RefreshQueueStatsLast2H_sql
    (err500 "SqlAgentStore.RefreshAgentPauseCauses" "store.sql_agent.refresh_pause_cause.app_error" "").

Definition Member_TransferredTo (id toId : Z) : DBM (option AppError) :=
  exec Member_TransferredTo_sql [("Id", VInt id); ("ToId", VInt toId)]
    (err500 "SqlMemberStore.TransferredTo" "store.sql_member.set_attempt_trans_to.app_error"
       ("AttemptId=" +:+ fmt_d id +:+ " ")).

Definition Member_TransferredFrom (id toId toAgentId : Z) (toAgentSessId : string) : DBM (option AppError) :=
  exec Member_TransferredFrom_sql
    [("Id", VInt id); ("ToId", VInt toId); ("ToAgentId", VInt toAgentId); ("ToAgentSessId", VStr toAgentSessId)]
    (err500 "SqlMemberStore.TransferredFrom" "store.sql_member.set_attempt_trans_from.app_error"
       ("AttemptId=" +:+ fmt_d id +:+ " ")).

Definition Member_TransferredIM (fromId toId fromAgentId toAgentId : Z) : DBM (option AppError) :=
  exec Member_TransferredIM_sql
    [("FromId", VInt fromId); ("ToId", VInt toId); ("FromAgentId", VInt fromAgentId); ("ToAgentId", VInt toAgentId)]
    (err500 "SqlMemberStore.TransferredIM" "store.sql_member.set_attempt_trans_im.app_error"
       ("AttemptId=" +:+ fmt_d fromId +:+ " ")).

Definition Member_CancelAgentDistribute (agentId : Z) : DBM (result (list Z)) :=
  select Master db_ints Member_CancelAgentDistribute_sql [("AgentId", VInt agentId)]
    (err500 "SqlMemberStore.CancelAgentDistribute" "store.sql_member.cancel_agent_distribute.app_error"
       ("AgentId=" +:+ fmt_d agentId +:+ " ")).

Definition Member_SetExpired (limit : Z) : DBM (result (list ExpiredMember)) :=
  select Master db_expired Member_SetExpired_sql [("Limit", VInt limit)]
    (err500 "SqlMemberStore.SetExpired" "store.sql_member.set_expired.app_error" "").

Definition Member_StoreForm (attemptId : Z) (form : string) (fields : gomap) : DBM (option AppError) :=
  exec Member_StoreForm_sql [("Id", VInt attemptId); ("Form", VBytes form); ("Fields", mapToJson fields)]
    (err500 "SqlMemberStore.StoreForm" "store.sql_member.set_form.app_error" "").

Definition fields_error : SqlErr -> AppError :=
  err500 "SqlMemberStore.StoreFormFields" "store.sql_member.set_fields.app_error" "".

(** The attempt may already be in the history. *)
Definition Member_StoreFormFields (attemptId : Z) (fields : gomap) : DBM (option AppError) :=
  match fields with
  | None => mret None
  | Some _ =>
      let args := [("Id", VInt attemptId); ("Fields", mapToJson fields)] in
      r ← statement Master Member_StoreFormFields_sql (Named args) (fun t => (db_exec t, db_affected t));
      match r with
      | (Some e, _) => mret (Some (fields_error e))
      | (None, inl e) => mret (Some (fields_error e))
      | (None, inr cnt) => if decide (cnt = 0) then exec Member_StoreFormFields_sql2 args fields_error else mret None
      end
  end.

Definition Member_CleanAttempts (nodeId : string) : DBM (option AppError) :=
  exec Member_CleanAttempts_sql [("NodeId", VStr nodeId)]
    (err500 "SqlMemberStore.CleanAttempts" "store.sql_member.clean_attempts.app_error" "").

Definition Member_FlipResource (attemptId : Z) (skippResources : list Z) : DBM (result AttemptFlipResource) :=
  select Master db_flip Member_FlipResource_sql [("AttemptId", VInt attemptId); ("SkippResources", VInts skippResources)]
    (err500 "SqlMemberStore.FlipResource" "store.sql_member.flip_resource.app_error" "").

Definition Member_Intercept (domainId attemptId agentId : Z) : DBM (result Z) :=
  select Master db_int Member_Intercept_sql [("DomainId", VInt domainId); ("AgentId", VInt agentId); ("Id", VInt attemptId)]
    (err_code "SqlMemberStore.Intercept" "store.sql_member.intercept.app_error" "").

Definition Member_WaitingList : DBM (result (list MemberWaitingByUsers)) :=
  select_plain Master db_waiting Member_WaitingList_sql []
    (err_code "SqlMemberStore.WaitingList" "store.sql_member.waiting_list.app_error" "").

Definition Member_UpdateProcessingFormAtHistory (id : Z) (formFields : gomap) : DBM (option AppError) :=
  exec Member_UpdateProcessingFormAtHistory_sql [("FormFields", mapToJson formFields); ("ID", VInt id)]
    (err_code "SqlMemberStore.UpdateProcessingFormAtHistory"
       "store.sql_member.update_processing_form_at_history.app_error" "").

Definition Member_CancelAttemptAndReleaseAgent (attemptID agendHoldSec : Z) : DBM (option AppError) :=
  only_err (select Master db_int Member_CancelAttemptAndReleaseAgent_sql
    [("AttemptID", VInt attemptID); ("AgentHoldSec", VInt agendHoldSec)]
    (err_code "SqlMemberStore.CancelAttemptAndReleaseAgent" "store.sql_member.cancel_attempt_release_agent.app_error"
       ("AttemptID=" +:+ fmt_d attemptID +:+ "; Error="))).

(** ** Agents: agent_store.go *)

Definition Agent_ReservedForAttemptByNode (nodeId : string) : DBM (result (list AgentsForAttempt)) :=
  select Master db_reserved Agent_ReservedForAttemptByNode_sql
    [("Node", VStr nodeId); ("Active", VStr MemberStateActive); ("WaitAgent", VStr MemberStateWaitAgent)]
    (err500 "SqlAgentStore.ReservedForAttemptByNode" "store.sql_agent.reserved_for_attempt.app_error" "").

Definition Agent_SetOnlineAtomic (status : AgentOnlineRequest) : DBM (result SetOnlineAtomicResponse) :=
  select Master db_onlineAtomic Agent_SetOnlineAtomic_sql
    [("AgentID", VInt (ao_AgentID status)); ("DomainID", VInt (ao_DomainID status)); ("OnDemand", VBool (ao_OnDemand status));
     ("StatusID", opt_int (StatusIDPtr status)); ("StatusName", opt_str (StatusNamePtr status))]
    (err_code "SetOnlineAtomic" "sqlstore.agent_store.set_online_atomic.app_err" "").

Definition Agent_GetWithContext (id : Z) : DBM (result Agent) :=
  select Replica db_agent Agent_GetWithContext_sql [("Id", VInt id)]
    (err_found "SqlAgentStore.Get" "store.sql_agent.get.app_error" ("Id=" +:+ fmt_d id +:+ ", ")).

Definition Agent_Get (id : Z) : DBM (result Agent) :=
  select Replica db_agent Agent_Get_sql [("Id", VInt id)]
    (err_found "SqlAgentStore.Get" "store.sql_agent.get.app_error" ("Id=" +:+ fmt_d id +:+ ", ")).

Definition Agent_ConfirmAttempt (agentId attemptId : Z) : DBM (result (list string)) :=
  select Master db_strs Agent_ConfirmAttempt_sql [("AgentId", VInt agentId); ("AttemptId", VInt attemptId)]
    (err500 "SqlAgentStore.ConfirmAttempt" "store.sql_agent.confirm_attempt.app_error"
       ("AgenetId=" +:+ fmt_d agentId +:+ ", AttemptId=" +:+ fmt_d attemptId +:+ ", ")).

Definition Agent_MissedAttempt (agentId attemptId : Z) (cause : string) : DBM (option AppError) :=
  exec Agent_MissedAttempt_sql [("AttemptId", VInt attemptId); ("AgentId", VInt agentId); ("Cause", VStr cause)]
    (err500 "SqlAgentStore.MissedAttempt" "store.sql_agent.missed_attempt.app_error"
       ("AgenetId=" +:+ fmt_d agentId +:+ ", AttemptId=" +:+ fmt_d attemptId +:+ ", ")).

Definition Agent_RefreshEndStateDay5Min : DBM (option AppError) :=
  exec_plain Agent_RefreshEndStateDay5Min_sql
    (err500 "SqlAgentStore.RefreshEndStateDay5Min" "store.sql_queue.refresh_state_5min.app_error" "").

Definition Agent_SetOnline (agentId : Z) (onDemand : bool) : DBM (result AgentOnlineData) :=
  select Master db_online Agent_SetOnline_sql [("AgentId", VInt agentId); ("OnDemand", VBool onDemand)]
    (err_code "SqlAgentStore.SetOnline" "store.sql_agent.set_online.app_error" "").

Definition Agent_SetStatus (agentId : Z) (status : string) (payload statusComment : option string) : DBM (option AppError) :=
  exec Agent_SetStatus_sql
    [("AgentId", VInt agentId); ("Status", VStr status); ("Payload", opt_str payload); ("StatusComment", opt_str statusComment)]
    (err500 "SqlAgentStore.SetStatus" "store.sql_agent.set_status.app_error" ("AgentId=" +:+ fmt_d agentId +:+ ", ")).

Definition Agent_CheckAllowPause (domainId agentId : Z) : DBM (result bool) :=
  r ← select Master db_bool Agent_CheckAllowPause_sql [("AgentId", VInt agentId); ("DomainId", VInt domainId)]
    (err500 "SqlAgentStore.CheckAllowPause" "store.sql_agent.check_status.app_error"
       ("AgenetId=" +:+ fmt_d agentId +:+ ", "));
  mret (match r with inl e => inl e | inr res => inr (negb res) end).

Definition Agent_GetNoAnswerChannels (agentId : Z) (queueTypes : list Z) : DBM (result (list CallNoAnswer)) :=
  select Master db_noAnswer Agent_GetNoAnswerChannels_sql [("AgentId", VInt agentId); ("QueueTypes", VInts queueTypes)]
    (err500 "SqlAgentStore.GetNoAnswerChannels" "store.sql_agent.get_no_answer.app_error"
       ("AgenetId=" +:+ fmt_d agentId +:+ ", ")).

(** The function of the database answers 0 if the channel may not wait. *)
Definition Agent_WaitingChannel (agentId : Z) (channel : string) : DBM (result Z) :=
  let where_ := "SqlAgentStore.WaitingChannel" in
  let id := "store.sql_agent.waiting_channel.app_error" in
  let details := "AgenetId=" +:+ fmt_d agentId +:+ ", Channel=" +:+ channel +:+ " " in
  r ← select Master db_int Agent_WaitingChannel_sql [("AgentId", VInt agentId); ("Channel", VStr channel)]
    (err500 where_ id details);
  mret (match r with
        | inr timestamp =>
            if decide (timestamp = 0) then inl (NewAppError where_ id (details +:+ "not allowed") 400) else inr timestamp
        | inl e => inl e
        end).

Definition Agent_SetOnBreak (agentId : Z) : DBM (option AppError) :=
  exec Agent_SetOnBreak_sql [("Id", VInt agentId); ("Status", VStr AgentStatusPause)]
    (err500 "SqlAgentStore.SetOnBreak" "store.sql_agent.set_break.app_error"
       ("AgenetId=" +:+ fmt_d agentId +:+ ", Status=" +:+ AgentStatusPause +:+ " State=waiting, ")).

Definition Agent_CreateMissed (missed : MissedAttemptRow) : DBM (option AppError) :=
  exec Agent_CreateMissed_sql
    [("AttemptId", VInt (mt_AttemptId missed)); ("AgentId", VInt (mt_AgentId missed)); ("Cause", VStr (mt_Cause missed));
     ("MissedAt", VInt (mt_MissedAt missed))]
    (err500 "SqlAgentStore.CreateMissed" "store.sql_agent.create_missed.app_error"
       ("AttemptId=" +:+ fmt_d (mt_AttemptId missed) +:+ ", AgentId=" +:+ fmt_d (mt_AgentId missed) +:+ " ")).

Definition Agent_GetChannelTimeout : DBM (result (list ChannelTimeout)) :=
  select_plain Master db_channels Agent_GetChannelTimeout_sql []
    (err500 "SqlAgentStore.GetChannelTimeout" "store.sql_agent.channel_timeout.app_error" "").

Definition Agent_RefreshAgentPauseCauses : DBM (option AppError) :=
  exec_plain Agent_RefreshAgentPauseCauses_sql
    (err500 "SqlAgentStore.RefreshAgentPauseCauses" "store.sql_agent.refresh_pause_cause.app_error" "").

Definition Agent_RefreshAgentStatistics : DBM (option AppError) :=
  exec_plain Agent_RefreshAgentStatistics_sql
    (err500 "SqlAgentStore.RefreshAgentStatistics" "store.sql_agent.refresh_statistics.app_error" "").

Definition Agent_OnlineWithOutActive (sec : Z) : DBM (result (list AgentHashKey)) :=
  select Master db_hashKeys Agent_OnlineWithOutActive_sql [("Sec", VInt sec)]
    (err500 "SqlAgentStore.OnlineWithOutActiveSock" "store.sql_agent.find_active.app_error" "").

Definition Agent_LosePredictAttempt (id : Z) : DBM (option AppError) :=
  exec Agent_LosePredictAttempt_sql [("AgentId", VInt id)]
    (err500 "SqlAgentStore.LosePredictAttempt" "store.sql_agent.lose_predict.app_error" "").

Definition Agent_AgentTriggerJob (domainId userId triggerId : Z) : DBM (result AgentTriggerJob) :=
  select Replica db_trigger Agent_AgentTriggerJob_sql
    [("UserId", VInt userId); ("DomainId", VInt domainId); ("Id", VInt triggerId)]
    (err500 "SqlAgentStore.AgentTriggerJob" "store.sql_agent.run_trigger.app_error" "").

(** ** Calls, cluster, gateways, resources, queues, statistics, teams *)

Definition Call_Get (id : string) : DBM (result CallInfo) :=
  select Master db_call Call_Get_sql [("Id", VStr id)]
    (err500 "SqlAgentStore.Get" "store.sql_call.get.app_error" ("Id=" +:+ id +:+ ", ")).

Definition Cluster_CreateOrUpdate (nodeId : string) : DBM (result bool) := fun t =>
  select Master db_cluster Cluster_CreateOrUpdate_sql [("NodeId", VStr nodeId); ("Time", VInt (db_millis t))]
    (err500 "SqlClusterStore.CreateOrUpdate" "store.sql_cluster.create_or_update.app_error" "") t.

Definition Cluster_UpdateClusterInfo (nodeId : string) (started : bool) : DBM (result bool) := fun t =>
  select Master db_cluster Cluster_UpdateClusterInfo_sql
    [("NodeId", VStr nodeId); ("Time", VInt (db_millis t)); ("IsStarted", VBool started)]
    (err500 "SqlClusterStore.UpdateUpdatedTime" "store.sql_cluster.update_updated_at.app_error" "") t.

Definition Gateway_Get (id : Z) : DBM (result SipGateway) :=
  select Replica db_gateway Gateway_Get_sql [("Id", VInt id)]
    (err_found "SqlGatewayStore.Get" "store.sql_gateway.get.app_error" ("Id=" +:+ fmt_d id +:+ ", ")).

Definition Resource_GetById (id : Z) : DBM (result OutboundResource) :=
  select Replica db_resource Resource_GetById_sql [("Id", VInt id)]
    (err_found "SqlOutboundResourceStore.GetById" "store.sql_outbound_resource.get.app_error" ("Id=" +:+ fmt_d id +:+ ", ")).

Definition Resource_SetError (id queueId : Z) (errorId strategy : string) : DBM (result OutboundResourceErrorResult) :=
  select Master db_resourceError Resource_SetError_sql
    [("Id", VInt id); ("QueueId", VInt queueId); ("ErrorId", VStr errorId); ("Strategy", VStr strategy)]
    (err_found "SqlOutboundResourceStore.SetError" "store.sql_outbound_resource.set_error.app_error"
       ("Id=" +:+ fmt_d id +:+ ", ")).

Definition Resource_SetSuccessivelyErrorsById (id successivelyErrors : Z) : DBM (option AppError) :=
  exec Resource_SetSuccessivelyErrorsById_sql [("Id", VInt id); ("SuccessivelyErrors", VInt successivelyErrors)]
    (err500 "SqlOutboundResourceStore.SetSuccessivelyErrorsById"
       "store.sql_outbound_resource.set_successively_error.app_error" ("Id=" +:+ fmt_d id +:+ ", ")).

Definition Queue_GetById (id : Z) : DBM (result Queue) :=
  select Replica db_queue Queue_GetById_sql [("Id", VInt id)]
    (err_found "SqlQueueStore.Get" "store.sql_queue.get.app_error" ("Id=" +:+ fmt_d id +:+ ", ")).

Definition Queue_UserIds (queueId skipAgentId : Z) : DBM (result (list Z)) :=
  select Replica db_ints Queue_UserIds_sql [("QueueId", VInt queueId); ("SkipAgentId", VInt skipAgentId)]
    (err500 "SqlQueueStore.UserIds" "store.sql_queue.users.app_error" ("queue_id=" +:+ fmt_d queueId +:+ ", ")).

Definition Queue_RecordAllCalls (domainID : Z) : DBM (result bool) :=
  select Replica db_bool Queue_RecordAllCalls_sql [("DomainId", VInt domainID); ("Name", VStr "record_all_calls")]
    (err500 "SqlQueueStore.RecordAllCalls" "store.sql_queue.record_all_calls.app_error"
       ("domain_id=" +:+ fmt_d domainID +:+ ", ")).

Definition Statistic_RefreshInbound1H : DBM (option AppError) :=
  exec_plain Statistic_RefreshInbound1H_sql
    (err500 "SqlAgentStore.RefreshInbound1H" "store.sql_agent.refresh_inbound_stats.app_error" "").

Definition Statistic_LibVersion : DBM (result string) :=
  select_plain Master db_str Statistic_LibVersion_sql []
    (err_code "SqlMemberStore.LibVersion" "store.sql_member.lib_version.app_error" "").

(** The id of the error tells a missing team from other errors. *)
Definition team_error (id : Z) (e : SqlErr) : AppError :=
  err_found "SqlTeamStore.Get" (if decide (e = ErrNoRows) then "store.sql_team.get.not_found" else "store.sql_team.get.app_error")
    ("Id=" +:+ fmt_d id +:+ ", ") e.

Definition Team_Get (id : Z) : DBM (result Team) :=
  select Replica db_team Team_Get_sql [("Id", VInt id)] (team_error id).

(** ** Triggers: trigger_store.go *)

Definition TriggerJobStateIdle : Z := 0.
Definition TriggerJobStateActive : Z := 1.
Definition TriggerJobStateStop : Z := 2.
Definition TriggerJobStateError : Z := 3.

Definition Trigger_ScheduleNewJobs : DBM (option AppError) :=
  exec_plain Trigger_ScheduleNewJobs_sql
    (err_code "SqlTriggerStore.ScheduleNewJobs" "store.sql_trigger.schedule.app_error" "").

Definition Trigger_FetchIdleJobs (node : string) (limit : Z) : DBM (result (list TriggerJob)) :=
  select Master db_jobs Trigger_FetchIdleJobs_sql
    [("NodeId", VStr node); ("Limit", VInt limit); ("StateActive", VInt TriggerJobStateActive);
     ("StateIdle", VInt TriggerJobStateIdle)]
    (err_code "SqlTriggerStore.FetchIdleJobs" "store.sql_trigger.fetch_jobs.app_error" "").

Definition Trigger_SetError (job : TriggerJob) (jobErr : string) : DBM (option AppError) :=
  exec Trigger_SetError_sql
    [("Id", VInt (tj_Id job)); ("StateError", VInt TriggerJobStateError); ("Error", VStr jobErr); ("Result", ResultJson job)]
    (err_code "SqlTriggerStore.SetError" "store.sql_trigger.set_error.app_error" "").

Definition Trigger_SetResult (job : TriggerJob) : DBM (option AppError) :=
  exec Trigger_SetResult_sql [("Id", VInt (tj_Id job)); ("State", VInt TriggerJobStateStop); ("Result", ResultJson job)]
    (err_code "SqlTriggerStore.SetResult" "store.sql_trigger.set_result.app_error" "").

Definition Trigger_CleanActive (nodeId : string) : DBM (option AppError) :=
  exec Trigger_CleanActive_sql [("NodeId", VStr nodeId)]
    (err_code "SqlTriggerStore.CleanActive" "store.sql_trigger.clean.app_error" "").

End Store.
