(* ===== verification/Payloads.v ===== *)
(** * Destinations, variables and errors as JSON

    The destination of a member (model/member.go) and of an instant message (queue/im_inbound.go),
    the maps and parameters that go to the store (model/utils.go, model/task.go) and the error the
    gRPC interface answers with. [json_services] and [json_store] are the instances: what was a
    parameter of the other components. The text of an error of encoding/json stays one. *)

From stdpp Require Import sorting.
From S2P Require Import Prelude Model Resource Json Unmarshal Queue Attempt Calls World Jobs Sql StoreSql Api Calling StoreOps.

Class JsonErrors := {
  unmarshal_error : JsonError -> string -> string; (* Error of what json.Unmarshal gives for a text *)
  marshal_error : string -> string; (* Error of what json.Marshal gives for a RawMessage *)
}.

(** ** Instant messages *)

#[export] Instance eta_IMMemberInfo : Eta IMMemberInfo := fun m =>
  MkIMMemberInfo (imm_Type m) (imm_Name m) (imm_Iss m) (imm_Sub m) (imm_MemberId m) (imm_Role m).

#[export] Instance eta_IMChannel : Eta IMChannel := fun c => MkIMChannel (imc_Name c) (imc_Type c).

#[export] Instance eta_IMThreadInfo : Eta IMThreadInfo := fun t =>
  MkIMThreadInfo (imt_ID t) (imt_Subject t) (imt_Members t) (imt_LastMessage t) (imt_Channel t).

Definition zero_member : IMMemberInfo := MkIMMemberInfo "" "" "" "" "" 0.
Definition zero_thread : IMThreadInfo := MkIMThreadInfo "" "" [] "" None.
Definition zero_im : IMThreadCommunication := MkIMThreadCommunication "" zero_thread "" "" "" "" 0 0.

Definition member_fields : fields IMMemberInfo :=
  [field "type" dec_string imm_Type; field "name" dec_string imm_Name; field "iss" dec_string imm_Iss;
   field "sub" dec_string imm_Sub; field "id" dec_string imm_MemberId; field "role" (dec_int 64) imm_Role].

Definition channel_fields : fields IMChannel :=
  [field "name" dec_string imc_Name; field "type" dec_string imc_Type].

Definition thread_fields : fields IMThreadInfo :=
  [field "id" dec_string imt_ID; field "subject" dec_string imt_Subject;
   field "members" (dec_slice zero_member (dec_struct member_fields)) imt_Members;
   field "last_msg" dec_string imt_LastMessage;
   field "channel" (dec_ptr (MkIMChannel "" "") (dec_struct channel_fields)) imt_Channel].

Definition im_destination_fields : fields IMThreadCommunication :=
  [field "destination" dec_string imd_Destination; field "thread" (dec_struct thread_fields) imd_Thread;
   field "api_sub" dec_string imd_ApiSub; field "member_sub" dec_string imd_MemberSub;
   field "member_id" dec_string imd_MemberId; field "transfer_from" dec_string imd_TransferFrom;
   field "transfer_attempt_id" (dec_int 64) imd_TransferAttemptId;
   field "transfer_agent_id" (dec_int 64) imd_TransferAgentId].

Definition json_member (m : IMMemberInfo) : json :=
  JObj (member "type" (jstr (imm_Type m)) ++ member "name" (jstr (imm_Name m)) ++
        member "iss" (jstr (imm_Iss m)) ++ member "sub" (jstr (imm_Sub m)) ++
        omit_str "id" (imm_MemberId m) ++ omit_int "role" (imm_Role m)).

Definition json_channel (c : IMChannel) : json :=
  JObj (member "name" (jstr (imc_Name c)) ++ member "type" (jstr (imc_Type c))).

(** The members are appended to a nil slice, so that no member is null. *)
Definition json_thread (t : IMThreadInfo) : json :=
  JObj (member "id" (jstr (imt_ID t)) ++ member "subject" (jstr (imt_Subject t)) ++
        member "members" (match imt_Members t with [] => JNull | l => JArr (json_member <$> l) end) ++
        member "last_msg" (jstr (imt_LastMessage t)) ++ omit_ptr "channel" json_channel (imt_Channel t)).

Definition json_im (d : IMThreadCommunication) : json :=
  JObj (member "destination" (jstr (imd_Destination d)) ++ member "thread" (json_thread (imd_Thread d)) ++
        member "api_sub" (jstr (imd_ApiSub d)) ++ member "member_sub" (jstr (imd_MemberSub d)) ++
        member "member_id" (jstr (imd_MemberId d)) ++ omit_str "transfer_from" (imd_TransferFrom d) ++
        omit_int "transfer_attempt_id" (imd_TransferAttemptId d) ++
        omit_int "transfer_agent_id" (imd_TransferAgentId d)).

(** Json of an IMThreadCommunication *)
Definition Json (d : IMThreadCommunication) : string := marshal (json_im d).

Definition unmarshal_im (data : string) : IMThreadCommunication * option JsonError :=
  unmarshal (dec_struct im_destination_fields) zero_im data.

(** ** The destination of a member *)

#[export] Instance eta_Communication : Eta Communication := fun c =>
  MkCommunication (comm_Id c) (comm_Name c) (comm_Channel c).

Definition communication_fields : fields Communication :=
  [field "id" (dec_int 64) comm_Id; field "name" dec_string comm_Name;
   field "channel" (dec_ptr "" dec_string) comm_Channel].

(** Thread is a RawMessage and is set by [raw_member]. *)
Definition destination_fields : fields MemberCommunication :=
  [field "destination" dec_string mc_Destination; field "type" (dec_struct communication_fields) mc_Type;
   field "priority" (dec_int 64) mc_Priority; field "display" (dec_ptr "" dec_string) mc_Display;
   field "description" dec_string mc_Description; field "attempts" (dec_int 64) mc_Attempts;
   field "dtmf" (dec_ptr "" dec_string) mc_Dtmf].

Definition zero_destination : MemberCommunication :=
  MkMemberCommunication "" (MkCommunication 0 "" None) 0 None "" 0 None None.

(** The members of an object whose brace was read, with the texts of their values. *)
Fixpoint raw_members (fuel : nat) (s : list Z) : list (list Z * list Z) :=
  match fuel, skip s with
  | S fuel, _ :: r =>
      match unquote (length r) r with
      | Some (k, r) =>
          let r := skip (drop 1 (skip r)) in
          match parse_value (S (2 * length r)) 1 r with
          | Some (_, r') =>
              (k, take (length r - length r') r) ::
              match skip r' with
              | c :: r => if c =? comma then raw_members fuel r else []
              | [] => []
              end
          | None => []
          end
      | None => []
      end
  | _, _ => []
  end.

(** The text of a member of the object a text holds: the last one if there are several. *)
Definition raw_member (nm : string) (data : string) : option string :=
  match skip (bytes_of data) with
  | 123 :: r => string_of ∘ snd <$> last (filter (fun kv => fold_name kv.1 = fold_name (bytes_of nm)) (raw_members (length r) r))
  | _ => None
  end.

Definition MemberDestinationFromBytes (data : string) : MemberCommunication :=
  match parse data with
  | Some v => ((dec_struct destination_fields v zero_destination).1) <| mc_Thread := raw_member "thread" data |>
  | None => zero_destination
  end.

(** The text of a RawMessage as it is written: without the spaces between its tokens ([str]: in a
    string, [esc]: after a backslash in it), with the escapes for HTML. *)
Fixpoint compact (str esc : bool) (s : list Z) : list Z :=
  match s with
  | [] => []
  | 226 :: 128 :: 168 :: r => [backslash; 117; 50; 48; 50; 56] ++ compact str false r
  | 226 :: 128 :: 169 :: r => [backslash; 117; 50; 48; 50; 57] ++ compact str false r
  | c :: r =>
      if negb str && json_space c then compact str false r
      else (if (c =? 60) || (c =? 62) || (c =? 38) then [backslash; 117; 48; 48; hex (c / 16); hex (c `mod` 16)] else [c]) ++
           compact (if (c =? quote) && negb esc then negb str else str) (str && (c =? backslash) && negb esc) r
  end.

Definition json_communication (c : Communication) : json :=
  JObj (member "id" (jint (comm_Id c)) ++ member "name" (jstr (comm_Name c)) ++
        omit_ptr "channel" jstr (comm_Channel c)).

(** The text of a MemberCommunication; the error is that of a RawMessage that is not JSON. *)
Definition destination_text `{JsonErrors} (m : MemberCommunication) : string + list Z :=
  let known := member "destination" (jstr (mc_Destination m)) ++ member "type" (json_communication (mc_Type m)) ++
               omit_int "priority" (mc_Priority m) ++ omit_ptr "display" jstr (mc_Display m) ++
               omit_str "description" (mc_Description m) ++ omit_int "attempts" (mc_Attempts m) ++
               omit_ptr "dtmf" jstr (mc_Dtmf m) in
  let text (k : list Z) (v : list Z) := print_string k ++ colon :: v in
  let texts := (fun kv => text kv.1 (print kv.2)) <$> known in
  let done ts := inr (123 :: sep ts ++ [125]) in
  match default "" (mc_Thread m) with
  | "" => done texts
  | raw => match parse raw with
           | None => inl (marshal_error raw)
           | Some _ => done (texts ++ [text (bytes_of "thread") (compact false false (bytes_of raw))])
           end
  end.

Fixpoint destination_texts `{JsonErrors} (l : list MemberCommunication) : string + list (list Z) :=
  match l with
  | [] => inr []
  | m :: l =>
      match destination_text m, destination_texts l with
      | inl e, _ => inl e
      | _, inl e => inl e
      | inr t, inr ts => inr (t :: ts)
      end
  end.

Definition communications_text `{JsonErrors} (l : list MemberCommunication) : string + string :=
  match l, destination_texts l with
  | [], _ => inr (marshal JNull)
  | _, inl e => inl e
  | _, inr ts => inr (string_of (91 :: sep ts ++ [93]))
  end.

(** ** Maps, lists and parameters: model/utils.go, model/task.go *)

(** model.MapToJson, as the text it returns *)
Definition MapToJson_text (m : gomap) : string := marshal (jmap m).

Definition MapFromJson (data : string) : gomap :=
  match decode_first dec_map None data with
  | (m, None) => m
  | (_, Some _) => Some ∅
  end.

(** [None] is a nil slice. *)
Definition ArrayToJson (l : option (list string)) : string :=
  marshal (match l with Some l => JArr (jstr <$> l) | None => JNull end).

Definition ArrayFromJson (data : string) : list string :=
  match decode_first (dec_slice "" dec_string) [] data with
  | (l, None) => l
  | (_, Some _) => []
  end.

(** ToJson of the parameters of a queue *)
Definition QueueDumpParams_ToJson (p : QueueDumpParams) : string :=
  marshal (JObj (omit_ptr "has_reporting" JBool (qd_HasReporting p) ++ omit_ptr "has_form" JBool (qd_HasForm p) ++
    omit_int "processing_sec" (qd_ProcessingSec p) ++ member "processing_autosave" (JBool (qd_ProcessingAutosave p)) ++
    omit_int "processing_renewal_sec" (qd_ProcessingRenewalSec p) ++ omit_str "queue_name" (qd_QueueName p) ++
    omit_ptr "has_prolongation" JBool (qd_HasProlongation p) ++
    omit_int "remaining_prolongations" (qd_RemainingProlongations p) ++
    omit_int "prolongation_sec" (qd_ProlongationSec p) ++ omit_true "is_timeout_retry" (qd_IsTimeoutRetry p))).

(** The value of an AppError: the message is the id, the request is never set and the error is
    never one of OAuth; Where is not written. *)
Definition json_error (e : AppError) : json :=
  JObj (member "id" (jstr (err_Id e)) ++ member "message" (jstr (err_Id e)) ++ member "detail" (jstr (err_Detail e)) ++
        omit_int "code" (err_StatusCode e)).

Definition ToJson (e : AppError) : string := marshal (json_error e).

(** StringInterfaceToJson: the values of the map are taken apart. *)
Definition StringInterfaceToJson (m : option (gmap string json)) : string :=
  marshal (match m with
           | Some m => JObj ((fun kv => (bytes_of kv.1, kv.2)) <$> merge_sort key_le (map_to_list m))
           | None => JNull
           end).

(** A time is the nanoseconds since the epoch. *)
Definition TimeToInt64 (t : option Z) : Z := match t with None => 0 | Some n => n ÷ 1000000 end.

(** ** Arguments of a statement: typeConverter.ToDb of supplier.go *)

Inductive DbArg :=
| ArgStringMap (m : gomap)
| ArgMap (m : gomap)
| ArgStringArray (l : option (list string))
| ArgStringInterface (m : option (gmap string json))
| ArgMapInterface (m : option (gmap string json))
| ArgOther (v : SqlVal).

Definition ToDb (val : DbArg) : SqlVal :=
  match val with
  | ArgStringMap t | ArgMap t => VStr (MapToJson_text t)
  | ArgStringArray t => VStr (ArrayToJson t)
  | ArgStringInterface t | ArgMapInterface t => VStr (StringInterfaceToJson t)
  | ArgOther v => v
  end.

(** ** The instances *)

Definition decode_destination `{JsonErrors} (data : string) : IMThreadCommunication * option string :=
  let '(d, e) := unmarshal_im data in (d, (fun e => unmarshal_error e data) <$> e).

Definition json_services `{JsonErrors} (rest : Services) : Services := {|
  svc_now := svc_now (Services := rest);
  svc_node := svc_node (Services := rest);
  svc_ready := svc_ready (Services := rest);
  svc_waitChannelClose := svc_waitChannelClose (Services := rest);
  svc_rand := svc_rand (Services := rest);
  svc_error := svc_error (Services := rest);
  svc_timestamp := svc_timestamp (Services := rest);
  svc_leaving := svc_leaving (Services := rest);
  svc_missed := svc_missed (Services := rest);
  svc_reporting := svc_reporting (Services := rest);
  svc_renewal := svc_renewal (Services := rest);
  svc_ids := svc_ids (Services := rest);
  svc_flip := svc_flip (Services := rest);
  svc_members := svc_members (Services := rest);
  svc_member := svc_member (Services := rest);
  svc_timeouts := svc_timeouts (Services := rest);
  svc_channelTimeouts := svc_channelTimeouts (Services := rest);
  svc_reserved := svc_reserved (Services := rest);
  svc_inboundCall := svc_inboundCall (Services := rest);
  svc_callAgent := svc_callAgent (Services := rest);
  svc_inboundChat := svc_inboundChat (Services := rest);
  svc_inboundIM := svc_inboundIM (Services := rest);
  svc_taskAgent := svc_taskAgent (Services := rest);
  svc_agent := svc_agent (Services := rest);
  svc_agentOnline := svc_agentOnline (Services := rest);
  svc_agentOnlineAtomic := svc_agentOnlineAtomic (Services := rest);
  svc_withoutActive := svc_withoutActive (Services := rest);
  svc_noAnswer := svc_noAnswer (Services := rest);
  svc_allowed := svc_allowed (Services := rest);
  svc_queue := svc_queue (Services := rest);
  svc_team := svc_team (Services := rest);
  svc_resource := svc_resource (Services := rest);
  svc_gateway := svc_gateway (Services := rest);
  svc_flow_start := svc_flow_start (Services := rest);
  svc_resultAttempt := svc_resultAttempt (Services := rest);
  svc_distributeAttempt := svc_distributeAttempt (Services := rest);
  svc_newProcessing := svc_newProcessing (Services := rest);
  svc_form := svc_form (Services := rest);
  svc_formFields := svc_formFields (Services := rest);
  svc_callExists := svc_callExists (Services := rest);
  svc_chatExists := svc_chatExists (Services := rest);
  svc_channelStats := svc_channelStats (Services := rest);
  svc_channelAnswered := svc_channelAnswered (Services := rest);
  svc_bridgedSession := svc_bridgedSession (Services := rest);
  World.MemberDestinationFromBytes := MemberDestinationFromBytes;
  World.decode_im := decode_destination;
  World.encode_im := Json;
  decode_form := decode_form (Services := rest);
|}.

Definition json_store `{JsonErrors} : StoreJson := {|
  json_map := MapToJson_text;
  json_params := QueueDumpParams_ToJson;
  json_comms := communications_text;
|}.
