(* ===== verification/PayloadFacts.v ===== *)
(** * The payloads come back as they were written

    The destination of an instant message, the variables of an attempt and the errors of the gRPC
    interface, through JSON and back. *)

From stdpp Require Import sorting.
From S2P Require Import Prelude Model Resource Json JsonFacts Unmarshal UnmarshalFacts.
From S2P Require Import Queue Attempt Calls World Jobs Sql StoreSql Api Calling StoreOps Payloads.

(** ** The destination of an instant message *)

Definition member_int (m : IMMemberInfo) : Prop := in_int 64 (imm_Role m).

Lemma member_reads m : member_int m -> dec_struct member_fields (json_member m) zero_member = (m, false).
Proof.
  intros Hm. destruct m as [ty nm iss sub id role]. unfold member_int in Hm. simpl in Hm.
  eapply dec_struct_reads; [read_fields|reflexivity].
Qed.

Lemma channel_reads c : dec_struct channel_fields (json_channel c) (MkIMChannel "" "") = (c, false).
Proof. destruct c. eapply dec_struct_reads; [read_fields|reflexivity]. Qed.

Lemma dec_elems_reads {A} zero (d : dec A) (enc : A -> json) l :
  Forall (fun a => d (enc a) zero = (a, false)) l -> dec_elems zero d (enc <$> l) [] = (l, false).
Proof.
  induction 1 as [|a l Ha Hl IH]; [done|]. rewrite fmap_cons. cbn [dec_elems head tail]. change (default zero None) with zero.
  by rewrite Ha, IH.
Qed.

Lemma thread_reads t : Forall member_int (imt_Members t) -> dec_struct thread_fields (json_thread t) zero_thread = (t, false).
Proof.
  intros Hm. destruct t as [id sub ms last ch]. simpl in Hm.
  eapply dec_struct_reads; [read_fields|reflexivity].
  - destruct ms as [|m ms]; [reflexivity|].
    apply dec_elems_reads. eapply Forall_impl; [exact Hm|]. apply member_reads.
  - intros c Hc. unfold dec_ptr. change (default _ _) with (MkIMChannel "" ""). rewrite channel_reads. reflexivity.
Qed.

(** The numbers of a destination fit their types. *)
Definition im_ints (d : IMThreadCommunication) : Prop :=
  Forall member_int (imt_Members (imd_Thread d)) /\ in_int 64 (imd_TransferAttemptId d) /\ in_int 64 (imd_TransferAgentId d).

Lemma im_reads d : im_ints d -> dec_struct im_destination_fields (json_im d) zero_im = (d, false).
Proof.
  intros (Hm & Ha & Hg). destruct d as [dst th api sub id from att ag]. simpl in Hm, Ha, Hg.
  eapply dec_struct_reads; [read_fields|reflexivity]. by apply thread_reads.
Qed.

Definition member_utf8 (m : IMMemberInfo) : Prop :=
  utf8_string (imm_Type m) /\ utf8_string (imm_Name m) /\ utf8_string (imm_Iss m) /\ utf8_string (imm_Sub m) /\
  utf8_string (imm_MemberId m).

Definition channel_utf8 (c : IMChannel) : Prop := utf8_string (imc_Name c) /\ utf8_string (imc_Type c).

Definition thread_utf8 (t : IMThreadInfo) : Prop :=
  utf8_string (imt_ID t) /\ utf8_string (imt_Subject t) /\ Forall member_utf8 (imt_Members t) /\
  utf8_string (imt_LastMessage t) /\ (forall c, imt_Channel t = Some c -> channel_utf8 c).

(** Every string of a destination is UTF-8. *)
Definition im_utf8 (d : IMThreadCommunication) : Prop :=
  utf8_string (imd_Destination d) /\ thread_utf8 (imd_Thread d) /\ utf8_string (imd_ApiSub d) /\
  utf8_string (imd_MemberSub d) /\ utf8_string (imd_MemberId d) /\ utf8_string (imd_TransferFrom d).

Lemma member_small m : member_utf8 m -> small 1 (json_member m).
Proof. intros (? & ? & ? & ? & ?). apply (small_object 0); [lia|]. written. Qed.

Lemma channel_small c : channel_utf8 c -> small 1 (json_channel c).
Proof. intros (? & ?). apply (small_object 0); [lia|]. written. Qed.

Lemma thread_small t : thread_utf8 t -> small 3 (json_thread t).
Proof.
  intros (? & ? & Hm & ? & Hc). apply (small_object 2); [lia|]. written.
  - destruct (imt_Members t) as [|m ms]; [by apply small_null|]. apply (small_array 1); [lia|]. apply Forall_map.
    eapply Forall_impl; [exact Hm|]. apply member_small.
  - intros c E. apply (small_weaken 1); [|lia]. by apply channel_small, Hc.
Qed.

Lemma im_small d : im_utf8 d -> small 4 (json_im d).
Proof. intros (? & ? & ? & ? & ? & ?). apply (small_object 3); [lia|]. written. by apply thread_small. Qed.

(** C21. The destination that Json writes for an instant message is the one json.Unmarshal reads when
    the attempt is distributed or transferred: every string that is UTF-8 and every number of its
    type comes back, the fields left out by omitempty included. *)
Theorem im_round_trip (d : IMThreadCommunication) :
  im_utf8 d -> im_ints d -> unmarshal_im (Json d) = (d, None).
Proof.
  intros Hu Hi. unfold unmarshal_im, unmarshal, Json. rewrite (parse_small _ 4) by (by apply im_small || done).
  by rewrite im_reads.
Qed.

(** ** Maps of strings *)

Lemma dec_map_reads (l : list (string * string)) : NoDup l.*1 -> forall m,
  foldl (fun '(m, e) kv => let '(y, e') := dec_string kv.2 "" in (<[string_of kv.1 := y]> m, e || e')) (m, false)
    ((fun kv => (bytes_of kv.1, jstr kv.2)) <$> l) = ((list_to_map l : strmap) ∪ m, false).
Proof.
  induction l as [|[k v] l IH]; intros Hl m; [change (list_to_map []) with (∅ : strmap); by rewrite (left_id_L ∅ (∪))|]. rewrite fmap_cons in Hl. apply NoDup_cons in Hl as [Hk Hl].
  rewrite fmap_cons. cbn [foldl fst snd]. rewrite dec_jstr, string_bytes. cbn [orb]. rewrite (IH Hl). f_equal.
  rewrite list_to_map_cons, <- insert_union_l, insert_union_r; [done|]. by apply not_elem_of_list_to_map_1.
Qed.

Definition map_utf8 (m : strmap) : Prop := map_Forall (fun k v => utf8_string k /\ utf8_string v) m.

Lemma sorted_keys (m : strmap) : merge_sort key_le (map_to_list m) ≡ₚ map_to_list m.
Proof. apply merge_sort_Permutation. Qed.

Lemma jmap_small m : map_utf8 m -> small 1 (jmap (Some m)).
Proof.
  intros Hm. apply (small_object 0); [lia|]. apply Forall_map. rewrite (sorted_keys m). apply Forall_forall.
  intros [k v] Hkv%elem_of_map_to_list. destruct (Hm k v Hkv). split; [done|]. by apply small_str.
Qed.

(** The variables that MapToJson writes are those that MapFromJson reads, whatever the order of
    the map, if their names and values are UTF-8. *)
Theorem map_round_trip (m : strmap) : map_utf8 m -> MapFromJson (MapToJson_text (Some m)) = Some m.
Proof.
  intros Hm. assert (parse (marshal (jmap (Some m))) = Some (jmap (Some m))) as Hp by (apply (parse_small _ 1); [by apply jmap_small|done]).
  unfold MapFromJson, MapToJson_text. rewrite (decode_first_parse _ _ _ _ Hp). unfold unmarshal. rewrite Hp.
  unfold jmap, dec_map. change (entries None) with (∅ : strmap). rewrite dec_map_reads.
  - rewrite (right_id_L ∅ (∪)). cbn iota. f_equal. rewrite (list_to_map_proper _ (map_to_list m)); [apply list_to_map_to_list| |apply sorted_keys].
    rewrite (sorted_keys m). apply NoDup_fst_map_to_list.
  - rewrite (sorted_keys m). apply NoDup_fst_map_to_list.
Qed.

(** ** Errors *)

(** The JSON of an error is read back as the object with its id, detail and code; where it happened
    is not in it. *)
Lemma error_round_trip e : utf8_string (err_Id e) -> utf8_string (err_Detail e) -> parse (ToJson e) = Some (json_error e).
Proof. intros Hi Hd. apply (parse_small _ 1); [|done]. apply (small_object 0); [lia|]. written. Qed.

(** ** The communication of an attempt for an instant message *)

Lemma reads_unknown {S} (fs : fields S) s l : Forall (fun kv => find_field fs kv.1 = None) l -> reads fs s l s.
Proof.
  unfold reads. induction 1 as [|kv l Hk Hl IH]; [done|]. cbn [foldl]. unfold dec_member at 2. by rewrite Hk.
Qed.

(** The text of a value that was written, whatever follows it. *)
Lemma raw_value n v r : small n v -> n < maxNestingDepth -> ends_number r ->
  parse_value (S (2 * length (print v ++ r))) 1 (print v ++ r) = Some (v, r) /\ skip (print v ++ r) = print v ++ r.
Proof.
  intros [Hu Hn] Hm Hr. destruct (json_utf8_ok v Hu) as [Hok Hc]. pose proof (needs_print v Hok) as Hf. split.
  - rewrite (parse_value_print v Hok); [by rewrite Hc|rewrite length_app; lia|lia|done].
  - destruct (skip_print v r Hok) as (c & t & -> & E & _). done.
Qed.

Definition member_text (kv : list Z * json) : list Z := print_string kv.1 ++ colon :: print kv.2.

Lemma raw_members_print n l : l <> [] -> members_ok n l -> n < maxNestingDepth -> forall fuel, (length l <= fuel)%nat ->
  raw_members fuel (sep (map member_text l) ++ [125]) = (fun kv => (kv.1, print kv.2)) <$> l.
Proof.
  intros Hl Hok Hn. induction Hok as [|[k v] l [Hk Hv] Hok IH]; [done|]. clear Hl. intros fuel Hf.
  destruct fuel as [|fuel]; [simpl in Hf; lia|].
  assert (exists r, sep (map member_text ((k, v) :: l)) ++ [125] = print_string k ++ colon :: print v ++ r /\ ends_number r /\
            match skip r with c :: r => if c =? comma then raw_members fuel r else [] | [] => [] end =
            (fun kv => (kv.1, print kv.2)) <$> l) as (r & E & Hr & Hnext).
  { destruct l as [|kv l].
    - exists [125]. split; [|by split]. unfold member_text. cbn [map sep fst snd]. by rewrite <- app_assoc.
    - exists (comma :: sep (map member_text (kv :: l)) ++ [125]). split; [|split; [done|]].
      + cbn [map]. rewrite sep_cons by done. unfold member_text at 1. cbn [fst snd]. by rewrite <- !app_assoc.
      + rewrite skip_head by done. rewrite Z.eqb_refl. apply IH; [done|]. simpl in Hf |- *. lia. }
  rewrite E, print_string_app. cbn [raw_members]. rewrite skip_head by done.
  rewrite unquote_print by by apply utf8_bytes. rewrite coerce_utf8 by done.
  rewrite skip_head by done. change (drop 1 (colon :: print v ++ r)) with (print v ++ r). destruct (raw_value n v r Hv Hn Hr) as [Ep Es]. rewrite Es, Ep.
  rewrite length_app, Nat.add_sub, take_app_length, fmap_cons. f_equal. exact Hnext.
Qed.

(** The members of the JSON of a destination, and those after the thread. *)
Definition im_tail (d : IMThreadCommunication) : list (list Z * json) :=
  member "api_sub" (jstr (imd_ApiSub d)) ++ member "member_sub" (jstr (imd_MemberSub d)) ++
  member "member_id" (jstr (imd_MemberId d)) ++ omit_str "transfer_from" (imd_TransferFrom d) ++
  omit_int "transfer_attempt_id" (imd_TransferAttemptId d) ++ omit_int "transfer_agent_id" (imd_TransferAgentId d).

Lemma json_im_members d : json_im d =
  JObj (member "destination" (jstr (imd_Destination d)) ++ member "thread" (json_thread (imd_Thread d)) ++ im_tail d).
Proof. done. Qed.

(** None of them is a field of a MemberCommunication. *)
Lemma im_tail_keys d : Forall (fun kv => find_field destination_fields kv.1 = None /\ fold_name kv.1 <> fold_name (bytes_of "thread")) (im_tail d).
Proof.
  unfold im_tail, omit_str, omit_int.
  repeat case_decide; repeat first [apply Forall_app; split|apply Forall_nil_2|apply Forall_cons_2];
    split; first [reflexivity|discriminate].
Qed.

Lemma filter_no_member {A} (P : A -> Prop) `{forall x, Decision (P x)} l : Forall (fun x => ~ P x) l -> filter P l = [].
Proof. induction 1 as [|x l Hx Hl IH]; [done|]. by rewrite filter_cons_False. Qed.

Lemma sep_texts_length (l : list (list Z * json)) : (length l <= length (sep (map member_text l)))%nat.
Proof.
  induction l as [|kv l IH]; [done|]. cbn [map]. assert (1 <= length (member_text kv))%nat.
  { unfold member_text, print_string. simpl. lia. }
  destruct l as [|kv' l]; [simpl; lia|]. rewrite sep_cons by done. rewrite length_app. cbn [length map] in *. lia.
Qed.

(** C23. The attempt of an instant message reads the destination that Json stored for it a second
    time, as the communication of its member: the number is the destination of the thread, the
    thread is its text as it was written, byte for byte, and the members a communication does not
    have leave the other fields zero. *)
Theorem im_communication (d : IMThreadCommunication) : im_utf8 d ->
  MemberDestinationFromBytes (Json d) =
  MkMemberCommunication (imd_Destination d) (MkCommunication 0 "" None) 0 None "" 0 None (Some (marshal (json_thread (imd_Thread d)))).
Proof.
  intros Hd. pose proof (im_small d Hd) as Hs. unfold MemberDestinationFromBytes, Json.
  rewrite (parse_small _ 4) by done.
  assert (raw_member "thread" (marshal (json_im d)) = Some (marshal (json_thread (imd_Thread d)))) as ->.
  - unfold raw_member, marshal. rewrite bytes_string by by apply print_bytes, json_utf8_ok, Hs.
    rewrite json_im_members. cbn [print]. rewrite skip_head by done.
    change (fun kv : list Z * json => print_string kv.1 ++ colon :: print kv.2) with member_text.
    assert (members_ok 3 (member "destination" (jstr (imd_Destination d)) ++ member "thread" (json_thread (imd_Thread d)) ++ im_tail d)) as Hl.
    { destruct Hd as (? & ? & ? & ? & ? & ?). unfold im_tail. written. by apply thread_small. }
    rewrite (raw_members_print 3); [|done|exact Hl|done|etrans; [apply sep_texts_length|rewrite (length_app (sep _)); lia]].
    rewrite !fmap_app, !filter_app, (filter_no_member _ (_ <$> im_tail d)), app_nil_r; [reflexivity|].
    apply Forall_map. eapply Forall_impl; [apply im_tail_keys|]. by intros kv [_ H].
  - rewrite json_im_members.
    assert (reads destination_fields zero_destination
              (member "destination" (jstr (imd_Destination d)) ++ member "thread" (json_thread (imd_Thread d)) ++ im_tail d)
              (zero_destination <| mc_Destination := imd_Destination d |>)) as Hr; [|by rewrite (dec_struct_reads _ _ _ _ _ Hr eq_refl)].
    eapply reads_app; [eapply (reads_member _ _ _ _ (fun x s => s <| mc_Destination := x |>)); [reflexivity|apply dec_jstr]|].
    apply reads_unknown. apply Forall_app. split; [by apply Forall_singleton|].
    eapply Forall_impl; [apply im_tail_keys|]. by intros kv [H _].
Qed.
