(* ===== verification/Store.v ===== *)
(** * The SQL store behind the queue manager and the periodic jobs

    [StoreCall] is the interface of store/store.go, a constructor for each method that is
    implemented; [op_of] are the operations of StoreOps behind it. The queue manager records
    its calls as effects and the jobs as commands: [call_of] and [call_of_job] are the methods
    they call, and [sql_services] and [sql_jobs] answer them by running the operations on the
    statements that the calls before sent. *)

From S2P Require Import Prelude Model Calls World Jobs Sql StoreSql Calling Api StoreOps.

Definition OUTBOUND_RESOURCE_STRATEGY_RANDOM : string := "random".

(** ** The defaults of the application: app/outbound_resource.go *)

Class CallSettings := MkCallSettings {
  cs_UseBridgeAnswerTimeout : bool;
  cs_ResourceSipCidType : string;
  cs_ResourceIgnoreEarlyMedia : string;
}.

(** [if v == "" && conf != "" { v = conf }] *)
Definition or_default (v conf : string) : string := if decide (v = "" /\ conf <> "") then conf else v.

(** GetOutboundResourceById and GetGateway, on the answer of the store. *)
Definition GetOutboundResourceById `{CallSettings} (r : result OutboundResource) : result OutboundResource :=
  match r with
  | inl e => inl e
  | inr r => inr (r <| or_Parameters := MkOutboundResourceParameters
                         (or_default (orp_SipCidType (or_Parameters r)) cs_ResourceSipCidType)
                         (or_default (orp_IgnoreEarlyMedia (or_Parameters r)) cs_ResourceIgnoreEarlyMedia) |>)
  end.

Definition GetGateway `{CallSettings} (r : result SipGateway) : result SipGateway :=
  match r with
  | inl e => inl e
  | inr gw => inr (gw <| gw_UseBridgeAnswerTimeout := cs_UseBridgeAnswerTimeout |>)
  end.

(** ** The methods of the store *)

Inductive StoreCall :=
(* MemberStore *)
| MReserveMembersByNode (node : string) (enableOmnichannel : bool)
| MUnReserveMembersByNode (node cause : string)
| MGetActiveMembersAttempt (node : string)
| MSetAttemptState (id state : Z)
| MSetAttemptFindAgent (id : Z)
| MAnswerPredictAndFindAgent (id : Z) (holdAgent : bool)
| MSetDistributeCancel (id : Z) (description : string) (nextSec : Z) (stop : bool) (vars : gomap)
| MDistributeCallToQueue (node : string) (queueId : Z) (callId : string) (vars : gomap) (bucketId : option Z) (priority : Z)
    (stickyAgentId : option Z)
| MDistributeCallToAgent (node callId : string) (vars : gomap) (agentId : Z) (force : bool) (params : QueueDumpParams)
| MDistributeOutboundCall (node callId : string) (vars : gomap) (userId : Z) (params : QueueDumpParams)
| MDistributeTaskToAgent (node : string) (domainId agentId : Z) (dest : string) (vars : gomap) (force : bool)
    (params : QueueDumpParams)
| MDistributeCallToQueueCancel (id : Z)
| MDistributeChatToQueue (node : string) (queueId : Z) (convId : string) (vars : gomap) (bucketId : option Z) (priority : Z)
    (stickyAgentId : option Z) (extra : bool)
| MDistributeIMToQueue (node : string) (queueId : Z) (threadId dest : string) (vars : gomap) (bucketId : option Z)
    (priority : Z) (stickyAgentId : option Z)
| MDistributeIMToAgent (node : string) (queueId agentId : Z) (threadId dest : string) (vars : gomap) (bucketId : option Z)
| MAttemptWeight (id : Z)
| MDistributeDirect (node : string) (memberId communicationId agentId : Z)
| MSetAttemptOffering (id : Z) (agentId : option Z) (agentCallId memberCallId destination display : option string)
| MSetAttemptBridged (id : Z)
| MSetAttemptAbandoned (id : Z)
| MSetAttemptAbandonedWithParams (id maxAttempts sleep : Z) (vars : gomap) (perNum exclude redial : bool)
    (desc : option string) (stickyAgentId : option Z)
| MSetAttemptMissedAgent (id agentHoldSec : Z)
| MSetAttemptWaitingAgent (id agentHoldSec : Z)
| MSetAttemptReporting (id deadlineSec : Z)
| MRenewalProcessing (domainId id renewalSec : Z)
| MSetAttemptMissed (id agentHoldTime maxAttempts waitBetween : Z) (perNum : bool)
| MCancelAgentAttempt (id agentHoldTime : Z)
| MSetBarred (id : Z) (blockAll : bool)
| MSetAttemptResult (id : Z) (result_ channelState : string) (agentHoldTime : Z) (vars : gomap) (maxAttempts waitBetween : Z)
    (perNum : bool) (desc : option string) (stickyAgentId : option Z)
| MGetTimeouts (node : string)
| MSetTimeoutError (id : Z)
| MCallbackReporting (id : Z) (cb : AttemptCallback) (maxAttempts waitBetween : Z) (perNum : bool)
| MSchemaResult (id : Z) (cb : AttemptCallback) (maxAttempts waitBetween : Z) (perNum : bool)
| MSaveToHistory
| MCreateConversationChannel (parent name : string) (attemptId : Z)
| MRefreshQueueStatsLast2H
| MTransferredTo (id toId : Z)
| MTransferredFrom (id toId toAgentId : Z) (toAgentSessId : string)
| MTransferredIM (fromId toId fromAgentId toAgentId : Z)
| MCancelAgentDistribute (agentId : Z)
| MSetExpired (limit : Z)
| MStoreForm (id : Z) (form : string) (fields : gomap)
| MStoreFormFields (id : Z) (fields : gomap)
| MCleanAttempts (node : string)
| MFlipResource (id : Z) (skip : list Z)
| MIntercept (domainId id agentId : Z)
| MWaitingList
| MUpdateProcessingFormAtHistory (id : Z) (fields : gomap)
| MCancelAttemptAndReleaseAgent (id agentHoldSec : Z)
(* AgentStore *)
| AReservedForAttemptByNode (node : string)
| ASetOnlineAtomic (rq : AgentOnlineRequest)
| AGetWithContext (id : Z)
| AGet (id : Z)
| AConfirmAttempt (agentId attemptId : Z)
| AMissedAttempt (agentId attemptId : Z) (cause : string)
| ARefreshEndStateDay5Min
| ASetOnline (agentId : Z) (onDemand : bool)
| ASetStatus (agentId : Z) (status : string) (payload comment : option string)
| ACheckAllowPause (domainId agentId : Z)
| AGetNoAnswerChannels (agentId : Z) (queueTypes : list Z)
| AWaitingChannel (agentId : Z) (channel : string)
| ASetOnBreak (agentId : Z)
| ACreateMissed (missed : MissedAttemptRow)
| AGetChannelTimeout
| ARefreshAgentPauseCauses
| ARefreshAgentStatistics
| AOnlineWithOutActive (sec : Z)
| ALosePredictAttempt (id : Z)
| AAgentTriggerJob (domainId userId triggerId : Z)
(* CallStore, ClusterStore, GatewayStore, OutboundResourceStore *)
| CGet (id : string)
| CCreateOrUpdate (node : string)
| CUpdateClusterInfo (node : string) (started : bool)
| GGet (id : Z)
| RGetById (id : Z)
| RSetError (id queueId : Z) (errorId strategy : string)
| RSetSuccessivelyErrorsById (id n : Z)
(* QueueStore, StatisticStore, TeamStore *)
| QGetById (id : Z)
| QUserIds (queueId skipAgentId : Z)
| QRecordAllCalls (domainId : Z)
| SRefreshInbound1H
| SLibVersion
| TGet (id : Z)
(* TriggerStore *)
| TScheduleNewJobs
| TFetchIdleJobs (node : string) (limit : Z)
| TSetError (job : TriggerJob) (err : string)
| TSetResult (job : TriggerJob)
| TCleanActive (node : string).

Section Store.
Context {DB : Database} {SJ : StoreJson}.

(** An operation by the type of its answer. *)
Inductive StoreOp :=
| OErr (m : DBM (option AppError))
| OInt (m : DBM (result Z))
| OStr (m : DBM (result string))
| OBool (m : DBM (result bool))
| OInts (m : DBM (result (list Z)))
| OStrs (m : DBM (result (list string)))
| OMembers (m : DBM (result (list MemberAttempt)))
| OMember (m : DBM (result MemberAttempt))
| OInboundCall (m : DBM (result InboundCallQueue))
| OCallAgent (m : DBM (result InboundCallAgent))
| OTaskAgent (m : DBM (result TaskToAgent))
| OInboundChat (m : DBM (result InboundChatQueue))
| OInboundIM (m : DBM (result InboundIMQueue))
| OLeaving (m : DBM (result AttemptLeaving))
| OMissed (m : DBM (result MissedAgent))
| ORenewal (m : DBM (result RenewalProcessing))
| OTimeouts (m : DBM (result (list AttemptReportingTimeout)))
| OReporting (m : DBM (result AttemptReportingResult))
| OHistory (m : DBM (result (list HistoryAttempt)))
| OExpired (m : DBM (result (list ExpiredMember)))
| OFlip (m : DBM (result AttemptFlipResource))
| OWaiting (m : DBM (result (list MemberWaitingByUsers)))
| OReserved (m : DBM (result (list AgentsForAttempt)))
| OOnlineAtomic (m : DBM (result SetOnlineAtomicResponse))
| OAgent (m : DBM (result Agent))
| OOnline (m : DBM (result AgentOnlineData))
| ONoAnswer (m : DBM (result (list CallNoAnswer)))
| OChannels (m : DBM (result (list ChannelTimeout)))
| OHashKeys (m : DBM (result (list AgentHashKey)))
| OTrigger (m : DBM (result AgentTriggerJob))
| OCall (m : DBM (result CallInfo))
| OGateway (m : DBM (result SipGateway))
| OResource (m : DBM (result OutboundResource))
| OResourceError (m : DBM (result OutboundResourceErrorResult))
| OQueue (m : DBM (result Queue))
| OTeam (m : DBM (result Team))
| OJobs (m : DBM (result (list TriggerJob))).

Definition op_of (c : StoreCall) : StoreOp :=
  match c with
  | MReserveMembersByNode n o => OInt (Member_ReserveMembersByNode n o)
  | MUnReserveMembersByNode n c => OInt (Member_UnReserveMembersByNode n c)
  | MGetActiveMembersAttempt n => OMembers (Member_GetActiveMembersAttempt n)
  | MSetAttemptState i s => OErr (Member_SetAttemptState i s)
  | MSetAttemptFindAgent i => OErr (Member_SetAttemptFindAgent i)
  | MAnswerPredictAndFindAgent i h => OErr (Member_AnswerPredictAndFindAgent i h)
  | MSetDistributeCancel i d n s v => OErr (Member_SetDistributeCancel i d n s v)
  | MDistributeCallToQueue n q c v b p s => OInboundCall (Member_DistributeCallToQueue n q c v b p s)
  | MDistributeCallToAgent n c v a f p => OCallAgent (Member_DistributeCallToAgent n c v a f p)
  | MDistributeOutboundCall n c v u p => OCallAgent (Member_DistributeOutboundCall n c v u p)
  | MDistributeTaskToAgent n d a t v f p => OTaskAgent (Member_DistributeTaskToAgent n d a t v f p)
  | MDistributeCallToQueueCancel i => OErr (Member_DistributeCallToQueueCancel i)
  | MDistributeChatToQueue n q c v b p s e => OInboundChat (Member_DistributeChatToQueue n q c v b p s e)
  | MDistributeIMToQueue n q t d v b p s => OInboundIM (Member_DistributeIMToQueue n q t d v b p s)
  | MDistributeIMToAgent n q a t d v b => OInboundIM (Member_DistributeIMToAgent n q a t d v b)
  | MAttemptWeight i => OInt (Member_AttemptWeight i)
  | MDistributeDirect n m c a => OMember (Member_DistributeDirect n m c a)
  | MSetAttemptOffering i a ac mc d s => OInt (Member_SetAttemptOffering i a ac mc d s)
  | MSetAttemptBridged i => OInt (Member_SetAttemptBridged i)
  | MSetAttemptAbandoned i => OLeaving (Member_SetAttemptAbandoned i)
  | MSetAttemptAbandonedWithParams i m s v p e r d a => OLeaving (Member_SetAttemptAbandonedWithParams i m s v p e r d a)
  | MSetAttemptMissedAgent i h => OMissed (Member_SetAttemptMissedAgent i h)
  | MSetAttemptWaitingAgent i h => OErr (Member_SetAttemptWaitingAgent i h)
  | MSetAttemptReporting i d => OInt (Member_SetAttemptReporting i d)
  | MRenewalProcessing d i r => ORenewal (Member_RenewalProcessing d i r)
  | MSetAttemptMissed i h m w p => OMissed (Member_SetAttemptMissed i h m w p)
  | MCancelAgentAttempt i h => OMissed (Member_CancelAgentAttempt i h)
  | MSetBarred i b => OErr (Member_SetBarred i b)
  | MSetAttemptResult i r s h v m w p d a => OMissed (Member_SetAttemptResult i r s h v m w p d a)
  | MGetTimeouts n => OTimeouts (Member_GetTimeouts n)
  | MSetTimeoutError i => OErr (Member_SetTimeoutError i)
  | MCallbackReporting i c m w p => OReporting (Member_CallbackReporting i c m w p)
  | MSchemaResult i c m w p => OLeaving (Member_SchemaResult i c m w p)
  | MSaveToHistory => OHistory Member_SaveToHistory
  | MCreateConversationChannel p n a => OStr (Member_CreateConversationChannel p n a)
  | MRefreshQueueStatsLast2H => OErr Member_RefreshQueueStatsLast2H
  | MTransferredTo i t => OErr (Member_TransferredTo i t)
  | MTransferredFrom i t a s => OErr (Member_TransferredFrom i t a s)
  | MTransferredIM f t fa ta => OErr (Member_TransferredIM f t fa ta)
  | MCancelAgentDistribute a => OInts (Member_CancelAgentDistribute a)
  | MSetExpired l => OExpired (Member_SetExpired l)
  | MStoreForm i f v => OErr (Member_StoreForm i f v)
  | MStoreFormFields i v => OErr (Member_StoreFormFields i v)
  | MCleanAttempts n => OErr (Member_CleanAttempts n)
  | MFlipResource i s => OFlip (Member_FlipResource i s)
  | MIntercept d i a => OInt (Member_Intercept d i a)
  | MWaitingList => OWaiting Member_WaitingList
  | MUpdateProcessingFormAtHistory i v => OErr (Member_UpdateProcessingFormAtHistory i v)
  | MCancelAttemptAndReleaseAgent i h => OErr (Member_CancelAttemptAndReleaseAgent i h)
  | AReservedForAttemptByNode n => OReserved (Agent_ReservedForAttemptByNode n)
  | ASetOnlineAtomic r => OOnlineAtomic (Agent_SetOnlineAtomic r)
  | AGetWithContext i => OAgent (Agent_GetWithContext i)
  | AGet i => OAgent (Agent_Get i)
  | AConfirmAttempt a i => OStrs (Agent_ConfirmAttempt a i)
  | AMissedAttempt a i c => OErr (Agent_MissedAttempt a i c)
  | ARefreshEndStateDay5Min => OErr Agent_RefreshEndStateDay5Min
  | ASetOnline a d => OOnline (Agent_SetOnline a d)
  | ASetStatus a s p c => OErr (Agent_SetStatus a s p c)
  | ACheckAllowPause d a => OBool (Agent_CheckAllowPause d a)
  | AGetNoAnswerChannels a t => ONoAnswer (Agent_GetNoAnswerChannels a t)
  | AWaitingChannel a c => OInt (Agent_WaitingChannel a c)
  | ASetOnBreak a => OErr (Agent_SetOnBreak a)
  | ACreateMissed m => OErr (Agent_CreateMissed m)
  | AGetChannelTimeout => OChannels Agent_GetChannelTimeout
  | ARefreshAgentPauseCauses => OErr Agent_RefreshAgentPauseCauses
  | ARefreshAgentStatistics => OErr Agent_RefreshAgentStatistics
  | AOnlineWithOutActive s => OHashKeys (Agent_OnlineWithOutActive s)
  | ALosePredictAttempt i => OErr (Agent_LosePredictAttempt i)
  | AAgentTriggerJob d u t => OTrigger (Agent_AgentTriggerJob d u t)
  | CGet i => OCall (Call_Get i)
  | CCreateOrUpdate n => OBool (Cluster_CreateOrUpdate n)
  | CUpdateClusterInfo n s => OBool (Cluster_UpdateClusterInfo n s)
  | GGet i => OGateway (Gateway_Get i)
  | RGetById i => OResource (Resource_GetById i)
  | RSetError i q e s => OResourceError (Resource_SetError i q e s)
  | RSetSuccessivelyErrorsById i n => OErr (Resource_SetSuccessivelyErrorsById i n)
  | QGetById i => OQueue (Queue_GetById i)
  | QUserIds q s => OInts (Queue_UserIds q s)
  | QRecordAllCalls d => OBool (Queue_RecordAllCalls d)
  | SRefreshInbound1H => OErr Statistic_RefreshInbound1H
  | SLibVersion => OStr Statistic_LibVersion
  | TGet i => OTeam (Team_Get i)
  | TScheduleNewJobs => OErr Trigger_ScheduleNewJobs
  | TFetchIdleJobs n l => OJobs (Trigger_FetchIdleJobs n l)
  | TSetError j e => OErr (Trigger_SetError j e)
  | TSetResult j => OErr (Trigger_SetResult j)
  | TCleanActive n => OErr (Trigger_CleanActive n)
  end.

(** The error of an operation. *)
Definition op_err (o : StoreOp) : DBM (option AppError) :=
  match o with
  | OErr m => m
  | OInt m => only_err m | OStr m => only_err m | OBool m => only_err m | OInts m => only_err m | OStrs m => only_err m
  | OMembers m => only_err m | OMember m => only_err m | OInboundCall m => only_err m | OCallAgent m => only_err m
  | OTaskAgent m => only_err m | OInboundChat m => only_err m | OInboundIM m => only_err m | OLeaving m => only_err m
  | OMissed m => only_err m | ORenewal m => only_err m | OTimeouts m => only_err m | OReporting m => only_err m
  | OHistory m => only_err m | OExpired m => only_err m | OFlip m => only_err m | OWaiting m => only_err m
  | OReserved m => only_err m | OOnlineAtomic m => only_err m | OAgent m => only_err m | OOnline m => only_err m
  | ONoAnswer m => only_err m | OChannels m => only_err m | OHashKeys m => only_err m | OTrigger m => only_err m
  | OCall m => only_err m | OGateway m => only_err m | OResource m => only_err m | OResourceError m => only_err m
  | OQueue m => only_err m | OTeam m => only_err m | OJobs m => only_err m
  end.

(** A method of the store by its error and the statements it sends. *)
Definition perform (c : StoreCall) : DBM (option AppError) := op_err (op_of c).

(** The methods that the effects of the queue manager call. *)
Definition call_of (e : Effect) : option StoreCall :=
  match e with
  | SetAttemptOffering i a ac mc d s => Some (MSetAttemptOffering i a ac mc d s)
  | SetAttemptBridged i => Some (MSetAttemptBridged i)
  | SetAttemptReporting i d => Some (MSetAttemptReporting i d)
  | SchemaResultSave i c m w p => Some (MSchemaResult i c m w p)
  | SetAttemptAbandoned i m s v p e r d a => Some (MSetAttemptAbandonedWithParams i m s v p e r d a)
  | CancelAttemptRelease i h => Some (MCancelAttemptAndReleaseAgent i h)
  | SetAttemptWaitingAgent i h => Some (MSetAttemptWaitingAgent i h)
  | SetAttemptMissedAgent i h => Some (MSetAttemptMissedAgent i h)
  | SetAttemptMissed i h m w p => Some (MSetAttemptMissed i h m w p)
  | CancelAgentAttemptStore i h => Some (MCancelAgentAttempt i h)
  | SetAttemptResult i r s h v m w p d a => Some (MSetAttemptResult i r s h v m w p d a)
  | CallbackReporting i c m w p => Some (MCallbackReporting i c m w p)
  | SetBarred i b => Some (MSetBarred i b)
  | SetDistributeCancel i d n s v => Some (MSetDistributeCancel i d n s v)
  | SetAttemptFindAgent i => Some (MSetAttemptFindAgent i)
  | AnswerPredict i h => Some (MAnswerPredictAndFindAgent i h)
  | UpdateProcessingForm i v => Some (MUpdateProcessingFormAtHistory i v)
  | StoreForm i f v => Some (MStoreForm i f (Some v))
  | StoreFormFields i v => Some (MStoreFormFields i (Some v))
  | RenewalProcessingStore d i r => Some (MRenewalProcessing d i r)
  | TransferredTo i t => Some (MTransferredTo i t)
  | TransferredFrom i t a s => Some (MTransferredFrom i t a s)
  | TransferredIM f t fa ta => Some (MTransferredIM f t fa ta)
  | CancelAgentDistributeStore a => Some (MCancelAgentDistribute a)
  | FlipResourceStore i s => Some (MFlipResource i s)
  | AttemptWeight i => Some (MAttemptWeight i)
  | DistributeCallToQueueStore n q c v b p s => Some (MDistributeCallToQueue n q c v b p s)
  | DistributeCallToQueueCancel i => Some (MDistributeCallToQueueCancel i)
  | DistributeCallToAgentStore n c v a f p => Some (MDistributeCallToAgent n c v a f p)
  | DistributeOutboundCallStore n c v u p => Some (MDistributeOutboundCall n c v u p)
  | DistributeTaskToAgentStore n d a t v f p => Some (MDistributeTaskToAgent n d a t v f p)
  | DistributeChatStore n q c v b p s e => Some (MDistributeChatToQueue n q c v b p s e)
  | DistributeIMStore n q t d v b p s => Some (MDistributeIMToQueue n q t d v b p s)
  | DistributeIMToAgentStore n q a t d v b => Some (MDistributeIMToAgent n q a t d v b)
  | DistributeDirectStore n m c a => Some (MDistributeDirect n m c a)
  | InterceptStore d i a => Some (MIntercept d i a)
  | GetActiveMembers n => Some (MGetActiveMembersAttempt n)
  | GetTimeoutsStore n => Some (MGetTimeouts n)
  | SetTimeoutError i => Some (MSetTimeoutError i)
  | SaveToHistory => Some MSaveToHistory
  | AgentStoreGet i => Some (AGet i)
  | AgentSetStatus i s p c => Some (ASetStatus i s p c)
  | AgentSetOnline i d => Some (ASetOnline i d)
  | AgentSetOnlineAtomic d i o s => Some (ASetOnlineAtomic (MkAgentOnlineRequest d i o s))
  | AgentWaitingChannel i c => Some (AWaitingChannel i c)
  | AgentOnlineWithoutActive s => Some (AOnlineWithOutActive s)
  | AgentMissedAttempt a i c => Some (AMissedAttempt a i c)
  | AgentNoAnswerChannels i t => Some (AGetNoAnswerChannels i t)
  | AgentCheckAllowPause d i => Some (ACheckAllowPause d i)
  | AgentLosePredict i => Some (ALosePredictAttempt i)
  | GetChannelTimeout => Some AGetChannelTimeout
  | ReservedForAttempt n => Some (AReservedForAttemptByNode n)
  | TeamStoreGet i => Some (TGet i)
  | ResourceGetById i => Some (RGetById i)
  | GatewayGet i => Some (GGet i)
  | ResourceSetError i q e => Some (RSetError i q e OUTBOUND_RESOURCE_STRATEGY_RANDOM)
  | ResourceSetErrors i n => Some (RSetSuccessivelyErrorsById i n)
  | QueueGetById i => Some (QGetById i)
  | CallStoreGet i => Some (CGet i)
  | CreateMissed i a c t => Some (ACreateMissed (MkMissedAttemptRow i a c t))
  | ConfirmAttempt a i => Some (AConfirmAttempt a i)
  | _ => None
  end.

(** The methods that the periodic jobs call. *)
Definition call_of_job (c : JobCmd) : option StoreCall :=
  match c with
  | SetExpired l => Some (MSetExpired l)
  | CleanActive n => Some (TCleanActive n)
  | ScheduleNewJobs => Some TScheduleNewJobs
  | FetchIdleJobs n l => Some (TFetchIdleJobs n l)
  | SetError j e => Some (TSetError j e)
  | SetResult j => Some (TSetResult j)
  | RefreshAgentPauseCauses => Some ARefreshAgentPauseCauses
  | RefreshAgentStatistics => Some ARefreshAgentStatistics
  | RefreshQueueStatsLast2H => Some MRefreshQueueStatsLast2H
  | RefreshInbound1H => Some SRefreshInbound1H
  | WaitingList => Some MWaitingList
  | ReserveMembersByNode n o => Some (MReserveMembersByNode n o)
  | UnReserveMembersByNode n c => Some (MUnReserveMembersByNode n c)
  | CreateOrUpdate n => Some (CCreateOrUpdate n)
  | UpdateClusterInfo n s => Some (CUpdateClusterInfo n s)
  | _ => None
  end.

(** The statements of a list of calls, newest first. *)
Fixpoint statements (cs : list StoreCall) : list Stmt :=
  match cs with
  | [] => []
  | c :: cs => (perform c (statements cs)).2
  end.

(** The statements of the effects of the manager. *)
Definition db_trace (t : trace) : list Stmt := statements (omap call_of t).

(** The last call, on the statements of the calls before it. *)
Definition answered (t : trace) : option (StoreOp * list Stmt) :=
  match t with
  | e :: t => c ← call_of e; Some (op_of c, db_trace t)
  | [] => None
  end.

(** The answers of the store; those of the other services are [rest]. *)
Definition sql_services `{CallSettings} (rest : Services) : Services := {|
  svc_now := svc_now (Services := rest);
  svc_node := svc_node (Services := rest);
  svc_ready := svc_ready (Services := rest);
  svc_waitChannelClose := svc_waitChannelClose (Services := rest);
  svc_rand := svc_rand (Services := rest);
  svc_error := fun t =>
    match answered t with Some (o, s) => (op_err o s).1 | _ => svc_error (Services := rest) t end;
  svc_timestamp := fun t =>
    match answered t with Some (OInt m, s) => (m s).1 | _ => svc_timestamp (Services := rest) t end;
  svc_leaving := fun t =>
    match answered t with Some (OLeaving m, s) => (m s).1 | _ => svc_leaving (Services := rest) t end;
  svc_missed := fun t =>
    match answered t with Some (OMissed m, s) => (m s).1 | _ => svc_missed (Services := rest) t end;
  svc_reporting := fun t =>
    match answered t with Some (OReporting m, s) => (m s).1 | _ => svc_reporting (Services := rest) t end;
  svc_renewal := fun t =>
    match answered t with Some (ORenewal m, s) => (m s).1 | _ => svc_renewal (Services := rest) t end;
  svc_ids := fun t =>
    match answered t with Some (OInts m, s) => (m s).1 | _ => svc_ids (Services := rest) t end;
  svc_flip := fun t =>
    match answered t with Some (OFlip m, s) => (m s).1 | _ => svc_flip (Services := rest) t end;
  svc_members := fun t =>
    match answered t with Some (OMembers m, s) => (m s).1 | _ => svc_members (Services := rest) t end;
  svc_member := fun t =>
    match answered t with Some (OMember m, s) => (m s).1 | _ => svc_member (Services := rest) t end;
  svc_timeouts := fun t =>
    match answered t with Some (OTimeouts m, s) => (m s).1 | _ => svc_timeouts (Services := rest) t end;
  svc_channelTimeouts := fun t =>
    match answered t with Some (OChannels m, s) => (m s).1 | _ => svc_channelTimeouts (Services := rest) t end;
  svc_reserved := fun t =>
    match answered t with Some (OReserved m, s) => (m s).1 | _ => svc_reserved (Services := rest) t end;
  svc_inboundCall := fun t =>
    match answered t with Some (OInboundCall m, s) => (m s).1 | _ => svc_inboundCall (Services := rest) t end;
  svc_callAgent := fun t =>
    match answered t with Some (OCallAgent m, s) => (m s).1 | _ => svc_callAgent (Services := rest) t end;
  svc_inboundChat := fun t =>
    match answered t with Some (OInboundChat m, s) => (m s).1 | _ => svc_inboundChat (Services := rest) t end;
  svc_inboundIM := fun t =>
    match answered t with Some (OInboundIM m, s) => (m s).1 | _ => svc_inboundIM (Services := rest) t end;
  svc_taskAgent := fun t =>
    match answered t with Some (OTaskAgent m, s) => (m s).1 | _ => svc_taskAgent (Services := rest) t end;
  svc_agent := fun t =>
    match answered t with Some (OAgent m, s) => (m s).1 | _ => svc_agent (Services := rest) t end;
  svc_agentOnline := fun t =>
    match answered t with Some (OOnline m, s) => (m s).1 | _ => svc_agentOnline (Services := rest) t end;
  svc_agentOnlineAtomic := fun t =>
    match answered t with Some (OOnlineAtomic m, s) => (m s).1 | _ => svc_agentOnlineAtomic (Services := rest) t end;
  svc_withoutActive := fun t =>
    match answered t with Some (OHashKeys m, s) => (m s).1 | _ => svc_withoutActive (Services := rest) t end;
  svc_noAnswer := fun t =>
    match answered t with
    | Some (ONoAnswer m, s) => match (m s).1 with inr l => Some l | inl _ => None end
    | _ => svc_noAnswer (Services := rest) t
    end;
  svc_allowed := fun t =>
    match answered t with Some (OBool m, s) => (m s).1 | _ => svc_allowed (Services := rest) t end;
  svc_queue := fun t =>
    match answered t with Some (OQueue m, s) => (m s).1 | _ => svc_queue (Services := rest) t end;
  svc_team := fun t =>
    match answered t with Some (OTeam m, s) => (m s).1 | _ => svc_team (Services := rest) t end;
  svc_resource := fun t =>
    match answered t with Some (OResource m, s) => GetOutboundResourceById (m s).1 | _ => svc_resource (Services := rest) t end;
  svc_gateway := fun t =>
    match answered t with Some (OGateway m, s) => GetGateway (m s).1 | _ => svc_gateway (Services := rest) t end;
  svc_flow_start := svc_flow_start (Services := rest);
  svc_resultAttempt := svc_resultAttempt (Services := rest);
  svc_distributeAttempt := svc_distributeAttempt (Services := rest);
  svc_newProcessing := svc_newProcessing (Services := rest);
  svc_form := svc_form (Services := rest);
  svc_formFields := svc_formFields (Services := rest);
  svc_callExists := svc_callExists (Services := rest);
  svc_chatExists := svc_chatExists (Services := rest);
  svc_channelStats := svc_channelStats (Services := rest);
  svc_channelAnswered := svc_channelAnswered (Services := rest);
  svc_bridgedSession := svc_bridgedSession (Services := rest);
  MemberDestinationFromBytes := MemberDestinationFromBytes (Services := rest);
  decode_im := decode_im (Services := rest);
  encode_im := encode_im (Services := rest);
  decode_form := decode_form (Services := rest);
|}.

(** The jobs keep their commands oldest first. *)
Definition job_answered (t : list JobCmd) : option (StoreOp * list Stmt) :=
  match reverse t with
  | c :: t => k ← call_of_job c; Some (op_of k, statements (omap call_of_job t))
  | [] => None
  end.

Definition sql_jobs (rest : JobServer) : JobServer := {|
  js_err := fun t =>
    match job_answered t with Some (o, s) => (op_err o s).1 | None => js_err (JobServer := rest) t end;
  js_hooks := fun t =>
    match job_answered t with Some (OExpired m, s) => (m s).1 | _ => js_hooks (JobServer := rest) t end;
  js_jobs := fun t =>
    match job_answered t with Some (OJobs m, s) => (m s).1 | _ => js_jobs (JobServer := rest) t end;
  js_flow := js_flow (JobServer := rest);
  js_waiting := fun t =>
    match job_answered t with Some (OWaiting m, s) => (m s).1 | _ => js_waiting (JobServer := rest) t end;
  js_ready := js_ready (JobServer := rest);
  js_info := fun t =>
    match job_answered t with Some (OBool m, s) => (m s).1 | _ => js_info (JobServer := rest) t end;
|}.

End Store.
