(* ===== verification/StoreFacts.v ===== *)
(** * The theorems about the store *)

From S2P Require Import Prelude Model World Jobs Sql StoreSql Calling Api StoreOps Store.

(** ** What an operation sends and answers *)

(** A statement is as it should be: its parameters and arguments fit, and the text of one
    for a replica has no word that writes. *)
Definition fine (s : Stmt) : Prop := bound s /\ (st_on s = Replica -> no_write_word (st_text s) = true).

#[export] Instance fine_dec s : Decision (fine s).
Proof. unfold fine. apply _. Defined.

(** The codes of the errors of the store. *)
Definition store_code (e : AppError) : Prop := err_StatusCode e ∈ [400; 404; 500].

Section Facts.
Context {DB : Database} {SJ : StoreJson}.

(** [sends lo n m]: the operation sends at least [lo] and at most [n] statements, all of them fine. *)
Definition sends {A} (lo n : nat) (m : DBM A) : Prop :=
  forall t, exists new, (m t).2 = new ++ t /\ Forall fine new /\ (lo <= length new <= n)%nat.

(** [codes m]: the errors of the operation have a code of the store. *)
Definition codes (m : DBM (option AppError)) : Prop := forall t e, (m t).1 = Some e -> store_code e.

Lemma sends_ret {A} (a : A) : sends 0 0 (mret a : DBM A).
Proof. intros t. exists []. split_and!; [done|by constructor|simpl; lia..]. Qed.

Lemma sends_bind {A B} lo n lo' k (m : DBM A) (f : A -> DBM B) :
  sends lo n m -> (forall a, sends lo' k (f a)) -> sends (lo + lo') (n + k) (a ← m; f a).
Proof.
  intros Hm Hf t. destruct (Hm t) as (new & E & F & L). unfold mbind, DBM_bind.
  destruct (m t) as [a t']. simpl in E. subst t'. destruct (Hf a (new ++ t)) as (new' & E' & F' & L').
  exists (new' ++ new). rewrite E', app_assoc, length_app. split_and!; [done|by apply Forall_app|lia..].
Qed.

Lemma sends_more {A} lo lo' n k (m : DBM A) : (lo' <= lo)%nat -> (n <= k)%nat -> sends lo n m -> sends lo' k m.
Proof. intros Hl Hn Hm t. destruct (Hm t) as (new & E & F & L). exists new. split_and!; [done..|lia|lia]. Qed.

(** The optional part of an operation. *)
Lemma sends_none {A} k (a : A) : sends 0 k (mret a : DBM A).
Proof. apply (sends_more 0 0 0 k); [lia|lia|apply sends_ret]. Qed.

Lemma sends_some {A} lo k (m : DBM A) : sends lo k m -> sends 0 k m.
Proof. apply sends_more; lia. Qed.

Lemma sends_statement {A} on text args (answer : list Stmt -> A) :
  fine (MkStmt on text args) -> sends 1 1 (statement on text args answer).
Proof. intros Hf t. exists [MkStmt on text args]. split_and!; [done|by apply Forall_singleton|simpl; lia..]. Qed.

(** An operation whose answer is only turned into something else. *)
Lemma sends_then {A B} lo n (m : DBM A) (f : A -> B) : sends lo n m -> sends lo n (a ← m; mret (f a) : DBM B).
Proof.
  intros Hm. rewrite <- (Nat.add_0_r lo), <- (Nat.add_0_r n). apply sends_bind; [done|]. intros a. apply sends_ret.
Qed.

Lemma sends_select {A} on (answer : list Stmt -> SqlErr + A) text args err :
  fine (MkStmt on text (Named args)) -> sends 1 1 (select on answer text args err).
Proof. intros Hf. by apply sends_then, sends_statement. Qed.

Lemma sends_select_plain {A} on (answer : list Stmt -> SqlErr + A) text args err :
  fine (MkStmt on text (Positional args)) -> sends 1 1 (select_plain on answer text args err).
Proof. intros Hf. by apply sends_then, sends_statement. Qed.

Lemma sends_exec text args err : fine (MkStmt Master text (Named args)) -> sends 1 1 (exec text args err).
Proof. intros Hf. by apply sends_then, sends_statement. Qed.

Lemma sends_exec_plain text err : fine (MkStmt Master text (Positional [])) -> sends 1 1 (exec_plain text err).
Proof. intros Hf. by apply sends_then, sends_statement. Qed.

Lemma sends_only_err {A} lo n (m : DBM (result A)) : sends lo n m -> sends lo n (only_err m).
Proof. apply sends_then. Qed.

(** Errors of the database turned into errors of the store. *)
Definition good_error (err : SqlErr -> AppError) : Prop := forall e, store_code (err e).

Lemma extract_code e : extractCodeFromErr e ∈ [400; 404; 500].
Proof. unfold extractCodeFromErr. destruct e as [| code m |]; [|case_bool_decide|]; set_solver. Qed.

Lemma good_err_with code w i d : (forall e, code e ∈ [400; 404; 500]) -> good_error (err_with code w i d).
Proof. intros Hc e. apply Hc. Qed.

Lemma good_err500 w i d : good_error (err500 w i d).
Proof. apply good_err_with. intros e. set_solver. Qed.

Lemma good_err_code w i d : good_error (err_code w i d).
Proof. apply good_err_with, extract_code. Qed.

Lemma good_err_found w i d : good_error (err_found w i d).
Proof. apply good_err_with. intros e. case_decide; set_solver. Qed.

Lemma err_maxws_cases w i d e :
  err_maxws w i d e = err500 w i d e /\ (forall m, e <> PqError "MAXWS" m) \/
  err_maxws w i d e = ErrQueueMaxWaitSize /\ exists m, e = PqError "MAXWS" m.
Proof.
  unfold err_maxws. destruct e as [|code m|s]; [by left| |by left].
  destruct (decide (code = "MAXWS")) as [->|Hn]; [right; eauto|left].
  repeat (case_match; subst; try (split; [done|]; intros ? [=]; congruence)).
Qed.

Lemma good_err_maxws w i d : good_error (err_maxws w i d).
Proof.
  intros e. destruct (err_maxws_cases w i d e) as [[-> _]|[-> _]]; [apply good_err500|]. unfold store_code. simpl. set_solver.
Qed.

Lemma codes_then {A} (m : DBM A) (f : A -> option AppError) :
  (forall a e, f a = Some e -> store_code e) -> codes (a ← m; mret (f a)).
Proof. intros Hf t e. unfold mbind, DBM_bind. destruct (m t) as [a t']. apply Hf. Qed.

Lemma codes_exec text args err : good_error err -> codes (exec text args err).
Proof. intros He. apply codes_then. intros [a|] e; simpl; [|done]. intros [= <-]. apply He. Qed.

Lemma codes_exec_plain text err : good_error err -> codes (exec_plain text err).
Proof. intros He. apply codes_then. intros [a|] e; simpl; [|done]. intros [= <-]. apply He. Qed.

Lemma codes_select {A} on (answer : list Stmt -> SqlErr + A) text args err :
  good_error err -> codes (only_err (select on answer text args err)).
Proof.
  intros He t e. unfold only_err, select, mbind, DBM_bind, statement. simpl.
  destruct (answer _); simpl; [|done]. intros [= <-]. apply He.
Qed.

Lemma codes_select_plain {A} on (answer : list Stmt -> SqlErr + A) text args err :
  good_error err -> codes (only_err (select_plain on answer text args err)).
Proof.
  intros He t e. unfold only_err, select_plain, mbind, DBM_bind, statement. simpl.
  destruct (answer _); simpl; [|done]. intros [= <-]. apply He.
Qed.

End Facts.

Create HintDb store.
#[export] Hint Resolve sends_only_err sends_select sends_select_plain sends_exec sends_exec_plain : store.
#[export] Hint Resolve codes_exec codes_exec_plain codes_select codes_select_plain : store.
#[export] Hint Resolve good_err500 good_err_code good_err_found good_err_maxws : store.

(** A statement of the store is fine by evaluation: the names of its arguments are known. *)
Ltac fine_now :=
  match goal with |- fine ?s => apply (bool_decide_unpack (fine s)); vm_compute; exact I end.

Section Calls.
Context {DB : Database} {SJ : StoreJson}.

Lemma sends_addCommunications id comm : sends 0 1 (Member_addCommunications id comm).
Proof.
  unfold Member_addCommunications. destruct (json_comms comm) as [e|data]; [apply sends_none|].
  eapply sends_some, sends_then, sends_statement. fine_now.
Qed.

Lemma sends_end_reporting id cb m w p : sends 1 1 (end_reporting id cb m w p).
Proof. apply sends_select. fine_now. Qed.

Lemma sends_CallbackReporting id cb m w p : sends 1 2 (Member_CallbackReporting id cb m w p).
Proof.
  apply (sends_bind 1 1 0 1); [apply sends_end_reporting|]. intros [e|res]; [apply sends_none|].
  destruct (rr_MemberId res), (cb_AddCommunications cb); try apply sends_none.
  apply (sends_bind 0 1 0 0); [apply sends_addCommunications|]. intros [e|]; apply sends_ret.
Qed.

Lemma sends_StoreFormFields id m : sends 1 2 (Member_StoreFormFields id (Some m)).
Proof.
  unfold Member_StoreFormFields. apply (sends_bind 1 1 0 1); [apply sends_statement; fine_now|].
  intros [[e|] [e'|cnt]]; try apply sends_none.
  case_decide; [eapply sends_some, sends_exec; fine_now|apply sends_none].
Qed.

Lemma sends_CheckAllowPause d a : sends 1 1 (Agent_CheckAllowPause d a).
Proof. apply sends_then, sends_select. fine_now. Qed.

Lemma sends_WaitingChannel a c : sends 1 1 (Agent_WaitingChannel a c).
Proof. apply sends_then, sends_select. fine_now. Qed.

(** How many statements a method sends, at least and at most: a report may add the numbers of
    the member, form fields that no row took go to the history, and no fields are not saved. *)
Definition statement_count (c : StoreCall) : nat * nat :=
  match c with
  | MCallbackReporting _ _ _ _ _ | MStoreFormFields _ (Some _) => (1, 2)%nat
  | MStoreFormFields _ None => (0, 0)%nat
  | _ => (1, 1)%nat
  end.

Lemma perform_sends c : sends (statement_count c).1 (statement_count c).2 (perform c).
Proof.
  destruct c; unfold perform; cbn [op_of op_err statement_count fst snd];
    first
      [ apply sends_only_err, sends_CallbackReporting
      | apply sends_only_err, sends_CheckAllowPause
      | apply sends_only_err, sends_WaitingChannel
      | apply sends_only_err, sends_select; fine_now
      | apply sends_only_err, sends_select_plain; fine_now
      | apply sends_exec; fine_now
      | apply sends_exec_plain; fine_now
      | match goal with |- context [Member_StoreFormFields _ ?m] => destruct m; [apply sends_StoreFormFields|apply sends_ret] end
      | intros t; apply (sends_only_err 1 1 (select _ _ _ _ _)), sends_select; fine_now ].
Qed.

Lemma good_reporting_error : good_error reporting_error.
Proof. intros e. unfold reporting_error. pose proof (extract_code e) as H. unfold store_code. case_decide; simpl; [set_solver|done]. Qed.

Lemma good_schema_error : good_error schema_error.
Proof. intros e. apply extract_code. Qed.

Lemma good_team_error id : good_error (team_error id).
Proof. intros e. apply good_err_found. Qed.

Lemma codes_CallbackReporting id cb m w p : codes (only_err (Member_CallbackReporting id cb m w p)).
Proof.
  intros t e. unfold only_err, Member_CallbackReporting, end_reporting, select, statement, mbind, DBM_bind, mret, DBM_ret.
  cbn [fst snd]. destruct (db_reporting _) as [e1|res]; cbn [fst snd].
  - intros [= <-]. apply good_reporting_error.
  - destruct (rr_MemberId res) as [mid|]; [|done]. destruct (cb_AddCommunications cb) as [|x l]; [done|].
    destruct (Member_addCommunications mid (x :: l) _) as [[e1|] t1]; cbn [fst snd]; [|done].
    intros [= <-]. unfold store_code. simpl. set_solver.
Qed.

Lemma codes_StoreFormFields id fields : codes (Member_StoreFormFields id fields).
Proof.
  intros t e. unfold Member_StoreFormFields. destruct fields as [m|]; [|done].
  unfold statement, mbind, DBM_bind, mret, DBM_ret. destruct (db_exec _) as [e1|].
  { intros [= <-]. apply good_err500. }
  destruct (db_affected _) as [e1|cnt]; [intros [= <-]; apply good_err500|].
  case_decide; [|done]. apply codes_exec, good_err500.
Qed.

Lemma codes_CheckAllowPause d a : codes (only_err (Agent_CheckAllowPause d a)).
Proof.
  intros t e. unfold only_err, Agent_CheckAllowPause, select, statement, mbind, DBM_bind, mret, DBM_ret. cbn [fst snd].
  destruct (db_bool _); [|done]. intros [= <-]. apply good_err500.
Qed.

Lemma codes_WaitingChannel a c : codes (only_err (Agent_WaitingChannel a c)).
Proof.
  intros t e. unfold only_err, Agent_WaitingChannel, select, statement, mbind, DBM_bind, mret, DBM_ret. cbn [fst snd].
  destruct (db_int _) as [e1|ts]; [intros [= <-]; apply good_err500|].
  case_decide; [|done]. intros [= <-]. unfold store_code. simpl. set_solver.
Qed.

Hint Resolve good_schema_error good_team_error : store.

Lemma perform_codes c : codes (perform c).
Proof.
  destruct c; unfold perform; cbn [op_of op_err];
    first
      [ apply codes_CallbackReporting
      | apply codes_StoreFormFields
      | apply codes_CheckAllowPause
      | apply codes_WaitingChannel
      | apply codes_select; solve [auto with store nocore]
      | apply codes_select_plain; solve [auto with store nocore]
      | apply codes_exec; solve [auto with store nocore]
      | apply codes_exec_plain; solve [auto with store nocore]
      | intros t; apply (codes_select _ _ _ _ _ (good_err500 _ _ _) t) ].
Qed.

Lemma statements_fine cs : Forall fine (statements cs).
Proof.
  induction cs as [|c cs IH]; [constructor|]. cbn [statements].
  destruct (perform_sends c (statements cs)) as (new & -> & F & _). by apply Forall_app.
Qed.

End Calls.

(** C31. The store, for every method of its interface, every argument and every database: the
    method sends exactly one statement, except that a report and the saving of form fields may
    send a second one, and form fields that are absent send none; every parameter of a
    statement has an argument and every argument a parameter; the text of a statement for a
    replica has none of the words that write, outside quotes and comments (a function that it
    selects could still write); and an error it returns has the code 400, 404 or 500. So
    whatever the queue manager does, each statement its calls lead to is of this kind. *)
Theorem store_statements_fine {DB : Database} {SJ : StoreJson} (c : StoreCall) (t : list Stmt) (tr : trace) :
  (exists new, (perform c t).2 = new ++ t /\ Forall fine new /\
     ((statement_count c).1 <= length new <= (statement_count c).2)%nat) /\
  (forall e, (perform c t).1 = Some e -> err_StatusCode e ∈ [400; 404; 500]) /\
  Forall fine (db_trace tr).
Proof. split; [apply perform_sends|]. split; [apply perform_codes|apply statements_fine]. Qed.
