(* ===== verification/Frame.v ===== *)
(** * The wait group invariant of the queue manager

    The manager counts the attempts in flight in a wait group and keeps them in the
    members cache. [minv] relates the two: at least as many are counted as cached, and a
    cached id belongs to the attempt it maps to. An operation that touches neither, and
    only adds to the log of the calls, is [framed]; the database [framed] proves it for the
    whole code of the package by walking the definitions. The operations that do touch them keep the invariant and
    never drive the counter negative ([safe]). Everything is proved against the laws of
    the cache interface. *)

From S2P Require Import Prelude Model Queue Attempt TaskChannel Resource World Agents.
From S2P Require Import Events Schema Manager Team Distribute Messages Dialing.

Create HintDb framed.

(** The log only grows: a call that was made stays in it. *)
#[export] Hint Extern 0 (suffix (w_trace _) (w_trace _)) =>
  solve [simpl; repeat apply suffix_cons_r; reflexivity] : core.

Definition wg_message : string := "sync: negative WaitGroup counter".

Section Frame.
Context {OC : Type -> Type} {HOC : ObjectCache OC} {OCL : ObjectCacheLaws OC} {SV : Services} {DE : Decoders}.

Abbreviation W := (World OC).

(** The bindings of the members cache. *)
Definition cached (w : W) : gmap Z loc := oc_view (w_membersCache w).

Record minv (w : W) : Prop := Minv {
  mi_ok : oc_ok (w_membersCache w);
  mi_count : Z.of_nat (size (cached w)) <= w_wg w;
  mi_fresh : forall l, is_Some (w_attempts w !! l) -> (l < w_next w)%nat;
  mi_own : forall id l, cached w !! id = Some l ->
    exists a, w_attempts w !! l = Some a /\ at_Id a = id;
}.

(** What an operation that has nothing to do with the cache leaves alone. *)
Record frame (w w' : W) : Prop := Frame {
  fr_members : oc_ok (w_membersCache w) ->
    oc_ok (w_membersCache w') /\ cached w' = cached w;
  fr_wg : w_wg w' = w_wg w;
  fr_next : (w_next w <= w_next w')%nat;
  fr_attempts : forall l, match w_attempts w !! l, w_attempts w' !! l with
                          | Some a, Some a' => at_Id a' = at_Id a
                          | None, None => True
                          | _, _ => False
                          end;
  fr_log : w_trace w `suffix_of` w_trace w';
}.

Definition framed {A} (m : M OC A) : Prop := forall w,
  match m w with
  | Ret (_, w') => frame w w'
  | Panic s => s <> wg_message
  | Block _ => True
  end.

Definition safe {A} (m : M OC A) : Prop := forall w, minv w ->
  match m w with
  | Ret (_, w') => minv w'
  | Panic s => s <> wg_message
  | Block _ => True
  end.

#[global] Instance frame_preorder : PreOrder frame.
Proof.
  split.
  - intros w. split; auto. intros l. by destruct (w_attempts w !! l).
  - intros w1 w2 w3 [M1 G1 N1 A1 L1] [M2 G2 N2 A2 L2]. split.
    + intros H. destruct (M1 H) as [H1 E1]. destruct (M2 H1) as [H2 E2]. split; congruence.
    + congruence.
    + lia.
    + intros l. specialize (A1 l). specialize (A2 l).
      destruct (w_attempts w1 !! l), (w_attempts w2 !! l), (w_attempts w3 !! l); done || congruence.
    + by etrans.
Qed.

Lemma frame_minv w w' : frame w w' -> minv w -> minv w'.
Proof.
  intros [FM FG FN FA _] [Hok Hc Hf Ho]. destruct (FM Hok) as [Hok' Ev]. split; auto.
  - rewrite Ev, FG. done.
  - intros l Hl. specialize (FA l). specialize (Hf l).
    destruct (w_attempts w !! l) as [a|]; [|by destruct Hl as [? E]; rewrite E in FA].
    assert (l < w_next w)%nat by eauto. lia.
  - intros id l. rewrite Ev. intros (a & Ea & Ei)%Ho. specialize (FA l). rewrite Ea in FA.
    destruct (w_attempts w' !! l) as [a'|]; [|done]. exists a'. split; congruence.
Qed.

(** ** Framed operations *)

Lemma framed_ret {A} (a : A) : framed (mret a).
Proof. intros w. simpl. reflexivity. Qed.

Lemma framed_bind {A B} (m : M OC A) (f : A -> M OC B) :
  framed m -> (forall a, framed (f a)) -> framed (m ≫= f).
Proof.
  intros Hm Hf w. unfold mbind, M_bind. specialize (Hm w).
  destruct (m w) as [[a w1]| |]; [|done..].
  specialize (Hf a w1). destruct (f a w1) as [[b w2]| |]; [|done..]. by etrans.
Qed.

Lemma framed_bind_res {A B} (m : M OC (result A)) (f : A -> M OC (result B)) :
  framed m -> (forall a, framed (f a)) -> framed (bind_res m f).
Proof. intros Hm Hf. apply framed_bind; [done|]. intros [e|a]; [apply framed_ret|apply Hf]. Qed.

Lemma framed_then (m k : M OC (option AppError)) : framed m -> framed k -> framed (then_ m k).
Proof. intros Hm Hk. apply framed_bind; [done|]. intros [e|]; [apply framed_ret|done]. Qed.

Lemma framed_for_each {A} (l : list A) (f : A -> M OC unit) :
  (forall a, framed (f a)) -> framed (for_each l f).
Proof.
  intros Hf. induction l as [|a l IH]; [apply framed_ret|].
  apply framed_bind; [apply Hf|intros; apply IH].
Qed.

(** A change of the world outside the attempts, the members cache and the counter. *)
Lemma frame_other (w w' : W) :
  w_attempts w' = w_attempts w -> w_membersCache w' = w_membersCache w ->
  w_wg w' = w_wg w -> (w_next w <= w_next w')%nat -> w_trace w `suffix_of` w_trace w' -> frame w w'.
Proof.
  intros Ea Em Eg En El. split; auto.
  - unfold cached. rewrite Em. auto.
  - intros l. rewrite Ea. by destruct (w_attempts w !! l).
Qed.

Lemma framed_call {A} e (f : trace -> A) : framed (call e f).
Proof. intros w. apply frame_other; done. Qed.

Lemma framed_ask {A} (f : trace -> A) : framed (ask f).
Proof. intros w. simpl. reflexivity. Qed.

Lemma framed_lift {A} (o : outcome A) :
  (forall s, o = Panic s -> s <> wg_message) -> framed (lift o).
Proof. intros Ho w. unfold lift. destruct o; simpl; [reflexivity|auto|done]. Qed.

Lemma framed_panic {A} s : s <> wg_message -> framed (panic s : M OC A).
Proof. by intros Hs w. Qed.

Lemma framed_get_attempt l : framed (get_attempt l).
Proof. intros w. unfold get_attempt. destruct (_ !! l); [reflexivity|discriminate]. Qed.

Lemma framed_get_agent l : framed (get_agent l).
Proof. intros w. unfold get_agent. destruct (_ !! l); [reflexivity|discriminate]. Qed.

Lemma framed_get_task l : framed (get_task l).
Proof. intros w. unfold get_task. destruct (_ !! l); [reflexivity|discriminate]. Qed.

Lemma framed_get_resource l : framed (get_resource l).
Proof. intros w. unfold get_resource. destruct (_ !! l); [reflexivity|discriminate]. Qed.

Lemma framed_mod_agent l f : framed (mod_agent l f).
Proof. intros w. unfold mod_agent. destruct (_ !! l); [by apply frame_other|discriminate]. Qed.

Lemma framed_mod_resource l f : framed (mod_resource l f).
Proof. intros w. unfold mod_resource. destruct (_ !! l); [by apply frame_other|discriminate]. Qed.

Lemma framed_put_task l t : framed (put_task l t).
Proof. intros w. by apply frame_other. Qed.

Lemma framed_new_agent a : framed (new_agent a).
Proof. intros w. apply frame_other; simpl; auto. Qed.

Lemma framed_new_task a : framed (new_task a).
Proof. intros w. apply frame_other; simpl; auto. Qed.

Lemma framed_new_resource a : framed (new_resource a).
Proof. intros w. apply frame_other; simpl; auto. Qed.

Lemma frame_attempt (w : W) l a a' :
  w_attempts w !! l = Some a -> at_Id a' = at_Id a ->
  frame w (w <| w_attempts := (<[l := a']> (w_attempts w)) |>).
Proof.
  intros Ea Ei. split; simpl; auto. intros l'. destruct (decide (l' = l)) as [->|Hne].
  - by rewrite Ea, lookup_insert_eq.
  - rewrite lookup_insert_ne by done. by destruct (_ !! l').
Qed.

Lemma framed_mod_attempt l f : (forall a, at_Id (f a) = at_Id a) -> framed (mod_attempt l f).
Proof.
  intros Hf w. unfold mod_attempt. destruct (_ !! l) as [a|] eqn:Ea; [|discriminate].
  by eapply frame_attempt.
Qed.

Lemma framed_mod_attempt_o l f :
  (forall a, match f a with
             | Ret a' => at_Id a' = at_Id a | Panic s => s <> wg_message | Block _ => True end) ->
  framed (mod_attempt_o l f).
Proof.
  intros Hf w. unfold mod_attempt_o. destruct (_ !! l) as [a|] eqn:Ea; [|discriminate].
  specialize (Hf a). destruct (f a); [|done..]. by eapply frame_attempt.
Qed.

Lemma framed_members_get id : framed (members_get id).
Proof.
  intros w. unfold members_get.
  pose proof (oc_get_law _ (now_sec (w_trace w)) id (w_membersCache w)) as Hg.
  destruct (oc_get _ _ _) as [v c]. simpl in Hg. split; simpl; auto.
  - intros Hok. unfold cached. simpl. naive_solver.
  - intros l. by destruct (_ !! l).
Qed.

Lemma framed_queues_get id : framed (queues_get id).
Proof. intros w. unfold queues_get. destruct (oc_get _ _ _). by apply frame_other. Qed.

Lemma framed_queues_add id q : framed (queues_add id q).
Proof. intros w. by apply frame_other. Qed.

Lemma framed_teams_get id : framed (teams_get id).
Proof. intros w. unfold teams_get. destruct (oc_get _ _ _). by apply frame_other. Qed.

Lemma framed_teams_add id q : framed (teams_add id q).
Proof. intros w. by apply frame_other. Qed.

Lemma framed_resources_get id : framed (resources_get id).
Proof. intros w. unfold resources_get. destruct (oc_get _ _ _). by apply frame_other. Qed.

Lemma framed_resources_add id q : framed (resources_add id q).
Proof. intros w. by apply frame_other. Qed.

Lemma framed_resources_remove id : framed (resources_remove id).
Proof. intros w. by apply frame_other. Qed.

Lemma framed_agents_get id : framed (agents_get id).
Proof. intros w. unfold agents_get. destruct (oc_get _ _ _). by apply frame_other. Qed.

Lemma framed_agents_add id q : framed (agents_add id q).
Proof. intros w. by apply frame_other. Qed.

End Frame.

#[export] Hint Resolve framed_ret framed_call framed_ask framed_get_attempt framed_get_agent
  framed_get_task framed_get_resource framed_mod_agent framed_mod_resource framed_put_task
  framed_new_agent framed_new_task framed_new_resource framed_members_get framed_queues_get
  framed_queues_add framed_teams_get framed_teams_add framed_resources_get framed_resources_add
  framed_resources_remove framed_agents_get framed_agents_add : framed.

(** The attempt functions keep the id. *)
Ltac same_id :=
  intros; unfold SetResult, SetCallback, SetMemberStopCause, SetAgent, UseDraft, DropDraft,
    set_state, MarkProcessingFormStarted, UpdateProcessingFields, AddVariables, RemoveVariable,
    Attempt_FlipResource, apply_schema_result, setIMTransferTo, Attempt_releaseIMTransfer,
    reserveIMTransfer, MarkTransferred, at_Id; simpl;
  repeat (case_match || case_decide); simpl; try reflexivity.

(** Walks the body of an operation. *)
Ltac framed_step :=
  match goal with
  | |- framed (mbind _ _) => apply framed_bind; [|intros]
  | |- framed (bind_res _ _) => apply framed_bind_res; [|intros]
  | |- framed (then_ _ _) => apply framed_then
  | |- framed (for_each _ _) => apply framed_for_each; intros
  | |- framed (emit _) => apply framed_call
  | |- framed (call_err _) => apply framed_call
  | |- framed GetMillis => apply framed_ask
  | |- framed (panic _) => apply framed_panic; discriminate
  | |- framed (mod_attempt _ _) => apply framed_mod_attempt; same_id
  | |- framed (let '(_, _) := ?x in _) => destruct x
  | |- framed (match ?x with _ => _ end) => destruct x eqn:?
  | |- framed _ => solve [eauto 2 with framed]
  end.

Ltac framed_op := intros; repeat (cbv beta zeta; framed_step).

Section FramedOps.
Context {OC : Type -> Type} {HOC : ObjectCache OC} {OCL : ObjectCacheLaws OC} {SV : Services} {DE : Decoders}.

Abbreviation fr m := (framed (OC := OC) m).

Lemma framed_opt_agent o : fr (opt_agent o).
Proof. unfold opt_agent. framed_op. Qed.
#[local] Hint Resolve framed_opt_agent : framed.

Lemma framed_export_schema l : fr (export_schema l).
Proof. unfold export_schema. framed_op. Qed.
#[local] Hint Resolve framed_export_schema : framed.

Lemma framed_form_data a : fr (form_data a).
Proof. unfold form_data. framed_op. Qed.
#[local] Hint Resolve framed_form_data : framed.

Lemma framed_NewBridgedEventEvent l u t : fr (NewBridgedEventEvent l u t).
Proof. unfold NewBridgedEventEvent. framed_op. Qed.
#[local] Hint Resolve framed_NewBridgedEventEvent : framed.

Lemma framed_NewNextFormEvent l u : fr (NewNextFormEvent l u).
Proof. unfold NewNextFormEvent. framed_op. Qed.
#[local] Hint Resolve framed_NewNextFormEvent : framed.

Lemma framed_NewDistributeEvent l u q ag h m c t : fr (NewDistributeEvent l u q ag h m c t).
Proof. unfold NewDistributeEvent. framed_op. Qed.
#[local] Hint Resolve framed_NewDistributeEvent : framed.

Lemma framed_NewTransferEvent l t u q ag r m c : fr (NewTransferEvent l t u q ag r m c).
Proof. unfold NewTransferEvent. framed_op. Qed.
#[local] Hint Resolve framed_NewTransferEvent : framed.

Lemma framed_Hook q nm l : fr (Hook q nm l).
Proof. unfold Hook. framed_op. Qed.
#[local] Hint Resolve framed_Hook : framed.

Lemma framed_attempt_queue l : fr (attempt_queue l).
Proof. unfold attempt_queue. framed_op. Qed.
#[local] Hint Resolve framed_attempt_queue : framed.

Lemma framed_SetState l st : fr (SetState l st).
Proof. unfold SetState. framed_op. Qed.
#[local] Hint Resolve framed_SetState : framed.

Lemma framed_DistributeAgent l ag : fr (DistributeAgent l ag).
Proof. unfold DistributeAgent. framed_op. Qed.
#[local] Hint Resolve framed_DistributeAgent : framed.

Lemma framed_TeamUpdatedAt l : fr (TeamUpdatedAt l).
Proof. unfold TeamUpdatedAt. framed_op. Qed.
#[local] Hint Resolve framed_TeamUpdatedAt : framed.

Lemma framed_Attempt_Display l : fr (Attempt_Display l).
Proof. unfold Attempt_Display. framed_op. Qed.
#[local] Hint Resolve framed_Attempt_Display : framed.

Lemma framed_Attempt_Close l : fr (Attempt_Close l).
Proof. unfold Attempt_Close. framed_op. Qed.
#[local] Hint Resolve framed_Attempt_Close : framed.

Lemma framed_cached_agent id ok : fr (cached_agent id ok).
Proof. unfold cached_agent. framed_op. Qed.
#[local] Hint Resolve framed_cached_agent : framed.

Lemma framed_PutAgentCache a : fr (PutAgentCache a).
Proof. unfold PutAgentCache. framed_op. Qed.
#[local] Hint Resolve framed_PutAgentCache : framed.

Lemma framed_GetAgent id u : fr (GetAgent id u).
Proof. unfold GetAgent. framed_op. Qed.
#[local] Hint Resolve framed_GetAgent : framed.

Lemma framed_AgentChangeStatus_mq l e : fr (AgentChangeStatus_mq l e).
Proof. unfold AgentChangeStatus_mq. framed_op. Qed.
#[local] Hint Resolve framed_AgentChangeStatus_mq : framed.

Lemma framed_SetOnline l d : fr (SetOnline l d).
Proof. unfold SetOnline. framed_op. Qed.
#[local] Hint Resolve framed_SetOnline : framed.

Lemma framed_setAgentStatus a s : fr (setAgentStatus a s).
Proof. unfold setAgentStatus. framed_op. Qed.
#[local] Hint Resolve framed_setAgentStatus : framed.

Lemma framed_change_status l s : fr (change_status l s).
Proof. unfold change_status. framed_op. Qed.
#[local] Hint Resolve framed_change_status : framed.

Lemma framed_SetOffline l s : fr (SetOffline l s).
Proof. unfold SetOffline. framed_op. Qed.
#[local] Hint Resolve framed_SetOffline : framed.

Lemma framed_SetPause l p c : fr (SetPause l p c).
Proof. unfold SetPause. framed_op. Qed.
#[local] Hint Resolve framed_SetPause : framed.

Lemma framed_SetBreakOut l : fr (SetBreakOut l).
Proof. unfold SetBreakOut. framed_op. Qed.
#[local] Hint Resolve framed_SetBreakOut : framed.

Lemma framed_qm_AfterDistributeSchema l : fr (qm_AfterDistributeSchema l).
Proof. unfold qm_AfterDistributeSchema. framed_op. Qed.
#[local] Hint Resolve framed_qm_AfterDistributeSchema : framed.

Lemma framed_AfterDistributeSchema l : fr (AfterDistributeSchema l).
Proof. unfold AfterDistributeSchema. framed_op. Qed.
#[local] Hint Resolve framed_AfterDistributeSchema : framed.

Lemma framed_ApplyCallbackRules l cb : fr (ApplyCallbackRules l cb).
Proof. unfold ApplyCallbackRules. framed_op. Qed.
#[local] Hint Resolve framed_ApplyCallbackRules : framed.

Lemma framed_DoDistributeSchema q l : fr (DoDistributeSchema q l).
Proof. unfold DoDistributeSchema. framed_op. Qed.
#[local] Hint Resolve framed_DoDistributeSchema : framed.

Lemma framed_qm_StartProcessingForm i l : fr (qm_StartProcessingForm i l).
Proof. unfold qm_StartProcessingForm. framed_op. Qed.
#[local] Hint Resolve framed_qm_StartProcessingForm : framed.

Lemma framed_StartProcessingForm q l : fr (StartProcessingForm q l).
Proof. unfold StartProcessingForm. framed_op. Qed.
#[local] Hint Resolve framed_StartProcessingForm : framed.

Lemma framed_attemptProcessingActionForm i a f : fr (attemptProcessingActionForm i a f).
Proof. unfold attemptProcessingActionForm. framed_op. Qed.
#[local] Hint Resolve framed_attemptProcessingActionForm : framed.

Lemma framed_ResourceManager_Get i u : fr (ResourceManager_Get i u).
Proof. unfold ResourceManager_Get. framed_op. Qed.
#[local] Hint Resolve framed_ResourceManager_Get : framed.

Lemma framed_RemoveFromCacheById i : fr (RemoveFromCacheById i).
Proof. unfold RemoveFromCacheById. framed_op. Qed.
#[local] Hint Resolve framed_RemoveFromCacheById : framed.

Lemma framed_SetResourceSuccessful l : fr (SetResourceSuccessful l).
Proof. unfold SetResourceSuccessful. framed_op. Qed.
#[local] Hint Resolve framed_SetResourceSuccessful : framed.

Lemma framed_GetAttemptResource l : fr (GetAttemptResource l).
Proof. unfold GetAttemptResource. framed_op. Qed.
#[local] Hint Resolve framed_GetAttemptResource : framed.

Lemma framed_FlipAttemptResource l s : fr (FlipAttemptResource l s).
Proof. unfold FlipAttemptResource. framed_op. Qed.
#[local] Hint Resolve framed_FlipAttemptResource : framed.

Lemma framed_GetAttempt i : fr (GetAttempt i).
Proof. unfold GetAttempt. framed_op. Qed.
#[local] Hint Resolve framed_GetAttempt : framed.

Lemma framed_GetAttemptAgent l : fr (GetAttemptAgent l).
Proof. unfold GetAttemptAgent. framed_op. Qed.
#[local] Hint Resolve framed_GetAttemptAgent : framed.

Lemma framed_SetAgentWaitingChannel g c : fr (SetAgentWaitingChannel g c).
Proof. unfold SetAgentWaitingChannel. framed_op. Qed.
#[local] Hint Resolve framed_SetAgentWaitingChannel : framed.

Lemma framed_FlushAttemptFields l : fr (FlushAttemptFields l).
Proof. unfold FlushAttemptFields. framed_op. Qed.
#[local] Hint Resolve framed_FlushAttemptFields : framed.

Lemma framed_save_schema_result a c : fr (save_schema_result a c).
Proof. unfold save_schema_result. framed_op. Qed.
#[local] Hint Resolve framed_save_schema_result : framed.

Lemma framed_set_stop_cause l c : fr (set_stop_cause l c).
Proof. unfold set_stop_cause. framed_op. Qed.
#[local] Hint Resolve framed_set_stop_cause : framed.

Lemma framed_Barred l : fr (Barred l).
Proof. unfold Barred. framed_op. Qed.
#[local] Hint Resolve framed_Barred : framed.

Lemma framed_SetAttemptSuccess l v : fr (SetAttemptSuccess l v).
Proof. unfold SetAttemptSuccess. framed_op. Qed.
#[local] Hint Resolve framed_SetAttemptSuccess : framed.

Lemma framed_SetAttemptAbandonedWithParams l m s v : fr (SetAttemptAbandonedWithParams l m s v).
Proof. unfold SetAttemptAbandonedWithParams. framed_op. Qed.
#[local] Hint Resolve framed_SetAttemptAbandonedWithParams : framed.

Lemma framed_getAgentTaskFromAttemptId i : fr (getAgentTaskFromAttemptId i).
Proof. unfold getAgentTaskFromAttemptId. framed_op. Qed.
#[local] Hint Resolve framed_getAgentTaskFromAttemptId : framed.

Lemma framed_chat_reporting c b : fr (chat_reporting c b).
Proof. unfold chat_reporting. framed_op. Qed.
#[local] Hint Resolve framed_chat_reporting : framed.

Lemma framed_attempt_SetCancel l : fr (attempt_SetCancel l).
Proof. 
  apply framed_mod_attempt_o. intros a. unfold SetCancel.
  destruct (at_canceled a); [done|]. by destruct (at_cancelClosed a). Qed.
#[local] Hint Resolve framed_attempt_SetCancel : framed.

(** The operations of a task channel block or return. *)
Lemma setState_no_panic st t s : setState st t <> Panic s.
Proof. unfold setState. simpl. by destruct (tc_stateC t). Qed.

Lemma task_op_no_panic f now t s :
  f = SetAnswered \/ f = SetClosed \/ f = Task_Reporting -> f now t <> Panic s.
Proof.
  intros Hf E. assert (forall st t, setState st t <> Panic s) as Hs
    by (intros; apply setState_no_panic).
  destruct Hf as [->|[->| ->]]; unfold Task_Reporting, SetAnswered, SetClosed in E;
    repeat case_decide; try done; unfold mbind, outcome_bind in E;
    match type of E with context [setState ?x ?y] =>
      specialize (Hs x y); destruct (setState x y); naive_solver end.
Qed.

Lemma framed_task_op_at f t :
  f = SetAnswered \/ f = SetClosed \/ f = Task_Reporting -> fr (task_op_at f t).
Proof. 
  intros Hf. unfold task_op_at. framed_op. apply framed_lift. intros s E.
  by apply task_op_no_panic in E. Qed.
#[local] Hint Extern 1 (framed (task_op_at _ _)) => apply framed_task_op_at; tauto : framed.

Lemma framed_AcceptAgentTask c i : fr (AcceptAgentTask c i).
Proof. unfold AcceptAgentTask. framed_op. Qed.
#[local] Hint Resolve framed_AcceptAgentTask : framed.

Lemma framed_CloseAgentTask i : fr (CloseAgentTask i).
Proof. unfold CloseAgentTask. framed_op. Qed.
#[local] Hint Resolve framed_CloseAgentTask : framed.

Lemma framed_report_task i : fr (report_task i).
Proof. unfold report_task. framed_op. Qed.
#[local] Hint Resolve framed_report_task : framed.

Lemma framed_closeBeforeReporting i r c a : fr (closeBeforeReporting i r c a).
Proof. unfold closeBeforeReporting. framed_op. Qed.
#[local] Hint Resolve framed_closeBeforeReporting : framed.

Lemma framed_setChannelReporting l c b : fr (setChannelReporting l c b).
Proof. unfold setChannelReporting. framed_op. Qed.
#[local] Hint Resolve framed_setChannelReporting : framed.

Lemma framed_RenewalAttempt d i r : fr (RenewalAttempt d i r).
Proof. unfold RenewalAttempt. framed_op. Qed.
#[local] Hint Resolve framed_RenewalAttempt : framed.

Lemma framed_processAttemptCallback a c s : fr (processAttemptCallback a c s).
Proof. unfold processAttemptCallback. framed_op. Qed.
#[local] Hint Resolve framed_processAttemptCallback : framed.

Lemma framed_LosePredictAgent i : fr (LosePredictAgent i).
Proof. unfold LosePredictAgent. framed_op. Qed.
#[local] Hint Resolve framed_LosePredictAgent : framed.

Lemma framed_CancelAgentDistribute i : fr (CancelAgentDistribute i).
Proof. unfold CancelAgentDistribute. framed_op. Qed.
#[local] Hint Resolve framed_CancelAgentDistribute : framed.

Lemma framed_SetAttemptCancel i r : fr (SetAttemptCancel i r).
Proof. unfold SetAttemptCancel. framed_op. Qed.
#[local] Hint Resolve framed_SetAttemptCancel : framed.

Lemma framed_SaveFormFields d i f m : fr (SaveFormFields d i f m).
Proof. unfold SaveFormFields. framed_op. Qed.
#[local] Hint Resolve framed_SaveFormFields : framed.

Lemma framed_ResumeAttempt i d : fr (ResumeAttempt i d).
Proof. unfold ResumeAttempt. framed_op. Qed.
#[local] Hint Resolve framed_ResumeAttempt : framed.

Lemma framed_SetFindAgentState i : fr (SetFindAgentState i).
Proof. unfold SetFindAgentState. framed_op. Qed.
#[local] Hint Resolve framed_SetFindAgentState : framed.

Lemma framed_AnswerPredictAndFindAgent i h : fr (AnswerPredictAndFindAgent i h).
Proof. unfold AnswerPredictAndFindAgent. framed_op. Qed.
#[local] Hint Resolve framed_AnswerPredictAndFindAgent : framed.

Lemma framed_SetResourceError l e : fr (SetResourceError l e).
Proof.
  unfold SetResourceError. framed_op. apply framed_lift. intros s E.
  destruct (CheckCodeError_no_panic a e) as [b Eb]. congruence.
Qed.
#[local] Hint Resolve framed_SetResourceError : framed.

Lemma framed_NewQueue p : fr (lift (NewQueue p)).
Proof.
  apply framed_lift. intros s E. unfold NewQueue, NewBaseQueue in E.
  destruct (q_GranteeId p); [|done]. simpl in E. by destruct (q_Variables p); simplify_eq/=.
Qed.
#[local] Hint Resolve framed_NewQueue : framed.

Lemma framed_NewBaseQueue p : fr (lift (NewBaseQueue p)).
Proof.
  apply framed_lift. intros s E. unfold NewBaseQueue in E.
  destruct (q_GranteeId p); [|done]. simpl in E. by destruct (q_Variables p); simplify_eq/=.
Qed.
#[local] Hint Resolve framed_NewBaseQueue : framed.

Lemma framed_GetQueue i u : fr (GetQueue i u).
Proof. unfold GetQueue. framed_op. Qed.
#[local] Hint Resolve framed_GetQueue : framed.

Lemma framed_GetTeam i u : fr (GetTeam i u).
Proof. unfold GetTeam. framed_op. Qed.
#[local] Hint Resolve framed_GetTeam : framed.

Lemma framed_HookAgent e g u : fr (HookAgent e g u).
Proof. unfold HookAgent. framed_op. Qed.
#[local] Hint Resolve framed_HookAgent : framed.

Lemma framed_AgentTeamHook e g u : fr (AgentTeamHook e g u).
Proof. unfold AgentTeamHook. framed_op. Qed.
#[local] Hint Resolve framed_AgentTeamHook : framed.

Lemma framed_BaseQueue_GetTeam l : fr (BaseQueue_GetTeam l).
Proof. unfold BaseQueue_GetTeam. framed_op. Qed.
#[local] Hint Resolve framed_BaseQueue_GetTeam : framed.

Lemma framed_publish l u e : fr (publish l u e).
Proof. unfold publish. framed_op. Qed.
#[local] Hint Resolve framed_publish : framed.

Lemma framed_Team_Distribute q g e : fr (Team_Distribute q g e).
Proof. unfold Team_Distribute. framed_op. Qed.
#[local] Hint Resolve framed_Team_Distribute : framed.

Lemma framed_Team_Offering l g c m : fr (Team_Offering l g c m).
Proof. unfold Team_Offering. framed_op. Qed.
#[local] Hint Resolve framed_Team_Offering : framed.

Lemma framed_Team_Cancel l g : fr (Team_Cancel l g).
Proof. unfold Team_Cancel. framed_op. Qed.
#[local] Hint Resolve framed_Team_Cancel : framed.

Lemma framed_Team_Answered l g : fr (Team_Answered l g).
Proof. unfold Team_Answered. framed_op. Qed.
#[local] Hint Resolve framed_Team_Answered : framed.

Lemma framed_Team_Bridged l g : fr (Team_Bridged l g).
Proof. unfold Team_Bridged. framed_op. Qed.
#[local] Hint Resolve framed_Team_Bridged : framed.

Lemma framed_SetAgentBreakOut g : fr (SetAgentBreakOut g).
Proof. unfold SetAgentBreakOut. framed_op. Qed.
#[local] Hint Resolve framed_SetAgentBreakOut : framed.

Lemma framed_SetAgentMaxNoAnswer g : fr (SetAgentMaxNoAnswer g).
Proof. unfold SetAgentMaxNoAnswer. framed_op. Qed.
#[local] Hint Resolve framed_SetAgentMaxNoAnswer : framed.

Lemma framed_Team_MissedAgent t m l g e : fr (Team_MissedAgent t m l g e).
Proof. unfold Team_MissedAgent. framed_op. Qed.
#[local] Hint Resolve framed_Team_MissedAgent : framed.

Lemma framed_Team_Missed t l g : fr (Team_Missed t l g).
Proof. unfold Team_Missed. framed_op. Qed.
#[local] Hint Resolve framed_Team_Missed : framed.

Lemma framed_CancelAttemptAndReleaseAgent l g : fr (CancelAttemptAndReleaseAgent l g).
Proof. unfold CancelAttemptAndReleaseAgent. framed_op. Qed.
#[local] Hint Resolve framed_CancelAttemptAndReleaseAgent : framed.

Lemma framed_CancelAgentAttempt t l g : fr (CancelAgentAttempt t l g).
Proof. unfold CancelAgentAttempt. framed_op. Qed.
#[local] Hint Resolve framed_CancelAgentAttempt : framed.

Lemma framed_detach_agent l : fr (detach_agent l).
Proof. unfold detach_agent. framed_op. Qed.
#[local] Hint Resolve framed_detach_agent : framed.

Lemma framed_MissedAgentAndWaitingAttemptWithError t l g e : fr (MissedAgentAndWaitingAttemptWithError t l g e).
Proof. unfold MissedAgentAndWaitingAttemptWithError. framed_op. Qed.
#[local] Hint Resolve framed_MissedAgentAndWaitingAttemptWithError : framed.

Lemma framed_MissedAgentAndWaitingAttempt t l g : fr (MissedAgentAndWaitingAttempt t l g).
Proof. unfold MissedAgentAndWaitingAttempt. framed_op. Qed.
#[local] Hint Resolve framed_MissedAgentAndWaitingAttempt : framed.

Lemma framed_WaitingAgentAndWaitingAttempt t l g : fr (WaitingAgentAndWaitingAttempt t l g).
Proof. unfold WaitingAgentAndWaitingAttempt. framed_op. Qed.
#[local] Hint Resolve framed_WaitingAgentAndWaitingAttempt : framed.

Lemma framed_Team_Transfer t l g : fr (Team_Transfer t l g).
Proof. unfold Team_Transfer. framed_op. Qed.
#[local] Hint Resolve framed_Team_Transfer : framed.

Lemma framed_TransferFrom t l i g s c : fr (TransferFrom t l i g s c).
Proof. unfold TransferFrom. framed_op. Qed.
#[local] Hint Resolve framed_TransferFrom : framed.

Lemma framed_set_limits l w m p : fr (set_limits l w m p).
Proof. unfold set_limits. framed_op. Qed.
#[local] Hint Resolve framed_set_limits : framed.

Lemma framed_go_run q l : fr (go_run q l).
Proof. unfold go_run. framed_op. Qed.
#[local] Hint Resolve framed_go_run : framed.

Lemma framed_require {A} (o : option A) e k : fr k -> fr (require o e k).
Proof. intros. unfold require. framed_op. Qed.
#[local] Hint Resolve framed_require : framed.

Lemma framed_with_team l k : fr k -> fr (with_team l k).
Proof. intros. unfold with_team. framed_op. Qed.
#[local] Hint Resolve framed_with_team : framed.

Lemma framed_with_member_call a k : (forall c, fr (k c)) -> fr (with_member_call a k).
Proof. intros. unfold with_member_call. framed_op. Qed.
#[local] Hint Resolve framed_with_member_call : framed.

Lemma framed_attach_task l : fr (attach_task l).
Proof. unfold attach_task. framed_op. Qed.
#[local] Hint Resolve framed_attach_task : framed.

Lemma framed_queue_DistributeAttempt q l : fr (queue_DistributeAttempt q l).
Proof.
  unfold queue_DistributeAttempt, Offline_DistributeAttempt, Preview_DistributeAttempt,
    Progressive_DistributeAttempt, dial_for_agent, IVR_DistributeAttempt, Predict_DistributeAttempt,
    Inbound_DistributeAttempt, JoinAgent_DistributeAttempt, Outbound_DistributeAttempt,
    Chat_DistributeAttempt, TaskInbound_DistributeAttempt, TaskAgent_DistributeAttempt,
    TaskOutbound_DistributeAttempt, IM_DistributeAttempt.
  repeat (cbv beta zeta; first
    [ apply framed_require | apply framed_with_team | apply framed_with_member_call; intros | framed_step ]).
Qed.
#[local] Hint Resolve framed_queue_DistributeAttempt : framed.

Lemma framed_cancel_call_queue i : fr (cancel_call_queue i).
Proof. unfold cancel_call_queue. framed_op. Qed.
#[local] Hint Resolve framed_cancel_call_queue : framed.

Lemma framed_now_ns  : fr (now_ns ).
Proof. unfold now_ns. framed_op. Qed.
#[local] Hint Resolve framed_now_ns : framed.

Lemma framed_cancel_distribute b i : fr (cancel_distribute b i).
Proof. unfold cancel_distribute. framed_op. Qed.
#[local] Hint Resolve framed_cancel_distribute : framed.

Lemma framed_InterceptAttempt d i g : fr (InterceptAttempt d i g).
Proof. unfold InterceptAttempt. framed_op. Qed.
#[local] Hint Resolve framed_InterceptAttempt : framed.

Lemma framed_completeIMTransfer f t g : fr (completeIMTransfer f t g).
Proof. 
  unfold completeIMTransfer. framed_op. apply framed_mod_attempt_o. intros a'.
  unfold Attempt_completeIMTransfer, IMTransferred. simpl.
  by destruct (at_imTransferredClosed a') eqn:E; simpl; rewrite ?E. Qed.
#[local] Hint Resolve framed_completeIMTransfer : framed.

Lemma framed_releaseIMTransfer f t : fr (releaseIMTransfer f t).
Proof. unfold releaseIMTransfer. framed_op. Qed.
#[local] Hint Resolve framed_releaseIMTransfer : framed.

Lemma framed_routeAgentToAttempt i g : fr (routeAgentToAttempt i g).
Proof. unfold routeAgentToAttempt. framed_op. Qed.
#[local] Hint Resolve framed_routeAgentToAttempt : framed.

Lemma framed_hangupNoAnswerChannels c : fr (hangupNoAnswerChannels c).
Proof. unfold hangupNoAnswerChannels. framed_op. Qed.
#[local] Hint Resolve framed_hangupNoAnswerChannels : framed.

Lemma framed_drop_no_answer i q : fr (drop_no_answer i q).
Proof. unfold drop_no_answer. framed_op. Qed.
#[local] Hint Resolve framed_drop_no_answer : framed.

Lemma framed_AgentGoOnline d i o s : fr (AgentGoOnline d i o s).
Proof. unfold AgentGoOnline. framed_op. Qed.
#[local] Hint Resolve framed_AgentGoOnline : framed.

Lemma framed_SetAgentLogout i : fr (SetAgentLogout i).
Proof. unfold SetAgentLogout. framed_op. Qed.
#[local] Hint Resolve framed_SetAgentLogout : framed.

Lemma framed_SetAgentPause i p c : fr (SetAgentPause i p c).
Proof. unfold SetAgentPause. framed_op. Qed.
#[local] Hint Resolve framed_SetAgentPause : framed.

Lemma framed_WaitingAgentChannel i c : fr (WaitingAgentChannel i c).
Proof. unfold WaitingAgentChannel. framed_op. Qed.
#[local] Hint Resolve framed_WaitingAgentChannel : framed.

Lemma framed_App_AcceptAgentTask c i g u : fr (App_AcceptAgentTask c i g u).
Proof. unfold App_AcceptAgentTask. framed_op. Qed.
#[local] Hint Resolve framed_App_AcceptAgentTask : framed.

Lemma framed_execSchema q t l s : fr (execSchema q t l s).
Proof. unfold execSchema. framed_op. Qed.
#[local] Hint Resolve framed_execSchema : framed.

End FramedOps.

#[export] Hint Resolve framed_opt_agent framed_export_schema framed_form_data framed_NewBridgedEventEvent
  framed_NewNextFormEvent framed_NewDistributeEvent framed_NewTransferEvent framed_Hook
  framed_attempt_queue framed_SetState framed_DistributeAgent framed_TeamUpdatedAt
  framed_Attempt_Display framed_Attempt_Close framed_cached_agent framed_PutAgentCache
  framed_GetAgent framed_AgentChangeStatus_mq framed_SetOnline framed_setAgentStatus
  framed_change_status framed_SetOffline framed_SetPause framed_SetBreakOut
  framed_qm_AfterDistributeSchema framed_AfterDistributeSchema framed_ApplyCallbackRules framed_DoDistributeSchema
  framed_qm_StartProcessingForm framed_StartProcessingForm framed_attemptProcessingActionForm framed_ResourceManager_Get
  framed_RemoveFromCacheById framed_SetResourceSuccessful framed_GetAttemptResource framed_FlipAttemptResource
  framed_GetAttempt framed_GetAttemptAgent framed_SetAgentWaitingChannel framed_FlushAttemptFields
  framed_save_schema_result framed_set_stop_cause framed_Barred framed_SetAttemptSuccess
  framed_SetAttemptAbandonedWithParams framed_getAgentTaskFromAttemptId framed_chat_reporting framed_attempt_SetCancel
   framed_AcceptAgentTask framed_CloseAgentTask framed_report_task
  framed_closeBeforeReporting framed_setChannelReporting framed_RenewalAttempt framed_processAttemptCallback
  framed_LosePredictAgent framed_CancelAgentDistribute framed_SetAttemptCancel framed_SaveFormFields
  framed_ResumeAttempt framed_SetFindAgentState framed_AnswerPredictAndFindAgent framed_SetResourceError
  framed_NewQueue framed_NewBaseQueue framed_GetQueue framed_GetTeam
  framed_HookAgent framed_AgentTeamHook framed_BaseQueue_GetTeam framed_publish
  framed_Team_Distribute framed_Team_Offering framed_Team_Cancel framed_Team_Answered
  framed_Team_Bridged framed_SetAgentBreakOut framed_SetAgentMaxNoAnswer framed_Team_MissedAgent
  framed_Team_Missed framed_CancelAttemptAndReleaseAgent framed_CancelAgentAttempt framed_detach_agent
  framed_MissedAgentAndWaitingAttemptWithError framed_MissedAgentAndWaitingAttempt framed_WaitingAgentAndWaitingAttempt framed_Team_Transfer
  framed_TransferFrom framed_set_limits framed_go_run framed_require
  framed_with_team framed_with_member_call framed_attach_task framed_queue_DistributeAttempt
  framed_cancel_call_queue framed_now_ns framed_cancel_distribute framed_InterceptAttempt
  framed_completeIMTransfer framed_releaseIMTransfer framed_routeAgentToAttempt framed_hangupNoAnswerChannels
  framed_drop_no_answer framed_AgentGoOnline framed_SetAgentLogout framed_SetAgentPause
  framed_WaitingAgentChannel framed_App_AcceptAgentTask framed_execSchema : framed.
#[export] Hint Extern 1 (framed (task_op_at _ _)) => apply framed_task_op_at; tauto : framed.
