(* ===== verification/Invariant.v ===== *)
(** * The queue manager keeps its count of attempts

    Every entry point of the package keeps the invariant [minv] of the file Frame and
    never makes the wait group counter negative; the file Histories composes them. The
    cache is any implementation of the interface; the LRU cache is one. *)

From S2P Require Import Prelude Model Queue Attempt TaskChannel Resource World Agents.
From S2P Require Import Events Schema Manager Team Distribute Messages Dialing Frame.

Create HintDb safe.

Section Safe.
Context {OC : Type -> Type} {HOC : ObjectCache OC} {OCL : ObjectCacheLaws OC} {SV : Services} {DE : Decoders}.

Abbreviation W := (World OC).

Lemma framed_safe {A} (m : M OC A) : framed m -> safe m.
Proof.
  intros Hm w Hw. specialize (Hm w). destruct (m w) as [[a w']| |]; [|done..].
  by eapply frame_minv.
Qed.

Lemma safe_bind {A B} (m : M OC A) (f : A -> M OC B) :
  safe m -> (forall a, safe (f a)) -> safe (m ≫= f).
Proof.
  intros Hm Hf w Hw. unfold mbind, M_bind. specialize (Hm w Hw).
  destruct (m w) as [[a w1]| |]; [|done..]. by apply (Hf a w1).
Qed.

Lemma safe_ret {A} (a : A) : safe (mret a : M OC A).
Proof. apply framed_safe, framed_ret. Qed.

Lemma safe_bind_res {A B} (m : M OC (result A)) (f : A -> M OC (result B)) :
  safe m -> (forall a, safe (f a)) -> safe (bind_res m f).
Proof. intros Hm Hf. apply safe_bind; [done|]. intros [e|a]; [apply safe_ret|apply Hf]. Qed.

Lemma safe_for_each {A} (l : list A) (f : A -> M OC unit) :
  (forall a, safe (f a)) -> safe (for_each l f).
Proof.
  intros Hf. induction l as [|a l IH]; [apply safe_ret|].
  apply safe_bind; [apply Hf|intros; apply IH].
Qed.

(** Removing a cached attempt and counting it out. *)
Lemma leave_tail (w : W) id l :
  minv w -> cached w !! id = Some l ->
  exists w', (_ ← members_remove id; wg_done) w = Ret (tt, w') /\ minv w' /\
    cached w' = delete id (cached w) /\ w_wg w' = w_wg w - 1 /\ w_attempts w' = w_attempts w /\
    w_agents w' = w_agents w /\ w_trace w' = w_trace w.
Proof.
  intros [Hok Hc Hf Ho] Hid.
  destruct (oc_remove_law _ id (w_membersCache w) Hok) as [Hok' Hv].
  assert (size (cached w) = S (size (delete id (cached w)))) as Hs.
  { rewrite map_size_delete, Hid. simpl.
    assert (size (cached w) <> 0%nat); [|lia]. intros E%map_size_empty_inv. by rewrite E in Hid. }
  unfold mbind, M_bind, members_remove, modify, wg_done, wg_add. simpl.
  rewrite decide_False by lia. eexists. split; [reflexivity|]. simpl.
  split_and!; try done. split; simpl; try done.
  - unfold cached in *. simpl. rewrite Hv. lia.
  - intros id' l'. unfold cached in *. simpl. rewrite Hv.
    intros [_ Hl]%lookup_delete_Some. by apply Ho.
Qed.

(** Running a framed operation first. *)
Lemma framed_then_do {A B} (m : M OC A) (f : A -> M OC B) (w : W)
    (Q : outcome (B * W) -> Prop) :
  framed m ->
  (forall s, s <> wg_message -> Q (Panic s)) -> (forall s, Q (Block s)) ->
  (forall a w', frame w w' -> Q (f a w')) -> Q ((m ≫= f) w).
Proof.
  intros Hm Hp Hb Hf. unfold mbind, M_bind. specialize (Hm w).
  destruct (m w) as [[a w']| |]; auto.
Qed.

Lemma members_get_eq id (w : W) :
  oc_ok (w_membersCache w) ->
  exists w', members_get id w = Ret (cached w !! id, w') /\ frame w w'.
Proof.
  intros Hok. pose proof (framed_members_get id w) as Hf. unfold members_get in *.
  pose proof (oc_get_law _ (now_sec (w_trace w)) id (w_membersCache w) Hok) as Hg.
  destruct (oc_get _ _ _) as [v c]. simpl in *. destruct Hg as (-> & _ & _). by eexists.
Qed.

Lemma safe_LeavingMember l : safe (LeavingMember l).
Proof.
  intros w Hw. unfold LeavingMember.
  apply framed_then_do; [framed_op|done..|]. intros a w1 F1.
  apply framed_then_do; [framed_op|done..|]. intros _ w2 F2.
  apply framed_then_do; [framed_op|done..|]. intros _ w3 F3.
  assert (minv w3) as Hw3 by (eapply frame_minv; [|done]; by do 2 (etrans; [done|])).
  destruct (members_get_eq (at_Id a) w3 (mi_ok _ Hw3)) as (w4 & Eg & F4).
  unfold mbind at 1, M_bind at 1. rewrite Eg.
  assert (minv w4) as Hw4 by by eapply frame_minv.
  destruct (cached w3 !! at_Id a) as [l'|] eqn:El; [|done].
  unfold leave_cached.
  apply framed_then_do; [framed_op|done..|]. intros _ w5 F5.
  apply framed_then_do; [framed_op|done..|]. intros _ w6 F6.
  apply framed_then_do; [framed_op|done..|]. intros _ w7 F7.
  assert (frame w3 w7) as F37 by (by do 3 (etrans; [done|])).
  destruct (leave_tail w7 (at_Id a) l') as (w8 & E8 & Hw8 & _).
  - by eapply frame_minv.
  - rewrite (proj2 (fr_members _ _ F37 (mi_ok _ Hw3))). done.
  - by rewrite E8.
Qed.

Lemma safe_createAttempt conf : safe (createAttempt conf).
Proof.
  intros w [Hok Hc Hf Ho]. unfold createAttempt, mbind, M_bind, new_attempt, members_add, modify,
    wg_add, mret, M_ret. simpl.
  pose proof (oc_add_law _ (now_sec (w_trace w)) (ma_Id conf) (w_next w) (w_membersCache w) Hok)
    as (Hok' & Hl & Hsub).
  assert (size (oc_view (oc_add (now_sec (w_trace w)) (ma_Id conf) (w_next w) (w_membersCache w)))
          <= S (size (cached w)))%nat as Hs.
  { etrans; [by apply map_subseteq_size|]. unfold cached.
    rewrite map_size_insert.
    destruct (oc_view (w_membersCache w) !! ma_Id conf); simpl; lia. }
  rewrite decide_False by lia. simpl.
  split; simpl; [done|unfold cached; simpl; lia| |].
  - intros l [a Ha]. destruct (decide (l = w_next w)) as [->|Hne]; [lia|].
    rewrite lookup_insert_ne in Ha by done. specialize (Hf l (ex_intro _ _ Ha)). lia.
  - intros id l. unfold cached. simpl. intros Hl'. apply (map_subseteq_spec _ _) with (1 := Hsub) in Hl'.
    apply lookup_insert_Some in Hl' as [[<- <-]|[Hne Hl']].
    + rewrite lookup_insert_eq. by eexists.
    + destruct (Ho id l Hl') as (a & Ea & Ei). exists a. split; [|done].
      rewrite lookup_insert_ne; [done|]. intros E.
      specialize (Hf l (ex_intro _ _ Ea)). lia.
Qed.

End Safe.

#[export] Hint Resolve safe_ret safe_LeavingMember safe_createAttempt : safe.

Ltac safe_step :=
  match goal with
  | |- safe (mbind _ _) => apply safe_bind; [|intros]
  | |- safe (bind_res _ _) => apply safe_bind_res; [|intros]
  | |- safe (for_each _ _) => apply safe_for_each; intros
  | |- safe (let '(_, _) := ?x in _) => destruct x
  | |- safe (match ?x with _ => _ end) => destruct x eqn:?
  | |- safe _ => solve [eauto 2 with safe]
  | |- safe _ => solve [apply framed_safe; framed_op]
  end.

Ltac safe_op := intros; repeat (cbv beta zeta; safe_step).

Section SafeOps.
Context {OC : Type -> Type} {HOC : ObjectCache OC} {OCL : ObjectCacheLaws OC} {SV : Services} {DE : Decoders}.

Abbreviation sf m := (safe (OC := OC) m).

Lemma safe_CreateAttemptIfNotExists m : sf (CreateAttemptIfNotExists m).
Proof. unfold CreateAttemptIfNotExists. safe_op. Qed.
#[local] Hint Resolve safe_CreateAttemptIfNotExists : safe.

Lemma safe_Abandoned l : sf (Abandoned l).
Proof. unfold Abandoned. safe_op. Qed.
#[local] Hint Resolve safe_Abandoned : safe.

Lemma safe_SendAfterDistributeSchema l : sf (SendAfterDistributeSchema l).
Proof. unfold SendAfterDistributeSchema. safe_op. Qed.
#[local] Hint Resolve safe_SendAfterDistributeSchema : safe.

Lemma safe_TimeoutLeavingMember l : sf (TimeoutLeavingMember l).
Proof. unfold TimeoutLeavingMember. safe_op. Qed.
#[local] Hint Resolve safe_TimeoutLeavingMember : safe.

Lemma safe_doLeavingReporting i a r c : sf (doLeavingReporting i a r c).
Proof. unfold doLeavingReporting. safe_op. Qed.
#[local] Hint Resolve safe_doLeavingReporting : safe.

Lemma safe_ReportingAttempt i c s d : sf (ReportingAttempt i c s d).
Proof. unfold ReportingAttempt. safe_op. Qed.
#[local] Hint Resolve safe_ReportingAttempt : safe.

Lemma safe_closeAttempts  : sf (closeAttempts).
Proof. 
  intros w Hw. unfold closeAttempts, mbind at 1 2, M_bind at 1 2, get_world, lift.
  destruct (oc_keys_law _ (w_membersCache w) (mi_ok _ Hw)) as (ks & -> & _).
  apply safe_for_each; [|done]. intros k. safe_op. Qed.
#[local] Hint Resolve safe_closeAttempts : safe.

Lemma safe_TransferTo l i : sf (TransferTo l i).
Proof. unfold TransferTo. safe_op. Qed.
#[local] Hint Resolve safe_TransferTo : safe.

Lemma safe_SetWrap t q l g r : sf (SetWrap t q l g r).
Proof. unfold SetWrap. safe_op. Qed.
#[local] Hint Resolve safe_SetWrap : safe.

Lemma safe_Team_Reporting t q l g b c : sf (Team_Reporting t q l g b c).
Proof. unfold Team_Reporting. safe_op. Qed.
#[local] Hint Resolve safe_Team_Reporting : safe.

Lemma safe_drop_attempt l : sf (drop_attempt l).
Proof. unfold drop_attempt. safe_op. Qed.
#[local] Hint Resolve safe_drop_attempt : safe.

Lemma safe_DistributeAttempt l : sf (DistributeAttempt l).
Proof. unfold DistributeAttempt. safe_op. Qed.
#[local] Hint Resolve safe_DistributeAttempt : safe.

Lemma safe_DistributeCall r : sf (DistributeCall r).
Proof. unfold DistributeCall. safe_op. Qed.
#[local] Hint Resolve safe_DistributeCall : safe.

Lemma safe_join_queue l g q c : sf (join_queue l g q c).
Proof. unfold join_queue. safe_op. Qed.
#[local] Hint Resolve safe_join_queue : safe.

Lemma safe_DistributeCallToAgent r : sf (DistributeCallToAgent r).
Proof. unfold DistributeCallToAgent. safe_op. Qed.
#[local] Hint Resolve safe_DistributeCallToAgent : safe.

Lemma safe_OutboundCall r : sf (OutboundCall r).
Proof. unfold OutboundCall. safe_op. Qed.
#[local] Hint Resolve safe_OutboundCall : safe.

Lemma safe_DistributeTaskToAgent r : sf (DistributeTaskToAgent r).
Proof. unfold DistributeTaskToAgent. safe_op. Qed.
#[local] Hint Resolve safe_DistributeTaskToAgent : safe.

Lemma safe_distribute_or_cancel l i : sf (distribute_or_cancel l i).
Proof. unfold distribute_or_cancel. safe_op. Qed.
#[local] Hint Resolve safe_distribute_or_cancel : safe.

Lemma safe_DistributeChatToQueue r : sf (DistributeChatToQueue r).
Proof. unfold DistributeChatToQueue. safe_op. Qed.
#[local] Hint Resolve safe_DistributeChatToQueue : safe.

Lemma safe_startIMAttempt r a b : sf (startIMAttempt r a b).
Proof. unfold startIMAttempt. safe_op. Qed.
#[local] Hint Resolve safe_startIMAttempt : safe.

Lemma safe_distributeIMDestination q t d v b p s : sf (distributeIMDestination q t d v b p s).
Proof. unfold distributeIMDestination. safe_op. Qed.
#[local] Hint Resolve safe_distributeIMDestination : safe.

Lemma safe_DistributeIMToQueue r : sf (DistributeIMToQueue r).
Proof. unfold DistributeIMToQueue. safe_op. Qed.
#[local] Hint Resolve safe_DistributeIMToQueue : safe.

Lemma safe_distributeIMTransfer l d a q : sf (distributeIMTransfer l d a q).
Proof. unfold distributeIMTransfer. safe_op. Qed.
#[local] Hint Resolve safe_distributeIMTransfer : safe.

Lemma safe_TransferIM d i a q : sf (TransferIM d i a q).
Proof. unfold TransferIM. safe_op. Qed.
#[local] Hint Resolve safe_TransferIM : safe.

Lemma safe_DistributeDirectMember m c a : sf (DistributeDirectMember m c a).
Proof. unfold DistributeDirectMember. safe_op. Qed.
#[local] Hint Resolve safe_DistributeDirectMember : safe.

Lemma safe_routeIdleAttempts  : sf (routeIdleAttempts).
Proof. unfold routeIdleAttempts. safe_op. Qed.
#[local] Hint Resolve safe_routeIdleAttempts : safe.

Lemma safe_route_timeout v : sf (route_timeout v).
Proof. unfold route_timeout. safe_op. Qed.
#[local] Hint Resolve safe_route_timeout : safe.

Lemma safe_routeIdleAgents  : sf (routeIdleAgents).
Proof. unfold routeIdleAgents. safe_op. Qed.
#[local] Hint Resolve safe_routeIdleAgents : safe.

Lemma safe_routeData  : sf (routeData).
Proof. unfold routeData. safe_op. Qed.
#[local] Hint Resolve safe_routeData : safe.

Lemma safe_task_loop l g e : sf (task_loop l g e).
Proof. induction e as [|[[]|] e IH]; simpl; safe_op; done. Qed.
#[local] Hint Resolve safe_task_loop : safe.

Lemma safe_task_run_queue q t l g k e : sf (task_run_queue q t l g k e).
Proof. unfold task_run_queue. safe_op. Qed.
#[local] Hint Resolve safe_task_run_queue : safe.

Lemma safe_task_outbound_run q s l : sf (task_outbound_run q s l).
Proof. unfold task_outbound_run. safe_op. Qed.
#[local] Hint Resolve safe_task_outbound_run : safe.

End SafeOps.

Section Leaving.
Context {OC : Type -> Type} {HOC : ObjectCache OC} {OCL : ObjectCacheLaws OC} {SV : Services} {DE : Decoders}.

(** ** Leaving *)

Abbreviation W := (World OC).

(** A step that only reads, or writes outside the attempts, the agents and the count. *)
Record quiet (w w' : W) : Prop := Quiet {
  qt_frame : frame w w';
  qt_attempts : w_attempts w' = w_attempts w;
  qt_agents : w_agents w' = w_agents w;
}.

#[global] Instance quiet_preorder : PreOrder quiet.
Proof.
  split.
  - intros w. by split.
  - intros w1 w2 w3 [? ? ?] [? ? ?]. split; [by etrans|congruence..].
Qed.

Definition quietly {A} (m : M OC A) (w : W) : Prop := exists r w', m w = Ret (r, w') /\ quiet w w'.

Lemma quietly_call {A} e (f : trace -> A) (w : W) : quietly (call e f) w.
Proof. eexists _, _. split; [reflexivity|]. split; [|done..]. by apply frame_other. Qed.

Lemma quietly_ret {A} (a : A) (w : W) : quietly (mret a) w.
Proof. by eexists _, _. Qed.

Lemma quietly_bind {A B} (m : M OC A) (f : A -> M OC B) (w : W) :
  quietly m w -> (forall a w', quiet w w' -> quietly (f a) w') -> quietly (m ≫= f) w.
Proof.
  intros (a & w1 & E1 & Q1) Hf. destruct (Hf a w1 Q1) as (b & w2 & E2 & Q2).
  exists b, w2. unfold mbind, M_bind. rewrite E1. split; [done|by etrans].
Qed.

(** The pointers of an attempt are valid. *)
Definition agent_ok (w : W) (a : Attempt) : Prop :=
  match at_agent a with Some g => is_Some (w_agents w !! g) | None => True end.

(** What the bookkeeping of an attempt does not change. *)
Record same_attempt (a a' : Attempt) : Prop := SameAttempt {
  sa_id : at_Id a' = at_Id a;
  sa_queue : at_queue a' = at_queue a;
  sa_agent : at_agent a' = at_agent a;
  sa_member : at_memberChannel a' = at_memberChannel a;
  sa_canceled : at_canceled a' = at_canceled a;
  sa_cancelClosed : at_cancelClosed a' = at_cancelClosed a;
}.

#[global] Instance same_attempt_preorder : PreOrder same_attempt.
Proof.
  split.
  - by intros a.
  - intros a b c [] []. split; congruence.
Qed.

Lemma get_attempt_eq (w : W) l a : w_attempts w !! l = Some a -> get_attempt l w = Ret (a, w).
Proof. unfold get_attempt. by intros ->. Qed.

Lemma export_schema_eq (w : W) l a :
  w_attempts w !! l = Some a -> agent_ok w a -> exists v, export_schema l w = Ret (v, w).
Proof.
  intros Ha Hg. unfold export_schema, mbind, M_bind. rewrite (get_attempt_eq w l a Ha).
  unfold opt_agent, agent_ok in *. destruct (at_agent a) as [g|]; [|by eexists].
  destruct Hg as [ag Eg]. unfold mbind, M_bind, get_agent. rewrite Eg. by eexists.
Qed.

Lemma Hook_quietly (w : W) q nm l a :
  w_attempts w !! l = Some a -> agent_ok w a -> quietly (Hook q nm l) w.
Proof.
  intros Ha Hg. unfold Hook. destruct (getByName _ _) as [s|]; [|apply quietly_ret].
  destruct (export_schema_eq w l a Ha Hg) as [v Ev].
  eexists _, _. unfold mbind, M_bind. rewrite (get_attempt_eq w l a Ha), Ev.
  split; [reflexivity|]. split; [|done..]. by apply frame_other.
Qed.

Lemma members_get_quietly (w : W) id :
  oc_ok (w_membersCache w) ->
  exists w', members_get id w = Ret (cached w !! id, w') /\ quiet w w'.
Proof.
  intros Hok. destruct (members_get_eq id w Hok) as (w' & E & F). exists w'. split; [done|].
  split; [done|..]; unfold members_get in E; destruct (oc_get _ _ _); by simplify_eq.
Qed.

Lemma quiet_minv (w w' : W) : quiet w w' -> minv w -> minv w'.
Proof. intros [F _ _]. by apply frame_minv. Qed.

Lemma quiet_cached (w w' : W) : quiet w w' -> minv w -> cached w' = cached w.
Proof. intros [F _ _] Hw. by apply (fr_members _ _ F), mi_ok. Qed.

Lemma autosave_quietly (w : W) l a :
  w_attempts w !! l = Some a ->
  quietly (if IsProcessingAutosaveEnabled a then
             _ ← FlushAttemptFields l;
             a ← get_attempt l;
             match at_draft a with
             | Some d => _ ← save_schema_result a d; mret tt
             | None => mret tt
             end
           else mret tt) w.
Proof.
  intros Ha. destruct (IsProcessingAutosaveEnabled a); [|apply quietly_ret].
  apply quietly_bind.
  - unfold FlushAttemptFields, quietly, mbind at 1, M_bind at 1.
    rewrite (get_attempt_eq w l a Ha). case_decide; [apply quietly_ret|].
    apply quietly_bind; [apply quietly_call|intros; apply quietly_ret].
  - intros _ w' Q. unfold quietly, mbind at 1, M_bind at 1.
    rewrite (get_attempt_eq w' l a) by (by rewrite (qt_attempts _ _ Q)).
    destruct (at_draft a); [|apply quietly_ret].
    apply quietly_bind; [apply quietly_call|intros; apply quietly_ret].
Qed.

Lemma SetState_eq (w : W) l a q st :
  w_attempts w !! l = Some a -> agent_ok w a -> at_queue a = Some q ->
  exists a' w', SetState l st w = Ret (tt, w') /\ frame w w' /\
    w_attempts w' = <[l := a']> (w_attempts w) /\ w_agents w' = w_agents w /\
    at_state a' = st /\ Result a' = Result a /\ same_attempt a a'.
Proof.
  intros Ha Hg Hq. unfold SetState, mbind, M_bind, GetMillis, ask, mod_attempt. rewrite Ha.
  set (n := Z.quot _ _). set (a' := set_state n st a).
  assert (same_attempt a a' /\ at_state a' = st /\ Result a' = Result a) as (E1 & E3 & E4).
  { subst a'. unfold set_state. by case_decide. }
  set (w1 := w <| w_attempts := (<[l := a']> (w_attempts w)) |>).
  assert (w_attempts w1 !! l = Some a') as Ha1 by apply lookup_insert_eq.
  unfold attempt_queue, mbind, M_bind. rewrite (get_attempt_eq w1 l a' Ha1), (sa_queue _ _ E1), Hq. simpl.
  destruct (Hook_quietly w1 (qo_base q) st l a' Ha1) as ([] & w2 & Eh & Q).
  { unfold agent_ok in *. by rewrite (sa_agent _ _ E1). }
  exists a', w2. split; [done|]. destruct Q as [F Ea Eg].
  split_and!; try done. etrans; [|done]. eapply frame_attempt; [done|by apply sa_id].
Qed.

Lemma Attempt_Close_quietly (w : W) l a :
  w_attempts w !! l = Some a -> quietly (Attempt_Close l) w.
Proof.
  intros Ha. unfold Attempt_Close, quietly, mbind at 1, M_bind at 1.
  rewrite (get_attempt_eq w l a Ha). destruct (at_processingForm a); [|apply quietly_ret].
  apply quietly_bind; [apply quietly_call|intros; apply quietly_ret].
Qed.

(** The result an attempt leaves with. *)
Definition final_result (a : Attempt) : string := cmp_or (Result a) AttemptResultAbandoned.

Lemma default_result_eq (w : W) l a :
  w_attempts w !! l = Some a ->
  exists a' w', (if decide (Result a = "") then mod_attempt l (SetResult AttemptResultAbandoned)
                 else mret tt) w = Ret (tt, w') /\ frame w w' /\
    w_attempts w' = <[l := a']> (w_attempts w) /\ w_agents w' = w_agents w /\
    Result a' = final_result a /\ same_attempt a a'.
Proof.
  intros Ha. unfold final_result, cmp_or. destruct (decide (Result a = "")).
  - unfold mod_attempt. rewrite Ha. exists (SetResult AttemptResultAbandoned a), (w <| w_attempts :=
      (<[l := SetResult AttemptResultAbandoned a]> (w_attempts w)) |>).
    split_and!; try done. by eapply frame_attempt.
  - exists a, w. split_and!; try done. by rewrite insert_id.
Qed.

Lemma intercept_quietly (w : W) a :
  quietly (if at_manualDistribution a && bool_decide (at_bridgedAt a = 0) then
             _ ← call_err (NotificationIntercept (at_domainId a) (at_QueueId a) (at_channel a) (at_Id a) 0);
             mret tt
           else mret tt) w.
Proof.
  case_match; [|apply quietly_ret].
  apply quietly_bind; [apply quietly_call|intros; apply quietly_ret].
Qed.

(** Everything the leaving of an attempt guarantees of the worlds before and after; [n] is
    what the wait group loses. *)
Record left_from (w : W) (l : loc) (a a' : Attempt) (n : Z) (w' : W) : Prop := LeftFrom {
  lf_inv : minv w';
  lf_cached : cached w' = delete (at_Id a) (cached w);
  lf_wg : w_wg w' = w_wg w - n;
  lf_attempts : w_attempts w' = <[l := a']> (w_attempts w);
  lf_agents : w_agents w' = w_agents w;
  lf_same : same_attempt a a';
  lf_log : w_trace w `suffix_of` w_trace w';
}.

(** Leaving up to the removal from the cache. *)
Lemma leave_cached_prefix (w : W) l a0 a q :
  w_attempts w !! l = Some a -> at_queue a = Some q -> agent_ok w a -> at_queue a0 = at_queue a ->
  exists a' w', leave_cached l a0 w = (_ ← members_remove (at_Id a0); wg_done) w' /\ frame w w' /\
    w_attempts w' = <[l := a']> (w_attempts w) /\ w_agents w' = w_agents w /\
    same_attempt a a' /\ Result a' = Result a /\ at_state a' = HookLeaving.
Proof.
  intros Ha Hq Hg Hqq. destruct (autosave_quietly w l a Ha) as ([] & w4 & E4 & Q4).
  assert (IsProcessingAutosaveEnabled a0 = IsProcessingAutosaveEnabled a) as Eas
    by (unfold IsProcessingAutosaveEnabled; by rewrite Hqq).
  assert (w_attempts w4 !! l = Some a) as Ha4 by (by rewrite (qt_attempts _ _ Q4)).
  destruct (SetState_eq w4 l a q HookLeaving Ha4) as
    (a5 & w5 & E5 & F5 & Ea5 & Eg5 & Es5 & Er5 & S5); [|done|].
  { unfold agent_ok. by rewrite (qt_agents _ _ Q4). }
  assert (w_attempts w5 !! l = Some a5) as Ha5 by (by rewrite Ea5, lookup_insert_eq).
  destruct (Attempt_Close_quietly w5 l a5 Ha5) as ([] & w6 & E6 & Q6).
  exists a5, w6. unfold leave_cached. unfold mbind, M_bind in *.
  rewrite Eas, E4, E5, E6. split_and!; try done.
  - etrans; [apply Q4|]. etrans; [done|apply Q6].
  - by rewrite (qt_attempts _ _ Q6), Ea5, (qt_attempts _ _ Q4).
  - by rewrite (qt_agents _ _ Q6), Eg5, (qt_agents _ _ Q4).
Qed.

Lemma leave_cached_eq (w : W) l a0 a q l' :
  minv w -> w_attempts w !! l = Some a -> at_queue a = Some q -> agent_ok w a ->
  at_Id a0 = at_Id a -> at_queue a0 = at_queue a -> cached w !! at_Id a = Some l' ->
  exists a' w', leave_cached l a0 w = Ret (tt, w') /\ left_from w l a a' 1 w' /\
    Result a' = Result a /\ at_state a' = HookLeaving.
Proof.
  intros Hw Ha Hq Hg Hid Hqq El.
  destruct (leave_cached_prefix w l a0 a q) as (a' & w6 & E6 & F & Ea & Eg & Hs & Er & Est); [done..|].
  assert (minv w6) as Hw6 by by eapply frame_minv.
  assert (cached w6 = cached w) as Ec6 by by apply (fr_members _ _ F), mi_ok.
  destruct (leave_tail w6 (at_Id a) l') as (w7 & E7 & Hw7 & Ec7 & Eg7 & Ea7 & Eag7 & El7);
    [done|by rewrite Ec6|].
  exists a', w7. rewrite E6, Hid, E7. split_and!; try done. split; try done; try congruence.
  - by rewrite Eg7, (fr_wg _ _ F).
  - rewrite El7. apply F.
Qed.

(** What a call of LeavingMember for a distributed attempt does. *)
Lemma LeavingMember_eq (w : W) l a q :
  minv w -> w_attempts w !! l = Some a -> at_queue a = Some q -> agent_ok w a ->
  exists a' w', LeavingMember l w = Ret (tt, w') /\
    left_from w l a a' (if decide (is_Some (cached w !! at_Id a)) then 1 else 0) w' /\
    Result a' = final_result a /\
    (is_Some (cached w !! at_Id a) -> at_state a' = HookLeaving).
Proof.
  intros Hw Ha Hq Hg.
  destruct (default_result_eq w l a Ha) as (a1 & w1 & E1 & F1 & Ea1 & Eg1 & Er1 & S1).
  assert (w_attempts w1 !! l = Some a1) as Ha1 by (by rewrite Ea1, lookup_insert_eq).
  pose proof (sa_id _ _ S1) as Ei1. pose proof (sa_queue _ _ S1) as Eq1.
  pose proof (sa_agent _ _ S1) as Ear1.
  destruct (intercept_quietly w1 a) as ([] & w2 & E2 & Q2).
  assert (minv w1) as Hw1 by by eapply frame_minv.
  assert (minv w2) as Hw2 by by eapply quiet_minv.
  destruct (members_get_quietly w2 (at_Id a) (mi_ok _ Hw2)) as (w3 & E3 & Q3).
  assert (quiet w1 w3) as Q13 by by etrans.
  assert (cached w1 = cached w) as Ec1 by by apply (fr_members _ _ F1), mi_ok.
  assert (cached w3 = cached w) as Ec3 by (by rewrite (quiet_cached _ _ Q13)).
  assert (cached w2 = cached w) as Ec2 by (by rewrite (quiet_cached _ _ Q2)).
  assert (minv w3) as Hw3 by by eapply quiet_minv.
  unfold LeavingMember. unfold mbind, M_bind in *.
  rewrite (get_attempt_eq w l a Ha), E1, E2, E3, Ec2.
  destruct (cached w !! at_Id a) as [l'|] eqn:El.
  - destruct (leave_cached_eq w3 l a a1 q l') as (a' & w' & E & L & Er & Es); try done.
    { by rewrite (qt_attempts _ _ Q13). }
    { by rewrite Eq1. }
    { unfold agent_ok. by rewrite Ear1, (qt_agents _ _ Q13), Eg1. }
    { by rewrite Ec3, Ei1. }
    exists a', w'. split_and!; try done; try congruence. destruct L.
    split; try done; try congruence.
    + by rewrite decide_True, lf_wg0, (fr_wg _ _ (qt_frame _ _ Q13)), (fr_wg _ _ F1) by (by eexists).
    + by rewrite lf_attempts0, (qt_attempts _ _ Q13), Ea1, insert_insert_eq.
    + by rewrite lf_agents0, (qt_agents _ _ Q13).
    + by etrans.
    + etrans; [apply F1|]. etrans; [apply Q13|done].
  - exists a1, w3. split_and!; try done; try (by intros [? ?]). split; try done.
    + by rewrite Ec3, delete_id.
    + rewrite decide_False by (by intros [? ?]).
      rewrite (fr_wg _ _ (qt_frame _ _ Q13)), (fr_wg _ _ F1). lia.
    + by rewrite (qt_attempts _ _ Q13).
    + by rewrite (qt_agents _ _ Q13).
    + etrans; [apply F1|apply Q13].
Qed.

(** What a call for an attempt that has left asks of the services: a manual attempt that was
    never bridged is announced as intercepted every time. *)
Definition intercept_notice (a : Attempt) : trace :=
  if at_manualDistribution a && bool_decide (at_bridgedAt a = 0)
  then [NotificationIntercept (at_domainId a) (at_QueueId a) (at_channel a) (at_Id a) 0] else [].

(** Such a call does nothing else; the lookup may touch the order of the cache. *)
Lemma LeavingMember_again (w : W) l a :
  minv w -> w_attempts w !! l = Some a -> Result a <> "" -> cached w !! at_Id a = None ->
  exists c, LeavingMember l w =
      Ret (tt, w <| w_trace := (intercept_notice a ++ w_trace w) |> <| w_membersCache := c |>) /\
    oc_view c = cached w /\ oc_ok c.
Proof.
  intros Hw Ha Hr Hc. unfold LeavingMember, mbind at 1, M_bind at 1. rewrite (get_attempt_eq w l a Ha).
  rewrite decide_False by done. unfold mbind at 1, M_bind at 1, mret at 1, M_ret at 1.
  set (w1 := w <| w_trace := (intercept_notice a ++ w_trace w) |>).
  match goal with |- context [(?m ≫= _) w] => assert (m w = Ret (tt, w1)) as E1 end.
  { subst w1. unfold intercept_notice. by destruct (_ && _); destruct w. }
  unfold mbind at 1, M_bind at 1. rewrite E1. unfold mbind, M_bind, members_get.
  pose proof (oc_get_law _ (now_sec (w_trace w1)) (at_Id a) (w_membersCache w1) (mi_ok _ Hw)) as Hg.
  destruct (oc_get _ _ _) as [v c]. simpl in Hg. destruct Hg as (-> & Hok & Hv).
  fold (cached w). rewrite Hc. by exists c.
Qed.

(** C3. Leaving a distributed attempt always returns: the attempt gets a result, is
    removed from the members cache and counted out exactly once. Leaving it again returns
    too, and all it does is announce the attempt as intercepted once more when it is a manual
    one that was never bridged: no attempt, agent or other part of the world changes, the
    cache holds the same attempts and the count stays. *)
Theorem leaving_once (w : W) (l : loc) (a : Attempt) (q : QueueObject) :
  minv w -> w_attempts w !! l = Some a -> at_queue a = Some q -> agent_ok w a ->
  exists w1 a1 c, LeavingMember l w = Ret (tt, w1) /\
    w_attempts w1 !! l = Some a1 /\ Result a1 = cmp_or (Result a) AttemptResultAbandoned /\
    (is_Some (cached w !! at_Id a) -> at_state a1 = HookLeaving) /\
    cached w1 = delete (at_Id a) (cached w) /\
    w_wg w1 = w_wg w - (if decide (is_Some (cached w !! at_Id a)) then 1 else 0) /\ minv w1 /\
    LeavingMember l w1 = Ret (tt, w1 <| w_trace := (intercept_notice a1 ++ w_trace w1) |>
                                     <| w_membersCache := c |>) /\
    oc_view c = cached w1 /\ oc_ok c.
Proof.
  intros Hw Ha Hq Hg.
  destruct (LeavingMember_eq w l a q Hw Ha Hq Hg) as (a1 & w1 & E1 & L1 & Er & Es).
  destruct L1 as [Hw1 Hc1 Hg1 Ha1 Hag1 Hs1 _].
  assert (w_attempts w1 !! l = Some a1) as Ha1' by (by rewrite Ha1, lookup_insert_eq).
  destruct (LeavingMember_again w1 l a1) as (c & E2 & Hc & Hok); [done..| | |].
  { rewrite Er. unfold final_result, cmp_or. by destruct (decide (Result a = "")). }
  { by rewrite Hc1, (sa_id _ _ Hs1), lookup_delete_eq. }
  exists w1, a1, c. by split_and!.
Qed.

End Leaving.
