(* ===== verification/MembersCache.v ===== *)
(** * The LRU cache implements the cache interface of the managers

    [World] states what the managers rely on of utils.ObjectCache; here the laws are
    discharged by the LRU cache with keys int, created without expiry and with a positive
    size, as the members cache is. The last part sets up a concrete world (this cache,
    services with fixed answers) on which the theorems about the managers are
    instantiated. *)

From S2P Require Import Lru.
From S2P Require Import Prelude Model Queue Attempt Resource World Frame.
Import Lru.Spec Lru.LruFacts.

Definition LruCache (V : Type) : Type := Lru.Cache Z V.

#[export] Instance lru_object_cache : ObjectCache LruCache := {
  oc_get := fun V now k c => Lru.Lru.Get now k c;
  oc_add := fun V now k v c => Lru.Lru.AddWithDefaultExpires now k v c;
  oc_remove := fun V k c => Lru.Lru.Remove k c;
  oc_keys := fun V c => Lru.Lru.Keys c;
  oc_len := fun V c => Lru.Lru.Len c;
}.

Section View.
Context {V : Type}.

Abbreviation bindings := (list (Z * (V * Z))).

Definition view_of (l : bindings) : gmap Z V := list_to_map ((fun b => (b.1, b.2.1)) <$> l).

Lemma view_of_lookup (l : bindings) k : view_of l !! k = fst <$> find k l.
Proof.
  unfold view_of. induction l as [|[k' [v e]] l IH]; simpl; [apply lookup_empty|].
  destruct (decide (k' = k)) as [->|Hne].
  - by rewrite lookup_insert_eq.
  - by rewrite lookup_insert_ne.
Qed.

Lemma view_of_remove (l : bindings) k : view_of (remove k l) = delete k (view_of l).
Proof.
  apply map_eq. intros k'. rewrite view_of_lookup. destruct (decide (k = k')) as [<-|Hne].
  - by rewrite find_remove_eq, lookup_delete_eq.
  - by rewrite find_remove_ne, lookup_delete_ne, view_of_lookup.
Qed.

Lemma view_of_cons (l : bindings) k v e : view_of ((k, (v, e)) :: l) = <[k := v]> (view_of l).
Proof. done. Qed.

(** A cache that never expires its entries. *)
Record forever (c : Lru.Cache Z V) : Prop := Forever {
  fv_wf : wf c;
  fv_size : 0 < Lru.size c;
  fv_default : Lru.defaultExpiry c <= 0;
  fv_entries : Forall (fun b : Z * (V * Z) => b.2.2 <= 0) (live c);
}.

Lemma find_forever (l : bindings) k v e :
  Forall (fun b : Z * (V * Z) => b.2.2 <= 0) l -> find k l = Some (v, e) -> e <= 0.
Proof.
  induction 1 as [|[k' [v' e']] l Hb Hl IH]; simpl; [done|]. case_decide; [|done].
  intros. by simplify_eq.
Qed.

Lemma remove_forever (l : bindings) k :
  Forall (fun b : Z * (V * Z) => b.2.2 <= 0) l ->
  Forall (fun b : Z * (V * Z) => b.2.2 <= 0) (remove k l).
Proof. rewrite !Forall_forall. intros H x [_ Hx]%list_elem_of_filter. auto. Qed.

Lemma live_keys_NoDup (c : Lru.Cache Z V) : wf c -> NoDup (live c).*1.
Proof.
  intros [W _]. unfold live. rewrite <- list_fmap_compose.
  assert (NoDup (live_elems c).*1) as ND by apply NoDup_fmap_filter, (wf_ids _ W).
  assert (forall el, el ∈ live_elems c -> el ∈ Lru.evictList c) as Hin.
  { intros el Hel. apply elem_of_live_elems in Hel. tauto. }
  revert ND Hin. generalize (live_elems c) as l. intros l.
  induction l as [|[i e] l IH]; intros ND Hin; [apply NoDup_nil_2|].
  cbn [fmap list_fmap] in *. apply NoDup_cons in ND as [Hi ND].
  apply NoDup_cons. split.
  - intros ([i' e'] & Ek & Hel)%list_elem_of_fmap. simpl in Ek.
    assert (i = i') as <-.
    { apply (key_inj c i e i' e'); [done|apply Hin; left|apply Hin; by right|done]. }
    apply Hi. apply (list_elem_of_fmap_2 fst _ _ Hel).
  - apply IH; [done|]. intros el Hel. apply Hin. by right.
Qed.

End View.

(** ** The laws *)

Section Laws.
Context {V : Type}.
Implicit Types c : Lru.Cache Z V.

Definition lru_view c : gmap Z V := view_of (live c).

Lemma forever_params now o c c' :
  (step now o c).2 = c' -> Lru.size c' = Lru.size c /\ Lru.defaultExpiry c' = Lru.defaultExpiry c.
Proof. intros <-. apply step_params. Qed.

Lemma lru_get_law now k c :
  forever c ->
  (Lru.Lru.Get now k c).1 = lru_view c !! k /\ forever (Lru.Lru.Get now k c).2 /\
  lru_view (Lru.Lru.Get now k c).2 = lru_view c.
Proof.
  intros [W Hs Hd He]. destruct (Get_spec now k c W) as [W' E].
  destruct (forever_params now (GetOp k) c _ eq_refl) as [Ps Pd]. simpl in Ps, Pd.
  destruct (Lru.Lru.Get now k c) as [r c']. simpl in *.
  unfold lru_view, get in *. rewrite view_of_lookup.
  destruct (find k (live c)) as [[v e]|] eqn:Ef.
  - pose proof (find_forever _ _ _ _ He Ef) as Hexp.
    rewrite decide_False in E by (unfold expired; lia). injection E as -> El.
    split; [done|]. rewrite El. split.
    + split; try done; [lia..|]. rewrite El. constructor; [done|]. by apply remove_forever.
    + rewrite view_of_cons, view_of_remove, insert_delete_eq, insert_id; [done|].
      by rewrite view_of_lookup, Ef.
  - injection E as -> El. rewrite El. split; [done|]. split; [|done]. split; try done; [lia..|].
    by rewrite El.
Qed.

Lemma lru_add_law now k v c :
  forever c ->
  let c' := Lru.Lru.AddWithDefaultExpires now k v c in
  forever c' /\ lru_view c' !! k = Some v /\ lru_view c' ⊆ <[k := v]> (lru_view c).
Proof.
  intros [W Hs Hd He] c'. unfold Lru.Lru.AddWithDefaultExpires in c'.
  destruct (Add_spec now k v (Lru.defaultExpiry c) c W) as [W' E]. fold c' in W', E.
  destruct (forever_params now (AddDefaultOp k v) c c' eq_refl) as [Ps Pd].
  assert (exists n, cap c = S n) as [n Hn].
  { unfold cap. exists (Z.to_nat (Lru.size c - 1)). lia. }
  assert (deadline now (Lru.defaultExpiry c) <= 0) as Hdl.
  { unfold deadline. destruct (0 <? _) eqn:El; lia. }
  unfold add in E. rewrite Hn in E. simpl in E. split_and!.
  - split; try done; [lia..|]. rewrite E. constructor; [done|].
    apply Forall_take. by apply remove_forever.
  - unfold lru_view. rewrite E, view_of_cons. apply lookup_insert_eq.
  - unfold lru_view. rewrite E, view_of_cons. apply insert_mono.
    apply map_subseteq_spec. intros k' v' Hk. rewrite view_of_lookup in Hk.
    destruct (find k' (take n _)) as [ve|] eqn:Ef; simplify_eq/=.
    apply find_take in Ef. destruct (decide (k = k')) as [<-|Hne].
    + by rewrite find_remove_eq in Ef.
    + rewrite find_remove_ne in Ef by done. by rewrite view_of_lookup, Ef.
Qed.

Lemma lru_remove_law k c :
  forever c ->
  forever (Lru.Lru.Remove k c) /\ lru_view (Lru.Lru.Remove k c) = delete k (lru_view c).
Proof.
  intros [W Hs Hd He]. destruct (Remove_spec k c W) as [W' E].
  destruct (forever_params 0 (RemoveOp k) c _ eq_refl) as [Ps Pd]. simpl in Ps, Pd.
  split.
  - split; try done; [lia..|]. rewrite E. by apply remove_forever.
  - unfold lru_view. by rewrite E, view_of_remove.
Qed.

Lemma lru_keys_law c :
  forever c ->
  exists ks, Lru.Lru.Keys c = Ret ks /\ (forall k, Some k ∈ ks <-> is_Some (lru_view c !! k)).
Proof.
  intros [W _ _ _]. eexists. split; [apply Keys_spec, W|]. intros k.
  rewrite list_elem_of_fmap. unfold lru_view, view_of.
  rewrite <- elem_of_dom, dom_list_to_map_L, elem_of_list_to_set, <- list_fmap_compose.
  split.
  - intros (k' & ? & Hk). simplify_eq. by rewrite elem_of_reverse in Hk.
  - intros Hk. exists k. split; [done|]. by rewrite elem_of_reverse.
Qed.

Lemma lru_len_law c : forever c -> Lru.Lru.Len c = Z.of_nat (base.size (lru_view c)).
Proof.
  intros [W _ _ _]. unfold Lru.Lru.Len. rewrite (wf_len _ (wf_wf_core _ W)).
  unfold lru_view, view_of. rewrite map_size_list_to_map.
  - unfold live. by rewrite !length_fmap.
  - rewrite <- list_fmap_compose. by apply live_keys_NoDup.
Qed.

End Laws.

#[export] Instance lru_laws : ObjectCacheLaws LruCache := {
  oc_ok := fun V c => forever c;
  oc_view := fun V c => lru_view c;
  oc_get_law := fun V now k c => lru_get_law now k c;
  oc_add_law := fun V now k v c => lru_add_law now k v c;
  oc_remove_law := fun V k c => lru_remove_law k c;
  oc_keys_law := fun V c => lru_keys_law c;
  oc_len_law := fun V c => lru_len_law c;
}.

(** ** A concrete world *)

Lemma new_forever {V} sz nm inv : 0 < sz -> forever (Lru.Lru.NewLruWithParams sz nm 0 inv : Lru.Cache Z V).
Proof. intros Hs. split; [apply NewLruWithParams_wf|done|done|constructor]. Qed.

Definition maxMemberCache : Z := 50000.

(** NewQueueManager and the managers it is built on: nothing cached, nothing counted. The
    caches that expire their entries have their expiry in seconds. *)
Definition NewQueueManager : World LruCache := {|
  w_attempts := ∅; w_agents := ∅; w_tasks := ∅; w_resources := ∅; w_next := 0%nat;
  w_membersCache := Lru.Lru.NewLruWithParams maxMemberCache "Members" 0 "";
  w_queuesCache := Lru.Lru.NewLruWithParams 10000 "QueueManager" 0 "";
  w_teamCache := Lru.Lru.NewLruWithParams 10000 "team" 86400 "";
  w_resourcesCache := Lru.Lru.NewLruWithParams 10000 "ResourceManager" 86400 "";
  w_agentsCache := Lru.Lru.NewLruWithParams 10000 "Agents" 300 "";
  w_wg := 0; w_attemptCount := 0; w_trace := [] |}.

Lemma NewQueueManager_minv : minv NewQueueManager.
Proof.
  split; simpl.
  - by apply new_forever.
  - done.
  - intros l [a Ha]. by rewrite lookup_empty in Ha.
  - done.
Qed.

Definition demo_agent : Agent := {|
  ag_status := MkAgentStatus AgentStatusOnline None None None; ag_Id := 3; ag_DomainId := 1;
  ag_UserId := Some 30; ag_Name := "agent"; ag_UpdatedAt := 5; ag_Destination := Some "user/30";
  ag_Extension := Some "1030"; ag_TeamId := 2; ag_TeamUpdatedAt := 9; ag_OnDemand := false;
  ag_GreetingMedia := None; ag_Variables := None; ag_HasPush := false; ag_ChatName := "" |}.

Definition demo_team : Team := {|
  tm_Id := 2; tm_DomainId := 1; tm_Name := "team"; tm_Strategy := ""; tm_Description := None;
  tm_UpdatedAt := 9; tm_CallTimeout := 30; tm_InviteChatTimeout := 30; tm_TaskAcceptTimeout := 30;
  tm_MaxNoAnswer := 3; tm_WrapUpTime := 90; tm_NoAnswerDelayTime := 10; tm_Hooks := [] |}.

Definition demo_settings : Queue := {|
  q_Id := 5; q_DomainId := 1; q_DomainName := "d"; q_Type := QueueTypeOutboundTask; q_Name := "tasks";
  q_Strategy := ""; q_Payload := ""; q_UpdatedAt := 4; q_Variables := Some ∅; q_TeamId := None;
  q_RingtoneId := None; q_RingtoneType := None; q_SchemaId := None; q_DoSchemaId := None;
  q_AfterSchemaId := None; q_Processing := false; q_ProcessingSec := 30; q_ProcessingRenewalSec := 15;
  q_ProcessingAutosave := false; q_Endless := false; q_Hooks := []; q_GranteeId := None;
  q_HoldMusic := None; q_FormSchemaId := None; q_AmdPlaybackFile := None;
  q_IsProlongationEnabled := false; q_ProlongationRepeats := 0; q_ProlongationSec := 0;
  q_IsProlongationTimeoutRetry := false |}.

Definition demo_error : AppError := NewAppError "demo" "demo" "not there" 404.

Definition demo_communication : MemberCommunication :=
  MkMemberCommunication "100" (MkCommunication 1 "phone" None) 0 None "" 0 None None.

Definition demo_thread : IMThreadCommunication :=
  MkIMThreadCommunication "300" (MkIMThreadInfo "t" "" [] "" None) "bot" "300" "m" "" 0 0.

(** A call that waits in the queue, as attempt 2. *)
Definition demo_inbound : InboundCallQueue :=
  MkInboundCallQueue 2 5 4 "100" None "caller" None
    (MkInboundCallData "call" "active" "inbound" "100" 1000 "node" None None 1000 0 1000 None).

(** Services that succeed where the theorems need it and have nothing to offer elsewhere;
    [q] is the answer to GetQueueById, [err] answers the calls that return only an error. *)
Definition demo_services_err (q : result Queue) (err : trace -> option AppError) : Services := {|
  svc_now := fun t => 1700000000000000000;
  svc_node := "node";
  svc_ready := fun _ => true;
  svc_waitChannelClose := false;
  svc_rand := fun _ _ => 0;
  svc_error := err;
  svc_timestamp := fun _ => inr 1000;
  svc_leaving := fun _ => inr (MkAttemptLeaving 1000 None None);
  svc_missed := fun _ => inr (MkMissedAgent 1000 (Some 3) None);
  svc_reporting := fun _ => inr (MkAttemptReportingResult 1000 (Some "call") None None (Some 30)
                                   (Some 1) None (Some 2000) None None);
  svc_renewal := fun _ => inl demo_error;
  svc_ids := fun _ => inr [];
  svc_flip := fun _ => inl demo_error;
  svc_members := fun _ => inr [];
  svc_member := fun _ => inl demo_error;
  svc_timeouts := fun _ => inr [];
  svc_channelTimeouts := fun _ => inr [];
  svc_reserved := fun _ => inr [];
  svc_inboundCall := fun _ => inr demo_inbound;
  svc_callAgent := fun _ => inl demo_error;
  svc_inboundChat := fun _ => inl demo_error;
  svc_inboundIM := fun _ => inl demo_error;
  svc_taskAgent := fun _ => inl demo_error;
  svc_agent := fun _ => inr demo_agent;
  svc_agentOnline := fun _ => inr (MkAgentOnlineData 1000 [] None);
  svc_agentOnlineAtomic := fun _ => inl demo_error;
  svc_withoutActive := fun _ => inr [];
  svc_noAnswer := fun _ => None;
  svc_allowed := fun _ => inr true;
  svc_queue := fun _ => q;
  svc_team := fun _ => inr demo_team;
  svc_resource := fun _ => inl demo_error;
  svc_gateway := fun _ => inl demo_error;
  svc_flow_start := fun _ => inr "job";
  svc_resultAttempt := fun _ => inl "none";
  svc_distributeAttempt := fun _ => inl "none";
  svc_newProcessing := fun _ => inl "none";
  svc_form := fun _ _ => "";
  svc_formFields := fun _ _ => ∅;
  svc_callExists := fun _ _ => false;
  svc_chatExists := fun _ _ => Some demo_error;
  svc_channelStats := fun _ _ => ∅;
  svc_channelAnswered := fun _ _ => false;
  svc_bridgedSession := fun _ _ => None;
  MemberDestinationFromBytes := fun _ => demo_communication;
  decode_im := fun _ => (demo_thread, None);
  encode_im := fun _ => "";
  decode_form := fun _ => None;
|}.

Definition demo_services (q : result Queue) : Services := demo_services_err q (fun _ => None).

Definition demo_decoders : Decoders := {|
  OfflineSettingsFromBytes := fun _ => MkOfflineQueueSettings false false false 0 0 0 false "";
  QueueInboundSettingsFromBytes := fun _ => MkQueueInboundSettings 0 "" 0 0 false 0 false 0 None false;
  IVRSettingsFromBytes := fun _ => MkQueueIVRSettings false false false None 0 0 0 0 false false;
  PreviewSettingsFromBytes := fun _ => MkPreviewSettings false false false 0 0 0 false false false "" false;
  ProgressiveSettingsFromBytes := fun _ =>
    MkProgressiveCallQueueSettings false false false 0 false 0 false 0 false None None "";
  PredictCallQueueSettingsFromBytes := fun _ =>
    MkPredictCallQueueSettings false false false 0 0 false 0 false 0 false false None false 0 0 0 0 None "";
  InboundChatQueueFromBytes := fun _ => MkInboundChatQueueSettings 0 0 0 0 false false;
  InboundIMQueueFromBytes := fun _ => MkInboundIMQueueSettings 0 0 0 0 false false;
  TaskInboundSettingsFromBytes := fun _ => MkTaskInboundQueueSettings 0 false 0 false;
  TaskOutboundQueueSettingsFromBytes := fun _ => MkTaskOutboundQueueSettings 10 3 60 false;
|}.
