(* ===== verification/Lifecycle.v ===== *)
(** * The life of an attempt: from distribution to leaving

    What distributing, reporting, timing out and shutting down do to the members cache and
    to the wait group. [gone] is the effect of leaving; the functions that may call
    LeavingMember are described by whether they have it. A result is described for every
    run that returns; the panics of a nil queue or agent and the blocking of a task
    channel are real behaviours of the source, and where the code cannot run into them
    it is proved to return. *)

From S2P Require Import Prelude Model Queue Attempt TaskChannel Resource World Agents.
From S2P Require Import Events Schema Manager Team Distribute Messages Dialing Frame Invariant.

Section Lifecycle.
Context {OC : Type -> Type} {HOC : ObjectCache OC} {OCL : ObjectCacheLaws OC} {SV : Services} {DE : Decoders}.

Abbreviation W := (World OC).

(** ** What leaving does *)

(** The attempt with this id was counted out, if it was cached; nothing else left. *)
Record gone (id : Z) (w w' : W) : Prop := Gone {
  go_inv : minv w';
  go_cached : cached w' = delete id (cached w);
  go_wg : w_wg w' = w_wg w - (if decide (is_Some (cached w !! id)) then 1 else 0);
  go_ids : forall l a, w_attempts w !! l = Some a ->
    exists a', w_attempts w' !! l = Some a' /\ at_Id a' = at_Id a;
  go_log : w_trace w `suffix_of` w_trace w';
}.

Lemma frame_ids (w w' : W) l a :
  frame w w' -> w_attempts w !! l = Some a ->
  exists a', w_attempts w' !! l = Some a' /\ at_Id a' = at_Id a.
Proof.
  intros F Ha. pose proof (fr_attempts _ _ F l) as H. rewrite Ha in H.
  destruct (w_attempts w' !! l); [by eexists|done].
Qed.

Lemma frame_cached (w w' : W) : minv w -> frame w w' -> cached w' = cached w.
Proof. intros Hw F. by apply (fr_members _ _ F), mi_ok. Qed.

Lemma gone_frame_l id (w w1 w2 : W) : minv w -> frame w w1 -> gone id w1 w2 -> gone id w w2.
Proof.
  intros Hw F [Hi Hc Hg Ha Hlog]. pose proof (frame_cached _ _ Hw F) as E. split; try done.
  - by rewrite Hc, E.
  - by rewrite Hg, E, (fr_wg _ _ F).
  - intros l a Hl. destruct (frame_ids _ _ _ _ F Hl) as (a1 & H1 & E1).
    destruct (Ha l a1 H1) as (a2 & ? & ?). exists a2. split; congruence.
  - etrans; [apply F|done].
Qed.

Lemma gone_frame_r id (w w1 w2 : W) : gone id w w1 -> frame w1 w2 -> gone id w w2.
Proof.
  intros [Hi Hc Hg Ha Hlog] F. split.
  - by eapply frame_minv.
  - by rewrite (frame_cached _ _ Hi F).
  - by rewrite (fr_wg _ _ F).
  - intros l a Hl. destruct (Ha l a Hl) as (a1 & H1 & E1).
    destruct (frame_ids _ _ _ _ F H1) as (a2 & ? & ?). exists a2. split; congruence.
  - etrans; [done|apply F].
Qed.

Lemma gone_trans id (w w1 w2 : W) : gone id w w1 -> gone id w1 w2 -> gone id w w2.
Proof.
  intros [Hi Hc Hg Ha Hlog] [Hi' Hc' Hg' Ha' Hlog']. split; try done.
  - by rewrite Hc', Hc, delete_delete_eq.
  - rewrite Hg', Hg, Hc, lookup_delete_eq, (decide_False (P := is_Some None)); [lia|by intros [? ?]].
  - intros l a Hl. destruct (Ha l a Hl) as (a1 & H1 & E1).
    destruct (Ha' l a1 H1) as (a2 & ? & ?). exists a2. split; congruence.
  - by etrans.
Qed.

(** Running the first part of a sequence. *)
Lemma bind_ret {A B} (m : M OC A) (f : A -> M OC B) (w w' : W) b :
  (m ≫= f) w = Ret (b, w') -> exists a w1, m w = Ret (a, w1) /\ f a w1 = Ret (b, w').
Proof. unfold mbind, M_bind. destruct (m w) as [[a w1]| |]; [|done..]. by exists a, w1. Qed.

Lemma bind_framed {A B} (m : M OC A) (f : A -> M OC B) (w w' : W) b :
  framed m -> (m ≫= f) w = Ret (b, w') ->
  exists a w1, m w = Ret (a, w1) /\ frame w w1 /\ f a w1 = Ret (b, w').
Proof.
  intros Hm (a & w1 & E & Ef)%bind_ret. exists a, w1. split_and!; try done.
  specialize (Hm w). by rewrite E in Hm.
Qed.

Lemma ret_ret {A} (a b : A) (w w' : W) : mret (M := M OC) a w = Ret (b, w') -> b = a /\ w' = w.
Proof. intros H. by injection H as <- <-. Qed.

Lemma get_attempt_ret l (w w' : W) a :
  get_attempt l w = Ret (a, w') -> w' = w /\ w_attempts w !! l = Some a.
Proof. unfold get_attempt. destruct (_ !! l); [|done]. intros. by simplify_eq. Qed.

Lemma LeavingMember_gone l (w w' : W) u :
  minv w -> LeavingMember l w = Ret (u, w') ->
  exists a, w_attempts w !! l = Some a /\ gone (at_Id a) w w'.
Proof.
  intros Hw. unfold LeavingMember.
  intros (a & w0 & [-> Ha]%get_attempt_ret & H)%bind_ret. exists a. split; [done|].
  apply bind_framed in H as (? & w1 & _ & F1 & H); [|framed_op].
  apply bind_framed in H as (? & w2 & _ & F2 & H); [|framed_op].
  assert (frame w w2) as F by by etrans.
  assert (minv w2) as Hw2 by by eapply frame_minv.
  destruct (members_get_eq (at_Id a) w2 (mi_ok _ Hw2)) as (w3 & Eg & F3).
  unfold mbind at 1, M_bind at 1 in H. rewrite Eg in H.
  assert (minv w3) as Hw3 by by eapply frame_minv.
  apply (gone_frame_l _ w w3); [done|by etrans|].
  rewrite <- (frame_cached _ _ Hw2 F3) in H.
  destruct (cached w3 !! at_Id a) as [l'|] eqn:El.
  - unfold leave_cached in H.
    apply bind_framed in H as (? & w4 & _ & F4 & H); [|framed_op].
    apply bind_framed in H as (? & w5 & _ & F5 & H); [|framed_op].
    apply bind_framed in H as (? & w6 & _ & F6 & H); [|framed_op].
    assert (frame w3 w6) as F36 by (by do 2 (etrans; [done|])).
    assert (minv w6) as Hw6 by by eapply frame_minv.
    apply (gone_frame_l _ w3 w6); [done..|].
    destruct (leave_tail w6 (at_Id a) l') as (w7 & E7 & Hw7 & Hc & Hg & Ha7 & _ & Hl7);
      [done|by rewrite (frame_cached _ _ Hw3 F36)|].
    unfold mbind, M_bind in H, E7. rewrite E7 in H. simplify_eq. split; try done.
    + rewrite decide_True; [done|]. rewrite (frame_cached _ _ Hw3 F36), El. by eexists.
    + intros l0 a0 H0. exists a0. by rewrite Ha7.
    + by rewrite Hl7.
  - apply ret_ret in H as [-> ->]. split; try done.
    + by rewrite delete_id.
    + rewrite decide_False; [lia|]. rewrite El. by intros [? ?].
    + intros l0 a0 H0. by exists a0.
Qed.

(** ** Distribution *)

(** Leaving after steps that do not matter. *)
Lemma gone_after (w w1 w2 : W) l a :
  minv w -> frame w w1 -> w_attempts w !! l = Some a ->
  (minv w1 -> exists a', w_attempts w1 !! l = Some a' /\ gone (at_Id a') w1 w2) -> gone (at_Id a) w w2.
Proof.
  intros Hw F Ha H. destruct H as (a' & Ha' & G); [by eapply frame_minv|].
  destruct (frame_ids _ _ _ _ F Ha) as (a2 & H2 & E2). simplify_eq.
  rewrite <- E2. by eapply gone_frame_l.
Qed.

Lemma Abandoned_gone l (w w' : W) u :
  minv w -> Abandoned l w = Ret (u, w') ->
  exists a, w_attempts w !! l = Some a /\ gone (at_Id a) w w'.
Proof.
  intros Hw. unfold Abandoned. intros (a & w0 & [-> Ha]%get_attempt_ret & H)%bind_ret.
  apply bind_framed in H as (? & w1 & _ & F1 & H); [|framed_op].
  apply bind_framed in H as (? & w2 & _ & F2 & H); [|framed_op].
  apply bind_framed in H as (? & w3 & _ & F3 & H); [|framed_op].
  apply bind_framed in H as (? & w4 & _ & F4 & H); [|framed_op].
  assert (frame w w4) as F by (by do 3 (etrans; [done|])).
  exists a. split; [done|]. eapply gone_after; eauto using LeavingMember_gone.
Qed.

Lemma drop_attempt_gone l (w w' : W) u :
  minv w -> drop_attempt l w = Ret (u, w') ->
  exists a, w_attempts w !! l = Some a /\ gone (at_Id a) w w'.
Proof.
  intros Hw. unfold drop_attempt. intros (? & w1 & H1 & H)%bind_ret.
  apply Abandoned_gone in H1 as (a & Ha & G1); [|done].
  apply LeavingMember_gone in H as (a' & Ha' & G2); [|by apply (go_inv _ _ _ G1)].
  destruct (go_ids _ _ _ G1 _ _ Ha) as (a2 & H2 & E2). simplify_eq.
  exists a. split; [done|]. rewrite E2 in G2. by eapply gone_trans.
Qed.

(** A distribution that succeeds ends by starting the goroutine of the queue. *)
Definition starts (e : Effect) (m : M OC (option AppError)) : Prop := forall w w',
  m w = Ret (None, w') -> exists t, w_trace w' = e :: t.

Lemma starts_bind {A} e (m : M OC A) (f : A -> M OC (option AppError)) :
  (forall a, starts e (f a)) -> starts e (m ≫= f).
Proof. intros Hf w w' (a & w1 & _ & H)%bind_ret. by eapply Hf. Qed.

Lemma starts_error e (err : AppError) : starts e (mret (Some err)).
Proof. intros w w' H. by apply ret_ret in H as [? ?]. Qed.

Lemma starts_panic e s : starts e (panic s).
Proof. by intros w w' H. Qed.

Lemma starts_require {A} e (o : option A) err k : starts e k -> starts e (require o err k).
Proof. intros Hk. destruct o; [done|apply starts_error]. Qed.

Lemma starts_with_team e l k : starts e k -> starts e (with_team l k).
Proof. intros Hk. apply starts_bind. intros [?|?]; [apply starts_error|done]. Qed.

Lemma starts_with_member_call e a k :
  (forall c, starts e (k c)) -> starts e (with_member_call a k).
Proof.
  intros Hk. unfold with_member_call. destruct (ma_MemberCallId _); [|apply starts_panic].
  apply starts_bind. intros []; [apply Hk|apply starts_error].
Qed.

Lemma starts_go_run q l : starts (EGo (JobRun (bq_id (qo_base q)) l)) (go_run q l).
Proof. intros w w' H. unfold go_run in H. injection H as <-. by eexists. Qed.

Lemma queue_DistributeAttempt_starts q l :
  starts (EGo (JobRun (bq_id (qo_base q)) l)) (queue_DistributeAttempt q l).
Proof.
  unfold queue_DistributeAttempt. destruct (qo_kind q);
  repeat first
    [ apply starts_go_run | apply starts_require | apply starts_with_team
    | apply starts_with_member_call; intros ? | apply starts_panic
    | apply starts_bind; intros ? | case_match ].
Qed.

(** C4. Distributing an attempt that returns does one of three things: it starts the
    goroutine of the queue and leaves the attempt cached and counted; it takes the attempt
    out, exactly once (a barred number, or a queue that refused it); or the queue could
    not be loaded, and then the attempt stays cached and counted with no goroutine that
    could take it out. *)
Theorem distribute_outcome (w w' : W) (l : loc) (a : Attempt) (r : result (option QueueObject)) :
  minv w -> w_attempts w !! l = Some a -> DistributeAttempt l w = Ret (r, w') ->
  match r with
  | inr (Some q) => frame w w' /\ IsBarred a = false /\
      exists t, w_trace w' = EGo (JobRun (bq_id (qo_base q)) l) :: t
  | inr None => gone (at_Id a) w w' /\ IsBarred a = true
  | inl e => gone (at_Id a) w w' \/
      frame w w' /\ GetQueue (at_QueueId a) (ma_QueueUpdatedAt (at_member a)) w = Ret (inl e, w')
  end.
Proof.
  intros Hw Ha H. unfold DistributeAttempt in H.
  apply bind_ret in H as (a0 & w0 & [-> Ha0]%get_attempt_ret & H). simplify_eq.
  apply bind_framed in H as (g & w1 & Eg & F1 & H); [|framed_op].
  destruct g as [e|q]; [apply ret_ret in H as [-> ->]; by right|].
  apply bind_framed in H as (? & w2 & _ & F2 & H); [|framed_op].
  assert (frame w w2) as F by by etrans.
  destruct (IsBarred a) eqn:Eb.
  - apply bind_framed in H as (? & w3 & _ & F3 & H); [|framed_op].
    apply bind_ret in H as (? & w4 & H4 & [-> ->]%ret_ret).
    assert (frame w w3) as F' by by etrans.
    split; [|done]. eapply gone_after; eauto using LeavingMember_gone.
  - apply bind_framed in H as (? & w3 & _ & F3 & H); [|framed_op].
    apply bind_framed in H as (? & w4 & _ & F4 & H); [|framed_op].
    apply bind_framed in H as (err & w5 & E5 & F5 & H); [|framed_op].
    assert (frame w w5) as F' by (by do 3 (etrans; [done|])).
    destruct err as [e|].
    + apply bind_ret in H as (? & w6 & H6 & [-> ->]%ret_ret).
      left. eapply gone_after; eauto using drop_attempt_gone.
    + apply ret_ret in H as [-> ->]. split_and!; try done.
      by eapply queue_DistributeAttempt_starts.
Qed.

(** ** Reporting *)

Lemma doLeavingReporting_gone id l res cb (w w' : W) a err :
  minv w -> w_attempts w !! l = Some a ->
  doLeavingReporting id (Some l) res cb w = Ret (err, w') -> gone (at_Id a) w w'.
Proof.
  intros Hw Ha H. unfold doLeavingReporting in H.
  apply bind_framed in H as (? & w1 & _ & F1 & H); [|framed_op].
  apply bind_framed in H as (? & w2 & _ & F2 & H); [|framed_op].
  apply bind_framed in H as (? & w3 & _ & F3 & H); [|framed_op].
  apply bind_framed in H as (? & w4 & _ & F4 & H); [|framed_op].
  apply bind_framed in H as (? & w5 & _ & F5 & H); [|framed_op].
  apply bind_framed in H as (? & w6 & _ & F6 & H); [|framed_op].
  apply bind_framed in H as (? & w7 & _ & F7 & H); [|framed_op].
  apply bind_ret in H as (? & w8 & H & [-> ->]%ret_ret).
  eapply (gone_after w w7); eauto using LeavingMember_gone. by do 6 (etrans; [done|]).
Qed.

Lemma cmp_or_nonempty a b : b <> "" -> cmp_or a b <> "".
Proof. unfold cmp_or. by case_decide. Qed.

(** The callback that reaches the store has a status. *)
Lemma processAttemptCallback_status o cb sys (w w' : W) cb' :
  cb_Status cb <> "" -> processAttemptCallback o cb sys w = Ret (inr cb', w') -> cb_Status cb' <> "".
Proof.
  intros Hs H. unfold processAttemptCallback in H. destruct o as [l|];
    [|by apply ret_ret in H as [[= ->] ->]].
  apply bind_ret in H as (? & w1 & _ & H). apply bind_ret in H as (stop & w2 & _ & H).
  destruct stop; [by apply ret_ret in H as [? ?]|].
  apply bind_ret in H as (r & w3 & H & [[= ->] ->]%ret_ret). unfold ApplyCallbackRules in H.
  apply bind_ret in H as (? & w4 & _ & H). apply bind_ret in H as (s & w5 & _ & H).
  destruct s as [s|]; [|by apply ret_ret in H as [-> ->]].
  apply bind_ret in H as (? & w6 & _ & [-> ->]%ret_ret).
  destruct (sr_Variables s); simpl; by apply cmp_or_nonempty.
Qed.

(** The channel is asked only when the manager waits for it to close. *)
Lemma processAttemptCallback_refuses o cb sys (w w' : W) e :
  processAttemptCallback o cb sys w = Ret (inl e, w') -> svc_waitChannelClose && negb sys = true.
Proof.
  unfold processAttemptCallback. destruct o as [l|]; [|by intros [? ?]%ret_ret].
  destruct (svc_waitChannelClose && negb sys); [done|].
  intros (? & w1 & _ & H)%bind_ret. apply bind_ret in H as (? & w2 & [-> ->]%ret_ret & H).
  by apply bind_ret in H as (? & w3 & _ & [? ?]%ret_ret).
Qed.

Lemma ReportingAttempt_cases (w w' : W) id l cb system err :
  minv w -> cached w !! id = Some l -> ReportingAttempt id cb system false w = Ret (err, w') ->
  frame w w' /\ err <> None /\ svc_waitChannelClose && negb system = true \/
  exists w0 w1 cb' cfg, frame w w0 /\ frame w0 w1 /\ cb_Status cb' <> "" /\
    w_trace w1 = CallbackReporting id cb' (rc_MaxAttempts cfg) (rc_WaitBetween cfg) (rc_PerNumbers cfg)
                   :: w_trace w0 /\
    match svc_reporting (w_trace w1) with
    | inl e => err = Some e /\ w' = w1
    | inr _ => gone id w1 w'
    end.
Proof.
  intros Hw Hc H. unfold ReportingAttempt in H.
  destruct (members_get_eq id w (mi_ok _ Hw)) as (w1 & Eg & F1).
  unfold GetAttempt in H. unfold mbind at 1, M_bind at 1 in H. rewrite Eg, Hc in H.
  assert (minv w1) as Hw1 by by eapply frame_minv.
  apply bind_framed in H as (? & w2 & _ & F2 & H); [|framed_op].
  apply bind_framed in H as (r & w3 & E3 & F3 & H); [|framed_op].
  assert (frame w w3) as F by (by do 2 (etrans; [done|])).
  destruct r as [e|cb'].
  { apply ret_ret in H as [-> ->]. left. split_and!; [done..|]. by eapply processAttemptCallback_refuses. }
  right.
  apply processAttemptCallback_status in E3; [|by apply cmp_or_nonempty].
  apply bind_framed in H as (cfg & w4 & _ & F4 & H); [|framed_op].
  apply bind_framed in H as (r & w5 & E5 & F5 & H); [|framed_op].
  injection E5 as Er E5. exists w4, w5, cb', cfg.
  assert (svc_reporting (w_trace w5) = r) as Er5 by (by rewrite <- E5).
  split; [by etrans|]. split; [done|]. split; [done|]. split; [by rewrite <- E5|].
  rewrite Er5. destruct r as [e|res]; [by apply ret_ret in H as [-> ->]|].
  assert (frame w w5) as F05 by (by do 2 (etrans; [done|])).
  apply bind_framed in H as (? & w6 & _ & F6 & H); [|framed_op].
  destruct (mi_own _ Hw id l Hc) as (a & Ha & <-).
  destruct (frame_ids _ _ _ _ F05 Ha) as (a5 & Ha5 & <-).
  destruct (frame_ids _ _ _ _ F6 Ha5) as (a6 & Ha6 & Ei6).
  assert (minv w5) as Hw5 by by eapply frame_minv.
  apply (gone_frame_l _ w5 w6); [done..|]. rewrite <- Ei6.
  eapply doLeavingReporting_gone; eauto using frame_minv.
Qed.

(** Without an attempt the report is only passed to the store. *)
Lemma ReportingAttempt_absent (w w' : W) id cb system err :
  minv w -> cached w !! id = None -> ReportingAttempt id cb system false w = Ret (err, w') -> frame w w'.
Proof.
  intros Hw Hc H. unfold ReportingAttempt in H.
  destruct (members_get_eq id w (mi_ok _ Hw)) as (w1 & Eg & F1).
  unfold GetAttempt in H. unfold mbind at 1, M_bind at 1 in H. rewrite Eg, Hc in H.
  etrans; [done|]. match type of H with ?m w1 = _ => enough (framed m) as Hm end.
  { specialize (Hm w1). by rewrite H in Hm. }
  unfold doLeavingReporting. framed_op.
Qed.

(** C5. Reporting a cached attempt. Either its channel refuses the report, with an error,
    or the report reaches the store, never with an empty status: if the store refuses it
    the error is returned and the attempt stays, if the store takes it the attempt
    leaves, counted out exactly once. The channel can refuse only a report that does not
    come from the system, when the manager waits for channels to close. *)
Theorem reporting_outcome (w w' : W) (id : Z) (l : loc) (cb : AttemptCallback) (system : bool)
    (err : option AppError) :
  minv w -> cached w !! id = Some l -> ReportingAttempt id cb system false w = Ret (err, w') ->
  frame w w' /\ err <> None /\ svc_waitChannelClose && negb system = true \/
  exists w1 cb' cfg t, frame w w1 /\ cb_Status cb' <> "" /\
    w_trace w1 = CallbackReporting id cb' (rc_MaxAttempts cfg) (rc_WaitBetween cfg) (rc_PerNumbers cfg) :: t /\
    match svc_reporting (w_trace w1) with
    | inl e => err = Some e /\ w' = w1
    | inr _ => gone id w1 w'
    end.
Proof.
  intros Hw Hc E. destruct (ReportingAttempt_cases w w' id l cb system err Hw Hc E) as
    [H|(w0 & w1 & cb' & cfg & F0 & F1 & Hs & Et & G)]; [by left|right].
  exists w1, cb', cfg, (w_trace w0). split; [by etrans|done].
Qed.

(** Only a task can hold up the report of its channel. *)
Lemma setChannelReporting_attempts l cause leave (w : W) a :
  w_attempts w !! l = Some a ->
  match setChannelReporting l cause leave w with
  | Ret (_, w') => w_attempts w' = w_attempts w
  | Panic _ | Block _ => at_channel a = QueueChannelTask
  end.
Proof.
  intros Ha. unfold setChannelReporting, mbind at 1, M_bind at 1.
  rewrite (get_attempt_eq w l a Ha). destruct (at_agentChannel a) as [ch|]; [|done].
  case_decide; [unfold mbind, M_bind, ask, GetMillis; destruct (svc_callExists _ _); done|].
  case_decide; [unfold mbind, M_bind, call; destruct (svc_chatExists _ _); done|].
  case_decide as Ht; [|done].
  unfold getAgentTaskFromAttemptId, GetAttempt, members_get, mbind, M_bind.
  destruct (oc_get _ _ _) as [[l'|] c]; [|done]. unfold get_attempt. simpl.
  destruct (w_attempts w !! l') as [a'|]; [|done].
  destruct (at_channelData a') as [t|]; [|done].
  unfold task_op_at, mbind, M_bind, GetMillis, ask, get_task. simpl.
  destruct (w_tasks w !! t); [|done]. unfold lift. by destruct (Task_Reporting _ _) as [[? ?]| |].
Qed.

(** A draft report of a cached attempt is only remembered: no error, the attempt holds
    the draft (with the default status) and stays cached and counted. Only the channel of a
    task can keep it from returning. *)
Theorem reporting_draft (w : W) (id : Z) (l : loc) (a : Attempt) (cb : AttemptCallback) (system : bool) :
  minv w -> cached w !! id = Some l -> w_attempts w !! l = Some a ->
  match ReportingAttempt id cb system true w with
  | Ret (err, w') => err = None /\ frame w w' /\
      w_attempts w' !! l = Some (UseDraft (cb <| cb_Status := (cmp_or (cb_Status cb) "abandoned") |>) a)
  | Panic _ | Block _ => at_channel a = QueueChannelTask
  end.
Proof.
  intros Hw Hc Ha.
  unfold ReportingAttempt, GetAttempt, mbind at 1, M_bind at 1.
  destruct (members_get_quietly w id (mi_ok _ Hw)) as (w1 & Eg & [F1 Ea1 _]). rewrite Eg, Hc.
  set (cb' := cb <| cb_Status := _ |>).
  rewrite <- Ea1 in Ha. unfold mbind, M_bind, mod_attempt. rewrite Ha. set (a' := UseDraft cb' a).
  set (w2 := w1 <| w_attempts := _ |>).
  assert (frame w1 w2) as F2 by by eapply frame_attempt.
  assert (w_attempts w2 !! l = Some a') as Ha2 by apply lookup_insert_eq.
  pose proof (setChannelReporting_attempts l (cb_Status cb') false w2 a' Ha2) as Hs.
  pose proof (framed_setChannelReporting l (cb_Status cb') false w2) as F3.
  destruct (setChannelReporting l (cb_Status cb') false w2) as [[e w3]| |]; [|done..].
  simpl. split_and!; [done| |by rewrite Hs]. by do 2 (etrans; [done|]).
Qed.

(** ** Reporting returns *)

(** The cancel channel is closed only when the attempt is cancelled. *)
Definition cancel_ok (a : Attempt) : Prop := at_cancelClosed a = true -> at_canceled a = true.

Record similar (a a' : Attempt) : Prop := Similar {
  si_id : at_Id a' = at_Id a;
  si_queue : at_queue a' = at_queue a;
  si_agent : at_agent a' = at_agent a;
  si_member : at_memberChannel a' = at_memberChannel a;
  si_cancel : cancel_ok a -> cancel_ok a';
}.

#[global] Instance similar_preorder : PreOrder similar.
Proof.
  split.
  - by intros a.
  - intros a b c [] []. split; [congruence..|auto].
Qed.

Lemma same_similar a a' : same_attempt a a' -> similar a a'.
Proof. intros [? ? ? ? Ec Ed]. split; try done. unfold cancel_ok. by rewrite Ec, Ed. Qed.

(** A step that keeps the agents and, up to the bookkeeping, the attempts. *)
Record lasting (w w' : W) : Prop := Lasting {
  la_agents : w_agents w' = w_agents w;
  la_attempts : forall l a, w_attempts w !! l = Some a ->
    exists a', w_attempts w' !! l = Some a' /\ similar a a';
}.

#[global] Instance lasting_preorder : PreOrder lasting.
Proof.
  split.
  - intros w. split; [done|]. intros l a Ha. by exists a.
  - intros w1 w2 w3 [G1 A1] [G2 A2]. split; [congruence|].
    intros l a Ha. destruct (A1 l a Ha) as (a1 & H1 & S1). destruct (A2 l a1 H1) as (a2 & H2 & S2).
    exists a2. split; [done|by etrans].
Qed.

(** Such a step that leaves the count alone, too. *)
Record steady (w w' : W) : Prop := Steady {
  st_frame : frame w w';
  st_lasting : lasting w w';
}.

#[global] Instance steady_preorder : PreOrder steady.
Proof.
  split.
  - by intros w.
  - intros w1 w2 w3 [F1 L1] [F2 L2]. split; by etrans.
Qed.

Definition steadily {A} (m : M OC A) (w : W) : Prop := exists r w', m w = Ret (r, w') /\ steady w w'.

Lemma quiet_steady (w w' : W) : quiet w w' -> steady w w'.
Proof. intros [F Ea Eg]. split; [done|]. split; [done|]. intros l a Ha. exists a. by rewrite Ea. Qed.

Lemma quietly_steadily {A} (m : M OC A) (w : W) : quietly m w -> steadily m w.
Proof. intros (r & w' & E & Q). exists r, w'. split; [done|by apply quiet_steady]. Qed.

Lemma steadily_bind {A B} (m : M OC A) (f : A -> M OC B) (w : W) :
  steadily m w -> (forall a w', steady w w' -> steadily (f a) w') -> steadily (m ≫= f) w.
Proof.
  intros (a & w1 & E1 & Q1) Hf. destruct (Hf a w1 Q1) as (b & w2 & E2 & Q2).
  exists b, w2. unfold mbind, M_bind. rewrite E1. split; [done|by etrans].
Qed.

(** An attempt that can be reported: it was distributed to a queue, its agent exists, a
    queue that waits for the call of the member has a call to wait for, and its cancel
    channel is closed only when it is cancelled. *)
Record fit (w : W) (a : Attempt) : Prop := Fit {
  ft_queue : is_Some (at_queue a);
  ft_agent : agent_ok w a;
  ft_member : forall q ch, at_queue a = Some q -> at_memberChannel a = Some ch ->
    TypeName (qo_base q) = "predictive" \/ TypeName (qo_base q) = "inbound" -> ch_kind ch = ChCall;
  ft_cancel : cancel_ok a;
}.

(** The attempt was distributed to a queue, and its agent exists. *)
Definition placed (w : W) (a : Attempt) : Prop := is_Some (at_queue a) /\ agent_ok w a.

(** What [lasting] steps keep. *)
Class Durable (K : W -> Attempt -> Prop) : Prop :=
  durable w w' a a' : w_agents w' = w_agents w -> similar a a' -> K w a -> K w' a'.

#[export] Instance agent_ok_durable : Durable agent_ok.
Proof. intros w w' a a' Eg [_ _ Ea _ _]. unfold agent_ok. by rewrite Ea, Eg. Qed.

#[export] Instance placed_durable : Durable placed.
Proof. intros w w' a a' Eg S [Hq Hg]. split; [by rewrite (si_queue _ _ S)|by eapply agent_ok_durable]. Qed.

#[export] Instance fit_durable : Durable fit.
Proof.
  intros w w' a a' Eg S [Hq Hg Hm Hc]. split.
  - by rewrite (si_queue _ _ S).
  - by eapply agent_ok_durable.
  - by rewrite (si_queue _ _ S), (si_member _ _ S).
  - by apply (si_cancel _ _ S).
Qed.

(** The attempt at [l]. *)
Definition at_loc (K : W -> Attempt -> Prop) (l : loc) (w : W) : Prop :=
  exists a, w_attempts w !! l = Some a /\ K w a.

Lemma at_loc_lasting K `{!Durable K} l (w w' : W) : lasting w w' -> at_loc K l w -> at_loc K l w'.
Proof.
  intros [Eg Hs] (a & Ha & HK). destruct (Hs l a Ha) as (a' & Ha' & S).
  exists a'. split; [done|]. by eapply durable.
Qed.

Lemma at_loc_mono (K K' : W -> Attempt -> Prop) l (w : W) :
  (forall a, K w a -> K' w a) -> at_loc K l w -> at_loc K' l w.
Proof. intros H (a & Ha & HK). exists a. auto. Qed.

Lemma fit_placed l (w : W) : at_loc fit l w -> at_loc placed l w.
Proof. apply at_loc_mono. by intros a [? ? _ _]. Qed.

Lemma placed_ok l (w : W) : at_loc placed l w -> at_loc agent_ok l w.
Proof. apply at_loc_mono. by intros a [? ?]. Qed.

Lemma at_loc_some K l (w : W) : at_loc K l w -> is_Some (w_attempts w !! l).
Proof. intros (a & Ha & _). by exists a. Qed.

#[local] Hint Resolve fit_placed placed_ok at_loc_some : core.

Lemma steady_insert l (w : W) a a' :
  w_attempts w !! l = Some a -> similar a a' ->
  steady w (w <| w_attempts := (<[l := a']> (w_attempts w)) |>).
Proof.
  intros Ha Hs. split; [eapply frame_attempt; [done|by apply si_id]|]. split.
  - done.
  - intros l' a0 Ha0. simpl. destruct (decide (l' = l)) as [->|Hne].
    + rewrite lookup_insert_eq. eexists. split; [done|]. by simplify_eq.
    + rewrite lookup_insert_ne by done. by exists a0.
Qed.

Lemma steadily_mod l f (w : W) :
  is_Some (w_attempts w !! l) -> (forall a, same_attempt a (f a)) -> steadily (mod_attempt l f) w.
Proof.
  intros [a Ha] Hf. unfold steadily, mod_attempt. rewrite Ha. eexists _, _. split; [done|].
  apply (steady_insert l w a); [done|apply same_similar, Hf].
Qed.

Lemma steadily_get l (w : W) : is_Some (w_attempts w !! l) -> steadily (get_attempt l) w.
Proof. intros [a Ha]. exists a, w. by rewrite (get_attempt_eq w l a Ha). Qed.

Lemma steady_loc K `{!Durable K} l (w w' : W) : steady w w' -> at_loc K l w -> at_loc K l w'.
Proof. intros S. apply at_loc_lasting; [done|by apply st_lasting]. Qed.

(** Functions that only touch the bookkeeping of the attempt. *)
Ltac same_attempt_tac :=
  intros; unfold SetResult, SetCallback, SetMemberStopCause, UseDraft, DropDraft, AddVariables,
    apply_schema_result; repeat (case_match || case_decide); by split.

Lemma AfterDistributeSchema_steadily l (w : W) : at_loc agent_ok l w -> steadily (AfterDistributeSchema l) w.
Proof.
  intros R. unfold AfterDistributeSchema. apply steadily_bind.
  - destruct R as (a & Ha & Hg). unfold qm_AfterDistributeSchema, steadily, mbind, M_bind.
    rewrite (get_attempt_eq w l a Ha). destruct (at_queue a); [|by eexists _, _].
    destruct (bq_afterSchemaId _); [|by eexists _, _].
    destruct (export_schema_eq w l a Ha Hg) as [v Ev].
    simpl. rewrite Ev. simpl. eexists _, _. split; [done|].
    apply quiet_steady. split; [|done..]. by apply frame_other.
  - intros [r|] w1 S1; [|apply quietly_steadily, quietly_ret].
    apply steadily_bind; [|intros; apply quietly_steadily, quietly_ret].
    apply steadily_mod; [|same_attempt_tac]. eapply at_loc_some. by apply (steady_loc agent_ok l w).
Qed.

Lemma ApplyCallbackRules_steadily l cb (w : W) : at_loc agent_ok l w -> steadily (ApplyCallbackRules l cb) w.
Proof.
  intros R. unfold ApplyCallbackRules. apply steadily_bind; [apply steadily_mod; [eauto|same_attempt_tac]|].
  intros _ w1 S1. pose proof (steady_loc _ _ _ _ S1 R) as R1.
  apply steadily_bind; [by apply AfterDistributeSchema_steadily|].
  intros [r|] w2 S2; [|apply quietly_steadily, quietly_ret].
  pose proof (steady_loc _ _ _ _ S2 R1) as R2.
  apply steadily_bind; [apply steadily_mod; [eauto|same_attempt_tac]|].
  intros. apply quietly_steadily, quietly_ret.
Qed.

Lemma processAttemptCallback_steadily l cb sys (w : W) :
  svc_waitChannelClose && negb sys = false -> at_loc agent_ok l w ->
  steadily (processAttemptCallback (Some l) cb sys) w.
Proof.
  intros Hs R. unfold processAttemptCallback. rewrite Hs.
  apply steadily_bind; [apply steadily_mod; [eauto|same_attempt_tac]|]. intros _ w1 S1.
  apply steadily_bind; [apply quietly_steadily, quietly_ret|]. intros o w2 S2.
  destruct o; [apply quietly_steadily, quietly_ret|].
  apply steadily_bind; [|intros; apply quietly_steadily, quietly_ret].
  apply ApplyCallbackRules_steadily. by do 2 (eapply steady_loc; [apply _|done|]).
Qed.

Lemma SetCancel_steadily l (w : W) : at_loc fit l w -> steadily (attempt_SetCancel l) w.
Proof.
  intros (a & Ha & Hf). unfold steadily, attempt_SetCancel, mod_attempt_o. rewrite Ha.
  pose proof (ft_cancel _ _ Hf) as Hc. unfold SetCancel, cancel_ok in *.
  destruct (at_canceled a) eqn:Ec.
  - eexists _, _. split; [done|]. by apply (steady_insert l w a).
  - destruct (at_cancelClosed a); [naive_solver|]. eexists _, _. split; [done|].
    apply (steady_insert l w a); [done|]. by split.
Qed.

(** Leaving returns, and does nothing to the other attempts. *)
Lemma LeavingMember_total l (w : W) :
  minv w -> at_loc placed l w -> exists w', LeavingMember l w = Ret (tt, w') /\ lasting w w'.
Proof.
  intros Hw (a & Ha & [[q Hq] Hg]).
  destruct (LeavingMember_eq w l a q Hw Ha Hq Hg) as (a' & w' & E & L & _ & _).
  exists w'. split; [done|]. destruct L as [_ _ _ Ea Eg Hs _]. apply same_similar in Hs.
  split; [done|]. intros l' a0 H0. rewrite Ea. destruct (decide (l' = l)) as [->|Hne].
  - rewrite lookup_insert_eq. exists a'. by simplify_eq.
  - rewrite lookup_insert_ne by done. by exists a0.
Qed.

Lemma attempt_queue_steadily l (w : W) : at_loc placed l w -> steadily (attempt_queue l) w.
Proof.
  intros (a & Ha & [[q Hq] _]). exists q, w.
  unfold attempt_queue, mbind, M_bind. by rewrite (get_attempt_eq w l a Ha), Hq.
Qed.

(** The queue of an attempt does not depend on when it is read. *)
Lemma attempt_queue_same (w w1 w2 w3 : W) l a q :
  is_Some (w_attempts w !! l) -> steady w w1 -> steady w w2 -> w_attempts w1 !! l = Some a ->
  attempt_queue l w2 = Ret (q, w3) -> at_queue a = Some q.
Proof.
  intros [a0 H0] S1 S2 Ha H. unfold attempt_queue in H.
  apply bind_ret in H as (a2 & w4 & [-> Ha2]%get_attempt_ret & H).
  destruct (at_queue a2) as [q2|] eqn:E2; [|done]. apply ret_ret in H as [-> _].
  destruct (la_attempts _ _ (st_lasting _ _ S1) l a0 H0) as (a1' & H1' & Si1).
  destruct (la_attempts _ _ (st_lasting _ _ S2) l a0 H0) as (a2' & H2' & Si2). simplify_eq.
  rewrite (si_queue _ _ Si1), <- (si_queue _ _ Si2). done.
Qed.

(** Running the first of two operations, from a world that is steady since [w]. *)
Lemma steady_then (w w1 : W) {A B} (m : M OC A) (f : A -> M OC B) (Q : W -> Prop) :
  steady w w1 -> steadily m w1 ->
  (forall a w2, m w1 = Ret (a, w2) -> steady w w2 -> exists b w3, f a w2 = Ret (b, w3) /\ Q w3) ->
  exists b w3, (m ≫= f) w1 = Ret (b, w3) /\ Q w3.
Proof.
  intros S (a & w2 & E & S2) H. unfold mbind, M_bind. rewrite E. apply H; [done|by etrans].
Qed.

Lemma doLeavingReporting_total id l res cb (w : W) :
  minv w -> at_loc fit l w ->
  exists err w', doLeavingReporting id (Some l) res cb w = Ret (err, w') /\ lasting w w'.
Proof.
  intros Hw R. unfold doLeavingReporting.
  pose proof (fun w1 S => steady_loc fit l w w1 S R) as Rs.
  apply (steady_then w); [reflexivity| |intros err w1 _ S1].
  { destruct (rr_UserId res), (rr_DomainId res); apply quietly_steadily;
      (apply quietly_call || apply quietly_ret). }
  apply (steady_then w); [done|apply steadily_mod; [eauto|same_attempt_tac]|intros _ w2 _ S2].
  apply (steady_then w); [done|apply steadily_mod; [eauto|same_attempt_tac]|intros _ w3 _ S3].
  apply (steady_then w); [done|apply steadily_get; eauto|intros a w4 [-> Ha4]%get_attempt_ret S4].
  apply (steady_then w); [done| |intros _ w5 _ S5].
  { case_decide; [apply SetCancel_steadily, Rs, S4|apply quietly_steadily, quietly_ret]. }
  apply (steady_then w); [done|apply attempt_queue_steadily, fit_placed, Rs, S5|intros q w5' Eq S5'].
  apply (steady_then w); [done| |intros _ w6 _ S6].
  { destruct (at_memberChannel a) as [ch|] eqn:Em; [|apply quietly_steadily, quietly_ret].
    case_decide as Ht; [|apply quietly_steadily, quietly_ret].
    destruct (Rs _ S4) as (a4 & Ea4 & Hf4). simplify_eq.
    assert (at_queue a = Some q) as Hq by (eapply (attempt_queue_same w w3 w5 w5' l); eauto).
    rewrite (ft_member _ _ Hf4 q ch Hq Em Ht). apply quietly_steadily, quietly_call. }
  destruct (LeavingMember_total l w6) as (w7 & E7 & L7); [|by apply fit_placed, Rs|].
  { eapply frame_minv; [by apply st_frame|done]. }
  unfold mbind, M_bind. rewrite E7. eexists _, _. split; [done|]. etrans; [by apply st_lasting|done].
Qed.

(** ** Timeouts *)

Lemma LeavingMember_leaves l (w w1 : W) a :
  minv w -> w_attempts w !! l = Some a -> steady w w1 -> at_loc placed l w1 ->
  exists u w', LeavingMember l w1 = Ret (u, w') /\ gone (at_Id a) w w'.
Proof.
  intros Hw Ha S R. assert (minv w1) as Hw1 by (eapply frame_minv; [by apply st_frame|done]).
  destruct (LeavingMember_total l w1 Hw1 R) as (w' & E & _). exists tt, w'. split; [done|].
  eapply gone_after; eauto using LeavingMember_gone. by apply st_frame.
Qed.

(** The store refused the result of the attempt, and the attempt is still there. *)
Definition result_refused (id : Z) (w w' : W) : Prop :=
  frame w w' /\ exists cb mx wt per t e,
    w_trace w' = SchemaResultSave id cb mx wt per :: t /\ svc_leaving (w_trace w') = inl e.

(** C17. When the processing of an attempt runs out of time, TimeoutLeavingMember returns. An
    attempt that has no queue yet stays as it is, and nothing is asked of anyone. Any other
    attempt has left, counted out exactly once, unless the store refused its result: then
    nothing has left and the refused call is the last thing that happened. The one thing
    assumed of the attempt is that the agent it points to exists. *)
Theorem timeout_outcome (w : W) (l : loc) (a : Attempt) :
  minv w -> w_attempts w !! l = Some a -> agent_ok w a ->
  exists w', TimeoutLeavingMember l w = Ret (tt, w') /\
    match at_queue a with
    | None => w' = w
    | Some _ => gone (at_Id a) w w' \/ result_refused (at_Id a) w w'
    end.
Proof.
  intros Hw Ha Hg. unfold TimeoutLeavingMember, mbind at 1, M_bind at 1. rewrite (get_attempt_eq w l a Ha).
  destruct (at_queue a) as [q|] eqn:Hq; [|by exists w].
  set (Q w' := gone (at_Id a) w w' \/ result_refused (at_Id a) w w').
  match goal with |- context [?m w = _] =>
    enough (exists u w', m w = Ret (u, w') /\ Q w') as ([] & ?); [done|] end.
  assert (at_loc placed l w) as R by (exists a; split; [done|split; [by exists q|done]]).
  pose proof (fun w1 S => steady_loc placed l w w1 S R) as Rs.
  assert (forall w1, steady w w1 -> exists u w', LeavingMember l w1 = Ret (u, w') /\ Q w') as HL.
  { intros w1 S. destruct (LeavingMember_leaves l w w1 a) as (u & w' & E & G); [auto..|].
    exists u, w'. split; [done|by left]. }
  apply (steady_then w); [done|by apply AfterDistributeSchema_steadily, placed_ok|intros r w1 _ S1].
  apply (steady_then w); [done| |intros cb w2 _ S2].
  { destruct r; [|apply quietly_steadily, quietly_ret].
    apply steadily_bind; [apply steadily_mod; [eauto|same_attempt_tac]|].
    intros. apply quietly_steadily, quietly_ret. }
  apply (steady_then w); [done|apply steadily_get; eauto|intros a2 w2' [-> Ha2]%get_attempt_ret _].
  destruct (at_draft a2); [by apply HL|].
  apply (steady_then w); [done|apply quietly_steadily, quietly_call|intros res w3 E3 S3].
  destruct res as [e|res].
  - exists tt, w3. split; [done|right]. split; [by apply st_frame|].
    injection E3 as Er E3. subst w3. do 6 eexists. split; [|done]. simpl. do 2 f_equal.
    destruct (frame_ids _ _ _ _ (st_frame _ _ S2) Ha) as (? & ? & ?). congruence.
  - apply (steady_then w); [done| |intros _ w4 _ S4].
    { unfold set_stop_cause. destruct (al_MemberStopCause res); [|apply quietly_steadily, quietly_ret].
      apply steadily_mod; [eauto|same_attempt_tac]. }
    apply (steady_then w); [done| |intros _ w5 _ S5]; [|by apply HL].
    apply steadily_mod; [eauto|same_attempt_tac].
Qed.

(** ** Shutdown *)

(** The channels that the store names in its answers are calls; they can always be hung up. *)
Definition hangs_up (res : AttemptReportingResult) : Prop :=
  match rr_Channel res with
  | Some ch => ch = QueueChannelCall \/ ch = QueueChannelOutCall
  | None => True
  end.

Definition reports_hang_up : Prop := forall id cb mx wt per t res,
  svc_reporting (CallbackReporting id cb mx wt per :: t) = inr res -> hangs_up res.

Lemma closeBeforeReporting_quietly id res cause o (w : W) :
  hangs_up res -> quietly (closeBeforeReporting id res cause o) w.
Proof.
  unfold hangs_up, closeBeforeReporting. intros H. destruct (rr_Channel res) as [ch|];
    [|apply quietly_ret]. destruct (rr_AgentCallId res); [|apply quietly_ret].
  rewrite decide_True by done. apply quietly_bind; [by eexists _, _|].
  intros [] w1 _; [apply quietly_call|apply quietly_ret].
Qed.

Lemma close_quietly id res cause o (sys : bool) (w : W) :
  (sys = false -> hangs_up res) ->
  quietly (if sys then mret tt else _ ← closeBeforeReporting id res cause o; mret tt) w.
Proof.
  intros Hh. destruct sys; [apply quietly_ret|].
  apply quietly_bind; [by apply closeBeforeReporting_quietly, Hh|intros; apply quietly_ret].
Qed.

Lemma quietly_lasting {A} (m : M OC A) (w : W) :
  quietly m w -> exists r w', m w = Ret (r, w') /\ lasting w w'.
Proof. intros (r & w' & E & Q). exists r, w'. split; [done|by apply st_lasting, quiet_steady]. Qed.

Lemma quietly_bind_eq {A B} (m : M OC A) (f : A -> M OC B) (w : W) :
  quietly m w -> (forall a w', m w = Ret (a, w') -> quiet w w' -> quietly (f a) w') -> quietly (m ≫= f) w.
Proof.
  intros (a & w1 & E1 & Q1) Hf. destruct (Hf a w1 E1 Q1) as (b & w2 & E2 & Q2).
  exists b, w2. unfold mbind, M_bind. rewrite E1. split; [done|by etrans].
Qed.

Lemma ReportingAttempt_uncached (w : W) id cb sys :
  (sys = false -> reports_hang_up) -> minv w -> cached w !! id = None ->
  quietly (ReportingAttempt id cb sys false) w.
Proof.
  intros Hr Hw Hc. unfold ReportingAttempt, GetAttempt.
  destruct (members_get_quietly w id (mi_ok _ Hw)) as (w1 & Eg & Q1). rewrite Hc in Eg.
  apply quietly_bind_eq; [by eexists _, _|]. intros o w1' E1 _. rewrite Eg in E1. simplify_eq.
  apply quietly_bind; [apply quietly_ret|intros _ w2 _].
  apply quietly_bind_eq; [apply quietly_ret|intros r w3 [-> ->]%ret_ret _].
  apply quietly_bind; [apply quietly_ret|intros cfg w4 _].
  apply quietly_bind_eq; [apply quietly_call|intros r w5 E5 _]. injection E5 as Er E5. simpl in Er.
  destruct r as [e|res]; [apply quietly_ret|]. apply quietly_bind; [|intros _ w6 _].
  - apply close_quietly. intros Hs. by eapply Hr.
  - unfold doLeavingReporting. apply quietly_bind; [|intros; apply quietly_ret].
    destruct (rr_UserId res), (rr_DomainId res); (apply quietly_call || apply quietly_ret).
Qed.

(** A report that does not ask the channel returns. *)
Lemma ReportingAttempt_total (w : W) id cb sys :
  svc_waitChannelClose && negb sys = false -> (sys = false -> reports_hang_up) -> minv w ->
  (forall l, cached w !! id = Some l -> at_loc fit l w) ->
  exists err w', ReportingAttempt id cb sys false w = Ret (err, w') /\ lasting w w'.
Proof.
  intros Hn Hr Hw Hl. destruct (cached w !! id) as [l|] eqn:Hc.
  2: { by apply quietly_lasting, ReportingAttempt_uncached. }
  specialize (Hl l eq_refl) as R. unfold ReportingAttempt.
  pose proof (fun w1 S => steady_loc fit l w w1 S R) as Rs.
  destruct (members_get_quietly w id (mi_ok _ Hw)) as (w1 & Eg & Q1).
  unfold GetAttempt, mbind at 1, M_bind at 1. rewrite Eg, Hc. apply quiet_steady in Q1.
  apply (steady_then w); [done|apply steadily_mod; [eauto|same_attempt_tac]|intros _ w2 _ S2].
  apply (steady_then w); [done| |intros r w3 E3 S3].
  { apply processAttemptCallback_steadily; [done|by apply placed_ok, fit_placed, Rs]. }
  destruct r as [e|cb']; [by apply processAttemptCallback_refuses in E3; rewrite Hn in E3|].
  apply (steady_then w); [done| |intros cfg w4 _ S4].
  { apply steadily_bind; [apply steadily_get; eauto|].
    intros. apply quietly_steadily, quietly_ret. }
  apply (steady_then w); [done|apply quietly_steadily, quietly_call|intros r w5 E5 S5].
  injection E5 as Er E5. simpl in Er.
  destruct r as [e|res]; [exists (Some e), w5; split; [done|by apply st_lasting]|].
  apply (steady_then w); [done| |intros _ w6 _ S6].
  { apply quietly_steadily, close_quietly. intros Hs. by eapply Hr. }
  destruct (doLeavingReporting_total id l res cb' w6) as (err & w7 & E7 & L7);
    [|by apply Rs|exists err, w7; split; [done|]].
  - eapply frame_minv; [by apply st_frame|done].
  - etrans; [by apply st_lasting|done].
Qed.

(** The store refused the report of [id] at some time between the two worlds. *)
Definition report_refused (id : Z) (w w' : W) : Prop :=
  exists cb mx wt per t e, w_trace w `suffix_of` t /\
    (CallbackReporting id cb mx wt per :: t) `suffix_of` w_trace w' /\
    svc_reporting (CallbackReporting id cb mx wt per :: t) = inl e.

Lemma report_refused_mono id (w0 w1 w2 w3 : W) :
  w_trace w0 `suffix_of` w_trace w1 -> w_trace w2 `suffix_of` w_trace w3 ->
  report_refused id w1 w2 -> report_refused id w0 w3.
Proof.
  intros H0 H3 (cb & mx & wt & per & t & e & H1 & H2 & He).
  exists cb, mx, wt, per, t, e. split_and!; [by etrans|by etrans|done].
Qed.

(** A report that returns takes its attempt out, or it was refused. *)
Lemma frame_gone id (w w' : W) : minv w -> cached w !! id = None -> frame w w' -> gone id w w'.
Proof.
  intros Hw Hc F. split.
  - by eapply frame_minv.
  - by rewrite (frame_cached _ _ Hw F), delete_id.
  - rewrite (fr_wg _ _ F), Hc, decide_False; [lia|by intros [? ?]].
  - intros l a. by apply frame_ids.
  - apply F.
Qed.

Lemma ReportingAttempt_gone (w w' : W) id cb sys err :
  minv w -> ReportingAttempt id cb sys false w = Ret (err, w') ->
  gone id w w' \/ frame w w' /\ (svc_waitChannelClose && negb sys = true \/ report_refused id w w').
Proof.
  intros Hw E. destruct (cached w !! id) as [l|] eqn:Hc.
  2: { left. eapply frame_gone; [done..|]. by eapply ReportingAttempt_absent. }
  destruct (ReportingAttempt_cases w w' id l cb sys err) as
    [(F & _ & Hs)|(w0 & w1 & cb' & cfg & F0 & F1 & _ & Et & G)]; [done..|by right; split; [|left]|].
  assert (frame w w1) as F by by etrans.
  destruct (svc_reporting (w_trace w1)) as [e|res] eqn:Er; [|left; by eapply gone_frame_l].
  destruct G as [_ ->]. right. split; [done|right]. rewrite Et in Er.
  do 6 eexists. split_and!; [apply F0|by rewrite Et|done].
Qed.

(** What is counted beyond the cached attempts does not change. *)
Lemma gone_surplus id (w w' : W) :
  gone id w w' -> w_wg w' - Z.of_nat (size (cached w')) = w_wg w - Z.of_nat (size (cached w)).
Proof.
  intros [_ Hc Hg _]. rewrite Hg, Hc, map_size_delete. destruct (cached w !! id) as [l|] eqn:E.
  - rewrite decide_True by (by eexists).
    assert (size (cached w) <> 0%nat); [|simpl; lia]. intros Ez%map_size_empty_inv. by rewrite Ez in E.
  - rewrite decide_False by (by intros [? ?]). simpl. lia.
Qed.

(** One round of closeAttempts. *)
Definition shutdown_report (k : option Z) : M OC unit :=
  match k with
  | None => mret tt
  | Some id => _ ← ReportingAttempt id (callback_of_status "shutdown") false false; mret tt
  end.

Definition surplus (w : W) : Z := w_wg w - Z.of_nat (size (cached w)).

Record closing (w w' : W) : Prop := Closing {
  cl_inv : minv w';
  cl_surplus : surplus w' = surplus w;
  cl_cached : cached w' ⊆ cached w;
  cl_log : w_trace w `suffix_of` w_trace w';
}.

Lemma shutdown_report_closing k (w w' : W) u :
  minv w -> shutdown_report k w = Ret (u, w') ->
  closing w w' /\ forall id, k = Some id -> is_Some (cached w' !! id) ->
    svc_waitChannelClose = true \/ report_refused id w w'.
Proof.
  intros Hw E. destruct k as [id|]; simpl in E; [|apply ret_ret in E as [-> ->]; by split].
  apply bind_ret in E as (err & w1 & E & [_ ->]%ret_ret).
  apply ReportingAttempt_gone in E as [G|[F H]]; [| |done].
  - split.
    + split; [apply G|apply gone_surplus with id, G|rewrite (go_cached _ _ _ G); apply delete_subseteq|apply G].
    + intros ? [= <-] [l Hl]. by rewrite (go_cached _ _ _ G), lookup_delete_eq in Hl.
  - split.
    + split; [by eapply frame_minv| |by rewrite (frame_cached _ _ Hw F)|apply F].
      unfold surplus. by rewrite (fr_wg _ _ F), (frame_cached _ _ Hw F).
    + intros ? [= <-] _. by rewrite andb_true_r in H.
Qed.

Lemma closing_trans (w1 w2 w3 : W) : closing w1 w2 -> closing w2 w3 -> closing w1 w3.
Proof. intros [I1 S1 C1 L1] [I2 S2 C2 L2]. split; [done|congruence|by etrans|by etrans]. Qed.

Lemma report_all_closing ks (w w' : W) u :
  minv w -> for_each ks shutdown_report w = Ret (u, w') ->
  closing w w' /\ forall id, Some id ∈ ks -> is_Some (cached w' !! id) ->
    svc_waitChannelClose = true \/ report_refused id w w'.
Proof.
  revert w. induction ks as [|k ks IH]; intros w Hw E.
  - apply ret_ret in E as [-> ->]. split; [by split|]. by intros id ?%elem_of_nil.
  - apply bind_ret in E as (? & w1 & E1 & E).
    apply shutdown_report_closing in E1 as [C1 H1]; [|done].
    apply IH in E as [C2 H2]; [|apply C1]. split; [by eapply closing_trans|].
    intros id [<-|Hin]%elem_of_cons [l Hl].
    + destruct (H1 id eq_refl) as [?|R]; [|by left|right].
      { exists l. by apply (lookup_weaken _ _ _ _ Hl (cl_cached _ _ C2)). }
      eapply report_refused_mono; [done|apply C2|done].
    + destruct (H2 id Hin) as [?|R]; [by eexists|by left|right].
      eapply report_refused_mono; [apply C1|done|done].
Qed.

(** It returns when the attempts are fit to be reported. *)
Lemma report_all_returns ks (w : W) :
  svc_waitChannelClose = false -> reports_hang_up -> minv w ->
  (forall id l, cached w !! id = Some l -> at_loc fit l w) ->
  exists w', for_each ks shutdown_report w = Ret (tt, w').
Proof.
  intros Hn Hr. revert w. induction ks as [|k ks IH]; intros w Hw Hf; [by exists w|].
  assert (exists w1, shutdown_report k w = Ret (tt, w1) /\ lasting w w1) as (w1 & E1 & L1).
  { destruct k as [id|]; simpl; [|by exists w].
    destruct (ReportingAttempt_total w id (callback_of_status "shutdown") false) as (err & w1 & E & L);
      [by rewrite Hn|done|done|by apply Hf|].
    exists w1. unfold mbind, M_bind. by rewrite E. }
  pose proof (shutdown_report_closing k w w1 tt Hw E1) as [C1 _].
  destruct (IH w1) as (w' & E); [apply C1| |].
  { intros id l Hl. apply (at_loc_lasting fit l w w1 L1), (Hf id).
    apply (lookup_weaken _ _ _ _ Hl (cl_cached _ _ C1)). }
  exists w'. cbn [for_each]. unfold mbind, M_bind. by rewrite E1.
Qed.

Lemma closeAttempts_loop (w : W) :
  minv w -> exists ks, closeAttempts w = for_each ks shutdown_report w /\
    forall id, is_Some (cached w !! id) -> Some id ∈ ks.
Proof.
  intros Hw. unfold closeAttempts, mbind at 1, M_bind at 1. simpl.
  destruct (oc_keys_law _ (w_membersCache w) (mi_ok _ Hw)) as (ks & Ek & Hk).
  unfold mbind, M_bind, lift. rewrite Ek. exists ks. split; [done|]. intros id. apply Hk.
Qed.

(** When closing the attempts returns, whatever is still cached was reported, and refused. *)
Lemma closeAttempts_closing (w w' : W) u :
  minv w -> closeAttempts w = Ret (u, w') ->
  closing w w' /\ forall id, is_Some (cached w' !! id) ->
    svc_waitChannelClose = true \/ report_refused id w w'.
Proof.
  intros Hw E. destruct (closeAttempts_loop w Hw) as (ks & El & Hk). rewrite El in E.
  apply report_all_closing in E as [C H]; [|done]. split; [done|].
  intros id [l Hl]. apply H; [|by eexists]. apply Hk. exists l.
  by apply (lookup_weaken _ _ _ _ Hl (cl_cached _ _ C)).
Qed.

Lemma closeAttempts_returns (w : W) :
  svc_waitChannelClose = false -> reports_hang_up -> minv w ->
  (forall id l, cached w !! id = Some l -> at_loc fit l w) ->
  exists w', closeAttempts w = Ret (tt, w').
Proof.
  intros Hn Hr Hw Hf. destruct (closeAttempts_loop w Hw) as (ks & El & _). rewrite El.
  by apply report_all_returns.
Qed.

End Lifecycle.
