(* ===== verification/RpcFacts.v ===== *)
(** * The theorems about the unary requests *)

From S2P Require Import Prelude Model Queue Attempt TaskChannel Resource Calls World Agents.
From S2P Require Import Events Schema Manager Team Distribute Messages Dialing Frame Invariant Lifecycle.
From S2P Require Import Sessions Api Rpc.

Section Rpc.
Context {OC : Type -> Type} {HOC : ObjectCache OC} {OCL : ObjectCacheLaws OC} {SV : Services} {DE : Decoders}.
Context (ToJson : AppError -> string).

#[local] Hint Resolve safe_OutboundCall safe_DistributeIMToQueue safe_TransferIM
  safe_DistributeDirectMember safe_ReportingAttempt : safe.

Lemma safe_serve rq : safe (OC := OC) (serve rq).
Proof.
  destruct rq as [rq|rq]; destruct rq; simpl; unfold answer, rpc_of, CancelAttempt, AttemptResult, Api_OutboundCall, IMJoinToQueue, DirectAgentToMember,
    ProcessingFormAction, AttemptProcessingActionComponent, Transfer, Api_Online, Api_Pause, WaitingChannel, attempt_agent, rpc_of.
  all: safe_op.
Qed.

(** What the caller sees: the answer exactly if the handler gave one, a status exactly for an
    AppError, and InvalidArgument exactly for the code 400. The manager is as the handler left it. *)
Lemma unary_outcome rq (w w' : World OC) (ans : Answer Response) :
  unary ToJson rq w = Ret (ans, w') ->
  exists r, serve rq w = Ret (r, w') /\
    match r with
    | inr a => ans = Done a
    | inl (RApp e) => exists c, ans = Status c (ToJson e) /\ (c = InvalidArgument <-> err_StatusCode e = 400)
    | inl (RText t) => ans = Plain t
    end.
Proof.
  unfold unary, GetUnaryInterceptor, mbind, M_bind.
  destruct (serve rq w) as [[r w1]| |]; [|done..]. intros [= <- <-]. exists r. split; [done|].
  destruct r as [[e|t]|a]; [|done..]. eexists. split; [done|].
  unfold httpCodeToGrpc. split; intros Hc; [by repeat case_decide|by rewrite decide_True].
Qed.

(** Requests in any number and order keep the count of the attempts. *)
Theorem unary_requests_safe (rqs : list Request) (w : World OC) :
  minv w ->
  match for_each rqs (fun rq => _ ← unary ToJson rq; mret tt) w with
  | Ret (_, w') => minv w'
  | Panic s => s <> wg_message
  | Block _ => True
  end.
Proof.
  intros Hw. refine (safe_for_each rqs _ _ w Hw). intros rq. unfold unary, GetUnaryInterceptor.
  apply safe_bind; [|intros; safe_op]. apply safe_bind; [apply safe_serve|intros; safe_op].
Qed.

End Rpc.

(** An error of the store reaches the caller as an invalid argument or as an internal error. *)
Lemma store_status e : err_StatusCode e ∈ [400; 404; 500] -> httpCodeToGrpc (err_StatusCode e) ∈ [InvalidArgument; Internal].
Proof. intros H. unfold httpCodeToGrpc. repeat case_decide; try set_solver; subst; exfalso; set_solver by lia. Qed.
