(* ===== verification/LeaveRace.v ===== *)
(** * Concurrent leaving

    LeavingMember looks the attempt up in the members cache and removes it later, with
    service calls in between and no lock around the two (queue/queue_manager.go). Here the
    calls of several goroutines for one attempt are interleaved at that point: a leaver
    first runs up to the lookup, then from the lookup to the end. One call at a time is
    the subject of the file Invariant. *)

From S2P Require Import Prelude Model Queue Attempt World Events Manager Frame Invariant.
From S2P Require Import Lifecycle.

Section Race.
Context {OC : Type -> Type} {HOC : ObjectCache OC} {OCL : ObjectCacheLaws OC} {SV : Services}.

Abbreviation W := (World OC).

(** LeavingMember up to and including the lookup. *)
Definition leave_check (l : loc) : M OC (Attempt * option loc) :=
  a ← get_attempt l;
  _ ← (if decide (Result a = "") then mod_attempt l (SetResult AttemptResultAbandoned) else mret tt);
  _ ← (if at_manualDistribution a && bool_decide (at_bridgedAt a = 0) then
         _ ← call_err (NotificationIntercept (at_domainId a) (at_QueueId a) (at_channel a) (at_Id a) 0);
         mret tt
       else mret tt);
  o ← members_get (at_Id a);
  mret (a, o).

(** The two parts make up the function. *)
Lemma LeavingMember_parts l (w : W) :
  LeavingMember l w =
  ('(a, o) ← leave_check l;
   match o with None => mret tt | Some _ => leave_cached l a end) w.
Proof.
  unfold LeavingMember, leave_check, mbind, M_bind.
  repeat (case_match; simplify_eq; try done).
Qed.

Inductive leaver := Starting | Found (a : Attempt) | Finished.

(** A step of one of the goroutines; a panic ends the process. *)
Inductive race_step (l : loc) : list leaver * W -> outcome (list leaver * W) -> Prop :=
| race_found i ts w a l' w' :
    ts !! i = Some Starting -> leave_check l w = Ret ((a, Some l'), w') ->
    race_step l (ts, w) (Ret (<[i := Found a]> ts, w'))
| race_absent i ts w a w' :
    ts !! i = Some Starting -> leave_check l w = Ret ((a, None), w') ->
    race_step l (ts, w) (Ret (<[i := Finished]> ts, w'))
| race_finish i ts w a w' :
    ts !! i = Some (Found a) -> leave_cached l a w = Ret (tt, w') ->
    race_step l (ts, w) (Ret (<[i := Finished]> ts, w'))
| race_panic i ts w a s :
    ts !! i = Some (Found a) -> leave_cached l a w = Panic s ->
    race_step l (ts, w) (Panic s).

Inductive races (l : loc) : list leaver * W -> outcome (list leaver * W) -> Prop :=
| races_done st : races l st (Ret st)
| races_more st st' o : race_step l st (Ret st') -> races l st' o -> races l st o
| races_panic st s : race_step l st (Panic s) -> races l st (Panic s).

Lemma leave_check_eq (w : W) l a l' :
  minv w -> w_attempts w !! l = Some a -> cached w !! at_Id a = Some l' ->
  exists a' w', leave_check l w = Ret ((a, Some l'), w') /\ frame w w' /\
    w_attempts w' = <[l := a']> (w_attempts w) /\ w_agents w' = w_agents w /\ same_attempt a a'.
Proof.
  intros Hw Ha Hc.
  destruct (default_result_eq w l a Ha) as (a1 & w1 & E1 & F1 & Ea1 & Eg1 & _ & S1).
  destruct (intercept_quietly w1 a) as ([] & w2 & E2 & Q2).
  assert (minv w1) as Hw1 by by eapply frame_minv.
  assert (minv w2) as Hw2 by by eapply quiet_minv.
  destruct (members_get_quietly w2 (at_Id a) (mi_ok _ Hw2)) as (w3 & E3 & Q3).
  rewrite (quiet_cached _ _ Q2 Hw1), (frame_cached _ _ Hw F1), Hc in E3.
  exists a1, w3. unfold leave_check. unfold mbind, M_bind in *.
  rewrite (get_attempt_eq w l a Ha), E1, E2, E3. split_and!; try done.
  - etrans; [done|]. etrans; [apply Q2|apply Q3].
  - by rewrite (qt_attempts _ _ Q3), (qt_attempts _ _ Q2).
  - by rewrite (qt_agents _ _ Q3), (qt_agents _ _ Q2).
Qed.

(** C27. Two goroutines that leave the last counted attempt at the same time can both find
    it cached; the second to finish then counts it out again and the process panics with a
    negative wait group counter. *)
Theorem leaving_race (w : W) (l l' : loc) (a : Attempt) (q : QueueObject) :
  minv w -> w_attempts w !! l = Some a -> at_queue a = Some q -> agent_ok w a ->
  cached w !! at_Id a = Some l' -> w_wg w = 1 ->
  races l ([Starting; Starting], w) (Panic wg_message).
Proof.
  intros Hw Ha Hq Hg Hc Hn.
  destruct (leave_check_eq w l a l') as (a1 & w1 & E1 & F1 & Ea1 & Eg1 & S1); [done..|].
  assert (minv w1) as Hw1 by by eapply frame_minv.
  assert (w_attempts w1 !! l = Some a1) as Ha1 by (by rewrite Ea1, lookup_insert_eq).
  destruct (leave_check_eq w1 l a1 l') as (a2 & w2 & E2 & F2 & Ea2 & Eg2 & S2); [done..| |].
  { by rewrite (sa_id _ _ S1), (frame_cached _ _ Hw F1). }
  assert (minv w2) as Hw2 by by eapply frame_minv.
  assert (w_attempts w2 !! l = Some a2) as Ha2 by (by rewrite Ea2, lookup_insert_eq).
  assert (same_attempt a a2) as S by by etrans.
  assert (agent_ok w2 a2) as Hg2 by (unfold agent_ok; by rewrite (sa_agent _ _ S), Eg2, Eg1).
  destruct (leave_cached_eq w2 l a a2 q l') as (a3 & w3 & E3 & L3 & _ & _); try done.
  { by rewrite (sa_queue _ _ S). }
  { by rewrite (sa_id _ _ S). }
  { by rewrite (sa_queue _ _ S). }
  { by rewrite (sa_id _ _ S), (frame_cached _ _ Hw1 F2), (frame_cached _ _ Hw F1). }
  destruct L3 as [Hw3 _ Hn3 Ea3 Eg3 S3].
  destruct (leave_cached_prefix w3 l a1 a3 q) as (a4 & w4 & E4 & F4 & _).
  { by rewrite Ea3, lookup_insert_eq. }
  { by rewrite (sa_queue _ _ S3), (sa_queue _ _ S). }
  { unfold agent_ok. by rewrite (sa_agent _ _ S3), Eg3. }
  { by rewrite (sa_queue _ _ S3), (sa_queue _ _ S), (sa_queue _ _ S1). }
  eapply races_more; [by eapply (race_found l 0)|]. eapply races_more; [by eapply (race_found l 1)|].
  eapply races_more; [by eapply (race_finish l 0)|]. apply races_panic.
  eapply (race_panic l 1); [done|]. rewrite E4. unfold mbind, M_bind, members_remove, modify, wg_done, wg_add.
  rewrite decide_True; [done|]. simpl.
  rewrite (fr_wg _ _ F4), Hn3, (fr_wg _ _ F2), (fr_wg _ _ F1). lia.
Qed.

End Race.
