(* ===== verification/ChatFacts.v ===== *)
(** * The theorems about chats

    A history of the package chat is a list of [ChatOp]: requests of the queues, events of
    the chat service, receives of the queue goroutines, in any order. [chat_inv] is the
    invariant of the manager over every history; its part [conv_ok] relates the channel of
    a conversation to what was sent, received and dropped so far. *)

From S2P Require Import Prelude Lru Model Queue Attempt World Chat.
Import Lru LruFacts.

(** ** What the trace says of the channel of a conversation *)

Section Channel.
Context {SRV : ChatServer}.

(** The states put into the channel, oldest first. *)
Fixpoint sent (l : loc) (t : list ChatCmd) : list ChatState :=
  match t with
  | [] => []
  | ChanSend l' st :: t => if decide (l' = l) then sent l t ++ [st] else sent l t
  | _ :: t => sent l t
  end.

(** The states the queue goroutine received, oldest first. *)
Fixpoint received (l : loc) (t : list ChatCmd) : list ChatState :=
  match t with
  | [] => []
  | ChanRecv l' st :: t => if decide (l' = l) then received l t ++ [st] else received l t
  | _ :: t => received l t
  end.

(** The states that were dropped. *)
Fixpoint dropped (l : loc) (t : list ChatCmd) : nat :=
  match t with
  | [] => 0
  | ChanDrop l' _ :: t => if decide (l' = l) then S (dropped l t) else dropped l t
  | _ :: t => dropped l t
  end.

(** The waits of pushState that ran into the timer. *)
Fixpoint timeouts (l : loc) (t : list ChatCmd) : nat :=
  match t with
  | [] => 0
  | ChanWait l' :: t' =>
      if decide (l' = l) then (if csv_reads t then timeouts l t' else S (timeouts l t'))
      else timeouts l t'
  | _ :: t => timeouts l t
  end.

(** The channel of a conversation against the trace. *)
Record chan_ok (t : list ChatCmd) (l : loc) (buffer : list ChatState) (stalled : bool) : Prop := ChanOk {
  ck_room : (length buffer <= STATE_BUFFER_SIZE)%nat;
  ck_fifo : sent l t = received l t ++ buffer;
  ck_wait : timeouts l t = if stalled then 1%nat else 0%nat;
  ck_drop : stalled = false -> dropped l t = 0%nat;
}.

(** Commands that are not an operation on the channel of another conversation. *)
Definition local_to (l : loc) (e : ChatCmd) : Prop :=
  match e with
  | ChanSend l' _ | ChanRecv l' _ | ChanWait l' | ChanDrop l' _ => l' = l
  | _ => True
  end.

(** Commands that are no operation on a channel. *)
Definition remote (e : ChatCmd) : Prop :=
  match e with ChanSend _ _ | ChanRecv _ _ | ChanWait _ | ChanDrop _ _ => False | _ => True end.

Lemma chan_ok_other t l l' b st es :
  Forall (local_to l) es -> l <> l' -> chan_ok t l' b st -> chan_ok (es ++ t) l' b st.
Proof.
  intros Hes Hne Hok. induction Hes as [|e es He _ IH]; [done|]. destruct IH as [R F W D].
  split; [done|..]; destruct e; simpl in *; simplify_eq; rewrite ?decide_False by done; auto.
Qed.

Lemma chan_ok_remote t l b st e : remote e -> chan_ok t l b st -> chan_ok (e :: t) l b st.
Proof. intros He [R F W D]. split; [done|..]; destruct e; simpl in *; by auto. Qed.

Lemma chan_ok_send t l b st x :
  (length b < STATE_BUFFER_SIZE)%nat -> chan_ok t l b st -> chan_ok (ChanSend l x :: t) l (b ++ [x]) st.
Proof.
  intros Hlt [R F W D]. split; simpl; rewrite ?decide_True by done; auto.
  - rewrite length_app. simpl. lia.
  - by rewrite F, app_assoc.
Qed.

Lemma chan_ok_recv t l b st x :
  chan_ok t l (x :: b) st -> chan_ok (ChanRecv l x :: t) l b st.
Proof.
  intros [R F W D]. split; simpl in *; rewrite ?decide_True by done; auto.
  - lia.
  - by rewrite F, <- app_assoc.
Qed.

Lemma chan_ok_drop t l b x : chan_ok t l b true -> chan_ok (ChanDrop l x :: t) l b true.
Proof. intros [R F W D]. split; simpl; rewrite ?decide_True by done; auto. done. Qed.

Lemma chan_ok_wait t l b :
  chan_ok t l b false -> chan_ok (ChanWait l :: t) l b (negb (csv_reads (ChanWait l :: t))).
Proof.
  intros [R F W D]. split; simpl; rewrite ?decide_True by done; auto.
  destruct (csv_reads _); simpl; by rewrite W.
Qed.

End Channel.

(** ** The invariant *)

Section Inv.
Context {SRV : ChatServer}.

Record conv_ok (t : list ChatCmd) (l : loc) (c : Conversation) : Prop := ConvOk {
  co_sessions : cv_sessions c <> [];
  co_chan : chan_ok t l (cv_state c) (cv_stateStalled c);
}.

(** The conversation the store has under an id. *)
Definition stored (s : ChatState_) (k : string) : option loc :=
  fst <$> Spec.find k (live (cs_chats s)).

Record chat_inv (s : ChatState_) : Prop := ChatInv {
  ci_wf : wf (cs_chats s);
  ci_store : forall k l, stored s k = Some l ->
    exists c, cs_heap s !! l = Some c /\ cv_id c = k;
  ci_fresh : forall l, is_Some (cs_heap s !! l) -> (l < cs_next s)%nat;
  ci_conv : forall l c, cs_heap s !! l = Some c -> conv_ok (cs_trace s) l c;
  ci_none : forall l, cs_heap s !! l = None -> chan_ok (cs_trace s) l [] false;
}.

(** An operation on a conversation of the heap that returns and keeps the invariant. *)
Definition runs_at {A} (l : loc) (m : CH A) : Prop := forall s,
  chat_inv s -> is_Some (cs_heap s !! l) ->
  exists a s', m s = Ret (a, s') /\ chat_inv s' /\ is_Some (cs_heap s' !! l).

Lemma chat_runs_bind {A B} l (m : CH A) (f : A -> CH B) :
  runs_at l m -> (forall a, runs_at l (f a)) -> runs_at l (m ≫= f).
Proof.
  intros Hm Hf s Hs Hl. destruct (Hm s Hs Hl) as (a & s1 & E1 & H1 & L1).
  destruct (Hf a s1 H1 L1) as (b & s2 & E2 & H2 & L2). exists b, s2.
  unfold mbind, CH_bind. by rewrite E1.
Qed.

Lemma chat_runs_ret {A} l (a : A) : runs_at l (mret a).
Proof. intros s Hs Hl. by exists a, s. Qed.

Lemma runs_millis l : runs_at l ch_millis.
Proof. intros s Hs Hl. by eexists _, s. Qed.

(** The value of the conversation is at hand in what follows. *)
Lemma chat_runs_get {A} l (f : Conversation -> CH A) :
  (forall s c, chat_inv s -> cs_heap s !! l = Some c ->
    exists a s', f c s = Ret (a, s') /\ chat_inv s' /\ is_Some (cs_heap s' !! l)) ->
  runs_at l (c ← get_conv l; f c).
Proof.
  intros Hf s Hs [c Hc]. unfold mbind, CH_bind, get_conv. rewrite Hc. by apply Hf.
Qed.

Lemma runs_get_any {A} l (f : Conversation -> CH A) :
  (forall c, runs_at l (f c)) -> runs_at l (c ← get_conv l; f c).
Proof. intros Hf. apply chat_runs_get. intros s c Hs Hc. by apply Hf. Qed.

(** A step that changes one conversation and the trace. *)
Lemma inv_step s l c c' es :
  chat_inv s -> cs_heap s !! l = Some c -> cv_id c' = cv_id c -> Forall (local_to l) es ->
  conv_ok (es ++ cs_trace s) l c' ->
  chat_inv (s <| cs_heap := (<[l := c']> (cs_heap s)) |> <| cs_trace := (es ++ cs_trace s) |>).
Proof.
  intros [W S F C N] Hc Hid Hes Hok. split; simpl; auto.
  - intros k l' (c0 & Hc0 & Hk)%S. destruct (decide (l = l')) as [<-|Hne].
    + exists c'. rewrite lookup_insert_eq. split; [done|]. simplify_eq. congruence.
    + exists c0. by rewrite lookup_insert_ne.
  - intros l'. destruct (decide (l = l')) as [<-|Hne]; [eauto|]. rewrite lookup_insert_ne by done. apply F.
  - intros l' c0. destruct (decide (l = l')) as [<-|Hne].
    + rewrite lookup_insert_eq. intros. by simplify_eq.
    + rewrite lookup_insert_ne by done. intros H0. destruct (C _ _ H0) as [C1 C2].
      split; [done|]. by apply chan_ok_other with l.
  - intros l'. destruct (decide (l = l')) as [<-|Hne]; [by rewrite lookup_insert_eq|].
    rewrite lookup_insert_ne by done. intros H0. apply chan_ok_other with l; auto.
Qed.

(** A write to a conversation that leaves its channel alone. *)
Record quiet_write (f : Conversation -> Conversation) : Prop := QuietWrite {
  qw_id : forall c, cv_id (f c) = cv_id c;
  qw_state : forall c, cv_state (f c) = cv_state c;
  qw_stalled : forall c, cv_stateStalled (f c) = cv_stateStalled c;
  qw_sessions : forall c, cv_sessions c <> [] -> cv_sessions (f c) <> [];
}.

Lemma chat_runs_mod l f : quiet_write f -> runs_at l (mod_conv l f).
Proof.
  intros [Q1 Q2 Q3 Q4] s Hs [c Hc]. unfold mod_conv. rewrite Hc. eexists tt, _. split; [done|].
  destruct (ci_conv _ Hs _ _ Hc) as [C1 C2]. split.
  - pose proof (inv_step s l c (f c) [] Hs Hc (Q1 c)) as H. simpl in H.
    destruct s as [a b n t]. simpl in *. apply H; [done|].
    split; [auto|]. by rewrite Q2, Q3.
  - simpl. rewrite lookup_insert_eq. eauto.
Qed.

Lemma quiet_session i g : quiet_write (fun c => c <| cv_sessions := (alter g i (cv_sessions c)) |>).
Proof.
  split; try done. intros c Hc. simpl. intros E. apply (f_equal length) in E.
  rewrite length_alter in E. by destruct (cv_sessions c).
Qed.

Lemma runs_mod_session l i g : runs_at l (mod_session l i g).
Proof. apply chat_runs_mod, quiet_session. Qed.

Lemma runs_call {A} l e (f : list ChatCmd -> A) : remote e -> runs_at l (ch_call e f).
Proof.
  intros He s Hs [c Hc]. eexists _, _. split; [done|]. split; [|by exists c].
  pose proof (inv_step s l c c [e] Hs Hc eq_refl) as H. simpl in H.
  destruct s as [a b n t]. simpl in *. rewrite insert_id in H by done. apply H.
  - repeat constructor. by destruct e.
  - destruct (ci_conv _ Hs _ _ Hc). split; [done|]. by apply chan_ok_remote.
Qed.

Lemma runs_pushState l st : runs_at l (pushState l st).
Proof.
  apply chat_runs_get. intros s c Hs Hc. destruct (ci_conv _ Hs _ _ Hc) as [C1 C2].
  assert (forall c' es, cv_id c' = cv_id c -> cv_sessions c' = cv_sessions c ->
    Forall (local_to l) es -> chan_ok (es ++ cs_trace s) l (cv_state c') (cv_stateStalled c') ->
    exists a s', Ret (tt, s <| cs_heap := (<[l := c']> (cs_heap s)) |> <| cs_trace := (es ++ cs_trace s) |>)
      = Ret (a, s') /\ chat_inv s' /\ is_Some (cs_heap s' !! l)) as Hgo.
  { intros c' es Ei Es Hes Hok. eexists tt, _. split; [done|]. split.
    - eapply inv_step; eauto. split; [by rewrite Es|done].
    - simpl. rewrite lookup_insert_eq. eauto. }
  pose proof (chan_ok_wait (cs_trace s) l (cv_state c)) as Hwait.
  destruct s as [a b n t]. simpl in *. case_decide as Hlen.
  - unfold send_state, mod_conv, ch_emit, ch_call, mbind, CH_bind. simpl. rewrite Hc. simpl.
    apply (Hgo (c <| cv_state := (cv_state c ++ [st]) |>) [ChanSend l st]); try done.
    + by repeat constructor.
    + by apply chan_ok_send.
  - destruct (cv_stateStalled c) eqn:Est.
    + unfold ch_emit, ch_call. simpl.
      destruct (Hgo c [ChanDrop l st]) as (a' & s' & E & H).
      * done.
      * done.
      * by repeat constructor.
      * rewrite Est. by apply chan_ok_drop.
      * rewrite insert_id in E by done. eauto.
    + specialize (Hwait C2).
      unfold ch_call, mbind, CH_bind. simpl. destruct (csv_reads (ChanWait l :: t)) eqn:Er.
      * unfold recv_state, send_state, get_conv, mod_conv, ch_emit, ch_call, mbind, CH_bind. simpl.
        rewrite Hc. destruct (cv_state c) as [|x rest] eqn:Ex; [simpl in Hlen; unfold STATE_BUFFER_SIZE in Hlen; lia|].
        simpl. rewrite Hc. simpl. rewrite lookup_insert_eq. simpl. rewrite insert_insert_eq.
        apply (Hgo (c <| cv_state := rest |> <| cv_state := (rest ++ [st]) |>)
                 [ChanSend l st; ChanRecv l x; ChanWait l]); try done.
        { by repeat constructor. }
        simpl. rewrite Est. apply chan_ok_send.
        { destruct C2 as [R _ _ _]. simpl in R. lia. }
        by apply chan_ok_recv.
      * unfold mod_conv, ch_emit, ch_call. simpl. rewrite Hc. simpl.
        apply (Hgo (c <| cv_stateStalled := true |>) [ChanDrop l st; ChanWait l]); try done.
        { by repeat constructor. }
        by apply chan_ok_drop.
Qed.

Lemma runs_recv l : runs_at l (recv_state l).
Proof.
  apply chat_runs_get. intros s c Hs Hc. destruct (ci_conv _ Hs _ _ Hc) as [C1 C2].
  destruct (cv_state c) as [|x rest] eqn:Ex; [by eexists _, s|].
  unfold mod_conv, ch_emit, ch_call, mbind, CH_bind. rewrite Hc. simpl.
  pose proof (fun E => inv_step s l c (c <| cv_state := rest |>) [ChanRecv l x] Hs Hc E) as H.
  destruct s as [a b n t]. simpl in *. eexists _, _. split; [done|]. split.
  - apply H; [done|by repeat constructor|]. split; [done|]. by apply chan_ok_recv.
  - simpl. rewrite lookup_insert_eq. eauto.
Qed.

(** *** The store *)

Lemma inv_cache s c' :
  chat_inv s -> wf c' ->
  (forall k l, fst <$> Spec.find k (live c') = Some l ->
     exists c, cs_heap s !! l = Some c /\ cv_id c = k) ->
  chat_inv (s <| cs_chats := c' |>).
Proof. intros [W S F C N] W' S'. by split. Qed.

Lemma get_stored now k s :
  chat_inv s ->
  wf (Get now k (cs_chats s)).2 /\
  (forall v, (Get now k (cs_chats s)).1 = Some v -> stored s k = Some v) /\
  (forall k' l, fst <$> Spec.find k' (live (Get now k (cs_chats s)).2) = Some l -> stored s k' = Some l).
Proof.
  intros Hs. destruct (Get_spec now k (cs_chats s) (ci_wf _ Hs)) as [W E]. split; [done|].
  destruct (Get now k (cs_chats s)) as [v c']. unfold stored, Spec.get in *. simpl in *.
  destruct (Spec.find k (live (cs_chats s))) as [[v0 e]|] eqn:Ef; [case_decide|];
    injection E as -> El; rewrite El; clear El.
  - split; [done|]. intros k' l. destruct (decide (k = k')) as [<-|Hne].
    + by rewrite Spec.find_remove_eq.
    + by rewrite Spec.find_remove_ne.
  - split; [by intros; simplify_eq|]. intros k' l. simpl. case_decide as Hk.
    + subst. by rewrite Ef.
    + by rewrite Spec.find_remove_ne.
  - done.
Qed.

Lemma inv_get k s v s' :
  chat_inv s -> chats_get k s = Ret (v, s') ->
  chat_inv s' /\ cs_heap s' = cs_heap s /\ (forall l, v = Some l -> stored s k = Some l).
Proof.
  intros Hs. unfold chats_get.
  destruct (get_stored (Z.quot (csv_now (cs_trace s)) 1000000000) k s Hs) as (W & Hv & Hk).
  destruct (Get _ k (cs_chats s)) as [v' c']. intros E. simplify_eq/=. split; [|split; [done|]].
  - apply inv_cache; [done..|]. intros k' l H. apply (ci_store _ Hs). by apply Hk.
  - intros l ->. by apply Hv.
Qed.

Lemma chats_get_runs k s : exists v s', chats_get k s = Ret (v, s').
Proof. unfold chats_get. destruct (Get _ _ _). eauto. Qed.

Lemma runs_chats_get l k : runs_at l (chats_get k).
Proof.
  intros s Hs [c Hc]. destruct (chats_get_runs k s) as (v & s' & E). exists v, s'. split; [done|].
  destruct (inv_get _ _ _ _ Hs E) as (H & Eh & _). split; [done|]. rewrite Eh. eauto.
Qed.

Lemma runs_StoreConversation l : runs_at l (StoreConversation l).
Proof.
  intros s Hs [c Hc]. unfold StoreConversation, mbind, CH_bind, get_conv. rewrite Hc.
  destruct (chats_get_runs (cv_id c) s) as (v & s' & E). rewrite E.
  destruct (inv_get _ _ _ _ Hs E) as (H & Eh & _). eexists tt, _. split; [done|].
  split; [|simpl; rewrite Eh; eauto].
  destruct (Add_spec (Z.quot (csv_now (cs_trace s')) 1000000000) (cv_id c) l
              (defaultExpiry (cs_chats s')) (cs_chats s') (ci_wf _ H)) as [W' El].
  apply inv_cache; [done|apply W'|]. intros k l' Hf.
  unfold AddWithDefaultExpires in Hf. rewrite El in Hf. apply fmap_Some in Hf as ([l0 e] & Hf & ->).
  apply Spec.find_take in Hf. simpl in Hf. case_decide as Hk.
  - simplify_eq. exists c. by rewrite Eh.
  - rewrite Spec.find_remove_ne in Hf by done. apply (ci_store _ H). unfold stored. by rewrite Hf.
Qed.

(** What the store holds after the removal of a conversation. *)
Lemma RemoveConversation_stored l s c :
  chat_inv s -> cs_heap s !! l = Some c ->
  exists s', RemoveConversation l s = Ret (tt, s') /\ wf (cs_chats s') /\
    cs_heap s' = cs_heap s /\ cs_next s' = cs_next s /\ cs_trace s' = cs_trace s /\
    forall k, stored s' k = if decide (k = cv_id c /\ stored s k = Some l) then None else stored s k.
Proof.
  intros Hs Hc. unfold RemoveConversation, mbind, CH_bind, get_conv. rewrite Hc. eexists. split; [done|].
  destruct (RemoveFunc_spec (cv_id c) (fun v => bool_decide (v = l)) (cs_chats s) (ci_wf _ Hs)) as [W El].
  split; [done|]. do 3 (split; [done|]). intros k. unfold stored. simpl. rewrite El. clear El W.
  destruct (Spec.find (cv_id c) (live (cs_chats s))) as [[v e]|] eqn:Ef.
  - case_bool_decide as Hv.
    + subst v. destruct (decide (k = cv_id c)) as [->|Hne].
      * rewrite Spec.find_remove_eq, Ef. simpl. by rewrite decide_True.
      * rewrite Spec.find_remove_ne by done. by rewrite decide_False by tauto.
    + rewrite decide_False; [done|]. intros [-> H]. rewrite Ef in H. by simplify_eq/=.
  - rewrite decide_False; [done|]. intros [-> H]. by rewrite Ef in H.
Qed.

Lemma runs_RemoveConversation l : runs_at l (RemoveConversation l).
Proof.
  intros s Hs [c Hc].
  destruct (RemoveConversation_stored l s c Hs Hc) as (s' & E & W & Eh & En & Et & Hst).
  exists tt, s'. split; [done|]. destruct Hs as [W0 S F C N]. rewrite Eh. split; [|eauto].
  split; rewrite ?Eh, ?En, ?Et; auto.
  intros k l'. rewrite Hst. case_decide; [done|]. apply S.
Qed.

Create HintDb chat.
#[local] Hint Resolve chat_runs_ret runs_millis runs_mod_session runs_pushState runs_recv : chat.
#[local] Hint Resolve runs_chats_get runs_StoreConversation runs_RemoveConversation : chat.
#[local] Hint Extern 1 (runs_at _ (ch_call _ _)) => apply runs_call; exact I : chat.
#[local] Hint Extern 1 (runs_at _ (mod_conv _ _)) => apply chat_runs_mod; by split : chat.

Ltac runs :=
  repeat (cbv beta zeta; first
    [ solve [auto with chat]
    | apply runs_get_any; intros
    | apply chat_runs_bind; [|intros]
    | case_match ]).

Lemma quiet_SetStop now : quiet_write (SetStop now).
Proof. split; intros c; unfold SetStop; by case_decide. Qed.

Lemma quiet_append sess : quiet_write (fun c => c <| cv_sessions := (cv_sessions c ++ [sess]) |>).
Proof. split; try done. intros c _. simpl. by destruct (cv_sessions c). Qed.

#[local] Hint Resolve quiet_SetStop quiet_append chat_runs_mod : chat.

Lemma runs_first l : runs_at l (MemberSession l).
Proof.
  apply chat_runs_get. intros s c Hs Hc. destruct (ci_conv _ Hs _ _ Hc) as [C1 _].
  unfold session_at. destruct (cv_sessions c) as [|x r]; [done|]. simpl. eauto.
Qed.

Lemma runs_last l : runs_at l (LastSession l).
Proof.
  apply chat_runs_get. intros s c Hs Hc. destruct (ci_conv _ Hs _ _ Hc) as [C1 _].
  destruct (last (cv_sessions c)) eqn:E; [by eexists _, s|]. by apply last_None in E.
Qed.
#[local] Hint Resolve runs_first runs_last : chat.

Lemma runs_cli_err l e whr key : remote e -> runs_at l (cli_err e whr key).
Proof. intros He. unfold cli_err. apply chat_runs_bind; [by apply runs_call|]. intros. runs. Qed.
#[local] Hint Extern 1 (runs_at _ (cli_err _ _ _)) => apply runs_cli_err; exact I : chat.

Lemma find_session_lookup test i l j :
  find_session test i l = Some j -> (i <= j)%nat /\ exists s, l !! (j - i)%nat = Some s /\
    test s = true /\ se_stopAt s = 0.
Proof.
  revert i. induction l as [|s l IH]; intros i; simpl; [done|].
  destruct (test s && bool_decide (se_stopAt s = 0)) eqn:E.
  - intros. simplify_eq. apply andb_prop in E as [E1 E2]. apply bool_decide_eq_true in E2.
    split; [lia|]. exists s. by replace (j - j)%nat with 0%nat by lia.
  - intros (Hle & s' & H)%IH. split; [lia|]. exists s'.
    by replace (j - i)%nat with (S (j - S i))%nat by lia.
Qed.

Lemma runs_SendText l text : runs_at l (SendText l text).
Proof.
  apply runs_get_any. intros c. destruct (find_session _ 0 (cv_sessions c)) as [i|] eqn:E; [|runs].
  apply find_session_lookup in E as (_ & x & Hx & _). rewrite Nat.sub_0_r in Hx.
  apply chat_runs_bind; [|intros; runs]. intros s Hs Hl. unfold session_at. rewrite Hx. eauto.
Qed.
#[local] Hint Resolve runs_SendText : chat.

Lemma runs_setClose l t cause : runs_at l (setClose l t cause).
Proof. unfold setClose. runs. Qed.

Lemma runs_setDeclined l i t : runs_at l (setDeclined l i t).
Proof. unfold setDeclined. runs. Qed.

Lemma runs_setJoined l i t : runs_at l (setJoined l i t).
Proof. unfold setJoined. runs. Qed.

Lemma runs_setNewMessage l i : runs_at l (setNewMessage l i).
Proof. unfold setNewMessage. runs. Qed.

Lemma runs_Reporting l b : runs_at l (Reporting l b).
Proof. unfold Reporting. runs. Qed.

Lemma runs_InviteInternal_call l u t title v : runs_at l (InviteInternal_call l u t title v).
Proof. unfold InviteInternal_call. runs. Qed.

Lemma runs_InviteInternal_answer l i r : runs_at l (InviteInternal_answer l i r).
Proof. unfold InviteInternal_answer. runs. Qed.
#[local] Hint Resolve runs_setClose runs_setDeclined runs_setJoined runs_setNewMessage runs_Reporting
  runs_InviteInternal_call runs_InviteInternal_answer : chat.

(** ** Histories *)

(** A request names a conversation of the heap, by its location; the answer of an invite
    names the session by its index. *)
Inductive ChatOp :=
| OpNew (domainId : Z) (id inviterId inviterUserId : string) (variables : gomap)
| OpInvite (l : loc) (userId timeout : Z) (title : string) (vars : gomap)
| OpInviteCall (l : loc) (userId timeout : Z) (title : string) (vars : gomap)
| OpInviteAnswer (l : loc) (i : nat) (r : string + string)
| OpReporting (l : loc) (noLeave : bool)
| OpSendText (l : loc) (text : string)
| OpRecv (l : loc)
| OpRemove (l : loc)
| OpEvent (e : ChatEvent).

(** Does nothing when there is no such conversation. *)
Definition at_conv {A} (l : loc) (m : CH A) : CH unit := fun s =>
  match cs_heap s !! l with
  | Some _ => (_ ← m; mret tt) s
  | None => Ret (tt, s)
  end.

Definition chat_step (o : ChatOp) : CH unit :=
  match o with
  | OpNew d id inv usr vars => _ ← NewConversation d id inv usr vars; mret tt
  | OpInvite l u t title v => at_conv l (InviteInternal l u t title v)
  | OpInviteCall l u t title v => at_conv l (InviteInternal_call l u t title v)
  | OpInviteAnswer l i r => at_conv l (InviteInternal_answer l i r)
  | OpReporting l b => at_conv l (Reporting l b)
  | OpSendText l t => at_conv l (SendText l t)
  | OpRecv l => at_conv l (recv_state l)
  | OpRemove l => at_conv l (RemoveConversation l)
  | OpEvent e => handleEvent e
  end.

Fixpoint run_chat (h : list ChatOp) : CH unit :=
  match h with
  | [] => mret tt
  | o :: h => _ ← chat_step o; run_chat h
  end.

(** An operation that returns and keeps the invariant. *)
Definition keeps_inv {A} (m : CH A) : Prop := forall s,
  chat_inv s -> exists a s', m s = Ret (a, s') /\ chat_inv s'.

Lemma runs_at_conv {A} l (m : CH A) : runs_at l m -> keeps_inv (at_conv l m).
Proof.
  intros Hm s Hs. unfold at_conv. destruct (cs_heap s !! l) as [c|] eqn:Hc; [|by exists tt, s].
  destruct (Hm s Hs) as (a & s' & E & H & _); [eauto|]. exists tt, s'.
  unfold mbind, CH_bind. by rewrite E.
Qed.

Lemma runs_handleEvent e : keeps_inv (handleEvent e).
Proof.
  intros s Hs. unfold handleEvent, GetConversation, mbind, CH_bind. case_decide; [by exists tt, s|].
  destruct (chats_get_runs (ConversationId e) s) as (v & s1 & E). rewrite E.
  destruct (inv_get _ _ _ _ Hs E) as (H1 & Eh & Hv).
  destruct v as [l|]; [|by exists tt, s1]. simpl.
  destruct (ci_store _ Hs _ _ (Hv l eq_refl)) as (c & Hc & _). rewrite <- Eh in Hc.
  assert (forall m : CH unit, runs_at l m -> exists a s', m s1 = Ret (a, s') /\ chat_inv s') as Hgo.
  { intros m Hm. destruct (Hm s1 H1) as (a & s' & ? & ? & _); eauto. }
  repeat case_decide; apply Hgo; runs.
Qed.

Lemma chan_ok_new t l : (forall e, e ∈ t -> remote e) -> chan_ok t l [] false.
Proof.
  intros Ht. induction t as [|e t IH]; [split; simpl; auto; unfold STATE_BUFFER_SIZE; lia|].
  apply chan_ok_remote; [apply Ht; left|]. apply IH. intros e' He'. apply Ht. by right.
Qed.

Lemma inv_trace s e : remote e -> chat_inv s -> chat_inv (s <| cs_trace := (e :: cs_trace s) |>).
Proof.
  intros He [W S F C N]. split; simpl; auto.
  - intros l c Hc. destruct (C _ _ Hc). split; [done|]. by apply chan_ok_remote.
  - intros l Hl. apply chan_ok_remote; auto.
Qed.

Lemma inv_alloc s now d id inv usr vars :
  chat_inv s ->
  chat_inv (s <| cs_heap := (<[cs_next s := newConversation now d id inv usr vars]> (cs_heap s)) |>
              <| cs_next := (S (cs_next s)) |>).
Proof.
  intros [W S F C N].
  assert (cs_heap s !! cs_next s = None) as Hnew.
  { destruct (cs_heap s !! cs_next s) eqn:E; [|done]. specialize (F (cs_next s)). rewrite E in F.
    specialize (F ltac:(eauto)). lia. }
  split; simpl; auto.
  - intros k l (c & Hc & Hk)%S. exists c. rewrite lookup_insert_ne; [done|]. congruence.
  - intros l. destruct (decide (cs_next s = l)) as [<-|Hne]; [lia|].
    rewrite lookup_insert_ne by done. intros H%F. lia.
  - intros l c. destruct (decide (cs_next s = l)) as [<-|Hne].
    + rewrite lookup_insert_eq. intros. simplify_eq. split; [done|]. by apply N.
    + rewrite lookup_insert_ne by done. apply C.
  - intros l. destruct (decide (cs_next s = l)) as [<-|Hne]; [by rewrite lookup_insert_eq|].
    rewrite lookup_insert_ne by done. apply N.
Qed.

Lemma runs_NewConversation d id inv usr vars : keeps_inv (NewConversation d id inv usr vars).
Proof.
  intros s Hs. unfold NewConversation, ch_call, ch_millis, new_conv, mbind, CH_bind. simpl.
  set (s1 := s <| cs_trace := _ |>).
  assert (chat_inv s1) as H1 by by apply inv_trace.
  destruct (csv_client _); [by eexists _, s1|].
  match goal with |- context [StoreConversation ?l ?s2] =>
    assert (chat_inv s2) as H2 by apply (inv_alloc s1 _ _ _ _ _ _ H1);
    destruct (runs_StoreConversation l s2 H2) as (a & s3 & E & H3 & _)
  end.
  { simpl. rewrite lookup_insert_eq. eauto. }
  rewrite E. by eexists _, s3.
Qed.

Lemma chat_step_runs o : keeps_inv (chat_step o).
Proof.
  destruct o; simpl; try (apply runs_at_conv; solve [auto with chat]).
  - intros s Hs. destruct (runs_NewConversation domainId id inviterId inviterUserId variables s Hs)
      as (a & s' & E & H). exists tt, s'. unfold mbind, CH_bind. by rewrite E.
  - apply runs_at_conv. unfold InviteInternal. runs.
  - apply runs_handleEvent.
Qed.

Lemma run_chat_runs h : keeps_inv (run_chat h).
Proof.
  induction h as [|o h IH]; intros s Hs; [by exists tt, s|].
  destruct (chat_step_runs o s Hs) as (a & s1 & E1 & H1).
  destruct (IH s1 H1) as (b & s2 & E2 & H2). exists b, s2. simpl. unfold mbind, CH_bind. by rewrite E1.
Qed.

Lemma NewChatManager_inv : chat_inv NewChatManager.
Proof.
  split; simpl; try done.
  - apply NewLruWithParams_wf.
  - by intros l [? ?].
  - intros l _. apply chan_ok_new. intros e He. by apply not_elem_of_nil in He.
Qed.

(** ** Theorems *)

(** C14. Whatever the queues and the chat service do, no operation of the chat package panics
    or blocks, a conversation has a session, its channel holds at most 50 states, and the
    store holds conversations of the heap under their own ids. *)
Theorem chat_histories_run (h : list ChatOp) :
  exists s, run_chat h NewChatManager = Ret (tt, s) /\
    (forall k l, stored s k = Some l -> exists c, cs_heap s !! l = Some c /\ cv_id c = k) /\
    (forall l c, cs_heap s !! l = Some c ->
       cv_sessions c <> [] /\ (length (cv_state c) <= STATE_BUFFER_SIZE)%nat).
Proof.
  destruct (run_chat_runs h _ NewChatManager_inv) as ([] & s & E & [W S F C N]). exists s.
  split; [done|]. split; [done|]. intros l c Hc. by destruct (C l c Hc) as [? []].
Qed.

(** C13. The states of a conversation reach the queue goroutine in the order they were sent:
    at any time the states sent are those received followed by those in the channel. The
    event loop waits for the reader until the timer fires at most once per conversation, and
    no state is dropped before that. *)
Theorem chat_states_in_order (h : list ChatOp) s l c :
  run_chat h NewChatManager = Ret (tt, s) -> cs_heap s !! l = Some c ->
  sent l (cs_trace s) = received l (cs_trace s) ++ cv_state c /\
  (timeouts l (cs_trace s) <= 1)%nat /\
  (timeouts l (cs_trace s) = 0%nat -> dropped l (cs_trace s) = 0%nat).
Proof.
  intros E Hc. destruct (run_chat_runs h _ NewChatManager_inv) as (? & s' & E' & Hs).
  rewrite E in E'. simplify_eq. destruct (ci_conv _ Hs _ _ Hc) as [_ [R F T D]].
  split; [done|]. rewrite T. destruct (cv_stateStalled c); split; [lia|done|lia|auto].
Qed.

(** The removal of a conversation takes it out of the store, and leaves everything else
    there: also another conversation that was stored under the same id since. *)
Theorem remove_conversation_only_own l s c :
  chat_inv s -> cs_heap s !! l = Some c ->
  exists s', RemoveConversation l s = Ret (tt, s') /\ chat_inv s' /\
    (forall k, stored s' k <> Some l \/ k <> cv_id c) /\
    (forall k l', l' <> l -> stored s k = Some l' -> stored s' k = Some l').
Proof.
  intros Hs Hc. destruct (RemoveConversation_stored l s c Hs Hc) as (s' & E & W & _ & _ & _ & Hst).
  destruct (runs_RemoveConversation l s Hs) as (u & s1 & E1 & H1 & _); [eauto|].
  rewrite E in E1. simplify_eq. exists s1. split; [done|]. split; [done|]. split.
  - intros k. rewrite Hst. destruct (decide (k = cv_id c)) as [->|]; [left|by right].
    case_decide; naive_solver.
  - intros k l' Hne Hk. rewrite Hst. rewrite decide_False; [done|]. rewrite Hk. naive_solver.
Qed.

(** The queue goroutine does not learn that an agent joined when the event of the join is
    handled before the answer of the invite: the session has no invite id yet. *)
Lemma join_before_answer l s c channelId t :
  cs_heap s !! l = Some c -> channelId <> "" ->
  (forall x, x ∈ cv_sessions c -> se_InviteId x = "") ->
  exists s', setJoined l channelId t s = Ret (tt, s') /\ cs_trace s' = cs_trace s /\
    cs_heap s' !! l = Some (c <| cv_lastMessageAt := (Z.quot (csv_now (cs_trace s)) 1000000) |>).
Proof.
  intros Hc Hid Hx.
  assert (forall i r, last_session channelId i (cv_sessions c) r = r) as Hl.
  { induction (cv_sessions c) as [|x xs IH]; [done|]. intros i r. simpl.
    rewrite (Hx x) by left. rewrite bool_decide_false by done. simpl. apply IH.
    intros y Hy. apply Hx. by right. }
  unfold setJoined, mbind, CH_bind, get_conv, ch_millis, mod_conv. rewrite Hc, Hl, Hc.
  eexists. split; [done|]. split; [done|]. simpl. by rewrite lookup_insert_eq.
Qed.

End Inv.

(** ** The sessions of a conversation *)

Section Sessions.
Context {SRV : ChatServer}.

(** What happens on the channel of a conversation leaves its sessions alone. *)
Definition same_sessions {A} (l : loc) (m : CH A) : Prop := forall s c,
  cs_heap s !! l = Some c ->
  match m s with
  | Ret (_, s') => exists c', cs_heap s' !! l = Some c' /\ cv_sessions c' = cv_sessions c
  | _ => True
  end.

Lemma same_bind {A B} l (m : CH A) (f : A -> CH B) :
  same_sessions l m -> (forall a, same_sessions l (f a)) -> same_sessions l (m ≫= f).
Proof.
  intros Hm Hf s c Hc. unfold mbind, CH_bind. specialize (Hm s c Hc).
  destruct (m s) as [[a s1]| |]; [|done..]. destruct Hm as (c1 & H1 & E1).
  specialize (Hf a s1 c1 H1). destruct (f a s1) as [[b s2]| |]; [|done..].
  by rewrite <- E1.
Qed.

Lemma same_mod l f : (forall c, cv_sessions (f c) = cv_sessions c) -> same_sessions l (mod_conv l f).
Proof. intros Hf s c Hc. unfold mod_conv. rewrite Hc. simpl. rewrite lookup_insert_eq. eauto. Qed.

Lemma same_get l : same_sessions l (get_conv l).
Proof. intros s c Hc. unfold get_conv. rewrite Hc. eauto. Qed.

Lemma same_call {A} l e (f : list ChatCmd -> A) : same_sessions l (ch_call e f).
Proof. intros s c Hc. simpl. eauto. Qed.

Lemma same_ret {A} l (a : A) : same_sessions l (mret a).
Proof. intros s c Hc. simpl. eauto. Qed.

Lemma same_pushState l st : same_sessions l (pushState l st).
Proof.
  unfold pushState, send_state, recv_state, ch_emit.
  repeat first [apply same_bind; [|intros] | apply same_mod; done | apply same_get
               | apply same_call | apply same_ret | case_match].
Qed.

(** An event of a declined invite that carries no invite id stops the session of the member. *)
Lemma decline_without_id l s c m rest t :
  chat_inv s -> cs_heap s !! l = Some c -> cv_sessions c = m :: rest ->
  se_InviteId m = "" -> se_stopAt m = 0 ->
  exists s' c' m' rest', setDeclined l "" t s = Ret (tt, s') /\ cs_heap s' !! l = Some c' /\
    cv_sessions c' = m' :: rest' /\ se_stopAt m' = t.
Proof.
  intros Hs Hc Em Ei Et.
  destruct (runs_setDeclined l "" t s Hs) as ([] & s' & E & _ & _); [eauto|].
  revert E. unfold setDeclined, mbind at 1 2, CH_bind, get_conv. rewrite Hc.
  unfold getSessionByInviteId. rewrite Em. simpl. rewrite !bool_decide_true by done. simpl.
  unfold mod_session, mod_conv. rewrite Hc. intros E.
  set (s1 := s <| cs_heap := _ |>) in E.
  destruct (cs_heap s1 !! l) as [c1|] eqn:H1; [|simpl in H1; by rewrite lookup_insert_eq in H1].
  pose proof (same_pushState l ChatStateDeclined s1 c1 H1) as Hp. rewrite E in Hp.
  destruct Hp as (c' & Hc' & Es). simpl in H1. rewrite lookup_insert_eq in H1. simplify_eq.
  simpl in Es. rewrite Em in Es. eexists _, c', _, _. split; [|done]. rewrite <- E.
  unfold setDeclined, mbind, CH_bind, get_conv. rewrite Hc. unfold getSessionByInviteId. rewrite Em.
  simpl. rewrite !bool_decide_true by done. simpl. unfold mod_session, mod_conv. by rewrite Hc.
Qed.

End Sessions.

(** ** Witnesses *)

(** A chat service that accepts everything, behind a reader that does not read. *)
Definition demo_server : ChatServer := {|
  csv_now := fun t => 1000000000 * (1 + Z.of_nat (length t));
  csv_client := fun _ => None; csv_err := fun _ => None; csv_invite := fun _ => inr "invite";
  csv_reads := fun _ => false; csv_AgentLeave := "agent_leave" |}.

Definition demo_chat_event (name : string) : ChatEvent := {|
  xe_Name := name; xe_DomainId := 1; xe_UserId := 7;
  xe_Data := {[ "conversation_id" := DString "conv"; "timestamp" := DNumber 5; "cause" := DString "Transfer";
                "member" := DObject {[ "id" := "invite" ]} ]} |}.

(** An agent is invited and joins, the queue receives one state, sixty members leave. *)
Definition demo_chat_history : list ChatOp :=
  [OpNew 1 "conv" "inviter" "user" None; OpInvite 0 7 30 "title" None;
   OpEvent (demo_chat_event "join_conversation"); OpRecv 0]
  ++ replicate 60 (OpEvent (demo_chat_event "leave_conversation")).

Definition demo_chat_state (h : list ChatOp) : ChatState_ :=
  match run_chat (SRV := demo_server) h NewChatManager with Ret (_, s) => s | _ => NewChatManager end.

Lemma chat_states_in_order_witness :
  exists c, cs_heap (demo_chat_state demo_chat_history) !! 0%nat = Some c /\
    length (cv_state c) = 50%nat /\ dropped 0 (cs_trace (demo_chat_state demo_chat_history)) = 11%nat /\
    sent 0 (cs_trace (demo_chat_state demo_chat_history)) =
    received 0 (cs_trace (demo_chat_state demo_chat_history)) ++ cv_state c.
Proof.
  destruct (cs_heap (demo_chat_state demo_chat_history) !! 0%nat) as [c|] eqn:E;
    [|by vm_compute in E].
  exists c. split; [done|]. split; [vm_compute in E; injection E as <-; reflexivity|].
  split; [by vm_compute|].
  destruct (chat_states_in_order (SRV := demo_server) demo_chat_history
              (demo_chat_state demo_chat_history) 0%nat c) as (H & _).
  - by vm_compute.
  - exact E.
  - exact H.
Defined.

(** The second conversation with an id survives the removal of the first. *)
Lemma remove_conversation_only_own_witness :
  let s := demo_chat_state [OpNew 1 "conv" "a" "u" None; OpNew 1 "conv" "b" "u" None] in
  exists s', RemoveConversation 0 s = Ret (tt, s') /\ stored s' "conv" = Some 1%nat.
Proof.
  intros s. destruct (cs_heap s !! 0%nat) as [c|] eqn:E; [|by vm_compute in E].
  destruct (remove_conversation_only_own (SRV := demo_server) 0%nat s c) as (s' & E' & _ & _ & H).
  - destruct (run_chat_runs (SRV := demo_server)
      [OpNew 1 "conv" "a" "u" None; OpNew 1 "conv" "b" "u" None] _ NewChatManager_inv) as (? & s0 & E0 & H0).
    assert (s0 = s) as <-; [|exact H0]. vm_compute in E0. injection E0 as _ <-. by vm_compute.
  - exact E.
  - exists s'. split; [exact E'|]. apply H; [lia|by vm_compute].
Defined.
