(* ===== verification/RunFrame.v ===== *)
(** * The goroutines of the queues, against the count of attempts

    [settles l m] describes a goroutine of the attempt at [l] by how it ends ([fate]): it took
    the attempt out of the manager, or it handed it to the end of the conversation, or it
    touched nothing. The steps of its loops leave the count alone, or return with such a fate
    ([step_ok]). The database [framed] is extended with the operations the call queues share,
    and [settle] walks the body of a goroutine. *)

From S2P Require Import Prelude Model Queue Attempt TaskChannel Resource Calls World Agents.
From S2P Require Import Events Schema Manager Team Distribute Messages Dialing Frame Invariant Lifecycle.
From S2P Require Import Calling.

(** ** The operations the queues share *)

Section FramedCalls.
Context {OC : Type -> Type} {HOC : ObjectCache OC} {OCL : ObjectCacheLaws OC} {SV : Services} {DE : Decoders}.
Context {CV : CallViews}.

Abbreviation fr m := (framed (OC := OC) m).

Lemma framed_peek id : fr (peek id).
Proof. unfold peek. framed_op. Qed.
#[local] Hint Resolve framed_peek : framed.

Lemma framed_hangup_call id c : fr (hangup_call id c).
Proof. unfold hangup_call. framed_op. Qed.
#[local] Hint Resolve framed_hangup_call : framed.

Lemma framed_bridge_sleep q : fr (bridge_sleep q).
Proof. unfold bridge_sleep. framed_op. Qed.

Lemma framed_leaving_hooks l : fr (leaving_hooks l).
Proof. unfold leaving_hooks. framed_op. Qed.

Lemma framed_RecordAllCalls b : fr (RecordAllCalls b).
Proof. unfold RecordAllCalls. framed_op. Qed.

Lemma framed_SetHoldMusic q rq : fr (SetHoldMusic q rq).
Proof. unfold SetHoldMusic. framed_op. Qed.
#[local] Hint Resolve framed_SetHoldMusic : framed.

Lemma framed_Queue_IsHuman amd id : fr (Queue_IsHuman amd id).
Proof. unfold Queue_IsHuman. framed_op. Qed.
#[local] Hint Resolve framed_Queue_IsHuman : framed.

Lemma framed_amd_pending amd id st : fr (amd_pending amd id st).
Proof. unfold amd_pending. framed_op. Qed.
#[local] Hint Resolve framed_amd_pending : framed.

Lemma framed_hasProcessAmd q amd id st : fr (hasProcessAmd q amd id st).
Proof. unfold hasProcessAmd. framed_op. Qed.

Lemma framed_AgentCallRequest q ag tm a c apps : fr (AgentCallRequest q ag tm a c apps).
Proof. unfold AgentCallRequest. framed_op. Qed.

Lemma framed_HangupManyCall i c ids : fr (HangupManyCall i c ids).
Proof. unfold HangupManyCall. framed_op. Qed.

Lemma framed_NewCallUseResource rq r : fr (NewCallUseResource rq r).
Proof. unfold NewCallUseResource. framed_op. Qed.

Lemma framed_CallCheckResourceError r id : fr (CallCheckResourceError r id).
Proof. unfold CallCheckResourceError. framed_op. Qed.

Lemma framed_GetTransferredCall id : fr (GetTransferredCall id).
Proof. unfold GetTransferredCall. framed_op. Qed.
#[local] Hint Resolve framed_GetTransferredCall : framed.

Lemma framed_MissedAgentAttempt a g id : fr (MissedAgentAttempt a g id).
Proof. unfold MissedAgentAttempt. framed_op. Qed.

Lemma framed_receive_transfer tm l g id : fr (receive_transfer tm l g id).
Proof. unfold receive_transfer. framed_op. Qed.

Lemma framed_distribute_event q tm l g m a : fr (distribute_event q tm l g m a).
Proof. unfold distribute_event. framed_op. Qed.

Lemma framed_with_agent {A} g (f : Agent -> M OC A) : (forall ag, fr (f ag)) -> fr (with_agent g f).
Proof. intros Hf. unfold with_agent. framed_op. Qed.

Lemma framed_bridge_once l g : fr (bridge_once l g).
Proof. unfold bridge_once, with_agent. framed_op. Qed.

Lemma framed_hangup_agent m a : fr (hangup_agent m a).
Proof. unfold hangup_agent. framed_op. Qed.

Lemma framed_release_agent tm l g id : fr (release_agent tm l g id).
Proof. unfold release_agent. framed_op. Qed.

Lemma set_recordings_no_panic id d all mono rq s :
  set_recordings id d all mono rq = Panic s -> s <> wg_message.
Proof.
  unfold set_recordings, Calls.SetRecordings. simpl. destruct (cr_Variables rq); simpl; intros; by simplify_eq.
Qed.

Lemma framed_set_recordings id d all mono rq : fr (lift (set_recordings id d all mono rq)).
Proof. apply framed_lift. intros s. apply set_recordings_no_panic. Qed.

End FramedCalls.

#[export] Hint Resolve framed_peek framed_hangup_call framed_bridge_sleep framed_leaving_hooks
  framed_RecordAllCalls framed_SetHoldMusic framed_Queue_IsHuman framed_amd_pending framed_hasProcessAmd
  framed_AgentCallRequest framed_HangupManyCall framed_NewCallUseResource framed_CallCheckResourceError
  framed_GetTransferredCall framed_MissedAgentAttempt framed_receive_transfer framed_distribute_event
  framed_bridge_once framed_hangup_agent framed_release_agent framed_set_recordings : framed.
#[export] Hint Extern 1 (framed (with_agent _ _)) => apply framed_with_agent; intros; framed_op : framed.

(** ** How a goroutine ends *)

Section Fate.
Context {OC : Type -> Type} {HOC : ObjectCache OC} {OCL : ObjectCacheLaws OC} {SV : Services} {DE : Decoders}.
Context {CV : CallViews}.

Abbreviation W := (World OC).

(** The attempt at [l] left. *)
Definition left_at (l : loc) (w w' : W) : Prop :=
  exists a, w_attempts w !! l = Some a /\ gone (at_Id a) w w'.

(** The last thing that touched the attempt was the end of the conversation. *)
Definition reported_at (l : loc) (w w' : W) : Prop :=
  exists tm q ag reported transfer w1 w2, frame w w1 /\
    Team_Reporting tm q l ag reported transfer w1 = Ret (tt, w2) /\ frame w2 w'.

Definition fate (l : loc) (x : RunEnd) (w w' : W) : Prop :=
  match x with
  | RunLeft => left_at l w w'
  | RunReporting => reported_at l w w'
  | RunDropped => frame w w'
  end.

(** Every run from a state with the invariant does not break the wait group, and ends as
    [Q] says, if it returns. *)
Definition ends {A} (Q : A -> W -> W -> Prop) (m : M OC A) : Prop := forall w, minv w ->
  match m w with
  | Ret (a, w') => Q a w w'
  | Panic s => s <> wg_message
  | Block _ => True
  end.

(** [drops]: the goroutine may end without telling anyone. *)
Definition settled (drops : bool) (l : loc) (x : RunEnd) (w w' : W) : Prop :=
  fate l x w w' /\ (x = RunDropped -> drops = true).

Definition stepped {S} (drops : bool) (l : loc) (r : RunEnd + S) (w w' : W) : Prop :=
  match r with inl x => settled drops l x w w' | inr _ => frame w w' end.

Definition settles (drops : bool) (l : loc) (m : M OC RunEnd) : Prop := ends (settled drops l) m.

Definition step_ok {S} (drops : bool) (l : loc) (m : M OC (RunEnd + S)) : Prop := ends (stepped drops l) m.

(** After the operation the attempt at [l] is gone. *)
Definition leaves {A} (l : loc) (m : M OC A) : Prop := ends (fun _ => left_at l) m.

(** The rest of a goroutine that only cleans up and returns [x]. *)
Definition keeps (x : RunEnd) (m : M OC RunEnd) : Prop := ends (fun y w w' => y = x /\ frame w w') m.

Lemma left_frame_l l (w w1 w2 : W) : minv w -> frame w w1 -> left_at l w1 w2 -> left_at l w w2.
Proof.
  intros Hw F (a1 & H1 & G). pose proof (fr_attempts _ _ F l) as Hl. rewrite H1 in Hl.
  destruct (w_attempts w !! l) as [a|] eqn:Ha; [|done]. exists a. split; [done|].
  rewrite <- Hl. by eapply gone_frame_l.
Qed.

Lemma left_frame_r l (w w1 w2 : W) : left_at l w w1 -> frame w1 w2 -> left_at l w w2.
Proof. intros (a & Ha & G) F. exists a. split; [done|]. by eapply gone_frame_r. Qed.

Lemma fate_frame_l l x (w w1 w2 : W) : minv w -> frame w w1 -> fate l x w1 w2 -> fate l x w w2.
Proof.
  intros Hw F. destruct x; simpl.
  - by apply left_frame_l.
  - intros (tm & q & ag & r & t & w3 & w4 & F1 & E & F2).
    exists tm, q, ag, r, t, w3, w4. split; [by etrans|done].
  - by etrans.
Qed.

Lemma fate_frame_r l x (w w1 w2 : W) : fate l x w w1 -> frame w1 w2 -> fate l x w w2.
Proof.
  intros H F. destruct x; simpl in *.
  - by eapply left_frame_r.
  - destruct H as (tm & q & ag & r & t & w3 & w4 & F1 & E & F2).
    exists tm, q, ag, r, t, w3, w4. split; [done|]. split; [done|by etrans].
  - by etrans.
Qed.

Lemma settled_frame_l d l x (w w1 w2 : W) :
  minv w -> frame w w1 -> settled d l x w1 w2 -> settled d l x w w2.
Proof. intros Hw F [H D]. split; [|done]. by eapply fate_frame_l. Qed.

Lemma stepped_frame_l {S} d l (r : RunEnd + S) (w w1 w2 : W) :
  minv w -> frame w w1 -> stepped d l r w1 w2 -> stepped d l r w w2.
Proof. intros Hw F. destruct r; simpl; [by apply settled_frame_l|by etrans]. Qed.

Lemma ends_bind {A B} (P : A -> W -> W -> Prop) (Q : B -> W -> W -> Prop) (m : M OC A) (f : A -> M OC B) :
  ends P m ->
  (forall w a w1, minv w -> P a w w1 ->
     match f a w1 with
     | Ret (b, w') => Q b w w'
     | Panic s => s <> wg_message
     | Block _ => True
     end) ->
  ends Q (m ≫= f).
Proof.
  intros Hm Hf w Hw. specialize (Hm w Hw). unfold mbind, M_bind.
  destruct (m w) as [[a w1]| |]; [|done..]. by apply Hf.
Qed.

Lemma framed_ends {A} (m : M OC A) : framed m -> ends (fun _ => frame) m.
Proof. intros Hm w _. exact (Hm w). Qed.

(** A framed step in front. *)
Lemma ends_after {A B} (Q : B -> W -> W -> Prop) (m : M OC A) (f : A -> M OC B) :
  (forall b w w1 w2, minv w -> frame w w1 -> Q b w1 w2 -> Q b w w2) ->
  framed m -> (forall a, ends Q (f a)) -> ends Q (m ≫= f).
Proof.
  intros HQ Hm Hf. apply ends_bind with (P := fun _ => frame); [by apply framed_ends|].
  intros w a w1 Hw F. specialize (Hf a w1 (frame_minv _ _ F Hw)).
  destruct (f a w1) as [[b w2]| |]; [|done..]. by eapply HQ.
Qed.

Lemma ends_ret {A} (Q : A -> W -> W -> Prop) a : (forall w, Q a w w) -> ends Q (mret a).
Proof. intros HQ w _. apply HQ. Qed.

Lemma ends_panic {A} (Q : A -> W -> W -> Prop) s : s <> wg_message -> ends Q (panic s).
Proof. by intros Hs w _. Qed.

Lemma ends_run {A} (Q : A -> W -> W -> Prop) (m : M OC A) w a w' :
  ends Q m -> minv w -> m w = Ret (a, w') -> Q a w w'.
Proof. intros Hm Hw E. specialize (Hm w Hw). by rewrite E in Hm. Qed.

Lemma settles_bind {A} d l (m : M OC A) (f : A -> M OC RunEnd) :
  framed m -> (forall a, settles d l (f a)) -> settles d l (m ≫= f).
Proof. apply ends_after, settled_frame_l. Qed.

Lemma step_bind {A S} d l (m : M OC A) (f : A -> M OC (RunEnd + S)) :
  framed m -> (forall a, step_ok d l (f a)) -> step_ok d l (m ≫= f).
Proof. apply ends_after, stepped_frame_l. Qed.

Lemma leaves_bind {A B} l (m : M OC A) (f : A -> M OC B) :
  framed m -> (forall a, leaves l (f a)) -> leaves l (m ≫= f).
Proof. apply ends_after. intros _. apply left_frame_l. Qed.

Lemma frame_keeps_bind {A} x (m : M OC A) (f : A -> M OC RunEnd) :
  framed m -> (forall a, keeps x (f a)) -> keeps x (m ≫= f).
Proof. apply ends_after. intros y w w1 w2 Hw F [-> F']. split; [done|by etrans]. Qed.

Lemma step_ret {S} d l (s : S) : step_ok d l (mret (inr s)).
Proof. apply ends_ret. intros w. simpl. reflexivity. Qed.

Lemma frame_keeps_ret x : keeps x (mret x).
Proof. apply ends_ret. intros w. by split. Qed.

Lemma step_drop {S} l : step_ok (S := S) true l (mret (inl RunDropped)).
Proof. apply ends_ret. intros w. split; [simpl; reflexivity|done]. Qed.

Lemma settles_drop l : settles true l (mret RunDropped).
Proof. apply ends_ret. intros w. split; [simpl; reflexivity|done]. Qed.

(** A goroutine that ends in the middle of a loop. *)
Lemma step_settles {S} d l (m : M OC RunEnd) :
  settles d l m -> step_ok (S := S) d l (x ← m; mret (inl x)).
Proof. intros Hm. eapply ends_bind; [exact Hm|]. by intros. Qed.

(** What follows a loop. *)
Lemma settles_step {S} d l (m : M OC (RunEnd + S)) (f : S -> M OC RunEnd) :
  step_ok d l m -> (forall s, settles d l (f s)) ->
  settles d l (r ← m; match r with inl x => mret x | inr s => f s end).
Proof.
  intros Hm Hf. eapply ends_bind; [exact Hm|]. intros w [y|s] w1 Hw F; [done|].
  specialize (Hf s w1 (frame_minv _ _ F Hw)). destruct (f s w1) as [[x w2]| |]; [|done..].
  by eapply settled_frame_l.
Qed.

(** The same, where the rest of the code is a loop step of its own. *)
Lemma step_step {S T} d l (m : M OC (RunEnd + S)) (f : S -> M OC (RunEnd + T)) :
  step_ok d l m -> (forall s, step_ok d l (f s)) ->
  step_ok d l (r ← m; match r with inl x => mret (inl x) | inr s => f s end).
Proof.
  intros Hm Hf. eapply ends_bind; [exact Hm|]. intros w [y|s] w1 Hw F; [done|].
  specialize (Hf s w1 (frame_minv _ _ F Hw)). destruct (f s w1) as [[x w2]| |]; [|done..].
  by eapply stepped_frame_l.
Qed.

Lemma step_loop {S Ev} d l (finished : S -> bool) (handle : S -> Ev -> option (M OC (RunEnd + S))) evs s :
  (forall s ev m, handle s ev = Some m -> step_ok d l m) ->
  step_ok d l (select_loop finished handle evs s).
Proof.
  intros Hh. revert s. induction evs as [|ev evs IH]; intros s; simpl.
  - destruct (finished s); [apply step_ret|]. by intros w.
  - destruct (finished s); [apply step_ret|]. destruct (handle s ev) as [m|] eqn:E; [|apply IH].
    apply step_step; [by eapply Hh|apply IH].
Qed.

Lemma framed_loop {S R Ev} (finished : S -> bool) (handle : S -> Ev -> option (M OC (R + S))) evs s :
  (forall s ev m, handle s ev = Some m -> framed m) -> framed (select_loop finished handle evs s).
Proof.
  intros Hh. revert s. induction evs as [|ev evs IH]; intros s; simpl.
  - destruct (finished s); [apply framed_ret|]. by intros w.
  - destruct (finished s); [apply framed_ret|]. destruct (handle s ev) as [m|] eqn:E; [|apply IH].
    apply framed_bind; [by eapply Hh|]. intros [x|s']; [apply framed_ret|apply IH].
Qed.

(** What leaves the invariant in place. *)
Lemma fate_minv l x (w w' : W) : minv w -> fate l x w w' -> minv w'.
Proof.
  intros Hw. destruct x; simpl.
  - intros (a & _ & G). apply (go_inv _ _ _ G).
  - intros (tm & q & ag & r & t & w1 & w2 & F1 & E & F2). eapply frame_minv; [done|].
    pose proof (safe_Team_Reporting tm q l ag r t w1 (frame_minv _ _ F1 Hw)) as H. by rewrite E in H.
  - intros F. by eapply frame_minv.
Qed.

Lemma settles_safe d l m : settles d l m -> safe m.
Proof.
  intros Hm w Hw. specialize (Hm w Hw). destruct (m w) as [[x w']| |]; [|done..].
  by eapply fate_minv, Hm.
Qed.

(** Cleaning up after the fate of the attempt is decided. *)
Lemma settles_then d l (m : M OC RunEnd) (f : RunEnd -> M OC RunEnd) :
  settles d l m -> (forall x, keeps x (f x)) -> settles d l (m ≫= f).
Proof.
  intros Hm Hf. eapply ends_bind; [exact Hm|]. intros w x w1 Hw [H D].
  specialize (Hf x w1 (fate_minv _ _ _ _ Hw H)). destruct (f x w1) as [[y w2]| |]; [|done..].
  destruct Hf as [-> F]. split; [|done]. by eapply fate_frame_r.
Qed.

(** ** The ends *)

Lemma leaves_then {A B} l (m : M OC A) (f : A -> M OC B) :
  leaves l m -> (forall a, framed (f a)) -> leaves l (m ≫= f).
Proof.
  intros Hm Hf. eapply ends_bind; [exact Hm|]. intros w a w1 Hw H. specialize (Hf a w1).
  destruct (f a w1) as [[b w2]| |]; [|done..]. exact (left_frame_r _ _ _ _ H Hf).
Qed.

Lemma safe_leaves {A} l (m : M OC A) :
  safe m -> (forall w a w', minv w -> m w = Ret (a, w') -> left_at l w w') -> leaves l m.
Proof.
  intros Hs Hl w Hw. specialize (Hs w Hw). specialize (Hl w). destruct (m w) as [[a w']| |]; [|done..].
  by apply (Hl a).
Qed.

Lemma leaves_LeavingMember l : leaves l (LeavingMember l).
Proof. apply safe_leaves; [apply safe_LeavingMember|]. intros. by eapply LeavingMember_gone. Qed.

Lemma leaves_Abandoned l : leaves l (Abandoned l).
Proof. apply safe_leaves; [apply safe_Abandoned|]. intros. by eapply Abandoned_gone. Qed.

Lemma leaves_TransferTo l to : leaves l (TransferTo l to).
Proof.
  unfold TransferTo. do 3 (apply leaves_bind; [framed_op|intros]). apply leaves_LeavingMember.
Qed.

Lemma leaves_SetWrap tm q l ag r : leaves l (SetWrap tm q l ag r).
Proof.
  unfold SetWrap. cbv zeta. apply leaves_bind; [framed_op|intros s].
  match goal with |- context [match ?x with (_, _) => _ end] => destruct x end.
  do 3 (apply leaves_bind; [framed_op|intros]). apply leaves_LeavingMember.
Qed.

Lemma settles_leaves {A} d l (m : M OC A) : leaves l m -> settles d l (_ ← m; mret RunLeft).
Proof. intros Hm. eapply ends_bind; [exact Hm|]. intros w a w1 _ H. by split. Qed.

Lemma step_leaves {A S} d l (m : M OC A) : leaves l m -> step_ok (S := S) d l (_ ← m; mret (inl RunLeft)).
Proof. intros Hm. eapply ends_bind; [exact Hm|]. intros w a w1 _ H. by split. Qed.

Lemma settles_weaken d l m : settles false l m -> settles d l m.
Proof.
  intros Hm w Hw. specialize (Hm w Hw). destruct (m w) as [[x w']| |]; [|done..].
  destruct Hm as [H D]. split; [done|]. intros ->. by specialize (D eq_refl).
Qed.

(** The attempt left when the schema after the distribution had a result. *)
Lemma SendAfterDistributeSchema_ends l :
  ends (fun b w w' => if b : bool then left_at l w w' else frame w w') (SendAfterDistributeSchema l).
Proof.
  unfold SendAfterDistributeSchema. apply ends_after.
  { intros [] w w1 w2 Hw F; [by apply left_frame_l|by etrans]. }
  { framed_op. }
  intros [res|]; [|apply ends_ret; reflexivity].
  do 2 (apply ends_after; [intros [] w w1 w2 Hw F; [by apply left_frame_l|by etrans]|framed_op|intros]).
  eapply ends_bind; [apply leaves_LeavingMember|]. by intros.
Qed.

(** The schema after the distribution takes the attempt out, or the code that follows does. *)
Lemma settles_schema d l (m : M OC RunEnd) :
  settles d l m ->
  settles d l (sent ← SendAfterDistributeSchema l; if sent : bool then mret RunLeft else m).
Proof.
  intros Hm. eapply ends_bind; [apply SendAfterDistributeSchema_ends|].
  intros w [] w1 Hw H; [by split|]. specialize (Hm w1 (frame_minv _ _ H Hw)).
  destruct (m w1) as [[x w2]| |]; [|done..]. by eapply settled_frame_l.
Qed.

Lemma report_call_ends tm q l g id : ends (fun _ => reported_at l) (report_call tm q l g id).
Proof.
  assert (forall b w w1 w2, minv w -> frame w w1 ->
    (fun _ : unit => reported_at l) b w1 w2 -> (fun _ : unit => reported_at l) b w w2) as HQ.
  { intros b w w1 w2 Hw F. apply (fate_frame_l l RunReporting); done. }
  unfold report_call, with_agent. do 3 (apply ends_after; [done|framed_op|intros]).
  intros w Hw. match goal with |- context [Team_Reporting ?t ?qq ?ll ?ag ?b ?c w] =>
    pose proof (safe_Team_Reporting t qq ll ag b c w Hw) as H;
    destruct (Team_Reporting t qq ll ag b c w) as [[[] w']| |] eqn:E end; [|done..].
  eexists _, _, _, _, _, w, w'. split; [reflexivity|]. split; [exact E|reflexivity].
Qed.

Lemma settles_report d tm q l g id : settles d l (_ ← report_call tm q l g id; mret RunReporting).
Proof. eapply ends_bind; [apply report_call_ends|]. intros w u w1 _ H. by split. Qed.

End Fate.

Create HintDb leaves.
#[export] Hint Resolve leaves_LeavingMember leaves_Abandoned leaves_TransferTo leaves_SetWrap : leaves.

(** Walks a goroutine: what comes before its end is framed. *)
Ltac leave_step :=
  match goal with
  | |- leaves _ (mbind _ _) => apply leaves_bind; [solve [framed_op]|intros]
  | |- leaves _ (mbind _ _) => apply leaves_then; [|intros; solve [framed_op]]
  | |- leaves _ (with_agent _ _) => unfold with_agent
  | |- leaves _ (match ?x with _ => _ end) => destruct x eqn:?
  | |- leaves _ _ => solve [eauto 2 with leaves]
  end.

Create HintDb settles.

Ltac keep_step :=
  match goal with
  | |- keeps _ (mret _) => apply frame_keeps_ret
  | |- keeps _ (mbind _ _) => apply frame_keeps_bind; [solve [framed_op]|intros]
  end.

Ltac settle_step :=
  match goal with
  | |- settles true _ (mret RunDropped) => apply settles_drop
  | |- step_ok true _ (mret (inl RunDropped)) => apply step_drop
  | |- step_ok _ _ (mret (inr _)) => apply step_ret
  | |- step_ok _ _ (panic _) => apply ends_panic; discriminate
  | |- settles _ _ (panic _) => apply ends_panic; discriminate
  | |- settles _ _ (mbind _ (report_call _ _ _ _ _)) => apply settles_report
  | |- settles _ _ _ => solve [eauto 2 with settles]
  | |- step_ok _ _ _ => solve [eauto 2 with settles]
  | |- settles _ _ (mbind _ (SendAfterDistributeSchema _)) => apply settles_schema
  | |- settles _ _ (match ?x with _ => _ end) => destruct x eqn:?
  | |- step_ok _ _ (match ?x with _ => _ end) => destruct x eqn:?
  | |- settles _ _ (mbind _ _) => apply settles_bind; [solve [framed_op]|intros]
  | |- step_ok _ _ (mbind _ _) => apply step_bind; [solve [framed_op]|intros]
  | |- settles _ _ (mbind _ (select_loop _ _ _ _)) => apply settles_step; [apply step_loop|intros]
  | |- settles _ _ (mbind _ _) => apply settles_leaves; solve [repeat leave_step]
  end.

Ltac settle := intros; repeat (cbv beta zeta; settle_step).
