(* ===== verification/CallRuns.v ===== *)
(** * The goroutines of the call queues: how they end *)

From S2P Require Import Prelude Model Queue Attempt TaskChannel Resource Calls World Agents.
From S2P Require Import Events Schema Manager Team Distribute Messages Dialing Frame Invariant Lifecycle.
From S2P Require Import Calling CallInbound CallDial CallPredict RunFrame.

Section CallRuns.
Context {OC : Type -> Type} {HOC : ObjectCache OC} {OCL : ObjectCacheLaws OC} {SV : Services} {DE : Decoders}.
Context {CV : CallViews}.

Abbreviation fr m := (framed (OC := OC) m).

(** ** InboundQueue *)

Lemma step_inbound_after d l s t : step_ok d l (inbound_after l s t).
Proof. unfold inbound_after. settle. Qed.
#[local] Hint Resolve step_inbound_after : settles.

Lemma step_inbound_again d l s t : step_ok d l (inbound_again l s t).
Proof. unfold inbound_again. settle. Qed.
#[local] Hint Resolve step_inbound_again : settles.

(** The end of the member's call: a transfer to another attempt takes this one out. *)
Definition transferred_at (l : loc) (p : string * CallTransfer) (w w' : World OC) : Prop :=
  if decide (p.2 = CallTransferForward) then left_at l w w' else frame w w'.

Lemma transferred_frame_l l p (w w1 w2 : World OC) :
  minv w -> frame w w1 -> transferred_at l p w1 w2 -> transferred_at l p w w2.
Proof. intros Hw F. unfold transferred_at. case_decide; [by apply left_frame_l|by etrans]. Qed.

Lemma transferResult_ends q l m : ends (transferred_at l) (transferResult q l m).
Proof.
  pose proof (transferred_frame_l l) as HQ.
  assert (forall c tr, tr <> CallTransferForward -> ends (transferred_at l) (mret (c, tr))) as Hret.
  { intros c tr Hne. apply ends_ret. intros w. unfold transferred_at. by rewrite decide_False. }
  unfold transferResult. apply ends_after; [done|framed_op|intros c].
  destruct (ca_transferToAttemptId c) as [to|].
  { eapply ends_bind; [apply leaves_TransferTo|]. intros w u w1 _ H. exact H. }
  apply ends_after; [done|framed_op|intros a].
  destruct (ca_transferFrom c) as [from|]; [|by apply Hret].
  destruct (_ || _); [|by apply Hret].
  do 2 (apply ends_after; [done|framed_op|intros]). destruct a1 as [e|nc]; [by apply Hret|].
  apply ends_after; [done|framed_op|intros]. by apply Hret.
Qed.

Lemma step_transfer {S} d q l m (k : string -> M OC (RunEnd + S)) (k' : string -> M OC (RunEnd + S)) :
  (forall c, step_ok d l (k c)) -> (forall c, step_ok d l (k' c)) ->
  step_ok d l (r ← transferResult q l m; let '(c, tr) := r in
    match tr with
    | CallTransferForward => mret (inl RunLeft)
    | CallTransferSuccess => k c
    | CallTransferSkip => k' c
    end).
Proof.
  intros Hk Hk'. eapply ends_bind; [apply transferResult_ends|]. intros w [c tr] w1 Hw.
  unfold transferred_at. simpl. destruct tr; simpl; intros H.
  - specialize (Hk' c w1 (frame_minv _ _ H Hw)). destruct (k' c w1) as [[r w2]| |]; [|done..].
    by eapply stepped_frame_l.
  - by split.
  - specialize (Hk c w1 (frame_minv _ _ H Hw)). destruct (k c w1) as [[r w2]| |]; [|done..].
    by eapply stepped_frame_l.
Qed.

Lemma step_inbound_handle d q props l s ev m :
  inbound_handle q props l s ev = Some m -> step_ok d l m.
Proof.
  unfold inbound_handle. intros E.
  repeat (case_match; simplify_eq); try solve [settle];
    unfold inbound_distribute, inbound_outer_state, inbound_agent_state, inbound_member_state,
      inbound_accept, inbound_bridged, inbound_agent_hangup; try solve [settle].
  destruct st; try solve [settle]. unfold inbound_member_hangup.
  apply (step_transfer d q l (il_mCall s) (fun c => inbound_again l (s <| il_mCall := c |>) t)
    (fun mCall => c ← peek (tk_call t); m ← peek mCall;
      _ ← (if bool_decide (ca_hangupAt c = 0)
              && negb (bool_decide (ca_direction m = CALL_DIRECTION_OUTBOUND)
                       && bool_decide (ca_transferFrom m <> None))
           then hangup_agent mCall (tk_call t) else mret tt);
      inbound_after l s t)); settle.
Qed.

Lemma settles_inbound_finish q l s : settles false l (inbound_finish q l s).
Proof.
  unfold inbound_finish. apply settles_bind; [framed_op|intros talking].
  apply settles_then; [settle|]. intros x. repeat keep_step.
Qed.

(** The goroutine drops the attempt only when the store refuses the search of an agent. *)
Lemma settles_inbound_run q props l mCall evs : settles true l (inbound_run q props l mCall evs).
Proof.
  unfold inbound_run. settle; [by eapply step_inbound_handle|].
  apply settles_weaken, settles_inbound_finish.
Qed.

(** ** JoinAgentCallQueue *)

Lemma step_join_again d l s : step_ok d l (join_again (OC := OC) s).
Proof. unfold join_again. settle. Qed.
#[local] Hint Resolve step_join_again : settles.

Lemma step_join_handle d q l tm s ev m : join_handle q l tm s ev = Some m -> step_ok d l m.
Proof.
  unfold join_handle. intros E.
  repeat (case_match; simplify_eq); unfold join_agent_state, join_member_state, join_accept;
    try solve [settle].
  destruct st; try solve [settle].
  apply (step_transfer d q l (jl_mCall s) (fun c => join_again (s <| jl_mCall := c |>))
    (fun mCall => c ← peek (jl_call s);
      _ ← (if decide (ca_hangupAt c = 0) then hangup_agent mCall (jl_call s) else mret tt);
      mret (inr (s <| jl_done := true |>)))); settle.
Qed.

Lemma settles_join_finish q l tm s : settles false l (join_finish q l tm s).
Proof.
  unfold join_finish. apply settles_bind; [framed_op|intros c].
  apply settles_then; [|intros x; repeat keep_step].
  case_decide; [settle|]. do 3 (apply settles_bind; [framed_op|intros]).
  apply settles_leaves. auto with leaves.
Qed.

Lemma settles_join_run q l mCall evs : settles true l (join_run q l mCall evs).
Proof.
  unfold join_run. settle. apply settles_step; [settle|intros s].
  settle; [by eapply step_join_handle|apply settles_weaken, settles_join_finish].
Qed.

(** ** OutboundCallQueue *)

Lemma step_outbound_again d l s : step_ok d l (outbound_again (OC := OC) s).
Proof. unfold outbound_again. settle. Qed.
#[local] Hint Resolve step_outbound_again : settles.

Lemma step_outbound_handle d l tm s ev m : outbound_handle l tm s ev = Some m -> step_ok d l m.
Proof.
  unfold outbound_handle. intros E. repeat (case_match; simplify_eq); unfold outbound_state; settle.
Qed.

Lemma settles_outbound_finish q b l tm s : settles false l (outbound_finish q b l tm s).
Proof.
  unfold outbound_finish. apply settles_bind; [framed_op|intros c].
  apply settles_then; [settle|intros x; repeat keep_step].
Qed.

Lemma settles_outbound_run q b l tm id agent evs : settles false l (outbound_run q b l tm id agent evs).
Proof.
  unfold outbound_run. settle. apply settles_step; [settle|intros s].
  settle; [by eapply step_outbound_handle|apply settles_outbound_finish].
Qed.

(** ** IVRQueue *)

Lemma framed_attempt_resource l : fr (attempt_resource l).
Proof. unfold attempt_resource. framed_op. Qed.
#[local] Hint Resolve framed_attempt_resource : framed.

Lemma framed_member_id a : fr (member_id a).
Proof. unfold member_id. framed_op. Qed.
#[local] Hint Resolve framed_member_id : framed.

Lemma framed_record_call b id r a m c rq : fr (record_call b id r a m c rq).
Proof. unfold record_call. framed_op. Qed.
#[local] Hint Resolve framed_record_call : framed.

Lemma framed_bridge_app q a r id d t x y z rq : fr (bridge_app q a r id d t x y z rq).
Proof. unfold bridge_app. framed_op. Qed.
#[local] Hint Resolve framed_bridge_app : framed.

Lemma framed_transfer_after t id : fr (transfer_after t id).
Proof. unfold transfer_after. framed_op. Qed.
#[local] Hint Resolve framed_transfer_after : framed.

Lemma settles_give_up_dial l m w : settles false l (give_up_dial l m w).
Proof. unfold give_up_dial. settle. Qed.

Lemma settles_give_up_dial_any d l m w : settles d l (give_up_dial l m w).
Proof. apply settles_weaken, settles_give_up_dial. Qed.
#[local] Hint Resolve settles_give_up_dial_any : settles.

Lemma framed_ivr_request q s l r d : fr (ivr_request q s l r d).
Proof. unfold ivr_request. framed_op. Qed.
#[local] Hint Resolve framed_ivr_request : framed.

Lemma step_ivr_handle d q s l dst display id b ev m :
  ivr_handle q s l dst display id b ev = Some m -> step_ok d l m.
Proof. unfold ivr_handle. intros E. repeat (case_match; simplify_eq); unfold ivr_state; settle. Qed.

Lemma settles_ivr_finish s l r id : settles false l (ivr_finish s l r id).
Proof. unfold ivr_finish. settle. Qed.

Lemma settles_ivr_run q s l evs : settles true l (ivr_run q s l evs).
Proof.
  unfold ivr_run. settle; [by eapply step_ivr_handle|]. apply settles_weaken, settles_ivr_finish.
Qed.

(** ** OfflineCallQueue and PreviewCallQueue *)

Lemma step_leg_handle d l tm on s ev m :
  (forall g id, fr (on g id)) -> leg_handle l tm on s ev = Some m -> step_ok d l m.
Proof.
  intros Hon. unfold leg_handle. intros E.
  repeat (case_match; simplify_eq); unfold leg_state, leg_hangup; settle.
Qed.

Lemma framed_offline_request q tm l g r d : fr (offline_request q tm l g r d).
Proof. unfold offline_request. framed_op. Qed.
#[local] Hint Resolve framed_offline_request : framed.

Lemma settles_offline_finish q l tm s : settles true l (offline_finish q l tm s).
Proof. unfold offline_finish. settle. Qed.

Lemma settles_offline_run q s l tm g evs : settles true l (offline_run q s l tm g evs).
Proof.
  unfold offline_run. settle; [|apply settles_offline_finish].
  intros. eapply step_leg_handle; [|done]. intros. framed_op.
Qed.

Lemma framed_preview_request q tm l g r d : fr (preview_request q tm l g r d).
Proof. unfold preview_request. framed_op. Qed.
#[local] Hint Resolve framed_preview_request : framed.

Lemma framed_preview_bridge s g id : fr (preview_bridge s g id).
Proof. unfold preview_bridge. framed_op. Qed.

Lemma settles_preview_finish q l tm s : settles false l (preview_finish q l tm s).
Proof. unfold preview_finish. settle. Qed.

Lemma settles_preview_run q s l tm g evs : settles false l (preview_run q s l tm g evs).
Proof.
  unfold preview_run. settle; [|apply settles_preview_finish].
  intros. eapply step_leg_handle; [|done]. intros. apply framed_preview_bridge.
Qed.

(** ** ProgressiveCallQueue *)

Lemma framed_prog_request q s l r d c : fr (prog_request q s l r d c).
Proof. unfold prog_request. framed_op. Qed.
#[local] Hint Resolve framed_prog_request : framed.

Lemma step_prog_again d l m p ac : step_ok d l (prog_again (OC := OC) m p ac).
Proof. unfold prog_again. settle. Qed.
#[local] Hint Resolve step_prog_again : settles.

Lemma step_prog_confirmed d q l tm m p ids : step_ok d l (prog_confirmed q l tm m p ids).
Proof. unfold prog_confirmed. settle. Qed.
#[local] Hint Resolve step_prog_confirmed : settles.

Lemma step_prog_handle d q s l tm mc p ev m : prog_handle q s l tm mc p ev = Some m -> step_ok d l m.
Proof.
  unfold prog_handle. intros E.
  repeat (case_match; simplify_eq); unfold prog_agent_state, prog_member_state, prog_answer, prog_accept,
    prog_agent_hangup; settle.
Qed.

Lemma settles_prog_finish q l tm mc r p : settles false l (prog_finish q l tm mc r p).
Proof. unfold prog_finish. settle. Qed.

Lemma settles_prog_run q s l tm g evs : settles false l (prog_run q s l tm g evs).
Proof. unfold prog_run. settle; [by eapply step_prog_handle|apply settles_prog_finish]. Qed.

(** ** PredictCallQueue *)

Lemma framed_cancel_member m : fr (cancel_member m).
Proof. unfold cancel_member. framed_op. Qed.
#[local] Hint Resolve framed_cancel_member : framed.

Lemma step_offer_after d l s t : step_ok d l (offer_after l s t).
Proof. unfold offer_after. settle. Qed.
#[local] Hint Resolve step_offer_after : settles.

Lemma step_offer_again d l s t : step_ok d l (offer_again l s t).
Proof. unfold offer_again. settle. Qed.
#[local] Hint Resolve step_offer_again : settles.

Lemma step_offer_handle q s l st ev m : offer_handle q s l st ev = Some m -> step_ok true l m.
Proof.
  unfold offer_handle. intros E.
  repeat (case_match; simplify_eq); unfold offer_stop, offer_distribute, offer_agent_state,
    offer_member_state, offer_accept; settle.
Qed.

Lemma settles_offer_finish q s l i st : settles false l (offer_finish q s l i st).
Proof.
  unfold offer_finish. do 3 (apply settles_bind; [framed_op|intros]).
  apply settles_then; [settle|intros x; repeat keep_step].
Qed.

Lemma settles_runOfferingAgents q s l m evs : settles true l (runOfferingAgents q s l m evs).
Proof.
  unfold runOfferingAgents. settle; [by eapply step_offer_handle|].
  apply settles_weaken, settles_offer_finish.
Qed.

Lemma framed_predict_request q s l r d c : fr (predict_request q s l r d c).
Proof. unfold predict_request. framed_op. Qed.

Lemma framed_predict_apps q s l a id rq : fr (predict_apps q s l a id rq).
Proof. unfold predict_apps. framed_op. Qed.

Lemma framed_predict_handle q s r mc b ev m : predict_handle q s r mc b ev = Some m -> fr m.
Proof. unfold predict_handle. intros E. repeat (case_match; simplify_eq); framed_op. Qed.
#[local] Hint Resolve framed_predict_request framed_predict_apps : framed.

Lemma step_predict_dial q s l a evs offer : step_ok true l (predict_dial q s l a evs offer).
Proof.
  unfold predict_dial. repeat (cbv beta zeta; first
    [ apply step_bind; [solve [framed_op]|intros] | progress case_match | apply step_ret ]);
  try (apply step_settles; first [apply settles_runOfferingAgents|apply settles_give_up_dial_any]).
  apply step_bind; [apply framed_loop; intros; by eapply framed_predict_handle|intros].
  case_match; [apply step_settles, settles_runOfferingAgents|settle].
Qed.

Lemma step_predict_retry d l res rt : step_ok d l (predict_retry l res rt).
Proof. unfold predict_retry. settle; try (by case_match); apply step_leaves; auto with leaves. Qed.

Lemma step_predict_last d s l rt : step_ok d l (predict_last s l rt).
Proof.
  unfold predict_last. settle; try (apply step_leaves; auto with leaves).
  - apply step_predict_retry.
  - apply step_settles, settles_give_up_dial_any.
Qed.

Lemma settles_predict_loop q s l out fuel j rt evs offer :
  settles true l out -> settles true l (predict_loop q s l out fuel j rt evs offer).
Proof.
  intros Hout. revert j rt. induction fuel as [|fuel IH]; intros j rt; simpl; [done|].
  apply settles_step; [destruct j; [apply step_predict_dial|apply step_ret]|intros _].
  apply settles_step; [apply step_predict_last|]. intros [j' rt']. apply IH.
Qed.

Lemma settles_runPark q s l evs offer : settles true l (runPark q s l evs offer).
Proof. unfold runPark. settle. apply settles_predict_loop. by apply ends_panic. Qed.

End CallRuns.
