(* ===== verification/SessionFrame.v ===== *)
(** * The frame of a goroutine that works on a second component

    The notions of RunFrame for the monad [ST S]: whatever the state of the other component,
    an operation of that component leaves the manager alone ([own_ok]: it does not panic the
    way the wait group does), and the rest is as before. [quick] walks a body. *)

From S2P Require Import Prelude Model Queue Attempt TaskChannel World Sessions Agents.
From S2P Require Import Events Schema Manager Team Distribute Messages Dialing Frame Invariant Lifecycle.
From S2P Require Import Calling RunFrame.

(** An operation of the other component. *)
Definition own_ok {S A} (m : S -> outcome (A * S)) : Prop := forall s msg, m s = Panic msg -> msg <> wg_message.

Section SessionFrame.
Context {S : Type} {OC : Type -> Type} {HOC : ObjectCache OC} {OCL : ObjectCacheLaws OC}.
Context {SV : Services} {DE : Decoders}.

Abbreviation X := (ST S OC).

Definition framedS {A} (m : X A) : Prop := forall s, framed (m s).

Definition settlesS (drops : bool) (l : loc) (m : X RunEnd) : Prop :=
  forall s, ends (fun p => settled drops l p.1) (m s).

Definition stepS {L} (drops : bool) (l : loc) (m : X (RunEnd + L)) : Prop :=
  forall s, ends (fun p => stepped drops l p.1) (m s).

Definition keepsS (x : RunEnd) (m : X RunEnd) : Prop :=
  forall s, ends (fun p w w' => p.1 = x /\ frame w w') (m s).

Lemma framedS_up {A} (m : M OC A) : framed m -> framedS (up m).
Proof. intros Hm s. unfold up. framed_op. Qed.

Lemma framedS_own {A} (m : S -> outcome (A * S)) : own_ok m -> framedS (own m).
Proof. intros Hm s. apply framed_lift. apply Hm. Qed.

Lemma framedS_ret {A} (a : A) : framedS (mret a).
Proof. intros s. apply framed_ret. Qed.

Lemma framedS_bind {A B} (m : X A) (f : A -> X B) :
  framedS m -> (forall a, framedS (f a)) -> framedS (m ≫= f).
Proof. intros Hm Hf s. apply framed_bind; [apply Hm|]. intros [a s']. apply Hf. Qed.

Lemma settlesS_bind {A} d l (m : X A) (f : A -> X RunEnd) :
  framedS m -> (forall a, settlesS d l (f a)) -> settlesS d l (m ≫= f).
Proof.
  intros Hm Hf s. apply ends_after; [intros p; apply settled_frame_l|apply Hm|]. intros [a s']. apply Hf.
Qed.

Lemma stepS_bind {A L} d l (m : X A) (f : A -> X (RunEnd + L)) :
  framedS m -> (forall a, stepS d l (f a)) -> stepS d l (m ≫= f).
Proof.
  intros Hm Hf s. apply ends_after; [intros p; apply stepped_frame_l|apply Hm|]. intros [a s']. apply Hf.
Qed.

Lemma keepsS_ret x : keepsS x (mret x).
Proof. intros s. apply ends_ret. intros w. by split. Qed.

Lemma keepsS_bind {A} x (m : X A) (f : A -> X RunEnd) :
  framedS m -> (forall a, keepsS x (f a)) -> keepsS x (m ≫= f).
Proof.
  intros Hm Hf s. apply ends_after; [|apply Hm|intros [a s']; apply Hf].
  intros p w w1 w2 Hw F [E F']. split; [done|by etrans].
Qed.

Lemma stepS_ret {L} d l (x : L) : stepS d l (mret (inr x)).
Proof. intros s. apply ends_ret. intros w. simpl. reflexivity. Qed.

Lemma stepS_drop {L} l : stepS (L := L) true l (mret (inl RunDropped)).
Proof. intros s. apply ends_ret. intros w. split; [simpl; reflexivity|done]. Qed.

Lemma settlesS_drop l : settlesS true l (mret RunDropped).
Proof. intros s. apply ends_ret. intros w. split; [simpl; reflexivity|done]. Qed.

Lemma settlesS_up d l m : settles d l m -> settlesS d l (up m).
Proof. intros Hm s. eapply ends_bind; [exact Hm|]. by intros. Qed.

Lemma settlesS_panic d l msg : msg <> wg_message -> settlesS d l (up (panic msg)).
Proof. intros Hm s w _. exact Hm. Qed.

Lemma stepS_panic {L} d l msg : msg <> wg_message -> stepS (L := L) d l (up (panic msg)).
Proof. intros Hm s w _. exact Hm. Qed.

Lemma settlesS_weaken d l m : settlesS false l m -> settlesS d l m.
Proof.
  intros Hm s w Hw. specialize (Hm s w Hw). destruct (m s w) as [[[x s'] w']| |]; [|done..].
  destruct Hm as [H D]. split; [done|]. intros E. by specialize (D E).
Qed.

(** An end, in a loop. *)
Lemma stepS_settles {L} d l (m : X RunEnd) : settlesS d l m -> stepS (L := L) d l (x ← m; mret (inl x)).
Proof. intros Hm s. eapply ends_bind; [apply Hm|]. by intros. Qed.

Lemma settlesS_leaves {A} d l (m : M OC A) (f : A -> X RunEnd) :
  leaves l m -> (forall a, keepsS RunLeft (f a)) -> settlesS d l (up m ≫= f).
Proof.
  intros Hm Hf s. eapply ends_bind.
  { instantiate (1 := fun _ => left_at l). eapply ends_bind; [exact Hm|]. by intros. }
  intros w [a s'] w1 Hw H. specialize (Hf a s' w1 (fate_minv l RunLeft _ _ Hw H)). simpl.
  destruct (f a s' w1) as [[[x s2] w2]| |]; [|done..]. destruct Hf as [E F]. simpl in *. subst x.
  split; [|done]. by eapply (fate_frame_r l RunLeft).
Qed.

Lemma settlesS_then d l (m : X RunEnd) (f : RunEnd -> X RunEnd) :
  settlesS d l m -> (forall x, keepsS x (f x)) -> settlesS d l (m ≫= f).
Proof.
  intros Hm Hf s. eapply ends_bind; [apply Hm|]. intros w [x s'] w1 Hw [H D]. simpl in *.
  specialize (Hf x s' w1 (fate_minv _ _ _ _ Hw H)). destruct (f x s' w1) as [[[y s2] w2]| |]; [|done..].
  destruct Hf as [E F]. simpl in *. subst y. split; [|done]. by eapply fate_frame_r.
Qed.

Lemma stepS_step {L L'} d l (m : X (RunEnd + L)) (f : L -> X (RunEnd + L')) :
  stepS d l m -> (forall x, stepS d l (f x)) ->
  stepS d l (r ← m; match r with inl y => mret (inl y) | inr x => f x end).
Proof.
  intros Hm Hf s. eapply ends_bind; [apply Hm|]. intros w [[y|x] s'] w1 Hw F; [done|]. simpl in *.
  specialize (Hf x s' w1 (frame_minv _ _ F Hw)). destruct (f x s' w1) as [[[r s2] w2]| |]; [|done..].
  by eapply stepped_frame_l.
Qed.

Lemma settlesS_step {L} d l (m : X (RunEnd + L)) (f : L -> X RunEnd) :
  stepS d l m -> (forall x, settlesS d l (f x)) ->
  settlesS d l (r ← m; match r with inl y => mret y | inr x => f x end).
Proof.
  intros Hm Hf s. eapply ends_bind; [apply Hm|]. intros w [[y|x] s'] w1 Hw F; [done|]. simpl in *.
  specialize (Hf x s' w1 (frame_minv _ _ F Hw)). destruct (f x s' w1) as [[[r s2] w2]| |]; [|done..].
  by eapply settled_frame_l.
Qed.

Lemma stepS_loop {L Ev} d l (finished : L -> bool) (handle : L -> Ev -> option (X (RunEnd + L))) evs x :
  (forall x ev m, handle x ev = Some m -> stepS d l m) -> stepS d l (st_loop finished handle evs x).
Proof.
  intros Hh. revert x. induction evs as [|ev evs IH]; intros x; simpl.
  - destruct (finished x); [apply stepS_ret|]. by intros s w.
  - destruct (finished x); [apply stepS_ret|]. destruct (handle x ev) as [m|] eqn:E; [|apply IH].
    apply stepS_step; [by eapply Hh|apply IH].
Qed.

(** The end of a conversation, for the agent at a location. *)
Lemma reports_ends tm q l g b c :
  ends (fun _ => reported_at (OC := OC) l) (with_agent g (fun ag => Team_Reporting tm q l ag b c)).
Proof.
  unfold with_agent. apply ends_after; [intros u; apply (fate_frame_l l RunReporting)|framed_op|intros ag].
  intros w Hw. pose proof (safe_Team_Reporting tm q l ag b c w Hw) as H.
  destruct (Team_Reporting tm q l ag b c w) as [[[] w']| |] eqn:E; [|done..].
  eexists _, _, _, _, _, w, w'. split; [reflexivity|]. split; [exact E|reflexivity].
Qed.

Lemma settles_reports d tm q l g b c :
  settles (OC := OC) d l (_ ← with_agent g (fun ag => Team_Reporting tm q l ag b c); mret RunReporting).
Proof. eapply ends_bind; [apply reports_ends|]. intros w u w1 _ H. by split. Qed.

Lemma settlesS_reports d tm q l g b c :
  settlesS d l (_ ← up (with_agent g (fun ag => Team_Reporting tm q l ag b c)); mret RunReporting).
Proof.
  intros s. eapply ends_bind.
  { instantiate (1 := fun _ => reported_at l). eapply ends_bind; [apply reports_ends|]. by intros. }
  intros w u w1 _ H. by split.
Qed.

End SessionFrame.

Create HintDb own.
Create HintDb quick.

(** The panic of an error is not the one of the wait group: its text has a comma. *)
Fixpoint commas (s : string) : nat :=
  match s with
  | EmptyString => 0
  | String a s => (if decide (a = ","%char) then 1 else 0) + commas s
  end.

Lemma commas_app s t : commas (s +:+ t) = (commas s + commas t)%nat.
Proof. induction s as [|a s IH]; [done|]. simpl. rewrite IH. lia. Qed.

Lemma AppError_not_wg e : AppError_Error e <> wg_message.
Proof.
  intros E%(f_equal commas). unfold AppError_Error in E. rewrite !commas_app in E. revert E.
  change (commas ", ") with 1%nat. change (commas wg_message) with 0%nat. lia.
Qed.

Ltac framedS_step :=
  match goal with
  | |- framedS (up _) => apply framedS_up; solve [framed_op]
  | |- framedS (own _) => apply framedS_own; solve [eauto 2 with own]
  | |- framedS (mret _) => apply framedS_ret
  | |- framedS _ => solve [eauto 2 with quick]
  | |- framedS (mbind _ _) => apply framedS_bind; [|intros]
  | |- framedS (match ?x with _ => _ end) => destruct x eqn:?
  end.

Ltac framedS_op := intros; repeat (cbv beta zeta; framedS_step).

Ltac quick_step :=
  match goal with
  | |- settlesS true _ (mret RunDropped) => apply settlesS_drop
  | |- stepS true _ (mret (inl RunDropped)) => apply stepS_drop
  | |- stepS _ _ (mret (inr _)) => apply stepS_ret
  | |- stepS _ _ (up (panic _)) => apply stepS_panic; first [discriminate|apply AppError_not_wg]
  | |- settlesS _ _ (up (panic _)) => apply settlesS_panic; first [discriminate|apply AppError_not_wg]
  | |- stepS _ _ (mbind (fun x => mret (inl x)) _) => apply stepS_settles
  | |- settlesS _ _ (mbind (fun _ => mret RunReporting) _) => apply settlesS_reports
  | |- keepsS _ (mret _) => apply keepsS_ret
  | |- keepsS _ (mbind _ _) => apply keepsS_bind; [solve [framedS_op]|intros]
  | |- settlesS _ _ _ => solve [eauto 2 with quick]
  | |- stepS _ _ _ => solve [eauto 2 with quick]
  | |- settlesS _ _ (match ?x with _ => _ end) => destruct x eqn:?
  | |- stepS _ _ (match ?x with _ => _ end) => destruct x eqn:?
  | |- settlesS _ _ (mbind _ (up _)) => apply settlesS_leaves; [solve [repeat leave_step]|intros]
  | |- settlesS _ _ (mbind _ _) => apply settlesS_bind; [solve [framedS_op]|intros]
  | |- stepS _ _ (mbind _ _) => apply stepS_bind; [solve [framedS_op]|intros]
  end.

Ltac quick := intros; repeat (cbv beta zeta; quick_step).
