(* ===== verification/SessionRuns.v ===== *)
(** * The goroutines of the chat and instant message queues: how they end *)

From S2P Require Import Prelude Lru Model Queue Attempt TaskChannel World Sessions Agents.
From S2P Require Import Events Schema Manager Team Distribute Messages Dialing Frame Invariant Lifecycle.
From S2P Require Import Calling Chat ChatQueue Im ImQueue RunFrame SessionFrame.

(** ** The operations of the package chat *)

Section OwnChat.
Context {SRV : ChatServer}.

Lemma ch_ret {A} (a : A) : own_ok (S := ChatState_) (mret (M := CH) a).
Proof. by intros s msg. Qed.

Lemma ch_bind {A B} (m : CH A) (f : A -> CH B) :
  own_ok (S := ChatState_) m -> (forall a, own_ok (S := ChatState_) (f a)) ->
  own_ok (S := ChatState_) (m ≫= f).
Proof.
  intros Hm Hf s msg. unfold mbind, CH_bind. specialize (Hm s).
  destruct (m s) as [[a s']| |]; [apply Hf|intros [= <-]; by apply Hm|done].
Qed.

Lemma ch_call_ok {A} e (f : list ChatCmd -> A) : own_ok (S := ChatState_) (ch_call e f).
Proof. by intros s msg. Qed.

Lemma ch_modify_ok f : own_ok (S := ChatState_) (ch_modify f).
Proof. by intros s msg. Qed.

Lemma ch_millis_ok : own_ok (S := ChatState_) ch_millis.
Proof. by intros s msg. Qed.

Lemma new_conv_ok c : own_ok (S := ChatState_) (new_conv c).
Proof. by intros s msg. Qed.

Lemma get_conv_ok l : own_ok (S := ChatState_) (get_conv l).
Proof. intros s msg. unfold get_conv. destruct (_ !! l); intros; by simplify_eq. Qed.

Lemma mod_conv_ok l f : own_ok (S := ChatState_) (mod_conv l f).
Proof. intros s msg. unfold mod_conv. destruct (_ !! l); intros; by simplify_eq. Qed.

Lemma session_at_ok c i : own_ok (S := ChatState_) (session_at c i).
Proof. intros s msg. unfold session_at. destruct (_ !! i); intros; by simplify_eq. Qed.

Lemma chats_get_ok id : own_ok (S := ChatState_) (chats_get id).
Proof. intros s msg. unfold chats_get. by destruct (Lru.Get _ _ _). Qed.

End OwnChat.

#[export] Hint Resolve ch_ret ch_call_ok ch_modify_ok ch_millis_ok new_conv_ok get_conv_ok mod_conv_ok
  session_at_ok chats_get_ok : own.

Ltac ch_op := intros; repeat (cbv beta zeta; match goal with
  | |- own_ok (mbind (M := CH) _ _) => apply ch_bind; [|intros]
  | |- own_ok (match ?x with _ => _ end) => destruct x
  | |- own_ok (fun _ => Panic _) => intros ?s ?msg ?E; injection E as <-; discriminate
  | |- own_ok _ => solve [eauto 2 with own]
  end).

Section OwnChatOps.
Context {SRV : ChatServer}.

Abbreviation ok m := (own_ok (S := ChatState_) m).

Lemma mod_session_ok l i f : ok (mod_session l i f).
Proof. apply mod_conv_ok. Qed.
#[local] Hint Resolve mod_session_ok : own.

Lemma ch_emit_ok e : ok (ch_emit e).
Proof. apply ch_call_ok. Qed.
#[local] Hint Resolve ch_emit_ok : own.

Lemma recv_state_ok l : ok (recv_state l).
Proof. unfold recv_state. ch_op. Qed.
#[local] Hint Resolve recv_state_ok : own.

Lemma pushState_ok l st : ok (pushState l st).
Proof. unfold pushState, send_state. ch_op. Qed.
#[local] Hint Resolve pushState_ok : own.

Lemma InviteInternal_ok l u t s v : ok (InviteInternal l u t s v).
Proof. unfold InviteInternal, InviteInternal_call, InviteInternal_answer. ch_op. Qed.

Lemma Session_Leave_ok s c : ok (Session_Leave s c).
Proof. unfold Session_Leave, cli_err. ch_op. Qed.
#[local] Hint Resolve Session_Leave_ok : own.

Lemma Session_Close_ok s : ok (Session_Close s).
Proof. unfold Session_Close, Session_Decline, cli_err. ch_op. Qed.

Lemma RemoveConversation_ok l : ok (RemoveConversation l).
Proof. unfold RemoveConversation. ch_op. Qed.

Lemma NewConversation_ok d i a b v : ok (NewConversation d i a b v).
Proof. unfold NewConversation, StoreConversation. ch_op. Qed.

Lemma handleEvent_ok e : ok (handleEvent e).
Proof.
  unfold handleEvent, GetConversation, setDeclined, setJoined, setNewMessage, setClose, MemberSession.
  ch_op.
Qed.

Lemma conv_stop_ok cl : ok (now ← ch_millis; mod_conv cl (SetStop now)).
Proof. ch_op. Qed.

Lemma conv_session_ok cl i : ok (c ← get_conv cl; session_at c i).
Proof. ch_op. Qed.

Lemma member_activity_ok cl : ok (now ← ch_millis; mod_session cl 0 (SetActivity now)).
Proof. ch_op. Qed.

End OwnChatOps.

#[export] Hint Resolve mod_session_ok recv_state_ok pushState_ok InviteInternal_ok Session_Leave_ok
  Session_Close_ok RemoveConversation_ok NewConversation_ok handleEvent_ok conv_stop_ok conv_session_ok
  member_activity_ok : own.

(** ** InboundChatQueue *)

Section ChatRuns.
Context {OC : Type -> Type} {HOC : ObjectCache OC} {OCL : ObjectCacheLaws OC} {SV : Services} {DE : Decoders}.
Context {SRV : ChatServer}.
Variable q : QueueObject.
Variable set : InboundChatQueueSettings.
Variable l : loc.
Variable cl : loc.

Abbreviation X := (ST ChatState_ OC).

Lemma framedS_conv_get : framedS (OC := OC) (conv_get cl).
Proof. unfold conv_get. framedS_op. Qed.
#[local] Hint Resolve framedS_conv_get : quick.

Lemma framedS_conv_session i : framedS (OC := OC) (conv_session cl i).
Proof. unfold conv_session. framedS_op. Qed.
#[local] Hint Resolve framedS_conv_session : quick.

Lemma framedS_conv_stop : framedS (OC := OC) (conv_stop cl).
Proof. unfold conv_stop. framedS_op. Qed.
#[local] Hint Resolve framedS_conv_stop : quick.

Lemma step_chat_next d s : stepS (OC := OC) d l (chat_next cl s).
Proof. unfold chat_next. quick. Qed.
#[local] Hint Resolve step_chat_next : quick.

Lemma step_chat_again d s : stepS (OC := OC) d l (chat_again cl s).
Proof. unfold chat_again. quick. Qed.
#[local] Hint Resolve step_chat_again : quick.

Lemma step_chat_refused d s tm g e : stepS (OC := OC) d l (chat_refused l s tm g e).
Proof. unfold chat_refused. quick. Qed.
#[local] Hint Resolve step_chat_refused : quick.

Lemma step_chat_distribute s : stepS (OC := OC) true l (chat_distribute q set l cl s).
Proof. unfold chat_distribute. quick. Qed.
#[local] Hint Resolve step_chat_distribute : quick.

Lemma step_chat_inner_timer d s i : stepS (OC := OC) d l (chat_inner_timer set l cl s i).
Proof. unfold chat_inner_timer. quick. Qed.
#[local] Hint Resolve step_chat_inner_timer : quick.

Lemma step_chat_state d s g tm i st : stepS (OC := OC) d l (chat_state l cl s g tm i st).
Proof. unfold chat_state. quick. Qed.
#[local] Hint Resolve step_chat_state : quick.

Lemma step_chat_server d s e : stepS (OC := OC) d l (chat_server cl s e).
Proof. unfold chat_server. quick. Qed.
#[local] Hint Resolve step_chat_server : quick.

Lemma step_chat_outer_timer d s : stepS (OC := OC) d l (chat_outer_timer cl s).
Proof. unfold chat_outer_timer. quick. Qed.
#[local] Hint Resolve step_chat_outer_timer : quick.

Lemma step_chat_handle s ev m : chat_handle q set l cl s ev = Some m -> stepS (OC := OC) true l m.
Proof.
  unfold chat_handle, chat_inner, chat_outer. intros H. repeat case_match; simplify_eq/=; quick.
Qed.

Lemma settles_chat_missed d c tm g : settlesS (OC := OC) d l (chat_missed l c tm g).
Proof. unfold chat_missed. quick. Qed.
#[local] Hint Resolve settles_chat_missed : quick.

Lemma settles_chat_end d s : settlesS (OC := OC) d l (chat_end q l cl s).
Proof. unfold chat_end. quick. Qed.

Lemma settles_chat_loop evs : settlesS (OC := OC) true l (chat_loop q set l cl evs).
Proof.
  unfold chat_loop. quick. apply settlesS_step.
  - apply stepS_loop. apply step_chat_handle.
  - intros s. apply settlesS_then; [apply settles_chat_end|]. quick.
Qed.

End ChatRuns.

Section ChatProcess.
Context {OC : Type -> Type} {HOC : ObjectCache OC} {OCL : ObjectCacheLaws OC} {SV : Services} {DE : Decoders}.
Context {SRV : ChatServer}.

#[local] Hint Resolve settles_chat_loop : quick.

Lemma settles_chat_process q set l a b evs : settlesS (OC := OC) true l (chat_process q set l a b evs).
Proof.
  unfold chat_process. quick.
Qed.

End ChatProcess.

(** ** The operations of the package im *)

Section OwnIm.
Context {SRV : ImServer}.

Abbreviation ok m := (own_ok (S := ImState) m).

Lemma ic_ret {A} (a : A) : ok (mret (M := IC) a).
Proof. by intros s msg. Qed.

Lemma ic_bind {A B} (m : IC A) (f : A -> IC B) : ok m -> (forall a, ok (f a)) -> ok (m ≫= f).
Proof.
  intros Hm Hf s msg. unfold mbind, IC_bind. specialize (Hm s).
  destruct (m s) as [[a s']| |]; [apply Hf|intros [= <-]; by apply Hm|done].
Qed.

Lemma ic_call_ok {A} e (f : list ImCmd -> A) : ok (ic_call e f).
Proof. by intros s msg. Qed.

Lemma ic_millis_ok : ok ic_millis.
Proof. by intros s msg. Qed.

Lemma get_session_ok l : ok (get_session l).
Proof. intros s msg. unfold get_session. destruct (_ !! l); intros; by simplify_eq. Qed.

Lemma mod_im_ok l f : ok (mod_im l f).
Proof. intros s msg. unfold mod_im. destruct (_ !! l); intros; by simplify_eq. Qed.

Lemma closeSession_ok t i : ok (closeSession t i).
Proof. by intros s msg. Qed.

End OwnIm.

#[export] Hint Resolve ic_ret ic_call_ok ic_millis_ok get_session_ok mod_im_ok closeSession_ok : own.

Ltac ic_op := intros; repeat (cbv beta zeta; match goal with
  | |- own_ok (mbind (M := IC) _ _) => apply ic_bind; [|intros]
  | |- own_ok (match ?x with _ => _ end) => destruct x
  | |- own_ok _ => solve [eauto 2 with own]
  end).

Section OwnImOps.
Context {SRV : ImServer}.

Abbreviation ok m := (own_ok (S := ImState) m).

Lemma GivePreviewUser_ok l u d : ok (GivePreviewUser l u d).
Proof. unfold GivePreviewUser. ic_op. Qed.

Lemma RemovePreviewUser_ok l : ok (RemovePreviewUser l).
Proof. unfold RemovePreviewUser. ic_op. Qed.

Lemma UpgradePreviewUser_ok l u k : ok (UpgradePreviewUser l u k).
Proof. unfold UpgradePreviewUser. ic_op. Qed.

Lemma AddMemberUser_ok l u k : ok (AddMemberUser l u k).
Proof. unfold AddMemberUser. ic_op. Qed.

Lemma TransferMemberUser_ok l u f k : ok (TransferMemberUser l u f k).
Proof. unfold TransferMemberUser. ic_op. Qed.

Lemma RemoveMemberUser_ok l r : ok (RemoveMemberUser l r).
Proof. unfold RemoveMemberUser. ic_op. Qed.

Lemma Im_Close_ok l i : ok (Im_Close l i).
Proof. unfold Im_Close. ic_op. Qed.

Lemma Im_handleEvent_ok l e : ok (Im_handleEvent l e).
Proof. unfold Im_handleEvent. ic_op. Qed.

Lemma ic_each_ok ls f : (forall l, ok (f l)) -> ok (ic_each ls f).
Proof. intros Hf. induction ls; simpl; ic_op; done. Qed.

Lemma im_event_ok e : ok (im_event e).
Proof. intros s msg. apply ic_each_ok. intros l. apply Im_handleEvent_ok. Qed.

End OwnImOps.

#[export] Hint Resolve GivePreviewUser_ok RemovePreviewUser_ok UpgradePreviewUser_ok AddMemberUser_ok
  TransferMemberUser_ok RemoveMemberUser_ok Im_Close_ok im_event_ok : own.

(** ** InboundIMQueue *)

Section ImRuns.
Context {OC : Type -> Type} {HOC : ObjectCache OC} {OCL : ObjectCacheLaws OC} {SV : Services} {DE : Decoders}.
Context {SRV : ImServer}.

Lemma framed_NotificationQueue nm l : framed (OC := OC) (NotificationQueue nm l).
Proof. unfold NotificationQueue. framed_op. Qed.
#[local] Hint Resolve framed_NotificationQueue : framed.

Lemma framed_recv_task t : framed (OC := OC) (recv_task t).
Proof. unfold recv_task. framed_op. Qed.
#[local] Hint Resolve framed_recv_task : framed.

Lemma framed_task_request op t : framed (OC := OC) (task_request op t).
Proof. unfold task_request. framed_op. Qed.
#[local] Hint Resolve framed_task_request : framed.

Lemma framed_complete l : framed (OC := OC) (mod_attempt_o l Attempt_completeIMTransfer).
Proof.
  apply framed_mod_attempt_o. intros a. unfold Attempt_completeIMTransfer, IMTransferred. simpl.
  by destruct (at_imTransferredClosed a) eqn:E; simpl; rewrite ?E.
Qed.
#[local] Hint Resolve framed_complete : framed.

Variable q : QueueObject.
Variable set : InboundIMQueueSettings.
Variable l : loc.
Variable sess : loc.
Variable info : IMThreadCommunication.

Lemma framedS_givePreview ag d : framedS (OC := OC) (givePreview sess ag d).
Proof. unfold givePreview. framedS_op. Qed.
#[local] Hint Resolve framedS_givePreview : quick.

Lemma framedS_removePreview : framedS (OC := OC) (removePreview sess).
Proof. unfold removePreview. framedS_op. Qed.
#[local] Hint Resolve framedS_removePreview : quick.

Lemma framedS_joinAgent g : framedS (OC := OC) (joinAgent q l sess info g).
Proof. unfold joinAgent, transferAgent. framedS_op. Qed.
#[local] Hint Resolve framedS_joinAgent : quick.

Lemma framedS_checkIdleTimeouts t : framedS (OC := OC) (checkIdleTimeouts set l sess t).
Proof. unfold checkIdleTimeouts. framedS_op. Qed.
#[local] Hint Resolve framedS_checkIdleTimeouts : quick.

Lemma framedS_cleanupSession g r : framedS (OC := OC) (cleanupSession l sess g r).
Proof. unfold cleanupSession. framedS_op. Qed.
#[local] Hint Resolve framedS_cleanupSession : quick.

Lemma framedS_close_task t : framedS (OC := OC) (close_task t).
Proof. unfold close_task. framedS_op. Qed.
#[local] Hint Resolve framedS_close_task : quick.

Lemma settles_finalize_attempt d g tm t : settles (OC := OC) d l (finalize_attempt q l g tm t).
Proof.
  unfold finalize_attempt. settle. apply settles_reports.
Qed.

Lemma settles_finalizeAttempt d g tm t r : settlesS (OC := OC) d l (finalizeAttempt q l sess g tm t r).
Proof.
  unfold finalizeAttempt. do 2 (apply settlesS_bind; [framedS_op|intros]).
  apply settlesS_then; [apply settlesS_up, settles_finalize_attempt|]. quick.
Qed.
#[local] Hint Resolve settles_finalizeAttempt : quick.

Lemma step_im_stop d s g r : stepS (OC := OC) d l (im_stop q l sess s g r).
Proof. unfold im_stop. quick. Qed.
#[local] Hint Resolve step_im_stop : quick.

Lemma step_im_stop_interaction d s r : stepS (OC := OC) d l (im_stop_interaction q l sess s r).
Proof. unfold im_stop_interaction. quick. Qed.
#[local] Hint Resolve step_im_stop_interaction : quick.

Lemma step_im_tick d s k : (forall r, stepS d l (k r)) -> stepS (OC := OC) d l (im_tick set l sess s k).
Proof. unfold im_tick. quick. Qed.
#[local] Hint Resolve step_im_tick : quick.

Lemma step_im_missed d s tm g e k : stepS d l k -> stepS (OC := OC) d l (im_missed l info s tm g e k).
Proof. unfold im_missed. quick. Qed.
#[local] Hint Resolve step_im_missed : quick.

Lemma step_im_skip d s : stepS (OC := OC) d l (im_skip l s).
Proof. unfold im_skip. quick. Qed.
#[local] Hint Resolve step_im_skip : quick.

Lemma step_im_invite d s tm g t b : stepS (OC := OC) d l (im_invite q l sess s tm g t b).
Proof. unfold im_invite. quick. Qed.
#[local] Hint Resolve step_im_invite : quick.

Lemma step_im_distribute s : stepS (OC := OC) true l (im_distribute q l sess info s).
Proof. unfold im_distribute. quick. Qed.
#[local] Hint Resolve step_im_distribute : quick.

Lemma step_im_state d s tm g t st : stepS (OC := OC) d l (im_state q l sess info s tm g t st).
Proof. unfold im_state. quick. Qed.
#[local] Hint Resolve step_im_state : quick.

Lemma step_im_between s ev m : im_between l s ev = Some m -> stepS (OC := OC) true l m.
Proof.
  unfold im_between. intros H. destruct ev; simplify_eq/=; [|quick..].
  destruct (ml_task s); simplify_eq/=. quick.
Qed.

Lemma step_im_handle s ev m : im_handle q set l sess info s ev = Some m -> stepS (OC := OC) true l m.
Proof.
  unfold im_handle, im_inner, im_outer. intros H.
  repeat case_match; first [exact (step_im_between s _ _ H)|simplify_eq/=; quick].
Qed.

Lemma settles_inbound_im_run evs : settlesS (OC := OC) true l (inbound_im_run q set l sess info evs).
Proof.
  unfold inbound_im_run. apply settlesS_then; [|quick]. unfold im_body. quick.
  apply settlesS_step; [apply stepS_loop, step_im_handle|quick].
Qed.

End ImRuns.
