(* ===== verification/RunFacts.v ===== *)
(** * The theorems about the goroutines of the queues *)

From S2P Require Import Prelude Model Queue Attempt TaskChannel Resource Calls World Agents.
From S2P Require Import Events Schema Manager Team Distribute Messages Dialing Frame Invariant Lifecycle.
From S2P Require Import Sessions Calling CallInbound CallDial CallPredict Chat ChatQueue Im ImQueue.
From S2P Require Import RunFrame CallRuns SessionFrame SessionRuns.

(** A goroutine of a queue, with the events its selects receive; the one of a chat or of an
    instant message starts in some state of the conversations or of the sessions. *)
Inductive QueueRun :=
| RunInbound (props : QueueInboundSettings) (mCall : string) (evs : list QEvent)
| RunJoin (mCall : string) (evs : list QEvent)
| RunOutbound (processingWithoutAnswer : bool) (tm : agentTeam) (id : string) (agent : loc) (evs : list QEvent)
| RunIVR (s : QueueIVRSettings) (evs : list QEvent)
| RunOffline (s : OfflineQueueSettings) (tm : agentTeam) (agent : loc) (evs : list QEvent)
| RunPreview (s : PreviewSettings) (tm : agentTeam) (agent : loc) (evs : list QEvent)
| RunProgressive (s : ProgressiveCallQueueSettings) (tm : agentTeam) (agent : loc) (evs : list QEvent)
| RunPredict (s : PredictCallQueueSettings) (evs : nat -> list QEvent) (offer : list QEvent)
| RunChat (s : InboundChatQueueSettings) (inviterId invUserId : string) (evs : list XEvent) (chats : ChatState_)
| RunIM (s : InboundIMQueueSettings) (sess : loc) (info : IMThreadCommunication) (evs : list MEvent)
    (client : ImState).

(** The queues whose goroutine can return without taking the attempt out. *)
Definition may_drop (r : QueueRun) : bool :=
  match r with
  | RunOutbound _ _ _ _ _ | RunPreview _ _ _ _ | RunProgressive _ _ _ _ => false
  | _ => true
  end.

Section RunFacts.
Context {OC : Type -> Type} {HOC : ObjectCache OC} {OCL : ObjectCacheLaws OC} {SV : Services} {DE : Decoders}.
Context {CV : CallViews} {XS : ChatServer} {IS : ImServer}.

Abbreviation W := (World OC).

Definition queue_run (q : QueueObject) (l : loc) (r : QueueRun) : M OC RunEnd :=
  match r with
  | RunInbound props m evs => inbound_run q props l m evs
  | RunJoin m evs => join_run q l m evs
  | RunOutbound b tm id g evs => outbound_run q b l tm id g evs
  | RunIVR s evs => ivr_run q s l evs
  | RunOffline s tm g evs => offline_run q s l tm g evs
  | RunPreview s tm g evs => preview_run q s l tm g evs
  | RunProgressive s tm g evs => prog_run q s l tm g evs
  | RunPredict s evs offer => runPark q s l evs offer
  | RunChat s a b evs c => p ← chat_process q s l a b evs c; mret p.1
  | RunIM s sess info evs c => p ← inbound_im_run q s l sess info evs c; mret p.1
  end.

Lemma settles_queue_run q l r : settles (may_drop r) l (queue_run q l r).
Proof.
  destruct r; simpl.
  - apply settles_inbound_run.
  - apply settles_join_run.
  - apply settles_outbound_run.
  - apply settles_ivr_run.
  - apply settles_offline_run.
  - apply settles_preview_run.
  - apply settles_prog_run.
  - apply settles_runPark.
  - eapply ends_bind; [apply settles_chat_process|]. by intros w p w1.
  - eapply ends_bind; [apply settles_inbound_im_run|]. by intros w p w1.
Qed.

(** C2. How the goroutine of an attempt ends, whatever events it receives and whatever the
    services answer: the attempt was counted out exactly once and nothing else left, or the
    end of the conversation was reported, and that was the last thing that touched it, or it
    is still cached and counted. The last is impossible for the queues of outbound, preview
    and progressive calls. *)
Theorem goroutine_ends (q : QueueObject) (l : loc) (r : QueueRun) (w w' : W) (x : RunEnd) :
  minv w -> queue_run q l r w = Ret (x, w') ->
  match x with
  | RunLeft => exists a, w_attempts w !! l = Some a /\ gone (at_Id a) w w'
  | RunReporting => exists tm qr ag reported transfer w1 w2, frame w w1 /\
      Team_Reporting tm qr l ag reported transfer w1 = Ret (tt, w2) /\ frame w2 w'
  | RunDropped => may_drop r = true /\ cached w' = cached w /\ w_wg w' = w_wg w
  end.
Proof.
  intros Hw E. destruct (ends_run _ _ _ _ _ (settles_queue_run q l r) Hw E) as [H D].
  destruct x; [done|done|]. split; [auto|]. split; [by apply frame_cached|apply (fr_wg _ _ H)].
Qed.

(** C15. The goroutine of an inbound call leaves its attempt behind in one case: the store
    refused to look for an agent for this attempt. The refused call was made in this run, and
    it is the last thing the run did. *)
Theorem inbound_drops_only_refused (q : QueueObject) (props : QueueInboundSettings) (l : loc)
    (mCall : string) (evs : list QEvent) (w w' : W) :
  minv w -> inbound_run q props l mCall evs w = Ret (RunDropped, w') ->
  exists a t e, w_attempts w !! l = Some a /\ w_trace w `suffix_of` t /\
    w_trace w' = SetAttemptFindAgent (at_Id a) :: t /\ svc_error (w_trace w') = Some e.
Proof.
  intros Hw E. unfold inbound_run in E.
  apply bind_framed in E as (u & w1 & _ & F1 & E); [|framed_op].
  apply bind_ret in E as (a1 & w2 & [-> Ha1]%get_attempt_ret & E).
  apply bind_ret in E as (err & w3 & E3 & E). unfold SetFindAgentState, call_err, call in E3.
  injection E3 as <- <-.
  destruct (svc_error _) as [e|] eqn:Es.
  { apply ret_ret in E as [_ ->]. pose proof (fr_attempts _ _ F1 l) as H. rewrite Ha1 in H.
    destruct (w_attempts w !! l) as [a|] eqn:Ha; [|done]. exists a, (w_trace w1), e.
    split_and!; [done|apply F1|by rewrite <- H|done]. }
  exfalso.
  match type of E with ?m ?w0 = _ =>
    assert (settles false l m) as Hs; [|assert (frame w1 w0) as F3 by by apply frame_other] end.
  { settle; [by eapply step_inbound_handle|apply settles_inbound_finish]. }
  assert (forall x wa, minv wa -> settled false l RunDropped wa x -> False) as No
    by (intros x wa _ [_ D]; by specialize (D eq_refl)).
  eapply No, (ends_run _ _ _ _ _ Hs); [..|exact E]; eapply frame_minv; try exact Hw;
    (etrans; [exact F1|exact F3]).
Qed.

(** An agent of an offline queue who does not answer the call: the goroutine reports the
    missed call and returns with the attempt still in the members cache and still counted. *)
Theorem offline_missed_stays (q : QueueObject) (l : loc) (tm : agentTeam) (s : LegLoop) (w w' : W)
    (x : RunEnd) :
  minv w -> (forall t, ca_acceptAt (cq_view t (lg_call s)) <= 0 /\ ca_bridgeAt (cq_view t (lg_call s)) <= 0) ->
  offline_finish q l tm s w = Ret (x, w') ->
  x = RunDropped /\ cached w' = cached w /\ w_wg w' = w_wg w.
Proof.
  intros Hw Hv E. pose proof (ends_run _ _ _ _ _ (settles_offline_finish q l tm s) Hw E) as [H _].
  assert (x = RunDropped) as ->.
  { unfold offline_finish in E. apply bind_ret in E as (now & w1 & _ & E).
    apply bind_ret in E as (c & w2 & E2 & E). apply bind_ret in E as (c' & w3 & E3 & E).
    unfold peek, call in E2, E3. injection E2 as <- <-. injection E3 as <- <-.
    rewrite decide_False in E.
    - by apply bind_ret in E as (? & ? & _ & [-> _]%ret_ret).
    - unfold BillSeconds. match goal with |- context [cq_view ?t (lg_call s)] => pose proof (Hv t) end.
      rewrite decide_False by lia. match goal with |- context [ca_acceptAt (cq_view ?t (lg_call s))] =>
        pose proof (Hv t) end. lia. }
  split; [done|]. split; [by apply frame_cached|apply (fr_wg _ _ H)].
Qed.

(** ** The retries of a predictive call *)

(** A round that goes on counts. *)
Lemma predict_last_counts s l rt (w w' : W) j rt' :
  predict_last s l rt w = Ret (inr (j, rt'), w') ->
  rt_counter rt' = S (rt_counter rt) /\ (rt_counter rt < maxRetryCount)%nat.
Proof.
  unfold predict_last. intros (r & w1 & _ & E)%bind_ret. apply bind_ret in E as (a & w2 & _ & E).
  destruct r as [res|].
  - case_decide.
    { apply bind_ret in E as (? & ? & _ & E). apply bind_ret in E as (? & ? & _ & E).
      by apply ret_ret in E as [? _]. }
    case_decide as Hc.
    + split; [|tauto]. revert E. unfold predict_retry.
      intros E. repeat (apply bind_ret in E as (? & ? & _ & E)).
      match type of E with (match ?o with _ => _ end) _ = _ => destruct o end.
      * apply bind_ret in E as (? & ? & _ & E). apply ret_ret in E as [E _]. by injection E as -> ->.
      * case_match.
        -- repeat (apply bind_ret in E as (? & ? & _ & E)). by apply ret_ret in E as [? _].
        -- apply bind_ret in E as (? & ? & _ & E). apply ret_ret in E as [E _]. by injection E as -> ->.
    + apply bind_ret in E as (? & ? & _ & E). apply bind_ret in E as (? & ? & _ & E).
      by apply ret_ret in E as [? _].
  - apply bind_ret in E as (? & ? & _ & E). by apply ret_ret in E as [? _].
Qed.

Lemma predict_loop_exhausted q s l out out' fuel fuel' j rt evs offer (w : W) :
  (rt_counter rt <= maxRetryCount)%nat ->
  (maxRetryCount < rt_counter rt + fuel)%nat -> (maxRetryCount < rt_counter rt + fuel')%nat ->
  predict_loop q s l out fuel j rt evs offer w = predict_loop q s l out' fuel' j rt evs offer w.
Proof.
  revert fuel' j rt w. induction fuel as [|fuel IH]; intros fuel' j rt w Hc Hf Hf'; [lia|].
  destruct fuel' as [|fuel']; [lia|]. simpl. unfold mbind, M_bind.
  assert (forall (d : M OC (RunEnd + unit)) (f g : RunEnd + unit -> M OC RunEnd),
    (forall x w1, f x w1 = g x w1) -> (d ≫= f) w = (d ≫= g) w) as Hd.
  { intros d f g Hfg. unfold mbind, M_bind. destruct (d w) as [[]| |]; [apply Hfg|done..]. }
  apply Hd. intros [x|[]] w1; [done|].
  destruct (predict_last s l rt w1) as [[[x|[j' rt']] w2]| |] eqn:E; [done| |done..].
  apply predict_last_counts in E as [E Hlt]. apply IH; lia.
Qed.

(** C12. The retries of a predictive call end: after at most ten rounds the goroutine returns,
    panics or waits for a call. What the model does when its fuel of ten rounds runs out is
    never reached, and more fuel changes nothing. *)
Theorem predict_retries_end (q : QueueObject) (s : PredictCallQueueSettings) (l : loc)
    (evs : nat -> list QEvent) (offer : list QEvent) (out : M OC RunEnd) (extra : nat) (w : W) :
  (go ← DoDistributeSchema (qo_base q) l;
   if negb go then _ ← LeavingMember l; mret RunLeft
   else predict_loop q s l out (maxRetryCount + extra) GotoRetry (MkRetry 1 [] true false) evs offer) w
  = runPark q s l evs offer w.
Proof.
  unfold runPark, mbind, M_bind. destruct (DoDistributeSchema _ _ _) as [[[] w1]| |]; [|done..]. cbn [negb].
  apply predict_loop_exhausted; simpl; unfold maxRetryCount; lia.
Qed.

(** ** Detection of answering machines *)

(** When the detector says that a machine answered, the progressive queue only reads the
    call: no agent is confirmed, called or told, and the goroutine goes on waiting. *)
Theorem machine_calls_no_agent (q : QueueObject) (s : ProgressiveCallQueueSettings) (l : loc)
    (tm : agentTeam) (mCall : string) (p : ProgLoop) (amd : QueueAmdSettings) (w : W) :
  pg_Amd s = Some amd -> amd_Enabled amd = true -> amd_Ai amd = false ->
  Calls.IsHuman (cq_view (CallPeek mCall :: w_trace w) mCall) = false ->
  prog_answer q s l tm mCall p CALL_STATE_DETECT_AMD w =
  Ret (inr p, w <| w_trace := (CallPeek mCall :: w_trace w) |>).
Proof.
  intros Ea He Hai Hm. unfold prog_answer, hasProcessAmd, amd_pending, Queue_IsHuman. rewrite Ea, He, Hai.
  simpl. unfold mbind, M_bind, peek, call. simpl. by rewrite Hm.
Qed.

(** The switch sleeps for the time of the analysis and a tenth of a second, if that fits
    16 bits: above 65435 milliseconds it sleeps for less than a tenth of a second. *)
Theorem amd_sleep_wraps (b : BaseQueue) (amd : QueueAmdSettings) (onHuman : string) (rq : CallRequest) :
  amd_Enabled amd = true -> amd_Ai amd = false -> 0 <= amd_TotalAnalysisTime amd < 65536 ->
  let total := amd_TotalAnalysisTime (ToArgs amd).2 in
  exists rq' n, SetAmdCall b (Some amd) onHuman rq = (true, rq') /\
    last (cr_Applications rq') = Some ("sleep", fmt_d n) /\
    (total < 65436 -> n = total + 100) /\ (65436 <= total -> n < 100).
Proof.
  intros He Hai Hr. cbv zeta. unfold SetAmdCall. rewrite He, Hai. simpl.
  assert (0 <= amd_TotalAnalysisTime (ToArgs amd).2 < 65536) as Ht.
  { unfold ToArgs. destruct (amd_buildString amd); [done|]. simpl. unfold dflt. case_decide; lia. }
  destruct (ToArgs amd) as [args amd']. simpl in *. eexists _, _. split; [done|].
  split; [destruct (bq_amdPlaybackFileUri b); simpl; by rewrite last_snoc|]. unfold u16. split; intros Hc.
  - rewrite Z.mod_small by lia. done.
  - replace (amd_TotalAnalysisTime amd' + 100) with (amd_TotalAnalysisTime amd' - 65436 + 1 * 2 ^ 16) by lia.
    rewrite Z_mod_plus_full, Z.mod_small by lia. lia.
Qed.

End RunFacts.
