(* ===== verification/Histories.v ===== *)
(** * Histories of the process

    [entry] lists the requests, the tick of the dialing and the goroutines of the queues;
    [exec] runs one of them to its end. *)

From S2P Require Import Prelude Model Queue Attempt TaskChannel Resource Calls World Agents.
From S2P Require Import Events Schema Manager Team Distribute Messages Dialing Frame Invariant Lifecycle.
From S2P Require Import Sessions Calling Chat Im RunFrame RunFacts.

(** ** Entry points *)

Inductive entry :=
| ReqCall (rq : CallJoinToQueueRequest)
| ReqCallAgent (rq : JoinToAgentRequest)
| ReqOutbound (rq : JoinToAgentRequest)
| ReqTask (rq : JoinToAgentRequest)
| ReqChat (rq : ChatJoinToQueueRequest)
| ReqIM (rq : IMJoinToQueueRequest)
| ReqTransferIM (domainId attemptId agentId queueId : Z)
| ReqDirect (memberId communicationId agentId : Z)
| ReqIntercept (domainId attemptId agentId : Z)
| ReqReport (attemptId : Z) (cb : AttemptCallback) (system draft : bool)
| ReqRenewal (domainId attemptId renewal : Z)
| ReqAccept (canceled : bool) (id agentID userID : Z)
| ReqClose (id : Z)
| ReqCancel (id : Z) (result : string)
| ReqFormAction (id : Z) (action : string) (fields : strmap)
| ReqSaveForm (domainId id : Z) (fields : strmap) (form : string)
| ReqResume (id domainId : Z)
| ReqOnline (domainId agentId : Z) (onDemand : bool) (status : option Lookup)
| ReqLogout (agentId : Z)
| ReqPause (agentId : Z) (payload comment : option string)
| ReqWaiting (agentId : Z) (channel : string)
| Tick
| RunTask (q : QueueObject) (tm : agentTeam) (attempt agent task : loc) (evs : list task_event)
| RunTaskOutbound (q : QueueObject) (s : TaskOutboundQueueSettings) (attempt : loc)
| RunQueue (q : QueueObject) (attempt : loc) (r : QueueRun)
| RunForm (schemaId : Z) (attempt : loc)
| Shutdown.

Definition ignore {OC A} (m : M OC A) : M OC unit := _ ← m; mret tt.

Definition exec {OC} {HOC : ObjectCache OC} {SV : Services} {DE : Decoders}
    {CV : CallViews} {XS : ChatServer} {IS : ImServer} (e : entry) : M OC unit :=
  match e with
  | ReqCall rq => ignore (DistributeCall rq)
  | ReqCallAgent rq => ignore (DistributeCallToAgent rq)
  | ReqOutbound rq => ignore (OutboundCall rq)
  | ReqTask rq => ignore (DistributeTaskToAgent rq)
  | ReqChat rq => ignore (DistributeChatToQueue rq)
  | ReqIM rq => ignore (DistributeIMToQueue rq)
  | ReqTransferIM d i a q => ignore (TransferIM d i a q)
  | ReqDirect m c a => ignore (DistributeDirectMember m c a)
  | ReqIntercept d i a => ignore (InterceptAttempt d i a)
  | ReqReport i cb s d => ignore (ReportingAttempt i cb s d)
  | ReqRenewal d i r => ignore (RenewalAttempt d i r)
  | ReqAccept c i a u => ignore (App_AcceptAgentTask c i a u)
  | ReqClose i => ignore (CloseAgentTask i)
  | ReqCancel i r => ignore (SetAttemptCancel i r)
  | ReqFormAction i a f => ignore (attemptProcessingActionForm i a f)
  | ReqSaveForm d i f m => ignore (SaveFormFields d i f m)
  | ReqResume i d => ignore (ResumeAttempt i d)
  | ReqOnline d i o s => ignore (AgentGoOnline d i o s)
  | ReqLogout i => ignore (SetAgentLogout i)
  | ReqPause i p c => ignore (SetAgentPause i p c)
  | ReqWaiting i c => ignore (WaitingAgentChannel i c)
  | Tick => routeData
  | RunTask q t l g k e => task_run_queue q t l g k e
  | RunTaskOutbound q s l => task_outbound_run q s l
  | RunQueue q l r => ignore (queue_run q l r)
  | RunForm s l => qm_StartProcessingForm s l
  | Shutdown => closeAttempts
  end.

Section Entries.
Context {OC : Type -> Type} {HOC : ObjectCache OC} {OCL : ObjectCacheLaws OC} {SV : Services} {DE : Decoders}.
Context {CV : CallViews} {XS : ChatServer} {IS : ImServer}.

#[local] Hint Resolve safe_DistributeCall safe_DistributeCallToAgent safe_OutboundCall
  safe_DistributeTaskToAgent safe_DistributeChatToQueue safe_DistributeIMToQueue safe_TransferIM
  safe_DistributeDirectMember safe_ReportingAttempt safe_routeData safe_task_run_queue
  safe_task_outbound_run safe_closeAttempts : safe.

Lemma safe_queue_run q l r : safe (OC := OC) (queue_run q l r).
Proof. eapply settles_safe, settles_queue_run. Qed.
#[local] Hint Resolve safe_queue_run : safe.

Lemma safe_exec e : safe (exec (OC := OC) e).
Proof. destruct e; simpl; unfold ignore; safe_op. Qed.

(** C1. Whatever the requests, ticks and goroutines of the package do one after the other,
    the goroutines of every queue
    included, whatever the services answer and whatever cache is used, the wait group is never
    driven negative and counts at least the attempts that are in the members cache. *)
Theorem wait_group_covers_members (es : list entry) (w : World OC) :
  minv w ->
  match for_each es exec w with
  | Ret (_, w') => 0 <= Z.of_nat (size (cached w')) <= w_wg w'
  | Panic s => s <> wg_message
  | Block _ => True
  end.
Proof.
  intros Hw. pose proof (safe_for_each es exec safe_exec w Hw) as Hs.
  destruct (for_each es exec w) as [[u w']| |]; [|done..].
  pose proof (mi_count _ Hs). lia.
Qed.

(** ** Stopping the manager *)

(** waitTimeout: whether the time was over before the wait group was zero. *)
Definition waitTimeout (timedOut : bool) : M OC bool := fun w =>
  if timedOut then Ret (true, w)
  else if decide (w_wg w = 0) then Ret (false, w) else Block "wg.Wait".

(** Manager.Stop up to the end of its loop, which the file Jobs has: [others] is what the other
    goroutines do while it waits. *)
Definition Manager_Stop (others : list entry) (timedOut : bool) : M OC unit :=
  _ ← for_each others exec;
  timeout ← waitTimeout timedOut;
  if timeout : bool then closeAttempts else mret tt.

(** C6. Stopping the manager. While it waits other requests and goroutines run. If the wait ends
    because the wait group is zero, no attempt is left in the members cache. If it ends because
    the time is over, the cached attempts are reported. When that returns, no attempt was added,
    each one that left the cache was counted out once, and an attempt that is still there is one
    whose report the store refused, or the manager is set to wait for channels to close (then a
    channel may refuse). It does return when the manager does not wait for channels, the
    channels that the store names in its answers are calls, and each cached attempt is fit to be
    reported: it has its queue, the agent it points to exists, a queue that hangs up the member
    has a call, and the cancel channel is closed only if it was cancelled. *)
Theorem stop_drains (others : list entry) (w w1 : World OC) :
  minv w -> for_each others exec w = Ret (tt, w1) ->
  (w_wg w1 = 0 -> Manager_Stop others false w = Ret (tt, w1) /\ cached w1 = ∅) /\
  (forall w', Manager_Stop others true w = Ret (tt, w') ->
    cached w' ⊆ cached w1 /\
    w_wg w' = w_wg w1 - (Z.of_nat (size (cached w1)) - Z.of_nat (size (cached w'))) /\
    forall id, is_Some (cached w' !! id) -> svc_waitChannelClose = true \/ report_refused id w1 w') /\
  (svc_waitChannelClose = false -> reports_hang_up ->
   (forall id l, cached w1 !! id = Some l -> at_loc fit l w1) ->
   exists w', Manager_Stop others true w = Ret (tt, w')).
Proof.
  intros Hw E. pose proof (safe_for_each others exec safe_exec w Hw) as Hs. rewrite E in Hs.
  unfold Manager_Stop. unfold mbind at 1 3 5, M_bind at 1 3 5. rewrite E.
  unfold mbind, M_bind, waitTimeout. split_and!.
  - intros H0. rewrite decide_True by done. split; [done|].
    apply map_size_empty_inv. pose proof (mi_count _ Hs). lia.
  - intros w' Ec. apply closeAttempts_closing in Ec as [[_ Hg Hc _] H]; [|done].
    unfold surplus in Hg. split_and!; [done|lia|done].
  - intros Hn Hr Hf. by apply closeAttempts_returns.
Qed.

End Entries.
