(* ===== verification/SessionFacts.v ===== *)
(** * The theorems about chats and instant messages in the queues *)

From S2P Require Import Prelude Model Queue Attempt TaskChannel World Sessions Agents.
From S2P Require Import Events Schema Manager Team Distribute Messages Calling Im ImQueue.

(** ** Messages of the gateway *)

(** A message that ends a session: its client or its agent, if known, was removed. *)
Definition ends_session (msg : IMMessage) (x : ImSession) : Prop :=
  exists sy id, mm_System msg = Some sy /\ (sy_Type sy = "member_removed" \/ sy_Type sy = "transfer") /\
    id <> "" /\ (id = is_clientMemberId x \/ id = is_agentMemberId x) /\
    (id = sm_RemovedMemberId (sy_Metadata sy) \/ id = sm_TransferredMemberId (sy_Metadata sy)).

Lemma AffectsMember_iff sy id :
  AffectsMember sy id = true <->
  id <> "" /\ (id = sm_RemovedMemberId (sy_Metadata sy) \/ id = sm_TransferredMemberId (sy_Metadata sy)).
Proof.
  unfold AffectsMember. case_decide as E; [naive_solver|]. rewrite orb_true_iff, !bool_decide_eq_true.
  naive_solver.
Qed.

(** What a message does not change in a session. *)
Definition same_session (x x' : ImSession) : Prop :=
  is_threadId x' = is_threadId x /\ is_clientMemberId x' = is_clientMemberId x /\
  is_agentMemberId x' = is_agentMemberId x /\ is_previewUserId x' = is_previewUserId x.

#[local] Instance same_session_preorder : PreOrder same_session.
Proof. split; [by intros x|]. intros x y z. unfold same_session. naive_solver congruence. Qed.

Lemma ends_session_same msg x x' : same_session x x' -> ends_session msg x' <-> ends_session msg x.
Proof. intros (_ & E1 & E2 & _). unfold ends_session. by rewrite E1, E2. Qed.

Lemma onMessage_same now sub x :
  same_session x (onMessage now sub x) /\ is_cancelled (onMessage now sub x) = is_cancelled x.
Proof. unfold onMessage. simpl. repeat case_decide; done. Qed.

Lemma SetBotActive_same now b x :
  same_session x (Im_SetBotActive now b x) /\ is_cancelled (Im_SetBotActive now b x) = is_cancelled x.
Proof. unfold Im_SetBotActive. by destruct (is_botActive x && negb b). Qed.

Section Gateway.
Context {SRV : ImServer}.

(** One session and one message. *)
Lemma Im_handleEvent_spec l msg s x :
  im_heap s !! l = Some x ->
  exists x', Im_handleEvent l msg s = Ret (tt, s <| im_heap := (<[l := x']> (im_heap s)) |>) /\
    same_session x x' /\ (is_cancelled x' = true <-> is_cancelled x = true \/ ends_session msg x).
Proof.
  intros Hx. unfold Im_handleEvent, mbind, IC_bind, ic_millis.
  assert (forall f, same_session x (f x) -> is_cancelled (f x) = is_cancelled x -> ~ ends_session msg x ->
    exists x', mod_im l f s = Ret (tt, s <| im_heap := (<[l := x']> (im_heap s)) |>) /\
    same_session x x' /\ (is_cancelled x' = true <-> is_cancelled x = true \/ ends_session msg x)) as Hmod.
  { intros f Hs Hc Hn. exists (f x). unfold mod_im. rewrite Hx, Hc. naive_solver. }
  unfold ends_session in *. destruct (mm_System msg) as [sy|].
  2: { apply Hmod; [apply onMessage_same..|naive_solver]. }
  case_decide as E1.
  { apply Hmod; [apply SetBotActive_same..|]. intros (? & ? & [= <-] & H & _). rewrite E1 in H. naive_solver. }
  case_decide as E2.
  { apply Hmod; [apply SetBotActive_same..|]. intros (? & ? & [= <-] & H & _). rewrite E2 in H. naive_solver. }
  case_decide as E3; [|apply Hmod; [apply onMessage_same..|naive_solver]].
  unfold get_session. rewrite Hx.
  destruct (AffectsMember sy (is_clientMemberId x) || AffectsMember sy (is_agentMemberId x)) eqn:Ea.
  - unfold mod_im. rewrite Hx. eexists. split; [reflexivity|]. split; [done|]. simpl.
    apply orb_true_iff in Ea. rewrite !AffectsMember_iff in Ea.
    split; [|done]. intros _. right. destruct Ea as [[? ?]|[? ?]]; eauto 10.
  - exists x. rewrite insert_id by done. split; [by destruct s|]. split; [done|].
    apply orb_false_iff in Ea as [Ec Eg]. split; [by left|]. intros [|(? & id & [= <-] & _ & Hid & Hx' & Hr)]; [done|].
    assert (AffectsMember sy id = true) as Hy by by apply AffectsMember_iff.
    destruct Hx' as [->| ->]; congruence.
Qed.

Lemma Im_handleEvent_absent k msg st :
  im_heap st !! k = None -> Im_handleEvent k msg st = Panic nil_deref.
Proof.
  intros Hy. assert (forall f, mod_im k f st = Panic nil_deref) as Hm by (intros f; unfold mod_im; by rewrite Hy).
  unfold Im_handleEvent, mbind, IC_bind, ic_millis, get_session.
  destruct (mm_System msg) as [sy|]; [|apply Hm]. repeat case_decide; try apply Hm. by rewrite Hy.
Qed.

Lemma im_event_each msg ls s :
  Forall (fun l => is_Some (im_heap s !! l)) ls ->
  exists s', ic_each ls (fun l => Im_handleEvent l msg) s = Ret (tt, s') /\ im_threads s' = im_threads s /\
    forall l x, im_heap s !! l = Some x -> exists x', im_heap s' !! l = Some x' /\ same_session x x' /\
      (is_cancelled x' = true <-> is_cancelled x = true \/ (l ∈ ls /\ ends_session msg x)).
Proof.
  revert s. induction ls as [|l ls IH]; intros s Hls; simpl.
  { exists s. split; [done|]. split; [done|]. intros l x Hx. exists x. split; [done|]. split; [done|].
    rewrite elem_of_nil. naive_solver. }
  apply Forall_cons in Hls as [[y Hy] Hls]. unfold mbind, IC_bind.
  destruct (Im_handleEvent_spec l msg s y Hy) as (y' & -> & Hs & Hc).
  destruct (IH (s <| im_heap := (<[l := y']> (im_heap s)) |>)) as (s' & -> & Ht & H).
  { eapply Forall_impl; [exact Hls|]. intros k Hk. apply lookup_insert_is_Some'. by right. }
  exists s'. split; [done|]. split; [done|]. intros k x Hx. simpl in H.
  destruct (decide (k = l)) as [->|Hne].
  - rewrite Hy in Hx. injection Hx as <-. destruct (H l y') as (x' & Hx' & Hs' & Hc'); [by rewrite lookup_insert_eq|].
    exists x'. split; [done|]. split; [by etrans|]. rewrite Hc', Hc, elem_of_cons.
    pose proof (ends_session_same msg _ _ Hs). tauto.
  - destruct (H k x) as (x' & Hx' & Hs' & Hc'); [by rewrite lookup_insert_ne|].
    exists x'. split; [done|]. split; [done|]. rewrite Hc', elem_of_cons. naive_solver.
Qed.

(** A message and the sessions of a client. *)
Lemma im_event_spec (msg : IMMessage) (s : ImState) :
  Forall (fun l => is_Some (im_heap s !! l)) (im_threads s) ->
  exists s', im_event msg s = Ret (tt, s') /\ im_threads s' = im_threads s /\
    forall l x, im_heap s !! l = Some x -> exists x', im_heap s' !! l = Some x' /\
      is_previewUserId x' = is_previewUserId x /\
      (is_cancelled x' = true <-> is_cancelled x = true \/
         (l ∈ im_threads s /\ is_threadId x = mm_ThreadID msg /\ ends_session msg x)).
Proof.
  intros Hall. unfold im_event.
  destruct (im_event_each msg (threadSessions (mm_ThreadID msg) s) s) as (s' & E & Ht & H).
  { apply Forall_forall. intros l Hl. apply list_elem_of_filter in Hl as [_ Hl].
    by apply (proj1 (Forall_forall _ _) Hall). }
  exists s'. split; [done|]. split; [done|]. intros l x Hx.
  destruct (H l x Hx) as (x' & Hx' & (_ & _ & _ & Hp) & Hc). exists x'. split; [done|]. split; [done|].
  rewrite Hc. unfold threadSessions. rewrite list_elem_of_filter. unfold in_thread. rewrite Hx.
  rewrite bool_decide_eq_true. tauto.
Qed.

(** A message of the gateway is handled by every session of its thread, and cancels a
    session exactly if it says that its client or its agent was removed or transferred; an
    id that is not known, the empty one, matches nothing. Previews and ids stay. *)
Theorem im_message_cancels (msg : IMMessage) (s : ImState) :
  Forall (fun l => is_Some (im_heap s !! l)) (im_threads s) ->
  exists s', im_event msg s = Ret (tt, s') /\ im_threads s' = im_threads s /\
    forall l x, im_heap s !! l = Some x -> exists x', im_heap s' !! l = Some x' /\
      is_previewUserId x' = is_previewUserId x /\
      (is_cancelled x' = true <-> is_cancelled x = true \/
         (l ∈ im_threads s /\ is_threadId x = mm_ThreadID msg /\ ends_session msg x)).
Proof. apply im_event_spec. Qed.

(** ** Previews *)

Lemma GivePreviewUser_spec l u d s x :
  im_heap s !! l = Some x -> 0 < d <= MaxPreviewDuration ->
  exists r s', GivePreviewUser l u d s = Ret (r, s') /\
    im_trace s' = GivePreview (is_hdrs x) (is_threadId x) (fmt_d u) (Z.quot d 1000000) :: im_trace s /\
    match r with
    | None => im_heap s' !! l = Some (x <| is_previewUserId := (fmt_d u) |>)
    | Some e => im_heap s' = im_heap s /\ exists code text, e = ImRpc code text
    end.
Proof.
  intros Hx Hd. unfold GivePreviewUser. rewrite decide_False by lia.
  unfold mbind, IC_bind, get_session, ic_call. rewrite Hx. simpl.
  destruct (isv_err _) as [e|]; simpl.
  - eexists _, _. split; [done|]. split; [done|]. split; [done|]. by eexists _, _.
  - unfold mod_im. simpl. rewrite Hx. eexists _, _. split; [done|]. split; [done|]. simpl.
    by rewrite lookup_insert_eq.
Qed.

End Gateway.

Section ImFacts.
Context {OC : Type -> Type} {HOC : ObjectCache OC} {SV : Services} {DE : Decoders} {SRV : ImServer}.

(** C16. The preview of an invited agent: none is asked for when the team has no time limit;
    otherwise the gateway is asked once, for the time of the invite and five seconds, and
    never for more than an hour. The range check of the session never refuses it. *)
Theorem preview_within_limit (sess : loc) (ag : Agent) (tm : agentTeam) (st : ImState) (x : ImSession)
    (w : World OC) :
  im_heap st !! sess = Some x -> 0 <= tm_InviteChatTimeout (te_data tm) < 65536 ->
  let t := tm_InviteChatTimeout (te_data tm) in
  exists r st', givePreview sess ag (imInviteDuration tm) st w = Ret ((r, st'), w) /\
    (if decide (t = 0) then r = None /\ st' = st
     else im_trace st' = GivePreview (is_hdrs x) (is_threadId x) (fmt_d (Agent_UserId ag))
                           (Z.min ((t + 5) * 1000) 3600000) :: im_trace st /\
          match r with
          | None => im_heap st' !! sess = Some (x <| is_previewUserId := (fmt_d (Agent_UserId ag)) |>)
          | Some e => im_heap st' = im_heap st /\ exists code text, e = ImRpc code text
          end).
Proof.
  intros Hx Ht. cbv zeta. unfold givePreview, imInviteDuration, preview_duration, imPreviewGrace,
    MaxPreviewDuration, second_ns. cbv zeta.
  set (t := tm_InviteChatTimeout (te_data tm)) in *. destruct (decide (t = 0)) as [E0|E0].
  { rewrite E0. simpl. eexists _, _. split; [reflexivity|]. done. }
  set (d := if decide (t * 1000000000 > 3600 * 1000000000) then 3600 * 1000000000 else t * 1000000000).
  assert (0 < d <= 3600 * 1000000000 /\ (t <= 3600 -> d = t * 1000000000) /\ (3600 < t -> d = 3600 * 1000000000))
    as (Hd & Hd1 & Hd2) by (unfold d; case_decide; lia).
  rewrite decide_False by lia.
  set (p := if decide (d + 5 * 1000000000 > 3600 * 1000000000) then 3600 * 1000000000 else d + 5 * 1000000000).
  assert (0 < p <= MaxPreviewDuration /\ p = Z.min ((t + 5) * 1000) 3600000 * 1000000) as [Hp Ep]
    by (unfold p, MaxPreviewDuration, second_ns; case_decide; lia).
  destruct (GivePreviewUser_spec sess (Agent_UserId ag) p st x Hx Hp) as (r & st' & E & Etr & H).
  exists r, st'. unfold own, lift. rewrite E. split; [done|]. split; [|done].
  rewrite Etr, Ep, Z.quot_mul by lia. done.
Qed.

(** An agent that never wrote a message is never idle for the queue, whatever the limit
    and however long the member waits. *)
Theorem silent_agent_never_idle (set : InboundIMQueueSettings) (now : Z) (task : option loc) (x : ImSession) :
  is_lastMessageAtFromAgent x = 0 -> is_lastMessageAtFromMember x <= now -> ii_MaxIdleAgent set > 0 ->
  isAgentIdle set now task x = false.
Proof.
  intros Ha Hm Hmax. unfold isAgentIdle, OperatorIdleMessage, MemberIdleMessage. rewrite Ha.
  destruct task; [|done]. rewrite decide_True by done. destruct (ii_LastMessageTimeout set).
  - apply andb_false_iff. right. apply bool_decide_eq_false. case_decide; [lia|].
    pose proof (Z.quot_pos (now - is_lastMessageAtFromMember x) 1000 ltac:(lia) ltac:(lia)). lia.
  - apply bool_decide_eq_false. lia.
Qed.

End ImFacts.

(** ** Previews while the attempt waits *)

Create HintDb keep.

Section Waiting.
Context {OC : Type -> Type} {HOC : ObjectCache OC} {SV : Services} {DE : Decoders} {SRV : ImServer}.
Variable q : QueueObject.
Variable set : InboundIMQueueSettings.
Variable l : loc.
Variable sess : loc.
Variable info : IMThreadCommunication.

Definition no_preview (st : ImState) : Prop :=
  forall x, im_heap st !! sess = Some x -> HasPreview x = false.

(** No agent has a preview, unless one is being offered the thread. *)
Definition waits_clean (r : RunEnd + ImLoop) (st : ImState) : Prop :=
  match r with inl _ => True | inr s => ml_inner s = false -> no_preview st end.

Abbreviation clean P m := (triple (OC := OC) P m waits_clean).

Lemma clean_up {A} P (m : M OC A) f : (forall a, clean P (f a)) -> clean P (up m ≫= f).
Proof. intros Hf. eapply triple_bind; [apply triple_up|exact Hf]. Qed.

Lemma clean_skip {A} P (m : ST ImState OC A) f :
  (forall a, clean (fun _ => True) (f a)) -> clean P (m ≫= f).
Proof. intros Hf. eapply triple_bind; [apply triple_any|exact Hf]. Qed.

Lemma clean_inner P s : ml_inner s = true -> clean P (mret (inr s)).
Proof. intros Hs. apply triple_ret. intros st _. simpl. congruence. Qed.

Lemma clean_stop P s g r : clean P (im_stop q l sess s g r).
Proof. unfold im_stop. apply clean_skip. intros x. by apply triple_ret. Qed.

Lemma clean_stop_interaction P s r : clean P (im_stop_interaction q l sess s r).
Proof. unfold im_stop_interaction. apply clean_up. intros a. apply clean_stop. Qed.

Lemma RemovePreviewUser_clean st r st' : RemovePreviewUser sess st = Ret (r, st') -> no_preview st'.
Proof.
  unfold RemovePreviewUser, mbind, IC_bind, get_session.
  destruct (im_heap st !! sess) as [x|] eqn:Hx; [|done]. case_decide as Hp.
  - intros [= _ <-] y Hy. rewrite Hx in Hy. injection Hy as <-. unfold HasPreview. by rewrite Hp.
  - unfold ic_call, mod_im. simpl. rewrite Hx. intros [= _ <-] y. simpl. rewrite lookup_insert_eq.
    by intros [= <-].
Qed.

Lemma removePreview_clean P : triple (OC := OC) P (removePreview sess) (fun _ => no_preview).
Proof.
  unfold removePreview. apply triple_bind with (R := fun x st => im_heap st !! sess = Some x).
  - apply triple_own. intros st x st' _. unfold get_session.
    destruct (im_heap st !! sess) eqn:Hx; [|done]. by intros [= <- <-].
  - intros x. destruct (HasPreview x) eqn:Hp.
    + apply triple_bind with (R := fun _ => no_preview); [|intros _; by apply triple_ret].
      apply triple_own. intros st r st' _. apply RemovePreviewUser_clean.
    + apply triple_ret. intros st Hx y Hy. congruence.
Qed.

Lemma clean_missed s tm g e k P :
  clean P k -> (forall st, P st -> no_preview st) -> clean P (im_missed l info s tm g e k).
Proof.
  intros Hk HP. unfold im_missed. apply clean_up. intros _. case_decide; [done|].
  do 2 (apply clean_up; intros _). apply triple_ret. intros st Hst _. by apply HP.
Qed.

Lemma clean_invite P s tm g t b : clean P (im_invite q l sess s tm g t b).
Proof.
  unfold im_invite. do 2 (apply clean_up; intros). apply clean_skip. intros x. cbv zeta.
  do 3 (apply clean_up; intros). apply clean_skip. intros _. by apply clean_inner.
Qed.

(** A preview that was refused leaves none. *)
Lemma givePreview_refused ag d :
  triple (OC := OC) no_preview (givePreview sess ag d)
    (fun r st => match r with Some _ => no_preview st | None => True end).
Proof.
  unfold givePreview. case_decide; [by apply triple_ret|]. apply triple_own. intros st r st' Hst.
  unfold GivePreviewUser, mret, IC_ret. case_decide; [by intros [= <- <-]|].
  unfold mbind, IC_bind, get_session, ic_call. destruct (im_heap st !! sess) as [x|] eqn:Hx; [|done].
  simpl. destruct (isv_err _) as [e|]; simpl.
  - intros [= <- <-]. exact Hst.
  - unfold mod_im. simpl. rewrite Hx. by intros [= <- <-].
Qed.

Lemma clean_distribute s : clean no_preview (im_distribute q l sess info s).
Proof.
  unfold im_distribute. do 2 (apply clean_up; intros). destruct a0 as [e|tm]; [by apply triple_ret|].
  destruct (at_agent a) as [g|]; [|by intros st w]. apply clean_up. intros ag. cbv zeta. case_decide.
  - unfold im_skip. do 4 (apply clean_up; intros). apply triple_ret. by intros st Hst _.
  - do 3 (apply clean_up; intros). eapply triple_bind; [apply givePreview_refused|]. intros [e|].
    + destruct (IsAlreadyMember e); [apply clean_invite|]. by apply clean_missed; [apply clean_stop|].
    + apply clean_invite.
Qed.

Lemma clean_state P s tm g t st : ml_inner s = true -> clean P (im_state q l sess info s tm g t st).
Proof.
  intros Hs. unfold im_state. cbv zeta. destruct st; [by apply clean_inner|..].
  - apply clean_skip. intros [e|].
    + eapply triple_bind; [apply removePreview_clean|]. intros [].
      apply clean_missed; [apply clean_stop_interaction|done].
    + apply clean_up. intros. do 2 (apply clean_skip; intros). apply clean_up. intros. by apply clean_inner.
  - apply clean_up. intros x. destruct (IsDeclined x); [|apply clean_stop_interaction].
    eapply triple_bind; [apply removePreview_clean|]. intros [].
    apply clean_missed; [apply clean_stop_interaction|done].
Qed.

(** The states of the loop and the client between the steps of the goroutine of a new session;
    [t0] is the log of the gateway when it starts. Others may change the manager's world at any
    time: a step runs in any world. *)
Inductive im_reaches (t0 : list ImCmd) : ImLoop -> ImState -> Prop :=
| im_start d thread bot member id tag st st' :
    NewSession d thread bot member id tag st = Ret (sess, st') -> im_trace st' = t0 ->
    im_reaches t0 (MkImLoop false None None None true false false false) st'
| im_step s st w ev m s' st' w' :
    im_reaches t0 s st -> im_handle q set l sess info s ev = Some m ->
    m st w = Ret ((inr s', st'), w') -> im_reaches t0 s' st'.

Lemma im_event_no_preview msg st u st' : no_preview st -> im_event msg st = Ret (u, st') -> no_preview st'.
Proof.
  unfold im_event. generalize (threadSessions (mm_ThreadID msg) st) as ls. intros ls. revert st.
  induction ls as [|k ls IH]; intros st Hst; simpl; [by intros [= _ <-]|]. unfold mbind, IC_bind.
  destruct (im_heap st !! k) as [y|] eqn:Hy.
  - destruct (Im_handleEvent_spec k msg st y Hy) as (y' & -> & (_ & _ & _ & Hp) & _). apply IH.
    intros x. simpl. destruct (decide (k = sess)) as [->|Hne].
    + rewrite lookup_insert_eq. intros [= <-]. unfold HasPreview. rewrite Hp. by apply Hst.
    + rewrite lookup_insert_ne by done. apply Hst.
  - by rewrite Im_handleEvent_absent.
Qed.

Lemma clean_between s P ev m :
  (forall st, P st -> ml_inner s = false -> no_preview st) -> im_between l s ev = Some m -> clean P m.
Proof.
  intros HP. assert (forall st, P st -> waits_clean (inr s) st) as Hr
    by (intros st Hst; exact (HP st Hst)).
  destruct ev; simpl; try done.
  - destruct (ml_task s) as [t|]; simpl; [|done]. intros [= <-]. apply clean_up. intros. by apply triple_ret.
  - intros [= <-]. destruct (ml_inner s) eqn:Hs.
    + apply clean_skip. intros. by apply clean_inner.
    + eapply triple_bind with (R := fun _ => no_preview).
      * apply triple_own. intros st u st' Hst. apply im_event_no_preview. by apply HP.
      * intros []. apply triple_ret. by intros st Hst _.
  - intros [= <-]. apply clean_up. intros. by apply triple_ret.
Qed.

Lemma clean_tick P s k :
  (forall st, P st -> ml_inner s = false -> no_preview st) -> (forall r P, clean P (k r)) ->
  clean P (im_tick set l sess s k).
Proof.
  intros HP Hk. unfold im_tick. destruct (ml_inner s) eqn:Hs.
  { apply clean_skip. intros [r|]; [apply Hk|by apply clean_inner]. }
  apply triple_bind with (R := fun r st => no_preview st).
  - unfold checkIdleTimeouts. eapply triple_bind; [apply triple_up|]. intros a. cbv beta.
    case_decide; [apply triple_ret; auto|].
    eapply triple_bind; [apply triple_own with (Q := fun _ => P); by intros st z st' Hst [= _ <-]|]. intros now.
    eapply triple_bind.
    { apply triple_own with (Q := fun _ => P). intros st x st' Hst. unfold get_session.
      destruct (_ !! sess); [|done]. by intros [= _ <-]. }
    intros x. destruct (idle_limit set now (ml_task s) x) as [[result reason]|]; [|apply triple_ret; auto].
    eapply triple_bind; [apply triple_up|]. intros u. apply triple_ret. auto.
  - intros [r|]; [apply Hk|]. apply triple_ret. by intros st Hst _.
Qed.

Lemma clean_get P f : (forall x, clean P (f x)) -> clean P (own (get_session sess) ≫= f).
Proof.
  intros Hf. eapply triple_bind; [|exact Hf]. apply triple_own. intros st x st' Hst. unfold get_session.
  destruct (_ !! sess); [|done]. by intros [= _ <-].
Qed.

Lemma clean_handle s ev m :
  im_handle q set l sess info s ev = Some m ->
  clean (fun st => ml_inner s = false -> no_preview st) m.
Proof.
  unfold im_handle. destruct (ml_inner s) eqn:Hs.
  - destruct (ml_team s) as [tm|], (ml_agent s) as [g|], (ml_task s) as [t|] eqn:Ht;
      try (intros [= <-]; by intros st w).
    assert (forall b : bool, forall k P, clean P k ->
      clean P (if b then k else mret (inr s))) as Hif.
    { intros b k P Hk. destruct b; [done|]. by apply clean_inner. }
    destruct ev; cbn [im_inner]; try (by apply clean_between; rewrite Hs); try done.
    + destruct (ml_cancel s); [|done]. intros [= <-]. apply clean_skip. intros. by apply clean_inner.
    + intros [= <-]. by apply clean_inner.
    + intros [= <-]. apply clean_skip. intros x. apply Hif, clean_stop_interaction.
    + destruct (ml_timer s); [|done]. intros [= <-].
      apply clean_tick; [by simpl; rewrite Hs|]. intros. apply clean_stop_interaction.
    + destruct (ml_invite s); [|done]. intros [= <-]. apply clean_skip. intros. by apply clean_inner.
    + intros [= <-]. apply clean_skip. intros [st|]; [by apply clean_state|by apply clean_inner].
    + intros [= <-]. apply clean_skip. intros a. apply Hif, clean_stop_interaction.
  - assert (forall k : ST ImState OC (RunEnd + ImLoop), clean no_preview k ->
      clean (fun st => false = false -> no_preview st) k) as Hw.
    { intros k Hk. eapply triple_weaken; [|exact Hk|done]. auto. }
    intros H. apply Hw. revert H. unfold im_outer.
    assert (clean no_preview (mret (inr s))) as Hret by (apply triple_ret; by intros st Hst _).
    destruct ev; cbv beta iota zeta; try (by apply clean_between; auto); try done.
    + intros [= <-]. apply clean_stop.
    + intros [= <-]. apply clean_stop.
    + intros [= <-]. apply clean_get. intros x. destruct (_ || _); [apply clean_stop|done].
    + intros [= <-]. apply clean_distribute.
    + destruct (ml_timer s); [|done]. intros [= <-]. apply clean_tick; [auto|]. intros. apply clean_stop.
Qed.

(** *** The previews that the gateway granted *)

(** The users whose preview was granted after [t0] and is pending: it was not asked to be
    removed, and no preview was made a membership since. What the gateway answers to the
    removal does not matter to the code. *)
Fixpoint pending (t0 t : list ImCmd) : list string :=
  match t with
  | [] => []
  | c :: t' =>
      match c with
      | GivePreview _ _ u _ =>
          match isv_err (c :: t' ++ t0) with Some _ => pending t0 t' | None => u :: pending t0 t' end
      | RemoveFromPreview _ _ u => filter (fun v => v <> u) (pending t0 t')
      | UpgradePreviewToFullMember _ _ _ =>
          match isv_member (c :: t' ++ t0) with inl _ => pending t0 t' | inr _ => [] end
      | _ => pending t0 t'
      end
  end.

Variable t0 : list ImCmd.

(** The session knows the pending preview. *)
Definition known_preview (x : ImSession) : list string :=
  if decide (is_previewUserId x = "") then [] else [is_previewUserId x].

Definition accounted (st : ImState) : Prop :=
  exists x t, im_heap st !! sess = Some x /\ im_trace st = t ++ t0 /\ pending t0 t = known_preview x.

Abbreviation keep m := (triple (OC := OC) accounted m (fun _ => accounted)).

Lemma keep_bind {A B} (m : ST ImState OC A) (f : A -> ST ImState OC B) :
  keep m -> (forall a, keep (f a)) -> keep (m ≫= f).
Proof. intros Hm Hf. eapply triple_bind; [exact Hm|exact Hf]. Qed.

Lemma keep_ret {A} (a : A) : keep (mret a).
Proof. by apply triple_ret. Qed.

Lemma keep_own {A} (m : IC A) :
  (forall st a st', accounted st -> m st = Ret (a, st') -> accounted st') -> keep (own m).
Proof. intros H. apply triple_own. exact H. Qed.

(** A change of the session that is not about the preview. *)
Lemma accounted_mod f st st' u :
  (forall x, is_previewUserId (f x) = is_previewUserId x) -> accounted st ->
  mod_im sess f st = Ret (u, st') -> accounted st'.
Proof.
  intros Hf (x & t & Hx & Et & Ep). unfold mod_im. rewrite Hx. intros [= _ <-].
  exists (f x), t. simpl. split; [by rewrite lookup_insert_eq|]. split; [done|].
  unfold known_preview. by rewrite Hf.
Qed.

(** A call that is not about previews. *)
Lemma accounted_call c st x :
  match c with
  | GivePreview _ _ _ _ | RemoveFromPreview _ _ _ | UpgradePreviewToFullMember _ _ _ => False
  | _ => True
  end -> im_heap st !! sess = Some x -> accounted st -> accounted (st <| im_trace := (c :: im_trace st) |>).
Proof.
  intros Hc Hx (y & t & Hy & Et & Ep). exists y, (c :: t). simpl. rewrite Et. split_and!; [done..|].
  by destruct c.
Qed.

Lemma keep_mod f : (forall x, is_previewUserId (f x) = is_previewUserId x) -> keep (own (mod_im sess f)).
Proof. intros Hf. apply keep_own. intros st u st'. by apply accounted_mod. Qed.

Lemma keep_get k : keep (own (get_session k)).
Proof. apply keep_own. intros st x st' H. unfold get_session. by destruct (_ !! k); intros [= _ <-]. Qed.

Lemma keep_millis : keep (own ic_millis).
Proof. apply keep_own. by intros st x st' H [= _ <-]. Qed.

(** A call that returns a member, and its use. *)
Lemma accounted_member (c : strmap -> string -> ImCmd) u (hdrs : ImSession -> strmap) st r st' :
  (forall h t, match c h t with
   | GivePreview _ _ _ _ | RemoveFromPreview _ _ _ | UpgradePreviewToFullMember _ _ _ => False
   | _ => True
   end) ->
  (x ← get_session sess;
   r ← ic_call (c (hdrs x) (is_threadId x)) isv_member;
   match r with
   | inl e => mret (Some (rpc_error e))
   | inr id => _ ← mod_im sess (setAgent id u); mret None
   end) st = Ret (r, st') -> accounted st -> accounted st'.
Proof.
  intros Hc. unfold mbind, IC_bind, get_session, ic_call. destruct (im_heap st !! sess) as [x|] eqn:Hx; [|done].
  intros E Ha. apply (accounted_call (c (hdrs x) (is_threadId x)) st x (Hc _ _) Hx) in Ha. revert E.
  set (st1 := st <| im_trace := _ |>) in *. destruct (isv_member _) as [e|id]; [by intros [= _ <-]|].
  destruct (mod_im sess (setAgent id u) st1) as [[[] st2]| |] eqn:Em; [|done..]. intros [= _ <-].
  eapply accounted_mod; [|exact Ha|exact Em]. intros y. unfold setAgent. by case_decide.
Qed.

Lemma keep_AddMemberUser u k : keep (own (AddMemberUser sess u k)).
Proof.
  apply keep_own. intros st r st' Ha E. unfold AddMemberUser in E.
  by eapply (accounted_member (fun h t => AddMember h t (fmt_d u)) u (queueContext k)).
Qed.

Lemma keep_TransferMemberUser u f k : keep (own (TransferMemberUser sess u f k)).
Proof.
  apply keep_own. intros st r st' Ha E. unfold TransferMemberUser in E.
  by eapply (accounted_member (fun h t => TransferThread h t (fmt_d u) f) u (queueContext k)).
Qed.

Lemma keep_RemoveMemberUser e : keep (own (RemoveMemberUser sess e)).
Proof.
  apply keep_own. intros st r st' Ha. unfold RemoveMemberUser, mbind, IC_bind, get_session, ic_call.
  destruct (im_heap st !! sess) as [x|] eqn:Hx; [|done]. case_decide; [by intros [= _ <-]|].
  intros [= _ <-]. by apply (accounted_call (RemoveMember _ _ _ _) st x).
Qed.

Lemma keep_RemovePreviewUser : keep (own (RemovePreviewUser sess)).
Proof.
  apply keep_own. intros st r st' (x & t & Hx & Et & Ep).
  unfold RemovePreviewUser, mbind, IC_bind, get_session, ic_call, mod_im. rewrite Hx.
  case_decide as Hp; [intros [= _ <-]; by exists x, t|]. simpl. rewrite Hx. intros [= _ <-].
  eexists _, (RemoveFromPreview _ _ _ :: t). simpl. rewrite lookup_insert_eq, Et. split_and!; [reflexivity..|].
  rewrite Ep. unfold known_preview. rewrite decide_False by done. simpl.
  rewrite filter_cons_False by (intros H; by apply H). done.
Qed.

Lemma keep_UpgradePreviewUser u k : keep (own (UpgradePreviewUser sess u k)).
Proof.
  apply keep_own. intros st r st' (x & t & Hx & Et & Ep).
  unfold UpgradePreviewUser, mbind, IC_bind, get_session, ic_call, mod_im. rewrite Hx. simpl. rewrite Et.
  destruct (isv_member _) as [e|id] eqn:Er; simpl.
  - intros [= _ <-]. eexists x, (UpgradePreviewToFullMember _ _ _ :: t). simpl. split_and!; [done|reflexivity|].
    by rewrite Er.
  - rewrite Hx. intros [= _ <-]. eexists _, (UpgradePreviewToFullMember _ _ _ :: t). simpl.
    rewrite lookup_insert_eq. split_and!; [reflexivity..|]. rewrite Er.
    unfold known_preview, setAgent. rewrite decide_True; [done|]. by case_decide.
Qed.

Lemma keep_Im_Close i : keep (own (Im_Close sess i)).
Proof.
  apply keep_own. intros st r st' (x & t & Hx & Et & Ep). unfold Im_Close, mbind, IC_bind, get_session.
  rewrite Hx. intros [= _ <-]. by exists x, t.
Qed.

Lemma keep_im_event msg : keep (own (im_event msg)).
Proof.
  apply keep_own. intros st u st'. unfold im_event. generalize (threadSessions (mm_ThreadID msg) st) as ls.
  intros ls. revert st. induction ls as [|k ls IH]; intros st Ha; simpl; [by intros [= _ <-]|].
  unfold mbind, IC_bind. destruct (im_heap st !! k) as [y|] eqn:Hy.
  - destruct (Im_handleEvent_spec k msg st y Hy) as (y' & -> & (_ & _ & _ & Hp) & _). apply IH.
    destruct Ha as (x & t & Hx & Et & Ep). destruct (decide (k = sess)) as [->|Hne].
    + exists y', t. simpl. rewrite lookup_insert_eq. split_and!; [done..|].
      unfold known_preview in *. rewrite Hp. by simplify_eq.
    + exists x, t. simpl. by rewrite lookup_insert_ne.
  - by rewrite Im_handleEvent_absent.
Qed.

(** The preview of the next agent. *)
Lemma givePreview_accounted ag d :
  triple (OC := OC) (fun st => accounted st /\ no_preview st) (givePreview sess ag d) (fun _ => accounted).
Proof.
  unfold givePreview. case_decide; [apply triple_ret; tauto|]. apply triple_own. intros st r st' [Ha Hn].
  unfold GivePreviewUser, mret, IC_ret. case_decide; [by intros [= _ <-]|].
  destruct Ha as (x & t & Hx & Et & Ep).
  assert (known_preview x = []) as Hk.
  { specialize (Hn x Hx). unfold HasPreview in Hn. apply bool_decide_eq_false in Hn.
    unfold known_preview. by case_decide. }
  unfold mbind, IC_bind, get_session, ic_call, mod_im. rewrite Hx. simpl. rewrite Et.
  destruct (isv_err _) as [e|] eqn:Er; simpl.
  - intros [= _ <-]. eexists x, (GivePreview _ _ _ _ :: t). simpl. split_and!; [done|reflexivity|]. by rewrite Er.
  - rewrite Hx. intros [= _ <-]. eexists _, (GivePreview _ _ _ _ :: t). simpl. rewrite lookup_insert_eq.
    split_and!; [reflexivity..|]. rewrite Er, Ep, Hk. unfold known_preview. rewrite decide_False; [done|].
    simpl. apply fmt_d_nonempty.
Qed.

#[local] Hint Resolve keep_get keep_millis keep_AddMemberUser keep_TransferMemberUser keep_RemoveMemberUser
  keep_RemovePreviewUser keep_UpgradePreviewUser keep_Im_Close keep_im_event : keep.

Ltac keep_step :=
  match goal with
  | |- keep (up _) => apply triple_up
  | |- keep (mret _) => apply keep_ret
  | |- keep (own (mod_im _ _)) => apply keep_mod; by intros
  | |- keep (match ?x with _ => _ end) => destruct x eqn:?
  | |- keep (mbind _ _) => apply keep_bind; [|intros]
  | |- triple _ _ _ => solve [eauto 2 with keep]
  end.

Ltac keep_op := intros; repeat (cbv beta zeta; keep_step).

Lemma keep_removePreview : keep (removePreview sess).
Proof. unfold removePreview. keep_op. Qed.
#[local] Hint Resolve keep_removePreview : keep.

Lemma keep_joinAgent g : keep (joinAgent q l sess info g).
Proof. unfold joinAgent, transferAgent. keep_op. Qed.
#[local] Hint Resolve keep_joinAgent : keep.

Lemma keep_finalizeAttempt g tm t r : keep (finalizeAttempt q l sess g tm t r).
Proof. unfold finalizeAttempt, cleanupSession. keep_op. Qed.
#[local] Hint Resolve keep_finalizeAttempt : keep.

Lemma keep_im_stop s g r : keep (im_stop q l sess s g r).
Proof. unfold im_stop. keep_op. Qed.
#[local] Hint Resolve keep_im_stop : keep.

Lemma keep_im_stop_interaction s r : keep (im_stop_interaction q l sess s r).
Proof. unfold im_stop_interaction. keep_op. Qed.
#[local] Hint Resolve keep_im_stop_interaction : keep.

Lemma keep_im_tick s k : (forall r, keep (k r)) -> keep (im_tick set l sess s k).
Proof. intros Hk. unfold im_tick, checkIdleTimeouts. keep_op; apply Hk. Qed.

Lemma keep_im_missed s tm g e k : keep k -> keep (im_missed l info s tm g e k).
Proof. intros Hk. unfold im_missed. keep_op; exact Hk. Qed.

Lemma keep_im_invite s tm g t b : keep (im_invite q l sess s tm g t b).
Proof. unfold im_invite. keep_op. Qed.
#[local] Hint Resolve keep_im_invite : keep.

Lemma keep_im_state s tm g t st : keep (im_state q l sess info s tm g t st).
Proof.
  unfold im_state, close_task. keep_op; apply keep_im_missed; keep_op.
Qed.
#[local] Hint Resolve keep_im_state : keep.


Lemma keep_im_between s ev m : im_between l s ev = Some m -> keep m.
Proof.
  unfold im_between. intros H. destruct ev; simplify_eq/=; [|keep_op..].
  destruct (ml_task s); simplify_eq/=. keep_op.
Qed.

Lemma im_distribute_accounted s :
  triple (OC := OC) (fun st => accounted st /\ no_preview st) (im_distribute q l sess info s) (fun _ => accounted).
Proof.
  assert (forall A (k : ST ImState OC A), keep k ->
    triple (fun st => accounted st /\ no_preview st) k (fun _ => accounted)) as Hw.
  { intros A k Hk. eapply triple_weaken; [|exact Hk|done]. tauto. }
  unfold im_distribute. do 2 (eapply triple_bind; [apply triple_up|intros]; cbv beta).
  case_match; [apply triple_ret; tauto|]. case_match; [|by intros st w].
  eapply triple_bind; [apply triple_up|intros ag]; cbv beta zeta.
  case_decide; [apply Hw; unfold im_skip; keep_op|].
  do 3 (eapply triple_bind; [apply triple_up|intros]; cbv beta).
  eapply triple_bind; [apply givePreview_accounted|]. intros r. cbv beta.
  keep_op. apply keep_im_missed. keep_op.
Qed.

Lemma handle_accounted s ev m :
  im_handle q set l sess info s ev = Some m ->
  triple (fun st => accounted st /\ (ml_inner s = false -> no_preview st)) m (fun _ => accounted).
Proof.
  assert (forall A (k : ST ImState OC A), keep k -> forall P : Prop, 
    triple (fun st => accounted st /\ (P -> no_preview st)) k (fun _ => accounted)) as Hw.
  { intros A k Hk P. eapply triple_weaken; [|exact Hk|done]. tauto. }
  unfold im_handle, im_inner, im_outer. intros H.
  repeat case_match; first [apply Hw; exact (keep_im_between s _ _ H)|simplify_eq/=];
    try (apply Hw; unfold close_task; keep_op; apply keep_im_tick; keep_op; fail).
  all: try (eapply triple_weaken; [|apply im_distribute_accounted|done]; naive_solver).
Qed.

(** C10. While the attempt of an instant message waits for an agent, the session holds no
    preview, and every preview that the gateway granted to an agent since the goroutine
    started was afterwards asked to be removed, or a preview was made a membership after it: a
    declined invite, one that ran out of time and a failed join all revoke it before the next
    agent is looked for. Whether the gateway carries the removal out is not known here: the
    code ignores its answer. Other goroutines may change the manager's world between the
    steps. *)
Theorem waiting_without_preview (s : ImLoop) (st : ImState) :
  im_reaches t0 s st -> ml_inner s = false ->
  exists x t, im_heap st !! sess = Some x /\ is_previewUserId x = "" /\
    im_trace st = t ++ t0 /\ pending t0 t = [].
Proof.
  intros Hr. assert (accounted st /\ (ml_inner s = false -> no_preview st)) as [Ha Hn].
  { induction Hr as [d thread bot member id tag st st' E Et|s st w ev m s' st' w' Hr IH Eh Em].
    - unfold NewSession, mbind, IC_bind, ic_millis, addSession in E. injection E as En <-.
      unfold accounted, no_preview. simpl in *. rewrite En, lookup_insert_eq. split.
      + eexists _, []. by split_and!.
      + intros _ x. by intros [= <-].
    - split.
      + pose proof (handle_accounted s ev m Eh st w IH) as H. by rewrite Em in H.
      + pose proof (clean_handle s ev m Eh st w (proj2 IH)) as H. rewrite Em in H. exact H. }
  intros Hs. destruct Ha as (x & t & Hx & Et & Ep). exists x, t.
  specialize (Hn Hs x Hx). unfold HasPreview in Hn. apply bool_decide_eq_false in Hn.
  assert (is_previewUserId x = "") as E by (by destruct (decide (is_previewUserId x = ""))).
  split_and!; [done..|]. rewrite Ep. unfold known_preview. by rewrite decide_True.
Qed.

End Waiting.
