(* ===== verification/ChatRunFacts.v ===== *)
(** * The conversation of a chat attempt, over the life of its goroutine *)

From S2P Require Import Prelude Lru Model Queue Attempt World Sessions Agents Events Schema Manager Team.
From S2P Require Import Calling Chat ChatQueue ChatFacts.

(** ** Conversations stay in the heap *)

Section Stays.
Context {SRV : ChatServer}.

Definition stays {A} (m : CH A) : Prop := forall s a s' l,
  m s = Ret (a, s') -> is_Some (cs_heap s !! l) -> is_Some (cs_heap s' !! l).

Lemma stays_ret {A} (a : A) : stays (mret a).
Proof. by intros s ? s' l [= _ <-]. Qed.

Lemma stays_bind {A B} (m : CH A) (f : A -> CH B) : stays m -> (forall a, stays (f a)) -> stays (m ≫= f).
Proof.
  intros Hm Hf s b s' l. unfold mbind, CH_bind. destruct (m s) as [[a s1]| |] eqn:E; [|done..].
  intros E' Hl. eapply Hf; [exact E'|]. by eapply Hm.
Qed.

Lemma stays_call {A} e (f : list ChatCmd -> A) : stays (ch_call e f).
Proof. by intros s ? s' l [= _ <-]. Qed.

Lemma stays_millis : stays ch_millis.
Proof. by intros s ? s' l [= _ <-]. Qed.

Lemma stays_get l0 : stays (get_conv l0).
Proof. intros s c s' l. unfold get_conv. destruct (_ !! l0); [|done]. by intros [= _ <-]. Qed.

Lemma stays_mod l0 f : stays (mod_conv l0 f).
Proof.
  intros s c s' l. unfold mod_conv. destruct (_ !! l0); [|done]. intros [= _ <-] Hl. simpl.
  apply lookup_insert_is_Some'. by right.
Qed.

Lemma stays_session c i : stays (session_at c i).
Proof. intros s x s' l. unfold session_at. destruct (_ !! i); [|done]. by intros [= _ <-]. Qed.

Lemma stays_chats_get id : stays (chats_get id).
Proof. intros s x s' l. unfold chats_get. destruct (Lru.Get _ _ _). by intros [= _ <-]. Qed.

Create HintDb stays.
#[local] Hint Resolve stays_ret stays_call stays_millis stays_get stays_mod stays_session stays_chats_get : stays.

Ltac stays_op := intros; repeat (cbv beta zeta; match goal with
  | |- stays (mbind _ _) => apply stays_bind; [|intros]
  | |- stays (match ?x with _ => _ end) => destruct x
  | |- stays (ch_emit _) => apply stays_call
  | |- stays (mod_session _ _ _) => apply stays_mod
  | |- stays _ => solve [eauto 2 with stays]
  end).

Lemma stays_pushState l st : stays (pushState l st).
Proof. unfold pushState, send_state, recv_state. stays_op. Qed.
#[local] Hint Resolve stays_pushState : stays.

Lemma stays_handleEvent e : stays (handleEvent e).
Proof.
  unfold handleEvent, GetConversation, setDeclined, setJoined, setNewMessage, setClose, MemberSession.
  stays_op.
Qed.

End Stays.

(** ** The goroutine *)

Section ChatRunFacts.
Context {OC : Type -> Type} {HOC : ObjectCache OC} {SV : Services} {DE : Decoders} {SRV : ChatServer}.
Variable q : QueueObject.
Variable set : InboundChatQueueSettings.
Variable l : loc.
Variable cl : loc.

Abbreviation X := (ST ChatState_ OC).

(** The invariant of the chats, with the conversation of the goroutine. *)
Definition held (st : ChatState_) : Prop := chat_inv st /\ is_Some (cs_heap st !! cl).

(** A step keeps it, and returns from the loop only to drop the attempt. *)
Definition holding (r : RunEnd + ChatLoop) (st : ChatState_) : Prop :=
  match r with inl x => x = RunDropped /\ held st | inr _ => held st end.

Lemma held_runs {A} (m : CH A) : runs_at cl m -> triple (OC := OC) held (own m) (fun _ => held).
Proof.
  intros Hm. apply triple_own. intros st a st' [Hi Hc] E. destruct (Hm st Hi Hc) as (b & s' & E' & H & C).
  rewrite E in E'. simplify_eq. by split.
Qed.

Lemma held_event e : triple (OC := OC) held (own (handleEvent e)) (fun _ => held).
Proof.
  apply triple_own. intros st a st' [Hi Hc] E. destruct (runs_handleEvent e st Hi) as (b & s' & E' & H).
  rewrite E in E'. simplify_eq. split; [done|]. by eapply stays_handleEvent.
Qed.

Lemma held_get : triple (OC := OC) held (conv_get cl) (fun _ => held).
Proof.
  apply triple_own. intros st c st' H. unfold get_conv. destruct (_ !! cl); [|done]. by intros [= _ <-].
Qed.

Lemma held_session i : triple (OC := OC) held (conv_session cl i) (fun _ => held).
Proof.
  apply triple_own. intros st c st' H. unfold mbind, CH_bind, get_conv. destruct (_ !! cl); [|done].
  unfold session_at. destruct (_ !! i); [|done]. by intros [= _ <-].
Qed.

Lemma held_millis : triple (OC := OC) held (own ch_millis) (fun _ => held).
Proof. apply triple_own. by intros st z st' H [= _ <-]. Qed.

Lemma held_bind {A B} (m : X A) (f : A -> X B) (Q : B -> ChatState_ -> Prop) :
  triple held m (fun _ => held) -> (forall a, triple held (f a) Q) -> triple held (m ≫= f) Q.
Proof. intros Hm Hf. eapply triple_bind; [exact Hm|exact Hf]. Qed.

Lemma held_stop : triple (OC := OC) held (conv_stop cl) (fun _ => held).
Proof.
  apply held_runs. apply chat_runs_bind; [apply runs_millis|]. intros now. apply chat_runs_mod, quiet_SetStop.
Qed.

Lemma held_InviteInternal u t title v :
  triple (OC := OC) held (own (InviteInternal cl u t title v)) (fun _ => held).
Proof.
  apply held_runs. apply chat_runs_bind; [apply runs_InviteInternal_call|]. intros p.
  apply runs_InviteInternal_answer.
Qed.

Lemma held_cli e whr key : remote e -> triple (OC := OC) held (own (cli_err e whr key)) (fun _ => held).
Proof. intros He. by apply held_runs, runs_cli_err. Qed.

Lemma held_close x : triple (OC := OC) held (own (Session_Close x)) (fun _ => held).
Proof.
  apply held_runs. unfold Session_Close, Session_Decline, Session_Leave.
  repeat case_decide; [by apply runs_cli_err|apply chat_runs_ret|by apply runs_cli_err].
Qed.

Lemma held_activity : triple (OC := OC) held (own (now ← ch_millis; mod_session cl 0 (SetActivity now))) (fun _ => held).
Proof. apply held_runs. apply chat_runs_bind; [apply runs_millis|]. intros now. apply runs_mod_session. Qed.

Create HintDb held.
#[local] Hint Resolve triple_up held_event held_get held_session held_millis held_stop held_InviteInternal
  held_close held_activity : held.
#[local] Hint Extern 1 (triple _ (own (Session_Leave _ _)) _) => apply held_cli; exact I : held.
#[local] Hint Extern 1 (triple _ (own (recv_state _)) _) => apply held_runs, runs_recv : held.

Ltac hold := intros; repeat (cbv beta zeta; match goal with
  | |- triple held (mret _) _ => apply triple_ret; intros; simpl; solve [auto]
  | |- triple held _ (fun _ => held) => solve [auto with held]
  | |- triple held (up (panic _)) _ => by intros ? ?
  | |- triple held _ _ => solve [eauto 2 with held]
  | |- triple held (match ?x with _ => _ end) _ => destruct x
  | |- triple held (mbind _ _) _ => apply held_bind; [|intros]
  end).

Lemma holding_next s : triple (OC := OC) held (chat_next cl s) holding.
Proof. unfold chat_next. hold. Qed.
#[local] Hint Resolve holding_next : held.

Lemma holding_again s : triple (OC := OC) held (chat_again cl s) holding.
Proof. unfold chat_again. hold. Qed.
#[local] Hint Resolve holding_again : held.

Lemma holding_handle s ev m : chat_handle q set l cl s ev = Some m -> triple (OC := OC) held m holding.
Proof.
  unfold chat_handle, chat_inner, chat_outer. intros H. repeat case_match; simplify_eq/=;
    unfold chat_inner_timer, chat_state, chat_server, chat_outer_timer, chat_distribute, chat_refused; hold.
Qed.

Lemma held_end s : triple (OC := OC) held (chat_end q l cl s) (fun _ => held).
Proof. unfold chat_end, chat_missed. hold. Qed.

(** C11. The conversation of a chat attempt is taken out of the store when its goroutine
    returns, whatever the chat service and the agent did meanwhile; only the return after a
    team that could not be loaded leaves it there. The store keeps its invariant. *)
Theorem chat_conversation_removed (evs : list XEvent) (st st' : ChatState_) (w w' : World OC) (x : RunEnd) :
  chat_inv st -> is_Some (cs_heap st !! cl) -> chat_loop q set l cl evs st w = Ret ((x, st'), w') ->
  chat_inv st' /\ (x <> RunDropped -> forall k, stored st' k <> Some cl).
Proof.
  intros Hi Hc E.
  assert (triple (OC := OC) held (chat_loop q set l cl evs)
    (fun x st => chat_inv st /\ (x <> RunDropped -> forall k, stored st k <> Some cl))) as Ht.
  { unfold chat_loop. do 3 (apply held_bind; [hold|intros]).
    eapply triple_bind; [apply triple_loop with (Q := fun y st => y = RunDropped /\ held st), holding_handle|].
    intros [y|s]; [apply triple_ret; intros ? [-> [? ?]]; by split|].
    apply held_bind; [apply held_end|intros y]. apply held_bind; [hold|intros _].
    eapply triple_bind with (R := fun _ st => chat_inv st /\ forall k, stored st k <> Some cl).
    - apply triple_own. intros s1 u s2 [H1 [c H2]] E2.
      destruct (RemoveConversation_stored cl s1 c H1 H2) as (s3 & E3 & _ & Eh & _ & _ & Hst).
      destruct (runs_RemoveConversation cl s1 H1 (ex_intro _ _ H2)) as (u' & s4 & E4 & H4 & _).
      rewrite E2 in E3, E4. simplify_eq. split; [done|]. intros k Hk.
      destruct (ci_store _ H4 k cl Hk) as (c' & Hc' & Hid). rewrite Eh, H2 in Hc'. injection Hc' as <-.
      rewrite Hst in Hk. case_decide as Hd; [done|]. apply Hd. by rewrite Hk.
    - intros u. apply triple_ret. intros s1 [H1 H2]. by split. }
  specialize (Ht st w (conj Hi Hc)). by rewrite E in Ht.
Qed.

End ChatRunFacts.
