(* ===== verification/BrokerFacts.v ===== *)
(** * The theorems about the broker client

    [stream_ok] is the invariant of a channel to a consumer, over every history of messages
    and receives. *)

From S2P Require Import Prelude Model Queue Attempt World Calls CallManager Chat Im Broker.
From S2P Require Import TaskChannel Sessions Agents Events Schema Manager Team Distribute Messages Calling ImQueue SessionFacts.

Import Broker.

Lemma buffer_size_pos : (0 < buffer_size)%nat.
Proof. unfold buffer_size. lia. Qed.

#[local] Opaque buffer_size.

(** ** Channels *)

Inductive StreamOp (T : Type) :=
| SEnqueue (msg : T)
| SReceive.
Arguments SEnqueue {T} msg.
Arguments SReceive {T}.

Section Streams.
Context {RD : Readers} {T : Type} (nm : string).

Definition stream_step (s : Stream T) (op : StreamOp T) : Stream T :=
  match op with
  | SEnqueue msg => enqueue nm msg s
  | SReceive => take_msg s
  end.

Definition stream_run (ops : list (StreamOp T)) : Stream T := foldl stream_step new_stream ops.

(** The messages that came in, in order. *)
Definition enqueued (ops : list (StreamOp T)) : list T :=
  omap (fun op => match op with SEnqueue m => Some m | SReceive => None end) ops.

(** The messages [xs] and [ys] are [zs], dealt out in order. *)
Inductive dealt : list T -> list T -> list T -> Prop :=
| dealt_nil : dealt [] [] []
| dealt_l xs ys zs m : dealt xs ys zs -> dealt (xs ++ [m]) ys (zs ++ [m])
| dealt_r xs ys zs m : dealt xs ys zs -> dealt xs (ys ++ [m]) (zs ++ [m]).

Lemma dealt_sublist xs ys zs : dealt xs ys zs -> sublist xs zs /\ sublist ys zs.
Proof.
  induction 1 as [|xs ys zs m _ [IH1 IH2]|xs ys zs m _ [IH1 IH2]]; [done|..].
  - split; [by apply sublist_app|]. by apply sublist_inserts_r.
  - split; [by apply sublist_inserts_r|]. by apply sublist_app.
Qed.

Lemma dealt_length xs ys zs : dealt xs ys zs -> length zs = (length xs + length ys)%nat.
Proof. induction 1; rewrite ?length_app; simpl; lia. Qed.

(** Every wait is paid for by a message the consumer took, except the one that found it
    stalled: while it is, each free place was freed by a message taken since. *)
Definition waits_ok (s : Stream T) : Prop :=
  if sm_stalled s
  then (sm_waits s + (buffer_size - length (sm_buf s)) <= S (length (sm_taken s)))%nat
  else (sm_waits s <= length (sm_taken s))%nat.

Record stream_ok (s : Stream T) (zs : list T) : Prop := {
  so_order : sm_sent s = sm_taken s ++ sm_buf s;
  so_room : (length (sm_buf s) <= buffer_size)%nat;
  so_dealt : dealt (sm_sent s) (sm_dropped s) zs;
  so_waits : waits_ok s;
}.

Lemma take_msg_order (s : Stream T) : sm_sent s = sm_taken s ++ sm_buf s ->
  sm_sent (take_msg s) = sm_taken (take_msg s) ++ sm_buf (take_msg s).
Proof. unfold take_msg. destruct (sm_buf s) eqn:E; simpl; rewrite ?E; [done|]. intros ->. by rewrite <- app_assoc. Qed.

Lemma stream_ok_take s zs : stream_ok s zs -> stream_ok (take_msg s) zs.
Proof.
  intros [Ho Hr Hd Hw]. pose proof (take_msg_order s Ho) as Ho'.
  unfold take_msg, waits_ok in *. destruct (sm_buf s) as [|m rest] eqn:E.
  - constructor; try done; unfold waits_ok; rewrite ?E; done.
  - constructor; simpl in *; [done|lia|done|]. unfold waits_ok. simpl. rewrite length_app. simpl.
    destruct (sm_stalled s); lia.
Qed.

Lemma stream_ok_enqueue s zs m : stream_ok s zs -> stream_ok (enqueue nm m s) (zs ++ [m]).
Proof.
  intros [Ho Hr Hd Hw]. unfold waits_ok, enqueue in *. case_decide as E.
  - constructor; simpl; [by rewrite Ho, app_assoc|rewrite length_app; simpl; lia|by constructor|].
    unfold waits_ok. simpl. destruct (sm_stalled s); lia.
  - destruct (sm_stalled s) eqn:Es.
    { constructor; simpl; [done|done|by constructor|]. unfold waits_ok. simpl. rewrite Es. lia. }
    destruct (reads nm (sm_waits s)).
    + unfold take_msg. simpl. destruct (sm_buf s) as [|x rest] eqn:Eb; [simpl in E; pose proof buffer_size_pos; lia|].
      constructor; simpl in *; [by rewrite Ho, <- !app_assoc|rewrite length_app; simpl; lia|by constructor|].
      unfold waits_ok. simpl. rewrite Es, length_app. simpl. lia.
    + constructor; simpl; [done|done|by constructor|]. unfold waits_ok. simpl. lia.
Qed.

Lemma stream_run_ok ops : stream_ok (stream_run ops) (enqueued ops).
Proof.
  induction ops as [|op ops IH] using rev_ind.
  { constructor; simpl; [done|lia|apply dealt_nil|apply Nat.le_0_l]. }
  unfold stream_run, enqueued in *. rewrite foldl_app, omap_app. simpl.
  destruct op; simpl; [by apply stream_ok_enqueue|]. rewrite app_nil_r. by apply stream_ok_take.
Qed.

End Streams.

(** C34. A channel of the broker client to a consumer, over every history of messages and
    receives and whatever the consumer does during a wait: the consumer takes a prefix of
    the messages that were sent, in order; every message was sent or dropped, and the sent
    ones are in the order of arrival; at most 100 wait in the channel; and the listener has
    waited at most once more than the consumer took messages, so a consumer that stopped
    costs it one wait, not one for every message. *)
Theorem broker_stream_ordered `{Readers} {T} (nm : string) (ops : list (StreamOp T)) :
  let s := stream_run nm ops in
  sm_sent s = sm_taken s ++ sm_buf s /\
  sublist (sm_sent s) (enqueued ops) /\
  length (enqueued ops) = (length (sm_sent s) + length (sm_dropped s))%nat /\
  (length (sm_buf s) <= buffer_size)%nat /\
  (sm_waits s <= S (length (sm_taken s)))%nat.
Proof.
  intros s. destruct (stream_run_ok nm ops) as [Ho Hr Hd Hw].
  split_and!; [done|apply (dealt_sublist _ _ _ Hd)|apply (dealt_length _ _ _ Hd)|done|].
  unfold waits_ok in Hw. fold s in Hw. destruct (sm_stalled s); lia.
Qed.

(** ** The listener *)

Section Listener.
Context {RD : Readers} {BJ : BrokerJson}.

(** What a delivery of the listener is for the managers. *)
Inductive BrokerMsg :=
| ForCalls (ev : CallActionData)
| ForChats (ev : ChatEvent)
| ForSettings (ev : SystemSettingEvent).

(** The message a delivery stands for, if it stands for one. *)
Inductive decodes (d : Delivery) : BrokerMsg -> Prop :=
| dec_call ev :
    dl_Exchange d = "call" -> bj_call (dl_Body d) = inr ev -> ad_Event ev <> "heartbeat" ->
    decodes d (ForCalls ev)
| dec_chat p name dom usr domain user body :
    dl_Exchange d = "chat" -> split_on "." (dl_RoutingKey d) = [p; name; dom; usr] ->
    ParseInt dom = Some domain -> ParseInt usr = Some user -> bj_chat (dl_Body d) = inr body ->
    decodes d (ForChats (MkChatEvent name domain user body))
| dec_setting ev :
    dl_Exchange d = "event" -> NewSystemSettingEventFromRoutingKey (dl_RoutingKey d) = inr ev ->
    decodes d (ForSettings ev).

Definition deliver (m : BrokerMsg) (a : AMQP) : AMQP :=
  match m with
  | ForCalls ev => a <| mb_callEvent := (enqueue "call" ev (mb_callEvent a)) |>
  | ForChats ev => a <| mb_chatEvent := (enqueue "chat" ev (mb_chatEvent a)) |>
  | ForSettings ev => a <| mb_systemSettingEvent := (enqueue "system_setting" ev (mb_systemSettingEvent a)) |>
  end.

Lemma chat_event_of_Some rk data ev :
  chat_event_of rk data = Some ev <->
  exists p dom usr, split_on "." rk = [p; xe_Name ev; dom; usr] /\ ParseInt dom = Some (xe_DomainId ev) /\
    ParseInt usr = Some (xe_UserId ev) /\ bj_chat data = inr (xe_Data ev).
Proof.
  unfold chat_event_of. split.
  - destruct (split_on "." rk) as [|p [|nm [|dom [|usr [|]]]]]; try done.
    destruct (ParseInt dom) as [d|] eqn:Ed; [|done]. destruct (ParseInt usr) as [u|] eqn:Eu; [|done].
    simpl. destruct (bj_chat data) eqn:Eb; [done|]. intros [= <-]. simpl. eauto 10.
  - intros (p & dom & usr & -> & -> & -> & ->). by destruct ev.
Qed.

End Listener.

(** The listener reads a delivery without waiting for anything but a full channel: it
    hands the message to the consumer of its exchange and to no other, and a delivery that
    is no message (malformed, a heartbeat, of another exchange) changes nothing. *)
Theorem listener_delivers `{Readers} `{BrokerJson} (d : Delivery) (a : AMQP) :
  (exists m, decodes d m /\ readMessage d a = deliver m a) \/
  ((forall m, ~ decodes d m) /\ readMessage d a = a).
Proof.
  unfold readMessage, CallExchange, ChatExchange, EventExchange.
  case_decide as E1; [|case_decide as E2; [|case_decide as E3]].
  - destruct (bj_call (dl_Body d)) as [e|ev] eqn:Ec.
    { right. split; [|done]. intros m Hm. destruct Hm; congruence. }
    case_decide as Eh.
    { right. split; [|done]. intros m Hm. destruct Hm; congruence. }
    left. eexists. split; [by constructor|done].
  - unfold readChatEvent. destruct (chat_event_of (dl_RoutingKey d) (dl_Body d)) as [ev|] eqn:Ec.
    + left. exists (ForChats ev). split; [|done].
      apply chat_event_of_Some in Ec as (p & dom & usr & ? & ? & ? & ?). destruct ev; simpl in *.
      by eapply dec_chat.
    + right. split; [|done]. intros m Hm. destruct Hm as [| ? ? ? ? ? ? ? ? Hs Hd Hu Hb |]; [congruence| |congruence].
      assert (chat_event_of (dl_RoutingKey d) (dl_Body d) = Some (MkChatEvent name domain user body)); [|congruence].
      apply chat_event_of_Some. simpl. eauto 10.
  - destruct (NewSystemSettingEventFromRoutingKey (dl_RoutingKey d)) as [e|ev] eqn:Ec.
    { right. split; [|done]. intros m Hm. destruct Hm; congruence. }
    left. eexists. split; [by constructor|done].
  - right. split; [|done]. intros m Hm. destruct Hm; congruence.
Qed.

(** ** Instant messages *)

Section ImDelivery.
Context {RD : Readers} {BJ : BrokerJson}.

Lemma bot_granted_acked d a a' : bot_granted d a = Ret a' -> mb_acked a' = mb_acked a.
Proof.
  unfold bot_granted, send_im. destruct (bj_granted (dl_Body d)) as [|g]; [by intros [= <-]|].
  destruct (bg_Agents g); [by intros [= <-]|]. case_decide; [|by intros [= <-]].
  case_decide; [by intros [= <-]|done].
Qed.

Lemma bot_released_acked d a : mb_acked (bot_released d a) = mb_acked a.
Proof. unfold bot_released. by destruct (bj_released (dl_Body d)). Qed.

End ImDelivery.

(** A delivery of the instant messages is acknowledged once it was handled, except the
    echo of a message, which is never acknowledged; and the goroutine waits for its
    consumer only with the transfer of a thread between agents and a full channel. *)
Theorem im_delivery_acked `{Readers} `{BrokerJson} (d : Delivery) (a : AMQP) :
  match im_delivery d a with
  | Ret a' =>
      mb_acked a' = mb_acked a ++ [dl_Tag d] \/
      (dl_Exchange d = "im_delivery.broadcast" /\ iw_Echo (bj_im (dl_Body d)) = true /\ a' = a)
  | Block _ =>
      (buffer_size <= length (sm_buf (mb_imEvent a)))%nat /\
       exists g, bj_granted (dl_Body d) = inr g /\ bg_Reason g = "transfer"
  | Panic _ => False
  end.
Proof.
  unfold im_delivery. case_decide as E1.
  { destruct (iw_Echo (bj_im (dl_Body d))) eqn:Ee; [right; done|]. by left. }
  case_decide; [|by left]. destruct (granted_key (dl_RoutingKey d)).
  - destruct (bot_granted d a) as [a'|w|w] eqn:Eg; simpl.
    + left. by rewrite (bot_granted_acked _ _ _ Eg).
    + exfalso. revert Eg. unfold bot_granted. destruct (bj_granted (dl_Body d)) as [|g]; [done|].
      destruct (bg_Agents g); [done|]. case_decide; [|done]. by case_decide.
    + revert Eg. unfold bot_granted. destruct (bj_granted (dl_Body d)) as [|g]; [done|].
      destruct (bg_Agents g); [done|]. case_decide; [|done]. case_decide; [done|]. intros _.
      split; [lia|by eexists].
  - destruct (released_key (dl_RoutingKey d)); left; simpl; by rewrite ?bot_released_acked.
Qed.

(** ** Transfers of a thread *)

(** From the broker to the session: when the gateway reports that a bot got control of a
    thread by a transfer from an agent, and the channel of the messages is empty, the next
    message the client takes cancels exactly those sessions of the thread whose client or
    agent is that member, and no other session. *)
Theorem bot_transfer_cancels `{Readers} `{BrokerJson} `{ImServer} (d : Delivery) (a : AMQP)
    (g : BotGrantedMessage) (agent : string) (agents : list string) (s : ImState) :
  dl_Exchange d = "im_message.events" -> granted_key (dl_RoutingKey d) = true ->
  bj_granted (dl_Body d) = inr g -> bg_Reason g = "transfer" -> bg_Agents g = agent :: agents ->
  agent <> "" -> sm_buf (mb_imEvent a) = [] ->
  Forall (fun l => is_Some (im_heap s !! l)) (im_threads s) ->
  exists a' msg s', im_delivery d a = Ret a' /\ sm_buf (mb_imEvent a') = [msg] /\
    im_event msg s = Ret (tt, s') /\
    forall l x, im_heap s !! l = Some x -> exists x', im_heap s' !! l = Some x' /\
       (is_cancelled x' = true <-> is_cancelled x = true \/
         (l ∈ im_threads s /\ is_threadId x = bg_ThreadId g /\
          (agent = is_clientMemberId x \/ agent = is_agentMemberId x))).
Proof.
  intros Hx Hk Hg Hr Ha Hne Hb Hall.
  set (msg := control_message (bg_ThreadId g) (bg_Reason g) (MkIMSystemMetadata "" "" agent "")).
  exists (ack d (a <| mb_imEvent := (put msg (mb_imEvent a)) |>)), msg.
  destruct (im_event_spec msg s Hall) as (s' & E & _ & Hs). exists s'. split_and!.
  - unfold im_delivery. rewrite Hx, Hk. unfold bot_granted. rewrite Hg, Ha, Hr, Hb. simpl.
    rewrite decide_True by apply buffer_size_pos. unfold msg. by rewrite Hr.
  - simpl. by rewrite Hb.
  - done.
  - intros l x Hl. destruct (Hs l x Hl) as (x' & Hx' & _ & Hc). exists x'. split; [done|].
    rewrite Hc. unfold ends_session. simpl. rewrite Hr. split; [|naive_solver].
    intros [?|(Hin & Ht & sy & id & [= <-] & _ & Hid & Hor & Hm)]; [by left|]. simpl in Hm. naive_solver.
Qed.

(** ** Connecting *)

Section Connecting.
Context {BS : BrokerServer} (nodeName : string) (useIM : bool).

Lemma initConnection_more fuel k s r :
  initConnection nodeName useIM fuel s = Some r -> initConnection nodeName useIM (fuel + k) s = Some r.
Proof.
  revert s. induction fuel as [|fuel IH]; intros s; [done|]. cbn [initConnection Nat.add].
  case_decide; [done|]. destruct (bs_err _); [apply IH|done].
Qed.

(** [n] failed dials in a row, each followed by a pause. *)
Fixpoint failed_dials (n : nat) (t : list BrokerCall) : list BrokerCall :=
  match n with
  | O => t
  | S n => failed_dials n (t ++ [Dial; SleepSec RECONNECT_SEC])
  end.

Lemma initConnection_ends fuel s :
  0 <= MAX_ATTEMPTS_CONNECT - cn_attempts s < Z.of_nat fuel ->
  exists n c s', initConnection nodeName useIM fuel s = Some (c, s') /\
    Z.of_nat n <= MAX_ATTEMPTS_CONNECT - cn_attempts s /\
    (Z.of_nat n = MAX_ATTEMPTS_CONNECT - cn_attempts s /\ c = Exited 1 /\
       cn_trace s' = failed_dials n (cn_trace s) ++ [SleepSec 1] \/
     Z.of_nat n < MAX_ATTEMPTS_CONNECT - cn_attempts s /\ cn_attempts s' = 0 /\
       (c, cn_trace s') = open_channel nodeName useIM (failed_dials n (cn_trace s) ++ [Dial])).
Proof.
  revert s. induction fuel as [|fuel IH]; intros s Hf; [lia|]. cbn [initConnection]. case_decide as E.
  - exists 0%nat. eexists _, _. split; [done|]. split; [lia|]. left. simpl. unfold emit. split_and!; [lia|done..].
  - unfold emit. destruct (bs_err _) as [e|] eqn:Eb.
    + destruct (IH (MkConnState (cn_attempts s + 1) ((cn_trace s ++ [Dial]) ++ [SleepSec RECONNECT_SEC])))
        as (n & c & s' & Hi & Hn & H); [simpl; lia|].
      exists (S n), c, s'. split; [done|]. simpl in *. rewrite <- app_assoc in H. simpl in H.
      split; [lia|]. destruct H as [(? & ? & ?)|(? & ? & ?)]; [left|right]; split_and!; done || lia.
    + destruct (open_channel nodeName useIM _) as [c t'] eqn:Eo.
      exists 0%nat, c. eexists. split; [done|]. split; [lia|]. right. simpl. split_and!; [lia|done..].
Qed.

End Connecting.

(** Connecting to the broker always ends: the client dials at most 100 times, five
    seconds apart, and then either the dials were all refused and the process exits, or one
    was accepted and the set up of the connection decides; more fuel than 101 changes
    nothing. *)
Theorem connection_attempts_end `{BrokerServer} (nodeName : string) (useIM : bool) (t : list BrokerCall)
    (k : nat) :
  exists n c s', initConnection nodeName useIM (101 + k) (MkConnState 0 t) = Some (c, s') /\ (n <= 100)%nat /\
    (n = 100%nat /\ c = Exited 1 /\ cn_trace s' = failed_dials 100 t ++ [SleepSec 1] \/
     (n < 100)%nat /\ cn_attempts s' = 0 /\
     (c, cn_trace s') = open_channel nodeName useIM (failed_dials n t ++ [Dial])).
Proof.
  destruct (initConnection_ends nodeName useIM 101 (MkConnState 0 t)) as (n & c & s' & Hi & Hn & Hc).
  { unfold MAX_ATTEMPTS_CONNECT. simpl. lia. }
  exists n, c, s'. split; [by apply initConnection_more|]. unfold MAX_ATTEMPTS_CONNECT in *. simpl cn_attempts in *.
  simpl cn_trace in *. split; [lia|]. destruct Hc as [(Hk & ? & Ht)|(? & ? & ?)].
  - left. assert (n = 100%nat) as -> by lia. done.
  - right. split_and!; [lia|done..].
Qed.

(** ** A transfer on a concrete client *)

Definition demo_granted : BotGrantedMessage := MkBotGrantedMessage "thread" "transfer" ["agent"].

#[local] Instance demo_json : BrokerJson := {|
  bj_call _ := inl "eof"; bj_chat _ := inl "eof"; bj_released _ := inl "eof";
  bj_im _ := MkIMMessageWrapper (MkIMMessage "" "" None) false;
  bj_granted _ := inr demo_granted |}.

#[local] Instance demo_readers : Readers := fun _ _ => false.

#[local] Instance demo_im_gateway : ImServer := {| isv_now _ := 0; isv_err _ := None; isv_member _ := inr "agent" |}.

Definition demo_delivery : Delivery := MkDelivery "im_message.events" "im_thread.1.bot.control.granted.v1" "" 7.

Definition demo_bridged : ImSession :=
  MkImSession 1 "thread" "agent" "client" "bot" "300" ∅ 0 0 0 0 "30" "" false false.

Definition demo_client : ImState := MkImState {[0%nat := demo_bridged]} [0%nat] 1 [].

Lemma bot_transfer_cancels_witness :
  exists a' msg s', im_delivery demo_delivery NewRabbitMQ = Ret a' /\ sm_buf (mb_imEvent a') = [msg] /\
    im_event msg demo_client = Ret (tt, s') /\
    exists x', im_heap s' !! 0%nat = Some x' /\ is_cancelled x' = true.
Proof.
  destruct (bot_transfer_cancels demo_delivery NewRabbitMQ demo_granted "agent" [] demo_client)
    as (a' & msg & s' & E1 & E2 & E3 & H); try reflexivity; [discriminate| |].
  { constructor; [by eexists|constructor]. }
  exists a', msg, s'. split_and!; [exact E1|exact E2|exact E3|].
  destruct (H 0%nat demo_bridged) as (x' & Hx' & Hc); [reflexivity|].
  exists x'. split; [exact Hx'|]. apply Hc. right. split; [by left|]. split; [reflexivity|]. by right.
Defined.
