(* ===== verification/Boot.v ===== *)
(** * Boot: app/app.go, app/config.go and the start and the end of the process

    App.New creates and starts the parts of the process in order, and App.Shutdown, which also
    runs when New fails, stops them. [App_] is the App: the fields that are set, and what
    happened to the parts so far. The parts that are modelled elsewhere run as they are: the
    connections to the database (Supplier), to the broker (Broker), the calls of the cluster,
    the engine and the triggers to the store (Jobs) and the connections to the switches
    (CallManager). The rest of the outside is the class [Environment]. *)

From S2P Require Import Prelude Lru Model Queue Attempt World Calls CallManager Chat Im Workers Jobs Broker Sql Supplier.
Import Broker.

(** ** Configuration *)

Record TLSConfig := MkTLSConfig {
  tc_CAPath : string;
  tc_KeyPath : string;
  tc_CertPath : string;
}.

Record Config := MkConfig {
  co_NodeId : option string;
  co_LogConsole : bool;
  co_LogOtel : bool;
  co_LogFile : string;
  co_SqlSettings : SqlSettings;
  co_UseIM : bool;
  co_Tls : TLSConfig;
}.

#[export] Instance eta_Config : Eta Config := fun c =>
  MkConfig (co_NodeId c) (co_LogConsole c) (co_LogOtel c) (co_LogFile c) (co_SqlSettings c) (co_UseIM c) (co_Tls c).

Definition zero_config : Config := MkConfig None false false "" (MkSqlSettings "" "" []) false (MkTLSConfig "" "" "").

(** loadConfig, after the library filled the settings in; its error is dropped. *)
Definition loadConfig (read : Config) : Config :=
  if negb (co_LogConsole read) && negb (co_LogOtel read) && (String.length (co_LogFile read) =? 0)%nat
  then read <| co_LogConsole := true |> else read.

(** [pair] and [ca] are the errors of reading the files; [inr true] if there are credentials. *)
Definition LoadTlsCreds (cfg : TLSConfig) (pair ca : option string) : string + bool :=
  if (String.length (tc_CertPath cfg) =? 0)%nat || (String.length (tc_KeyPath cfg) =? 0)%nat
     || (String.length (tc_CAPath cfg) =? 0)%nat
  then inr false
  else match pair, ca with
       | Some e, _ => inl e
       | None, Some e => inl e
       | None, None => inr true
       end.

(** ** The state *)

Inductive Part :=
| POtel | PHealth | PMQ | PCluster | PIM | PGrpc | PCallManager | PEngine | PAgentManager | PFlow | PChat | PDialing | PTrigger.

#[export] Instance Part_eq_dec : EqDecision Part.
Proof. solve_decision. Defined.

Inductive Life := Started (p : Part) | Stopped (p : Part).

Record App_ := MkApp {
  ap_config : option Config;
  ap_log : bool;              (* Log is not nil *)
  ap_parts : list Part;       (* the fields that are not nil *)
  ap_life : list Life;        (* the newest first *)
  ap_imFailed : bool;         (* the client of the instant messages could not be created *)
  ap_info : option bool;      (* the field info of the cluster *)
  ap_store : list JobCmd;
  ap_mq : list BrokerCall;
  ap_cm : CMState;
}.

#[export] Instance eta_App : Eta App_ := fun a =>
  MkApp (ap_config a) (ap_log a) (ap_parts a) (ap_life a) (ap_imFailed a) (ap_info a) (ap_store a) (ap_mq a) (ap_cm a).

(** How a piece of the start ends: it goes on, returns an error, panics, or exits the process. *)
Inductive booted (A : Type) :=
| Next (a : A)
| Fails (err : string)
| Panics (why : string)
| Exits (code : Z).
Arguments Next {A}.
Arguments Fails {A}.
Arguments Panics {A}.
Arguments Exits {A}.

Definition Boot (A : Type) : Type := App_ -> booted A * App_.

#[export] Instance Boot_ret : MRet Boot := fun A x a => (Next x, a).

#[export] Instance Boot_bind : MBind Boot := fun A B f m a =>
  match m a with
  | (Next x, a) => f x a
  | (Fails e, a) => (Fails e, a)
  | (Panics w, a) => (Panics w, a)
  | (Exits c, a) => (Exits c, a)
  end.

Definition boot_modify (f : App_ -> App_) : Boot unit := fun a => (Next tt, f a).

Definition fails {A} (e : string) : Boot A := fun a => (Fails e, a).

Definition panics {A} (w : string) : Boot A := fun a => (Panics w, a).

(** [if err != nil { return nil, err }] *)
Definition check (err : option string) : Boot unit :=
  match err with Some e => fails e | None => mret tt end.

(** An assignment of a field. *)
Definition create (p : Part) : Boot unit := boot_modify (fun a => a <| ap_parts := (ap_parts a ++ [p]) |>).

Definition life (e : Life) : Boot unit := boot_modify (fun a => a <| ap_life := (e :: ap_life a) |>).

(** A piece of the file Jobs. *)
Definition on_store {A} (m : JM A) : Boot A := fun a =>
  let '(x, t) := m (ap_store a) in (Next x, a <| ap_store := t |>).

(** ** Start *)

(** The answers of the outside. [en_otel] tells whether Configure gives a function to shut down
    and its error; [en_im] and [en_preview] are the errors of the two clients of the instant
    messages; [en_serve] is the error with which the gRPC server ends by itself; [en_nilLog] is the panic of a nil logger and [en_nilClose] the one of closing a client
    that could not be created, if there is one. *)
Class Environment := {
  en_read : Config;
  en_otel : bool * option string;
  en_health : option string;
  en_tables : option string;
  en_discovery : option string;
  en_keyPair : option string;
  en_ca : option string;
  en_im : option string;
  en_preview : option string;
  en_listen : option string;
  en_register : option string;
  en_switches : string + list Client;
  en_flow : option string;
  en_chat : option string;
  en_serve : option string;
  en_nilLog : option string;
  en_nilClose : option string;
}.

Definition ServiceName : string := "call_center".

Section Boot.
Context {EN : Environment} {DR : Driver} {BS : BrokerServer} {JS : JobServer}.

Definition App_Config : Boot Config := fun a =>
  (Next (default zero_config (ap_config a)), a).

Definition LoadConfig : Boot unit := boot_modify (fun a => a <| ap_config := (Some (loadConfig en_read)) |>).

(** The id is dereferenced; the result is the id of the node and the public id. *)
Definition setServiceId (id : option string) : Boot (string * string) :=
  match id with
  | None => panics nil_deref
  | Some id => mret (id, ServiceName +:+ "-" +:+ id)
  end.

Definition otel (enabled : bool) : Boot unit :=
  if enabled then
    _ ← (if en_otel.1 then create POtel else mret tt);
    check (en_otel.2)
  else mret tt.

Definition health : Boot unit :=
  _ ← create PHealth;
  _ ← check ((fun e => "unable to start health registry: " +:+ e) <$> en_health);
  life (Started PHealth).

Definition database (settings : SqlSettings) : Boot SqlSupplier := fun a =>
  match NewSqlSupplier settings en_tables with
  | Up s => (Next s, a)
  | Exit c => (Exits c, a)
  end.

(** NewRabbitMQ: the client is created with its connection, and reads from then on. *)
Definition broker (publicId : string) (useIM : bool) : Boot unit := fun a =>
  match initConnection publicId useIM 101 (MkConnState 0 (ap_mq a)) with
  | Some (Connected, s) => (_ ← create PMQ; life (Started PMQ)) (a <| ap_mq := (cn_trace s) |>)
  | Some (Exited c, s) => (Exits c, a <| ap_mq := (cn_trace s) |>)
  | Some (Panicked w, s) => (Panics w, a <| ap_mq := (cn_trace s) |>)
  | None => (Panics "fuel", a)
  end.

(** Client.Start; New ignores its error. *)
Definition im_Start : Boot unit :=
  match en_im, en_preview with
  | Some _, _ => boot_modify (fun a => a <| ap_imFailed := true |>)
  | None, Some _ => mret tt
  | None, None => life (Started PIM)
  end.

(** NewGrpcServer panics if it cannot listen. *)
Definition NewGrpcServer : Boot unit :=
  match en_listen with Some e => panics e | None => create PGrpc end.

Definition cluster_Setup (id : string) : Boot unit := fun a =>
  let '((err, i), t) := Setup id (ap_info a) (ap_store a) in
  check ((fun e => "unable to initialize cluster: " +:+ AppError_Error e) <$> err)
    (a <| ap_info := i |> <| ap_store := t |>).

(** cluster.Start: registers the service, then starts the heartbeat. *)
Definition cluster_Start : Boot unit :=
  _ ← check en_register;
  life (Started PCluster).

Definition register_all (l : list Client) (s : CMState) : CMState := fold_left (fun s v => registerConnection v s) l s.

(** CallManagerImpl.Start *)
Definition CallManager_Start : Boot unit :=
  match en_switches with
  | inl e => panics e
  | inr l =>
      _ ← boot_modify (fun a => a <| ap_cm := (register_all l (ap_cm a)) |>);
      life (Started PCallManager)
  end.

(** EngineImp.Start and Stop, without the rounds of the watcher. *)
Definition Engine_Start (id : string) : Boot unit :=
  _ ← on_store (UnReserveMembers id);
  life (Started PEngine).

Definition Engine_Stop (id : string) : Boot unit :=
  _ ← life (Stopped PEngine);
  on_store (UnReserveMembers id).

(** ChatManager.Start: the loop of the events runs whatever the client answers. *)
Definition ChatManager_Start : Boot unit :=
  _ ← life (Started PChat);
  check en_chat.

(** Manager.Start of the triggers. *)
Definition Trigger_Start (id : string) : Boot unit :=
  _ ← on_store (Trigger.clean id);
  life (Started PTrigger).

Definition parts : Boot unit :=
  _ ← LoadConfig;
  config ← App_Config;
  ids ← setServiceId (co_NodeId config);
  let '(id, publicId) := (ids : string * string) in
  _ ← otel (co_LogOtel config);
  _ ← boot_modify (fun a => a <| ap_log := true |>);
  _ ← health;
  _ ← database (co_SqlSettings config);
  _ ← broker publicId (co_UseIM config);
  _ ← check en_discovery;
  _ ← create PCluster;
  _ ← match LoadTlsCreds (co_Tls config) en_keyPair en_ca with inl e => fails e | inr _ => mret tt end;
  _ ← create PIM;
  _ ← im_Start;
  _ ← NewGrpcServer;
  _ ← cluster_Setup id;
  _ ← cluster_Start;
  _ ← create PCallManager;
  _ ← CallManager_Start;
  _ ← create PEngine;
  _ ← Engine_Start id;
  _ ← create PAgentManager;
  _ ← life (Started PAgentManager);
  _ ← create PFlow;
  _ ← check en_flow;
  _ ← life (Started PFlow);
  _ ← create PChat;
  _ ← ChatManager_Start;
  _ ← create PDialing;
  _ ← life (Started PDialing);
  _ ← create PTrigger;
  Trigger_Start id.

(** ** End *)

(** [if app.p != nil { app.p.Stop() }] *)
Definition stop (p : Part) (m : Boot unit) : Boot unit := fun a =>
  if decide (p ∈ ap_parts a) then m a else (Next tt, a).

(** The client is closed with the method of the client inside it, which is nil if it could not be
    created; the loop that reads the messages of the gateway goes on. *)
Definition im_Close : Boot unit := fun a =>
  match ap_imFailed a, en_nilClose with
  | true, Some w => (Panics w, a)
  | _, _ => life (Stopped PIM) a
  end.

Definition log_Info : Boot unit := fun a =>
  match ap_log a, en_nilLog with
  | false, Some w => (Panics w, a)
  | _, _ => (Next tt, a)
  end.

Definition Shutdown (id : string) : Boot unit :=
  _ ← log_Info;
  _ ← stop PHealth (life (Stopped PHealth));
  _ ← stop PCluster (life (Stopped PCluster));
  _ ← stop PEngine (Engine_Stop id);
  _ ← stop PDialing (life (Stopped PDialing));
  _ ← stop PAgentManager (life (Stopped PAgentManager));
  _ ← stop PCallManager (life (Stopped PCallManager));
  _ ← stop PFlow (life (Stopped PFlow));
  _ ← stop PChat (life (Stopped PChat));
  _ ← stop PTrigger (life (Stopped PTrigger));
  _ ← stop PMQ (life (Stopped PMQ));
  _ ← stop PIM im_Close;
  stop POtel (life (Stopped POtel)).

Definition node_id : string := default "" (co_NodeId (loadConfig en_read)).

Definition app0 : App_ := {|
  ap_config := None; ap_log := false; ap_parts := []; ap_life := []; ap_imFailed := false; ap_info := None;
  ap_store := []; ap_mq := []; ap_cm := NewCallManager (ServiceName +:+ "-" +:+ node_id) |}.

(** New, with the deferred function: a panic runs it too, but without an error it does nothing. *)
Definition New : booted unit * App_ :=
  match parts app0 with
  | (Fails e, a) =>
      match Shutdown node_id a with
      | (Next _, a) => (Fails e, a)
      | (Panics w, a) => (Panics w, a)
      | r => r
      end
  | r => r
  end.

(** StartGrpcServer returns no error: the server runs in a goroutine, whose panic ends the process
    without the deferred functions of main. *)
Definition StartGrpcServer : Boot unit :=
  match en_serve with Some e => panics e | None => mret tt end.

(** main: an error of New panics; a signal ends the process with the deferred Shutdown. *)
Definition main : booted unit * App_ :=
  match New with
  | (Next _, a) => (_ ← StartGrpcServer; Shutdown node_id) a
  | (Fails e, a) => (Panics e, a)
  | r => r
  end.

End Boot.

(** ** The connections to the switches, later: CallManagerImpl.wakeUp

    Every interval the manager asks the discovery for the switches, connects to those that the pool
    does not know ([notFound] is the text of discovery.ErrNotFoundConnection) and tells the pool
    which ones are left. The result is the argument of RecheckConnections. *)

Section WakeUp.
Context {SW : Switch} (notFound : string).

Fixpoint register_new (l : list Client) : CM unit :=
  match l with
  | [] => mret tt
  | v :: l =>
      r ← cm_call (PoolGetById (cl_name v)) sw_getById;
      _ ← (if decide (r = inl notFound) then cm_modify (registerConnection v) else mret tt);
      register_new l
  end.

Definition wakeUp (found : string + list Client) : CM (option (list string)) :=
  match found with
  | inl _ => mret None
  | inr l => _ ← register_new l; mret (Some (map cl_name l))
  end.

End WakeUp.
