(* ===== verification/BootFacts.v ===== *)
(** * The start and the end of the process *)

From S2P Require Import Prelude Lru Model Queue Attempt World Calls CallManager Chat Im Workers Jobs Broker Sql Supplier Boot.
From S2P Require Import BrokerFacts.
Import Broker.


(** The parts that were stopped, in order. *)
Definition stops (a : App_) : list Part := rev (omap (fun e => match e with Stopped p => Some p | Started _ => None end) (ap_life a)).

Definition starts (a : App_) : list Part := rev (omap (fun e => match e with Started p => Some p | Stopped _ => None end) (ap_life a)).


Section Facts.
Context {EN : Environment} {DR : Driver} {BS : BrokerServer} {JS : JobServer}.












(** ** The start *)

(** The codes with which the process exits: 1 and 110 for the broker, the others for the database. *)
Definition exit_codes : list Z := [1; EXIT_DECLARE_EXCHANGE; EXIT_CREATE_TABLE; EXIT_DB_OPEN; EXIT_PING; EXIT_NO_DRIVER].







(** A state on the way: what was started was created, nothing was stopped. *)
Definition rising (a : App_) : Prop :=
  Forall (fun p => p ∈ ap_parts a) (starts a) /\ NoDup (ap_parts a) /\ stops a = [].




(** From [P] the piece goes on to [Q], or the start is left with the parts created so far. *)
Definition leads {A} (P : App_ -> Prop) (m : Boot A) (Q : App_ -> Prop) : Prop := forall a, P a ->
  match m a with
  | (Next _, a) => Q a
  | (Fails _, a) | (Panics _, a) => rising a
  | (Exits c, a) => rising a /\ c ∈ exit_codes
  end.










Definition bare (a : App_) : Prop := ap_parts a = [] /\ ap_life a = [].



Lemma leads_config : leads bare (_ ← LoadConfig; App_Config) bare.
Proof. intros a [E1 E2]. done. Qed.





End Facts.


Section Outcome.
Context {EN : Environment} {DR : Driver} {BS : BrokerServer} {JS : JobServer}.




End Outcome.



(** ** A process that comes up *)

Definition demo_sql : SqlSettings := MkSqlSettings DATABASE_DRIVER_POSTGRES "db" [].

Definition demo_config : Config := MkConfig (Some "1") false false "" demo_sql false (MkTLSConfig "" "" "").

(** [chat] is the error of the client of the chat service. *)
Definition demo_environment (chat : option string) : Environment := {|
  en_read := demo_config; en_otel := (false, None); en_health := None; en_tables := None; en_discovery := None;
  en_keyPair := None; en_ca := None; en_im := None; en_preview := None; en_listen := None; en_register := None; en_switches := inr [];
  en_flow := None; en_chat := chat; en_serve := None; en_nilLog := Some nil_deref; en_nilClose := Some nil_deref |}.

#[local] Instance demo_driver : Driver := {| dr_open _ := None; dr_ping _ _ := None |}.
#[local] Instance demo_broker : BrokerServer := {| bs_err _ := None; bs_id _ := "00000000000000000000000000" |}.
#[local] Instance demo_jobs : JobServer := {|
  js_err _ := None; js_hooks _ := inr []; js_jobs _ := inr []; js_flow _ := ("", None); js_waiting _ := inr [];
  js_ready _ := true; js_info _ := inr true |}.

(** It is started and stopped, and the reservations of the node are taken back before and after. *)
Example demo_life :
  let r := main (EN := demo_environment None) in
  r.1 = Next tt /\ stops r.2 = [PHealth; PCluster; PEngine; PDialing; PAgentManager; PCallManager; PFlow; PChat; PTrigger; PMQ; PIM] /\
  ap_store r.2 = [CreateOrUpdate "1"; UpdateClusterInfo "1" true; UnReserveMembersByNode "1" "SYSTEM_SHUTDOWN"; CleanActive "1";
                  UnReserveMembersByNode "1" "SYSTEM_SHUTDOWN"].
Proof. vm_compute. done. Qed.

(** If the chat service cannot be reached, what was created is stopped; there is no dialing yet. *)
Example demo_chat_down :
  let r := New (EN := demo_environment (Some "no chat")) in
  r.1 = Fails "no chat" /\ stops r.2 = [PHealth; PCluster; PEngine; PAgentManager; PCallManager; PFlow; PChat; PMQ; PIM].
Proof. vm_compute. done. Qed.

(** ** The connections to the switches *)

(** What connections change: never the calls, and the addresses of the recordings and of the flow
    socket only while they are empty. *)
Record connected (s s' : CMState) : Prop := {
  cn_calls : cm_calls s' = cm_calls s;
  cn_heap : cm_heap s' = cm_heap s;
  cn_pending : cm_jobs s' = cm_jobs s;
  cn_cdr : cm_cdr s <> "" -> cm_cdr s' = cm_cdr s;
  cn_flow : cm_flowSocketUri s <> "" -> cm_flowSocketUri s' = cm_flowSocketUri s;
}.

#[export] Instance connected_refl : Reflexive connected.
Proof. by split. Qed.

#[export] Instance connected_trans : Transitive connected.
Proof.
  intros a b c [C1 H1 J1 D1 F1] [C2 H2 J2 D2 F2].
  split; [congruence..| |]; intros E; [rewrite D2; rewrite D1|rewrite F2; rewrite F1]; done.
Qed.

Lemma registerConnection_connected v s : connected s (registerConnection v s).
Proof.
  unfold registerConnection. repeat (case_match || case_decide); try done; split; done || (intros; simpl in *; congruence).
Qed.

Lemma register_all_connected l s : connected s (register_all l s).
Proof.
  unfold register_all. revert s. induction l as [|v l IH]; intros s; [done|]. cbn [fold_left].
  etrans; [apply registerConnection_connected|apply IH].
Qed.

(** A round of wakeUp keeps the calls, and tells the pool to keep exactly the switches that the
    discovery gave. *)
Lemma wakeUp_connected `{Switch} notFound found s :
  exists r s', wakeUp notFound found s = Ret (r, s') /\ connected s s' /\
    match found with inl _ => r = None /\ s' = s | inr l => r = Some (map cl_name l) end.
Proof.
  destruct found as [e|l]; [by exists None, s|].
  assert (exists s', register_new notFound l s = Ret (tt, s') /\ connected s s') as (s' & E & C).
  { revert s. induction l as [|v l IH]; intros s; [by exists s|]. cbn [register_new].
    unfold mbind at 1, CM_bind at 1, cm_call. set (s1 := s <| cm_trace := _ |>).
    assert (connected s s1) as C1 by by split.
    destruct (decide (sw_getById (cm_trace s1) = inl notFound)) as [Ed|Ed]; rewrite ?(decide_True _ _ Ed), ?(decide_False _ _ Ed).
    - destruct (IH (registerConnection v s1)) as (s' & E & C). exists s'. split; [exact E|].
      etrans; [exact C1|]. etrans; [apply registerConnection_connected|exact C].
    - destruct (IH s1) as (s' & E & C). exists s'. split; [exact E|]. by etrans. }
  exists (Some (map cl_name l)), s'. unfold wakeUp, mbind, CM_bind. by rewrite E.
Qed.
