(* ===== verification/ManagerFacts.v ===== *)
(** * The caches and guards of the queue manager

    Creation of attempts, freshness of the queues and agents that the caches serve,
    the error accounting of resources, and the requests that are refused without a change.
    The caches of teams, resources and agents expire their entries, so what is said of the
    caches other than that of the members does not use the laws of the interface: whatever
    the cache answers, a stale object is not served. *)

From S2P Require Import Prelude Model Queue Attempt TaskChannel Resource World Agents.
From S2P Require Import Events Schema Manager Team Distribute Messages Dialing Frame Invariant.
From S2P Require Import Lifecycle.

Section ManagerFacts.
Context {OC : Type -> Type} {HOC : ObjectCache OC} {OCL : ObjectCacheLaws OC} {SV : Services} {DE : Decoders}.

Abbreviation W := (World OC).

(** ** Creation *)



(** ** Queues *)

(** A queue is served from the cache only if it has the version asked for; otherwise it
    is read from the store and rebuilt, and the errors of the store are returned. *)
Theorem queue_is_fresh (id updatedAt : Z) (w : W) :
  match GetQueue id updatedAt w with
  | Ret (inr q, w') =>
      bq_updatedAt (qo_base q) = updatedAt /\ w_trace w' = w_trace w \/
      exists params, w_trace w' = QueueGetById id :: w_trace w /\
        svc_queue (w_trace w') = inr params /\ NewQueue params = Ret (inr q)
  | Ret (inl e, w') => w_trace w' = QueueGetById id :: w_trace w /\
      (svc_queue (w_trace w') = inl e \/
       exists params, svc_queue (w_trace w') = inr params /\ NewQueue params = Ret (inl e))
  | Panic s => exists params, svc_queue (QueueGetById id :: w_trace w) = inr params /\
      NewQueue params = Panic s
  | Block _ => exists params, svc_queue (QueueGetById id :: w_trace w) = inr params
  end.
Proof.
  unfold GetQueue, queues_get, mbind, M_bind. destruct (oc_get _ _ _) as [o c].
  destruct (keep_if _ o) as [q|] eqn:Ek.
  - simpl. left. split; [|done]. unfold keep_if in Ek. destruct o as [q'|]; [|done].
    unfold BaseQueue_IsExpire in Ek. destruct (negb _) eqn:En; [|done]. simplify_eq.
    apply negb_true_iff, bool_decide_eq_false in En. by apply dec_stable.
  - unfold bind_res, mbind, M_bind, call, lift. simpl.
    destruct (svc_queue _) as [e|params] eqn:Eq; simpl; [by auto|].
    destruct (NewQueue params) as [[e|q]| |] eqn:En; simpl; eauto 10.
Qed.

(** ** Agents *)

Lemma cached_agent_cases id ok (w : W) :
  match cached_agent id ok w with
  | Ret (Some l, w') => exists a, w_agents w !! l = Some a /\ ok a = true /\
      w_agents w' = w_agents w /\ w_trace w' = w_trace w /\ w_next w' = w_next w
  | Ret (None, w') => w_agents w' = w_agents w /\ w_trace w' = w_trace w /\ w_next w' = w_next w
  | Panic s => s = nil_deref
  | Block _ => False
  end.
Proof.
  unfold cached_agent, agents_get, get_agent, mbind, M_bind. destruct (oc_get _ _ _) as [[l|] c];
    simpl; [|done]. destruct (w_agents w !! l) as [a|] eqn:Ea; [|done]. simpl.
  destruct (ok a) eqn:Eo; [|done]. by exists a.
Qed.

(** An agent is served from the cache only with the version asked for, without a call to
    the store; otherwise it is the agent the store has now, in a new object. An agent put
    into the cache never replaces a newer one. *)
Theorem agent_is_fresh (id updatedAt : Z) (a : Agent) (w : W) :
  match GetAgent id updatedAt w with
  | Ret (inr l, w') => exists ag, w_agents w' !! l = Some ag /\
      (ag_UpdatedAt ag = updatedAt /\ w_trace w' = w_trace w /\ w_agents w' = w_agents w \/
       w_trace w' = AgentStoreGet id :: w_trace w /\ svc_agent (w_trace w') = inr ag /\
       w_agents w' = <[l := ag]> (w_agents w) /\ l = w_next w)
  | Ret (inl e, w') => w_trace w' = AgentStoreGet id :: w_trace w /\
      svc_agent (w_trace w') = inl e /\ w_agents w' = w_agents w
  | Panic s => s = nil_deref
  | Block _ => False
  end /\
  match PutAgentCache a w with
  | Ret (l, w') => exists ag, w_agents w' !! l = Some ag /\ ag_UpdatedAt ag >= ag_UpdatedAt a /\
      (w_agents w' = w_agents w \/ ag = a /\ l = w_next w /\ w_agents w' = <[l := ag]> (w_agents w))
  | Panic s => s = nil_deref
  | Block _ => False
  end.
Proof.
  split.
  - unfold GetAgent. set (fresh := fun a => negb (Agent_IsExpire a updatedAt)).
    assert (forall ag, fresh ag = true -> ag_UpdatedAt ag = updatedAt) as Hf.
    { intros ag. unfold fresh, Agent_IsExpire. intros H%negb_true_iff%bool_decide_eq_false.
      by apply dec_stable. }
    unfold mbind, M_bind. pose proof (cached_agent_cases id fresh w) as H1.
    destruct (cached_agent id fresh w) as [[[l|] w1]| |]; [| |done..].
    { destruct H1 as (ag & ? & ? & Ea & Et & _). exists ag. rewrite Ea, Et. auto 10. }
    pose proof (cached_agent_cases id fresh w1) as H2.
    destruct H1 as (Ea1 & Et1 & En1).
    destruct (cached_agent id fresh w1) as [[[l|] w2]| |]; [| |done..].
    { destruct H2 as (ag & ? & ? & Ea & Et & _). exists ag. rewrite Ea, Et, Ea1, Et1 in *. auto 10. }
    destruct H2 as (Ea2 & Et2 & En2). unfold bind_res, mbind, M_bind, call. simpl.
    rewrite Et2, Et1. destruct (svc_agent _) as [e|ag] eqn:Es; simpl.
    + rewrite Ea2, Ea1. done.
    + exists ag. rewrite lookup_insert_eq, Ea2, Ea1, En2, En1. auto 10.
  - unfold PutAgentCache, mbind, M_bind.
    set (ok := fun cur => bool_decide (ag_UpdatedAt cur >= ag_UpdatedAt a)).
    pose proof (cached_agent_cases (ag_Id a) ok w) as H1.
    destruct (cached_agent (ag_Id a) ok w) as [[[l|] w1]| |]; [| |done..]; simpl.
    + destruct H1 as (ag & ? & ?%bool_decide_eq_true & Ea & _). exists ag. rewrite Ea. auto.
    + destruct H1 as (Ea & _ & En). exists a. rewrite lookup_insert_eq, Ea, En.
      split_and!; [done|lia|by right].
Qed.

(** ** Resources *)

(** The error accounting of a resource. A code that is an error of the resource is
    counted in the store, and if the store took it the resource is dropped from the cache,
    so that its next use reads the new count; the object is not changed. Any other code
    resets the count, in the store and in the object, and only if it was not zero. *)
Theorem resource_errors (l : loc) (r : Resource) (code : string) (w : W) :
  w_resources w !! l = Some r -> 0 <= rs_successivelyErrors r ->
  exists bad w', CheckCodeError r code = Ret bad /\ SetResourceError l code w = Ret (tt, w') /\
  if (bad : bool) then
    w_trace w' = ResourceSetError (rs_id r) 1 code :: w_trace w /\ w_resources w' = w_resources w /\
    w_resourcesCache w' = match svc_error (w_trace w') with
                          | None => oc_remove (rs_id r) (w_resourcesCache w)
                          | Some _ => w_resourcesCache w
                          end
  else
    w_resourcesCache w' = w_resourcesCache w /\
    w_resources w' !! l = Some (SetSuccessivelyErrors 0 r) /\
    w_trace w' = if decide (rs_successivelyErrors r > 0)
                 then ResourceSetErrors (rs_id r) 0 :: w_trace w else w_trace w.
Proof.
  intros Hr H0. destruct (CheckCodeError_no_panic r code) as [bad Eb]. exists bad.
  unfold SetResourceError, get_resource, mbind, M_bind, lift. rewrite Hr, Eb.
  destruct bad; simpl.
  - destruct (svc_error _) eqn:Ee; eexists; (split; [done|]; split; [done|]; simpl; by rewrite Ee).
  - unfold SetResourceSuccessful, get_resource, mbind, M_bind. rewrite Hr.
    case_decide as Hd.
    + unfold mod_resource, call_err, call. simpl. rewrite Hr. eexists. split; [done|]. split; [done|].
      simpl. by rewrite lookup_insert_eq.
    + eexists. split; [done|]. split; [done|]. split_and!; [done| |done]. rewrite Hr. f_equal.
      assert (rs_successivelyErrors r = 0) as Hz by lia. destruct r. simpl in Hz. by subst.
Qed.

(** ** Requests that are refused *)

(** The answer is this error and nothing but the recency of the cache has changed. *)
Definition refused (m : M OC (option AppError)) (w : W) (code : Z) : Prop :=
  exists e w', m w = Ret (Some e, w') /\ err_StatusCode e = code /\ quiet w w' /\ w_trace w' = w_trace w.

Lemma members_get_silent (w : W) id :
  oc_ok (w_membersCache w) ->
  exists w', members_get id w = Ret (cached w !! id, w') /\ quiet w w' /\ w_trace w' = w_trace w.
Proof.
  intros Hok. destruct (members_get_quietly w id Hok) as (w' & E & Q). exists w'.
  split_and!; [done..|]. unfold members_get in E. destruct (oc_get _ _ _). by simplify_eq.
Qed.

(** C25. Requests name an attempt by its id and a domain. The attempt of another domain
    cannot be written to, resumed or transferred: the answer is the one for an attempt
    that does not exist, and nothing is changed or called. *)
Theorem domains_are_isolated (w : W) (id domainId : Z) :
  minv w ->
  (forall l a, cached w !! id = Some l -> w_attempts w !! l = Some a -> at_domainId a <> domainId) ->
  (forall fields form, refused (SaveFormFields domainId id fields form) w 404) /\
  refused (ResumeAttempt id domainId) w 404 /\
  (forall agentId queueId, refused (TransferIM domainId id agentId queueId) w 404).
Proof.
  intros Hw Hd. destruct (members_get_silent w id (mi_ok _ Hw)) as (w1 & Eg & Q & Et).
  unfold refused, SaveFormFields, ResumeAttempt, TransferIM, GetAttempt.
  destruct (cached w !! id) as [l|] eqn:Hc.
  - destruct (mi_own _ Hw id l Hc) as (a & Ha & _). specialize (Hd l a eq_refl Ha).
    assert (get_attempt l w1 = Ret (a, w1)) as Ea by (apply get_attempt_eq; by rewrite (qt_attempts _ _ Q)).
    split_and!; intros; unfold mbind, M_bind; rewrite Eg, Ea, decide_True by done; by eexists _, _.
  - split_and!; intros; unfold mbind, M_bind; rewrite Eg; by eexists _, _.
Qed.

(** C26. A task is accepted only by the agent it is reserved for, in the name of the agent's
    own user: for an attempt without an agent, another agent or another user the answer is
    forbidden, for an unknown attempt not found, and nothing is changed or called. For the
    reserved agent the request goes on to the manager. *)
Theorem accept_task_guard (w : W) (canceled : bool) (id agentID userID : Z) :
  minv w ->
  match cached w !! id with
  | None => refused (App_AcceptAgentTask canceled id agentID userID) w 404
  | Some l => forall a, w_attempts w !! l = Some a -> agent_ok w a ->
      (forall g ag, at_agent a = Some g -> w_agents w !! g = Some ag ->
         ag_Id ag = agentID -> Agent_UserId ag = userID ->
         exists w1, quiet w w1 /\
           App_AcceptAgentTask canceled id agentID userID w = AcceptAgentTask canceled id w1) /\
      ((forall g ag, at_agent a = Some g -> w_agents w !! g = Some ag ->
          ag_Id ag <> agentID \/ Agent_UserId ag <> userID) ->
       refused (App_AcceptAgentTask canceled id agentID userID) w 403)
  end.
Proof.
  intros Hw. destruct (members_get_silent w id (mi_ok _ Hw)) as (w1 & Eg & Q & Et).
  unfold refused, App_AcceptAgentTask, GetAttempt. destruct (cached w !! id) as [l|] eqn:Hc.
  - intros a Ha Hg. assert (get_attempt l w1 = Ret (a, w1)) as Ea
      by (apply get_attempt_eq; by rewrite (qt_attempts _ _ Q)).
    unfold mbind, M_bind. rewrite Eg, Ea. unfold agent_ok in Hg.
    destruct (at_agent a) as [g|]; simpl.
    + destruct Hg as [ag Eag]. unfold mbind, M_bind, get_agent. rewrite (qt_agents _ _ Q), Eag. simpl.
      split.
      * intros g' ag' [= <-] E' Hi Hu. rewrite Eag in E'. simplify_eq.
        rewrite decide_False by naive_solver. by exists w1.
      * intros H. rewrite decide_True by (by eapply H). by eexists _, _.
    + split; [done|]. intros _. by eexists _, _.
  - unfold mbind, M_bind. rewrite Eg. by eexists _, _.
Qed.

End ManagerFacts.
