(* ===== verification/TeamFacts.v ===== *)
(** * Teams and the status of agents

    What the end of a conversation does to its attempt (queue/team.go), the deadlines of
    the wrap up and missed events, and when the status of an agent changes
    (agent_manager/agent_manager.go, app/agent.go). *)

From S2P Require Import Prelude Model Queue Attempt TaskChannel World Agents Events Schema.
From S2P Require Import Manager Team Distribute Messages Dialing Frame Invariant Lifecycle.

(** ** Deadlines *)

(** The deadline of the wrap up event is the end of the wrap up time exactly when the
    wrap up time is below 66 seconds: the product with 1000 is computed in 16 bits. *)
Theorem wrap_deadline_exact (tm : agentTeam) (timestamp : Z) :
  0 <= tm_WrapUpTime (te_data tm) < 2^16 -> 0 <= timestamp < 2^62 ->
  (wrap_deadline tm timestamp = timestamp + tm_WrapUpTime (te_data tm) * 1000 <->
   tm_WrapUpTime (te_data tm) < 66).
Proof.
  intros Hw Ht. unfold wrap_deadline. set (n := tm_WrapUpTime (te_data tm)) in *.
  assert (0 <= u16 (n * 1000) < 2^16) as Hu by (unfold u16; apply Z.mod_pos_bound; lia).
  assert (i64 (timestamp + u16 (n * 1000)) = timestamp + u16 (n * 1000)) as ->.
  { unfold i64. rewrite Z.mod_small; lia. }
  split; intros H.
  - lia.
  - unfold u16 in *. rewrite Z.mod_small by lia. lia.
Qed.

Definition long_wrap : agentTeam :=
  MkAgentTeam (MkTeam 1 1 "t" "" None 1 30 30 30 3 90 10 []) (NewHookHub []).

Lemma wrap_deadline_exact_witness :
  wrap_deadline long_wrap 1000 <> 91000 /\ wrap_deadline long_wrap 1000 = 25464.
Proof.
  split; [|reflexivity]. intros H. apply (wrap_deadline_exact long_wrap 1000) in H; simpl in *; lia.
Defined.

Section TeamFacts.
Context {OC : Type -> Type} {HOC : ObjectCache OC} {OCL : ObjectCacheLaws OC} {SV : Services} {DE : Decoders}.

Abbreviation W := (World OC).

(** ** The end of a conversation *)

Lemma SetState_steadily l st (w : W) : at_loc placed l w -> steadily (SetState l st) w.
Proof.
  intros (a & Ha & [q Hq] & Hg).
  destruct (SetState_eq w l a q st Ha Hg Hq) as (a' & w' & E & F & Ea & Eg & _ & _ & S).
  exists tt, w'. split; [done|]. split; [done|]. split; [done|]. intros l' a0 H0. rewrite Ea.
  destruct (decide (l' = l)) as [->|Hne].
  - rewrite lookup_insert_eq. exists a'. simplify_eq. split; [done|by apply same_similar].
  - rewrite lookup_insert_ne by done. by exists a0.
Qed.

Lemma publish_steadily l u e (w : W) : is_Some (w_attempts w !! l) -> steadily (publish l u e) w.
Proof.
  intros R. unfold publish. apply steadily_bind; [by apply steadily_get|intros a w1 _].
  apply steadily_bind; [apply quietly_steadily, quietly_call|].
  intros. apply quietly_steadily, quietly_ret.
Qed.

Lemma set_stop_cause_steadily l c (w : W) :
  is_Some (w_attempts w !! l) -> steadily (set_stop_cause l c) w.
Proof.
  intros R. unfold set_stop_cause. destruct c; [|apply quietly_steadily, quietly_ret].
  apply steadily_mod; [done|]. intros a. by split.
Qed.

#[local] Hint Resolve fit_placed placed_ok at_loc_some : core.

(** The wrap up leaves the attempt whatever the schema and the store answer. *)
Lemma SetWrap_leaves tm q l ag result (w : W) a :
  minv w -> at_loc placed l w -> w_attempts w !! l = Some a ->
  exists u w', SetWrap tm q l ag result w = Ret (u, w') /\ gone (at_Id a) w w'.
Proof.
  intros Hw R Ha. unfold SetWrap. pose proof (fun w1 S => steady_loc placed l w w1 S R) as Rs.
  apply (steady_then w); [done|by apply AfterDistributeSchema_steadily, placed_ok|intros s w1 _ S1].
  match goal with |- context [match ?x with (_, _) => _ end] => destruct x as [res vars] end.
  apply (steady_then w); [done|apply steadily_get; eauto|intros a1 w1' [-> _]%get_attempt_ret _].
  apply (steady_then w); [done|apply quietly_steadily, quietly_call|intros r w2 _ S2].
  apply (steady_then w); [done| |intros _ w3 _ S3; apply LeavingMember_leaves; auto].
  destruct r as [e|r]; [apply quietly_steadily, quietly_ret|].
  apply steadily_bind; [apply set_stop_cause_steadily; eauto|intros _ w4 S4].
  assert (at_loc placed l w4) as R4 by (eapply steady_loc; [apply _|done|by apply Rs]).
  apply steadily_bind; [apply steadily_mod; [eauto|intros; by split]|intros _ w5 S5].
  eapply publish_steadily, at_loc_some. by eapply (steady_loc placed).
Qed.

(** The result an attempt waits for its report with. *)
Lemma post_processing_result l (w : W) a :
  w_attempts w !! l = Some a ->
  exists w', (if decide (Result a = "") then mod_attempt l (SetResult AttemptResultPostProcessing)
              else mret tt) w = Ret (tt, w') /\ steady w w' /\ w_trace w' = w_trace w.
Proof.
  intros Ha. case_decide; [|by exists w].
  destruct (steadily_mod l (SetResult AttemptResultPostProcessing) w) as ([] & w' & E & S);
    [by eexists|intros; by split|]. exists w'. split_and!; [done..|].
  unfold mod_attempt in E. rewrite Ha in E. by simplify_eq.
Qed.

(** The outcome of a report that comes from the system: the store refused it, and nothing left,
    or it took it, and the attempt left. *)
Definition system_report (id : Z) (w w' : W) : Prop :=
  gone id w w' \/ frame w w' /\ report_refused id w w'.

Lemma processing_state l u (ev : Attempt -> Event) (w : W) :
  at_loc placed l w -> exists w' a',
    (_ ← SetState l MemberStateProcessing; a ← get_attempt l; publish l u (ev a)) w = Ret (tt, w') /\ frame w w' /\
    w_attempts w' !! l = Some a' /\ at_state a' = MemberStateProcessing.
Proof.
  intros (a2 & Ha2 & [q2 Hq2] & Hg2).
  destruct (SetState_eq w l a2 q2 MemberStateProcessing Ha2 Hg2 Hq2)
    as (a3 & w3 & E3 & F3 & Ea3 & _ & Es3 & _).
  assert (w_attempts w3 !! l = Some a3) as Ha3 by (by rewrite Ea3, lookup_insert_eq).
  unfold mbind, M_bind. rewrite E3, (get_attempt_eq w3 l a3 Ha3). unfold publish, mbind, M_bind.
  rewrite (get_attempt_eq w3 l a3 Ha3). eexists _, a3. split; [done|]. split_and!; [|done..].
  etrans; [done|]. by apply frame_other.
Qed.

(** C18. What the end of a conversation does to its attempt; it always returns. If reports wait
    for the channel to close and one was kept, it is sent as a report of the system: the
    attempt leaves, counted out exactly once, unless the store refuses the report. Otherwise,
    if the agent already reported, and not as a draft, nothing leaves here. If the queue has
    no processing, or the conversation is transferred, the attempt leaves, counted out exactly
    once. In the remaining case it stays with the agent, and if the store took it, in the
    state processing. The attempt is fit to be reported (its queue and agent exist, a queue
    that hangs up the member has a call, the cancel channel is closed only if it was cancelled)
    and no other attempt is cached under its id. *)
Theorem conversation_end (tm : agentTeam) (q : QueueObject) (l : loc) (ag : Agent)
    (reported transfer : bool) (w : W) (a : Attempt) :
  minv w -> w_attempts w !! l = Some a -> fit w a ->
  (forall l', cached w !! at_Id a = Some l' -> l' = l) ->
  exists w', Team_Reporting tm q l ag reported transfer w = Ret (tt, w') /\
  if svc_waitChannelClose && bool_decide (is_Some (at_result a)) then system_report (at_Id a) w w'
  else if reported && bool_decide (at_draft a = None) then frame w w'
  else if negb (bq_processing (qo_base q)) || (transfer && ProcessingTransfer (qo_base q))
          || at_processTransfer a
  then gone (at_Id a) w w'
  else frame w w' /\
    ((exists e, w_trace w' = SetAttemptReporting (at_Id a) (bq_processingSec (qo_base q)) :: w_trace w /\
        svc_timestamp (w_trace w') = inl e) \/
     exists a', w_attempts w' !! l = Some a' /\ at_state a' = MemberStateProcessing).
Proof.
  intros Hw Ha Hf Hl. assert (at_loc fit l w) as R by by exists a.
  unfold Team_Reporting, mbind at 1, M_bind at 1. rewrite (get_attempt_eq w l a Ha).
  destruct (svc_waitChannelClose && bool_decide (is_Some (at_result a))) eqn:Eo.
  { apply andb_true_iff in Eo as [-> [cb ->]%bool_decide_eq_true]. 
    destruct (ReportingAttempt_total w (at_Id a) cb true) as (err & w' & E & _);
      [by rewrite andb_false_r|done|done|by intros l' ->%Hl|].
    exists w'. unfold mbind, M_bind. rewrite E. split; [done|].
    apply ReportingAttempt_gone in E as [G|[F [H|H]]]; [by left| |by right|done].
    by rewrite andb_false_r in H. }
  assert ((if svc_waitChannelClose then at_result a else None) = None) as ->.
  { destruct svc_waitChannelClose; [|done]. simpl in Eo. apply bool_decide_eq_false in Eo.
    destruct (at_result a); [|done]. destruct Eo. by eexists. }
  destruct (reported && bool_decide (at_draft a = None)).
  { case_decide; [|by exists w].
    destruct (steadily_mod l (SetResult AttemptResultSuccess) w) as ([] & w' & E & S);
      [eauto|intros; by split|]. exists w'. split; [done|by apply st_frame]. }
  destruct (_ || _ || at_processTransfer a).
  { match goal with |- context [SetWrap tm q l ag ?r w] =>
      destruct (SetWrap_leaves tm q l ag r w a) as ([] & w' & E & G) end; [done|by apply fit_placed|done|].
    by exists w'. }
  destruct (post_processing_result l w a Ha) as (w1 & E1 & S1 & Et1).
  unfold mbind at 1, M_bind at 1. rewrite E1. unfold mbind at 1, M_bind at 1, call at 1. simpl. rewrite Et1.
  destruct (svc_timestamp _) as [e|ts] eqn:Es.
  { eexists. split; [done|]. split.
    - etrans; [by apply st_frame|]. apply frame_other; try done. simpl. rewrite Et1. by apply suffix_cons_r.
    - left. by exists e. }
  match goal with |- context [(_ ≫= _) ?w0] => set (w2 := w0) end.
  assert (steady w w2) as S2.
  { etrans; [done|]. apply quiet_steady. split; [|done..]. apply frame_other; try done.
    simpl. rewrite Et1. by apply suffix_cons_r. }
  destruct (processing_state l (Agent_UserId ag) (fun a =>
      NewProcessingEventEvent a (Agent_UserId ag) ts (bq_processingSec (qo_base q))
        (bq_processingRenewalSec (qo_base q)) (if bq_isProlongationEnabled (qo_base q)
          then Some (NewProcessingProlongation (bq_prolongationSteps (qo_base q)) (bq_prolongationSec (qo_base q)))
          else None) (bq_processingAutosave (qo_base q))) w2) as (w' & a' & E & F & Ha' & Es').
  { eapply steady_loc; [apply _|done|by apply fit_placed]. }
  exists w'. split; [exact E|]. split; [etrans; [apply S2|done]|]. right. by exists a'.
Qed.

(** ** The status of an agent *)

(** An operation that leaves the agent objects alone. *)
Definition keeps_agents {A} (m : M OC A) : Prop := forall w r w',
  m w = Ret (r, w') -> w_agents w' = w_agents w.

Lemma keeps_bind {A B} (m : M OC A) (f : A -> M OC B) :
  keeps_agents m -> (forall a, keeps_agents (f a)) -> keeps_agents (m ≫= f).
Proof.
  intros Hm Hf w r w' (a & w1 & E1 & E2)%bind_ret. apply Hf in E2. apply Hm in E1. congruence.
Qed.

Lemma keeps_ret {A} (a : A) : keeps_agents (mret a).
Proof. by intros w r w' [_ ->]%ret_ret. Qed.

Lemma keeps_call {A} e (f : trace -> A) : keeps_agents (call e f).
Proof. intros w r w' H. by injection H as _ <-. Qed.

Lemma keeps_ask {A} (f : trace -> A) : keeps_agents (ask f).
Proof. intros w r w' H. by injection H as _ <-. Qed.

Lemma keeps_get_attempt l : keeps_agents (get_attempt l).
Proof. by intros w r w' [-> _]%get_attempt_ret. Qed.

Lemma keeps_get_agent l : keeps_agents (get_agent l).
Proof. unfold get_agent. intros w r w' H. by destruct (_ !! l); simplify_eq. Qed.

Lemma keeps_mod_attempt l f : keeps_agents (mod_attempt l f).
Proof. unfold mod_attempt. intros w r w' H. by destruct (_ !! l); simplify_eq. Qed.

Lemma keeps_panic {A} s : keeps_agents (panic (A := A) s).
Proof. by intros w r w' H. Qed.

Lemma keeps_modify f : (forall w, w_agents (f w) = w_agents w) -> keeps_agents (modify f).
Proof. intros Hf w r w' H. injection H as _ <-. apply Hf. Qed.

Lemma keeps_teams_get id : keeps_agents (teams_get id).
Proof. unfold teams_get. intros w r w' H. destruct (oc_get _ _ _). by simplify_eq. Qed.

Ltac keeps_step :=
  match goal with
  | |- keeps_agents (bind_res ?m ?f) => unfold bind_res
  | |- keeps_agents (mbind _ _) => apply keeps_bind; [|intros]
  | |- keeps_agents (emit _) => apply keeps_call
  | |- keeps_agents (call_err _) => apply keeps_call
  | |- keeps_agents GetMillis => apply keeps_ask
  | |- keeps_agents (teams_add _ _) => by apply keeps_modify
  | |- keeps_agents (let '(_, _) := ?x in _) => destruct x
  | |- keeps_agents (match ?x with _ => _ end) => destruct x
  | |- _ => first [ apply keeps_ret | apply keeps_call | apply keeps_ask | apply keeps_get_attempt
                  | apply keeps_get_agent | apply keeps_mod_attempt | apply keeps_panic
                  | apply keeps_teams_get ]
  end.

Ltac keeps := intros; repeat (cbv beta zeta; keeps_step).

Lemma keeps_AgentTeamHook e l u : keeps_agents (AgentTeamHook e l u).
Proof. unfold AgentTeamHook, HookAgent, GetTeam. keeps. Qed.

Lemma keeps_SetState l st : keeps_agents (SetState l st).
Proof. unfold SetState, attempt_queue, Hook, export_schema, opt_agent. keeps. Qed.

Lemma keeps_publish l u e : keeps_agents (publish l u e).
Proof. unfold publish. keeps. Qed.

(** Store first, then the object, then the event. *)
Lemma change_status_eq l s (w : W) ag :
  w_agents w !! l = Some ag ->
  exists e w', change_status l s w = Ret (e, w') /\
    match svc_error (AgentSetStatus (ag_Id ag) (as_Status s) (as_StatusPayload s) (as_StatusComment s)
                       :: w_trace w) with
    | Some err => e = Some err /\ w_agents w' = w_agents w
    | None => w_agents w' = <[l := StoreStatus s ag]> (w_agents w)
    end.
Proof.
  intros Hl. unfold change_status, mbind, M_bind, get_agent, GetMillis, ask. rewrite Hl.
  unfold then_, setAgentStatus, mbind, M_bind, call_err, call. simpl.
  destruct (svc_error _); simpl; [by eexists _, _|].
  unfold mod_agent. simpl. rewrite Hl. simpl. rewrite lookup_insert_eq.
  unfold AgentChangeStatus_mq, mbind, M_bind, get_agent. simpl. rewrite lookup_insert_eq.
  by eexists _, _.
Qed.

(** The limit of missed attempts of the team is reached. *)
Definition too_many (tm : agentTeam) (missed : MissedAgent) : bool :=
  match mi_NoAnswers missed with
  | Some n => bool_decide (n >= tm_MaxNoAnswer (te_data tm))
  | None => false
  end.

(** An agent that misses an attempt is sent to the break exactly when the number of its
    missed attempts reached the limit of the team and the store took the new status; no
    other agent changes. *)
Theorem missed_agent_breaks (tm : agentTeam) (missed : MissedAgent) (l agent : loc)
    (err : option string) (ag : Agent) (w w' : W) (u : unit) :
  w_agents w !! agent = Some ag -> Team_MissedAgent tm missed l agent err w = Ret (u, w') ->
  w_agents w' =
    match too_many tm missed,
          svc_error (AgentSetStatus (ag_Id ag) AgentStatusBreakOut None None :: w_trace w) with
    | true, None => <[agent := ag <| ag_status := (MkAgentStatus AgentStatusBreakOut None
                                 (as_StatusComment (ag_status ag)) None) |>]> (w_agents w)
    | _, _ => w_agents w
    end.
Proof.
  intros Hag H. unfold Team_MissedAgent in H.
  apply bind_ret in H as ([] & w1 & E1 & H). apply bind_ret in H as ([] & w2 & E2%keeps_SetState & H).
  apply bind_ret in H as (a & w3 & E3%keeps_get_attempt & H).
  apply bind_ret in H as (ag' & w4 & E4%keeps_get_agent & H%keeps_publish).
  rewrite H, E4, E3, E2. clear H E4 E3 E2.
  unfold too_many. destruct (mi_NoAnswers missed) as [n|]; [|by apply ret_ret in E1 as [_ ->]].
  destruct (decide (n >= tm_MaxNoAnswer (te_data tm))) as [Hn|Hn].
  2: { rewrite bool_decide_eq_false_2 by done. by apply ret_ret in E1 as [_ ->]. }
  rewrite bool_decide_eq_true_2 by done.
  unfold SetAgentMaxNoAnswer, SetAgentBreakOut, SetBreakOut in E1.
  apply bind_ret in E1 as (e & w5 & E5 & [_ ->]%ret_ret). unfold then_ in E5.
  apply bind_ret in E5 as (e' & w6 & E6 & E5).
  destruct (change_status_eq agent (MkAgentStatus AgentStatusBreakOut None None None) w ag Hag)
    as (e2 & w7 & E7 & Hs). rewrite E6 in E7. simplify_eq. simpl in Hs.
  assert (w_agents w5 = w_agents w7) as ->.
  { destruct e2; [by apply ret_ret in E5 as [_ ->]|].
    apply bind_ret in E5 as (? & w8 & E8%keeps_get_agent & E5).
    apply bind_ret in E5 as (? & w9 & E9%keeps_AgentTeamHook & [_ ->]%ret_ret). congruence. }
  destruct (svc_error _); naive_solver.
Qed.

(** The pause of an agent. It is refused, with nothing but the questions asked of the
    store, when the agent does not exist, is on the same pause already, or may not pause
    now. A pause that is granted was allowed by the store, and the agent's object then has
    the status and the reason asked for. *)
Theorem pause_guarded (agentId : Z) (payload comment : option string) (w : W) :
  let t1 := AgentStoreGet agentId :: w_trace w in
  let op := SetAgentPause agentId payload comment w in
  match svc_agent t1 with
  | inl e => op = Ret (Some e, w <| w_trace := t1 |>)
  | inr ag =>
      let t2 := AgentCheckAllowPause (ag_DomainId ag) agentId :: t1 in
      if decide (as_Status (ag_status ag) = AgentStatusPause /\
                 getString (as_StatusPayload (ag_status ag)) = getString payload)
      then exists e, op = Ret (Some e, w <| w_trace := t1 |>) /\ err_StatusCode e = 400
      else match svc_allowed t2 with
           | inl e => op = Ret (Some e, w <| w_trace := t2 |>)
           | inr false => exists e, op = Ret (Some e, w <| w_trace := t2 |>) /\ err_StatusCode e = 400
           | inr true => forall w', op = Ret (None, w') ->
               exists l ag', w_agents w' !! l = Some ag' /\
                 as_Status (ag_status ag') = AgentStatusPause /\
                 as_StatusPayload (ag_status ag') = payload
           end
  end.
Proof.
  intros t1 op. unfold op, SetAgentPause, mbind, M_bind, call. simpl. subst t1.
  destruct (svc_agent _) as [e|ag]; [done|]. simpl. case_decide as Hd; [by eexists|]. clear Hd.
  destruct (svc_allowed _) as [e|[]]; simpl; [done| |by eexists].
  intros w' H.
  apply (bind_ret (drop_no_answer agentId [])) in H as ([] & w1 & _ & H).
  apply (bind_ret (GetAgent agentId (ag_UpdatedAt ag))) in H as ([e|l] & w2 & E2 & H);
    [by apply ret_ret in H as [? _]|].
  unfold SetPause, then_ in H. apply bind_ret in H as (e & w3 & E3 & H).
  destruct e; [by apply ret_ret in H as [? _]|].
  apply bind_ret in H as ([] & w4 & E4%keeps_AgentTeamHook & [_ ->]%ret_ret).
  assert (is_Some (w_agents w2 !! l)) as [ag2 Hag].
  { unfold change_status in E3. apply bind_ret in E3 as (ag2 & ? & E5 & _). unfold get_agent in E5.
    destruct (w_agents w2 !! l); [by eexists|done]. }
  destruct (change_status_eq l (MkAgentStatus AgentStatusPause payload comment None) w2 ag2 Hag)
    as (e2 & w5 & E5 & Hs). rewrite E3 in E5. simplify_eq.
  exists l, (StoreStatus (MkAgentStatus AgentStatusPause payload comment None) ag2).
  destruct (svc_error _); [naive_solver|]. by rewrite E4, Hs, lookup_insert_eq.
Qed.

End TeamFacts.
