(* ===== verification/JobFacts.v ===== *)
(** * The theorems about watchers, pools and periodic jobs *)

From S2P Require Import Prelude Model Workers Jobs.

(** C37. A watcher, over every interleaving of its goroutine with the callers of Start and
    Stop: neither [stop] nor [stopped] is ever closed twice, so no step panics; once a Stop
    has returned, PollAndNotify is never called again; a Stop that was called can return as
    soon as the running poll does, without a further poll, if the watcher is started; and no
    Stop returns before the watcher was started. *)
Theorem watcher_stops (sts : list Watcher.Step) :
  (forall why, Watcher.watcher_run Watcher.MakeWatcher sts <> Panic why) /\
  forall w, Watcher.watcher_run Watcher.MakeWatcher sts = Ret w ->
  ((0 < Watcher.wt_stops w)%nat -> forall sts' w', Watcher.watcher_run w sts' = Ret w' ->
     Watcher.wt_polls w' = Watcher.wt_polls w) /\
  (Watcher.wt_close w <> Watcher.OFresh ->
     exists w', Watcher.watcher_run w (Watcher.finish w) = Ret w' /\
       Watcher.wt_stops w' = S (Watcher.wt_stops w) /\ Watcher.wt_polls w' = Watcher.wt_polls w) /\
  (Watcher.wt_loop w = Watcher.LNew -> Watcher.wt_stops w = 0%nat).
Proof.
  split; [intros why; apply Watcher.watcher_run_safe, Watcher.ok_new|]. intros w.
  intros Hr. pose proof (Watcher.watcher_run_ok _ _ _ Watcher.ok_new Hr) as [H1 H2 H3 H4].
  split_and!.
  - intros Hs sts' w' Hr'. eapply Watcher.done_runs; eauto.
  - intros Hc. clear Hr. destruct w as [stop stopped loop once polls stops]. simpl in *.
    assert (stop = true) as -> by tauto. unfold Watcher.finish. simpl.
    destruct loop; [..|assert (stopped = true) as -> by tauto; destruct once; [done|by eexists..]];
      (assert (once = Watcher.ORunning) as -> by (destruct once; [done..|by specialize (H3 eq_refl)]);
       assert (stopped = false) as -> by (destruct stopped; [by assert (false = true) by naive_solver|done]);
       by eexists).
  - intros Hl. destruct (Watcher.wt_stops w); [done|]. rewrite H3 in Hl; [done|]. apply H4. lia.
Qed.

(** ** Pools *)

Section Pools.
Context {J : Type}.
Implicit Types p : Pool.Pool (J := J).

(** A worker only leaves for a kill, or on a closed and empty channel. *)
Definition leaves_last p : Prop :=
  (Pool.pl_closed p = true /\ Pool.pl_jobs p = []) \/
  Pool.pl_wg p = Z.of_nat (Pool.pl_size p + Pool.pl_kills p).

Lemma leaves_last_resize n p : leaves_last p -> leaves_last (Pool.Resize n p).
Proof. unfold leaves_last, Pool.Resize. intros [H|H]; case_decide; simpl; [by left..|right; lia|right; lia]. Qed.

Lemma leaves_last_step p st p' : leaves_last p -> Pool.pool_step p st = Some p' -> leaves_last p'.
Proof.
  intros Hl. destruct st as [j| |n| |i| |]; simpl.
  - unfold Pool.Exec. destruct Hl as [[-> _]|Hl]; [done|]. destruct (Pool.pl_closed p); [done|].
    case_decide; [intros [= <-]; by right|].
    destruct (Pool.pl_idle p), (Pool.pl_jobs p); try done. intros [= <-]. by right.
  - unfold Pool.Close. destruct (Pool.pl_closed p) eqn:E; [done|]. intros [= <-].
    destruct Hl as [[? _]|Hl]; [congruence|]. by right.
  - intros [= <-]. by apply leaves_last_resize.
  - unfold Pool.worker_take. destruct (Pool.pl_idle p); [done|]. destruct (Pool.pl_jobs p) eqn:E; [done|].
    intros [= <-]. destruct Hl as [[_ ?]|Hl]; [congruence|]. by right.
  - unfold Pool.worker_done. destruct (Pool.pl_running p !! i); [|done]. by intros [= <-].
  - unfold Pool.worker_ends. destruct (Pool.pl_idle p); [done|]. destruct (Pool.pl_jobs p) eqn:E; [|done].
    destruct (Pool.pl_closed p) eqn:Ec; [|done]. intros [= <-]. left. simpl. by rewrite E.
  - unfold Pool.worker_killed. destruct (Pool.pl_idle p); [done|]. destruct (Pool.pl_kills p) eqn:E; [done|].
    intros [= <-]. unfold leaves_last in *. rewrite E in Hl. destruct Hl as [?|Hl]; [by left|right]. simpl. lia.
Qed.

Lemma leaves_last_run p sts p' : leaves_last p -> Pool.pool_run p sts = Some p' -> leaves_last p'.
Proof.
  revert p. induction sts as [|st sts IH]; intros p Hp; simpl; [by intros [= <-]|].
  destruct (Pool.pool_step p st) as [p1|] eqn:E; [|done]. simpl. apply IH. by eapply leaves_last_step.
Qed.

End Pools.

(** C36. A pool of workers, over every interleaving of its workers with its callers, who may
    resize it: the jobs start in the order in which Exec took them, each job that started is
    running or done, and only once, and at most the size of the queue wait; the wait group
    counts the workers that live. While the pool has not been shrunk to no workers, a job that
    waits is never stuck (a worker can take it, or a running job can return), and a Wait
    returns only after Close, when every job was executed exactly once. *)
Theorem pool_runs_once {J} (workers queue : nat) (sts : list (Pool.Step (J := J))) (p : Pool.Pool) :
  Pool.pool_run (Pool.NewPool workers queue) sts = Some p ->
  Pool.executed sts = Pool.pl_taken p ++ Pool.pl_jobs p /\
  Pool.pl_done p ++ Pool.pl_running p ≡ₚ Pool.pl_taken p /\
  (length (Pool.pl_jobs p) <= Pool.pl_cap p)%nat /\
  Pool.pl_wg p = Z.of_nat (Pool.pl_idle p + length (Pool.pl_running p)) /\
  ((0 < Pool.pl_size p)%nat ->
   (Pool.pl_jobs p <> [] ->
      is_Some (Pool.pool_step p Pool.Take) \/ is_Some (Pool.pool_step p (Pool.Done 0))) /\
   (Pool.pl_wg p = 0 -> Pool.pl_closed p = true /\ Pool.pl_done p ≡ₚ Pool.executed sts)).
Proof.
  intros Hr. destruct (Pool.pool_run_ok _ _ _ _ (Pool.NewPool_ok workers queue) Hr) as [H1 H2 H3 H4].
  simpl in H1. split_and!; [done..|]. intros Hw.
  assert (leaves_last p) as Hl by (eapply leaves_last_run, Hr; apply leaves_last_resize; by right). split.
  - intros Hj. destruct Hl as [[_ ?]|Hl]; [done|]. simpl. unfold Pool.worker_take, Pool.worker_done.
    destruct (Pool.pl_idle p); [right|left; destruct (Pool.pl_jobs p); [done|by eexists]].
    destruct (Pool.pl_running p); [simpl in *; lia|by eexists].
  - intros H0. destruct Hl as [[Hc Hj]|Hl]; [|lia]. split; [done|].
    rewrite H1, Hj, app_nil_r, <- H2. assert (Pool.pl_running p = []) as -> by (apply length_zero_iff_nil; lia).
    by rewrite app_nil_r.
Qed.

(** ** Expired members *)

Section ExpiredFacts.
Context {JS : JobServer} (t : list JobCmd).

(** The trace after [k] rounds, and what the store answers in round [k]. *)
Definition after_rounds (k : nat) : list JobCmd := t ++ replicate k (SetExpired Expired.ExpiredLimit).

Definition batch (k : nat) : list ExpiredMember :=
  match js_hooks (after_rounds (S k)) with inr l => l | inl _ => [] end.

Definition full_batch (k : nat) : Prop := Expired.ExpiredLimit <= Z.of_nat (length (batch k)).

Lemma after_rounds_S k : after_rounds k ++ [SetExpired Expired.ExpiredLimit] = after_rounds (S k).
Proof. unfold after_rounds. rewrite <- app_assoc. f_equal. by rewrite <- replicate_S_end. Qed.

Lemma round_spec k : Expired.round (after_rounds k) =
  ((batch k, bool_decide (full_batch k)), after_rounds (S k)).
Proof.
  unfold Expired.round, mbind, JM_bind, send. rewrite after_rounds_S. unfold batch, full_batch, batch.
  destruct (js_hooks (after_rounds (S k))); simpl; [done|]. f_equal. f_equal. apply bool_decide_ext. lia.
Qed.

Lemma job_S fuel k :
  Expired.job (S fuel) (after_rounds k) =
  if bool_decide (full_batch k)
  then let '(rest, t') := Expired.job fuel (after_rounds (S k)) in (app (batch k) <$> rest, t')
  else (Some (batch k), after_rounds (S k)).
Proof.
  cbn [Expired.job]. unfold mbind at 1, JM_bind at 1. rewrite round_spec. cbn [fst snd].
  by destruct (bool_decide (full_batch k)).
Qed.

Lemma job_ends n k extra : (forall i, (k <= i < k + n)%nat -> full_batch i) -> ~ full_batch (k + n) ->
  Expired.job (S n + extra) (after_rounds k) =
  (Some (concat (batch <$> seq k (S n))), after_rounds (k + S n)).
Proof.
  revert k. induction n as [|n IH]; intros k Hf Hn; cbn [Nat.add]; rewrite job_S.
  - rewrite Nat.add_0_r in Hn. rewrite bool_decide_eq_false_2 by done. simpl. rewrite app_nil_r.
    by replace (k + 1)%nat with (S k) by lia.
  - rewrite bool_decide_eq_true_2 by (apply Hf; lia). change (S (n + extra)) with (S n + extra)%nat.
    rewrite IH; [|intros i Hi; apply Hf; lia|by replace (S k + n)%nat with (k + S n)%nat by lia].
    replace (k + S (S n))%nat with (S k + S n)%nat by lia. done.
Qed.

Lemma job_goes_on fuel k : (forall i, full_batch i) -> (Expired.job fuel (after_rounds k)).1 = None.
Proof.
  intros Hf. revert k. induction fuel as [|fuel IH]; intros k; [done|]. rewrite job_S.
  rewrite bool_decide_eq_true_2 by apply Hf. specialize (IH (S k)).
  destruct (Expired.job fuel (after_rounds (S k))) as [o t'] eqn:E. simpl in *. by subst.
Qed.

End ExpiredFacts.

(** The job of the expired members ends with the first batch of the store that is not
    full, or with its first error, and hands every member of all batches to the pool, in
    order; while the store returns full batches it goes on for ever. *)
Theorem expired_job_ends `{JobServer} (t : list JobCmd) (n extra : nat) :
  (forall k, (k < n)%nat -> full_batch t k) ->
  (~ full_batch t n ->
     Expired.job (S n + extra) t = (Some (concat (batch t <$> seq 0 (S n))), after_rounds t (S n))) /\
  ((forall k, full_batch t k) -> forall fuel, (Expired.job fuel t).1 = None).
Proof.
  intros Hf. assert (t = after_rounds t 0) as E by (unfold after_rounds; by rewrite app_nil_r).
  split.
  - intros Hn. rewrite E at 1. apply (job_ends t n 0); [|done]. intros i Hi. apply Hf. lia.
  - intros Hall fuel. rewrite E. by apply job_goes_on.
Qed.

(** ** Triggers *)

Section TriggerFacts.
Context {JS : JobServer}.

(** The jobs for which the store got a result or an error. *)
Definition settled (t : list JobCmd) : list Z :=
  omap (fun c => match c with SetError j _ | SetResult j => Some (tj_Id j) | _ => None end) t.

Definition flows (t : list JobCmd) : list Z :=
  omap (fun c => match c with StartSyncFlow s _ _ _ => Some s | _ => None end) t.

Record trigger_ok (m : Trigger.Manager) : Prop := {
  to_queue : Trigger.tg_fetched m = Trigger.tg_taken m ++ Trigger.tg_jobs m ++ Trigger.tg_sending m;
  to_taken : Trigger.tg_ran m ++ Trigger.tg_started m ≡ₚ Trigger.tg_taken m;
  to_room : (length (Trigger.tg_jobs m) <= Trigger.QueueSize)%nat;
  to_settled : settled (Trigger.tg_trace m) = tj_Id <$> Trigger.tg_ran m;
  to_flows : flows (Trigger.tg_trace m) = (fun j => tp_SchemaId (tj_Parameters j)) <$> Trigger.tg_ran m;
}.

Lemma settled_app t t' : settled (t ++ t') = settled t ++ settled t'.
Proof. apply omap_app. Qed.

Lemma flows_app t t' : flows (t ++ t') = flows t ++ flows t'.
Proof. apply omap_app. Qed.

Lemma send_or_pause_other c n t : settled [c] = [] -> flows [c] = [] ->
  settled (send_or_pause c n t).2 = settled t /\ flows (send_or_pause c n t).2 = flows t.
Proof.
  intros H1 H2. unfold send_or_pause, mbind, JM_bind, send. destruct (js_err _); simpl;
    rewrite ?settled_app, ?flows_app, H1, H2, ?app_nil_r; done.
Qed.

Lemma fetch_other node t : settled (Trigger.fetch node t).2 = settled t /\ flows (Trigger.fetch node t).2 = flows t.
Proof.
  unfold Trigger.fetch, mbind, JM_bind.
  destruct (send_or_pause_other ScheduleNewJobs 5 t) as [H1 H2]; [done..|].
  destruct (send_or_pause ScheduleNewJobs 5 t) as [[] t1]. simpl in H1, H2.
  unfold send_, send. destruct (js_jobs _); simpl; rewrite ?settled_app, ?flows_app, H1, H2; simpl;
    by rewrite ?app_nil_r.
Qed.

Lemma runJob_settles j t :
  settled (Trigger.runJob j t).2 = settled t ++ [tj_Id j] /\
  flows (Trigger.runJob j t).2 = flows t ++ [tp_SchemaId (tj_Parameters j)].
Proof.
  unfold Trigger.runJob, mbind, JM_bind, send. destruct (js_flow _) as [res [e|]]; simpl;
    rewrite !settled_app, !flows_app; simpl; by rewrite !app_nil_r.
Qed.

Lemma trigger_ok_step m st m' : trigger_ok m -> Trigger.trigger_step m st = Some m' -> trigger_ok m'.
Proof.
  intros [H1 H2 H3 H4 H5]. destruct st as [| | |i| |]; cbn [Trigger.trigger_step].
  - destruct (Trigger.tg_sending m) as [|? ?] eqn:Es; [|done].
    destruct (fetch_other (Trigger.tg_nodeId m) (Trigger.tg_trace m)) as [F1 F2].
    destruct (Trigger.fetch _ _) as [jobs t]. intros [= <-]. simpl in *.
    constructor; simpl; [|done|done|congruence|congruence]. by rewrite H1, app_nil_r, <- app_assoc.
  - destruct (Trigger.tg_sending m) as [|j rest] eqn:Es; [done|]. case_decide; [|done]. intros [= <-].
    constructor; simpl; try done; [by rewrite H1, <- app_assoc|]. rewrite length_app. simpl. lia.
  - destruct (Trigger.tg_jobs m) as [|j rest] eqn:Ej; [done|]. destruct (Trigger.tg_stopped m); [done|].
    intros [= <-]. simpl in H3. constructor; simpl; try done; [by rewrite H1, <- app_assoc|by rewrite app_assoc, H2|lia].
  - destruct (Trigger.tg_started m !! i) as [j|] eqn:Ej; [|done]. intros [= <-].
    destruct (runJob_settles j (Trigger.tg_trace m)) as [R1 R2].
    constructor; simpl; [done| |done|rewrite R1, H4, fmap_app; done|rewrite R2, H5, fmap_app; done].
    rewrite <- app_assoc. simpl. by rewrite <- (delete_Permutation _ _ _ Ej).
  - intros [= <-]. by constructor.
  - case_decide; [|done]. intros [= <-]. by constructor.
Qed.

Lemma trigger_ok_run m sts m' : trigger_ok m -> Trigger.trigger_run m sts = Some m' -> trigger_ok m'.
Proof.
  revert m. induction sts as [|st sts IH]; intros m Hm; simpl; [by intros [= <-]|].
  destruct (Trigger.trigger_step m st) as [m1|] eqn:E; [|done]. apply IH. by eapply trigger_ok_step.
Qed.

Lemma trigger_ok_new node : trigger_ok (Trigger.NewManager node).
Proof.
  destruct (send_or_pause_other (CleanActive node) 5 []) as [H1 H2]; [done..|].
  constructor; simpl; unfold Trigger.clean; rewrite ?H1, ?H2; try done. lia.
Qed.

(** The listener that stopped takes no job. *)
Lemma stopped_takes_none m sts m' : Trigger.tg_stopped m = true -> Trigger.trigger_run m sts = Some m' ->
  Trigger.tg_taken m' = Trigger.tg_taken m.
Proof.
  revert m. induction sts as [|st sts IH]; intros m Hm; simpl; [by intros [= <-]|].
  destruct (Trigger.trigger_step m st) as [m1|] eqn:E; [|done]. simpl. intros Hr.
  assert (Trigger.tg_stopped m1 = true /\ Trigger.tg_taken m1 = Trigger.tg_taken m) as [Hs <-]; [|by apply IH].
  destruct st; cbn [Trigger.trigger_step] in E.
  - destruct (Trigger.tg_sending m); [|done]. destruct (Trigger.fetch _ _). by simplify_eq/=.
  - destruct (Trigger.tg_sending m); [done|]. case_decide; [|done]. by simplify_eq/=.
  - destruct (Trigger.tg_jobs m); [done|]. by rewrite Hm in E.
  - destruct (Trigger.tg_started m !! i); [|done]. by simplify_eq/=.
  - by simplify_eq/=.
  - case_decide; [|done]. by simplify_eq/=.
Qed.

End TriggerFacts.

(** C35. The jobs of the triggers, over every interleaving of the watcher, the listener, the
    jobs and Stop: every job the store handed out is taken once by the listener or still on
    its way to it, in order; each job that was taken runs at most once, starts one flow, and
    the store gets exactly one result or error for it, in the order the jobs ran; at most
    1000 jobs wait; and after the listener stopped no job is taken. *)
Theorem trigger_jobs_run_once `{JobServer} (node : string) (sts sts' : list Trigger.Step) (m m' : Trigger.Manager) :
  Trigger.trigger_run (Trigger.NewManager node) sts = Some m -> Trigger.trigger_run m sts' = Some m' ->
  Trigger.tg_fetched m = Trigger.tg_taken m ++ Trigger.tg_jobs m ++ Trigger.tg_sending m /\
  Trigger.tg_ran m ++ Trigger.tg_started m ≡ₚ Trigger.tg_taken m /\
  (length (Trigger.tg_jobs m) <= Trigger.QueueSize)%nat /\
  settled (Trigger.tg_trace m) = tj_Id <$> Trigger.tg_ran m /\
  flows (Trigger.tg_trace m) = (fun j => tp_SchemaId (tj_Parameters j)) <$> Trigger.tg_ran m /\
  (Trigger.tg_stopped m = true -> Trigger.tg_taken m' = Trigger.tg_taken m).
Proof.
  intros Hr Hr'. destruct (trigger_ok_run _ _ _ (trigger_ok_new node) Hr) as [H1 H2 H3 H4 H5].
  split_and!; [done..|]. intros Hs. by eapply stopped_takes_none.
Qed.

(** ** Stopping the dialing *)

Section DialingFacts.
Import Dialing.

(** What the history tells about the channels; [PRunning] is before any Stop. *)
Record dialing_ok (d : Dialing) (sts : list Step) : Prop := {
  do_watcher : Watcher.ok (di_watcher d);
  do_input : di_input d = true -> di_stop d = true;
  do_stop : di_stop d = true -> Waited ∈ sts;
  do_sending : (0 < di_sending d)%nat -> exists n, Tick (S n) ∈ sts;
}.

Lemma on_watcher_same d sts st d' : on_watcher d st = Ret d' -> dialing_ok d sts ->
  Watcher.ok (di_watcher d') /\
  di_input d' = di_input d /\ di_stop d' = di_stop d /\ di_sending d' = di_sending d.
Proof.
  unfold on_watcher. destruct (Watcher.watcher_step _ _) eqn:E; [|done..]. intros [= <-] Hd.
  split; [by eapply Watcher.watcher_step_ok, E; destruct Hd|done].
Qed.

Lemma dialing_ok_more d sts st : dialing_ok d sts -> dialing_ok d (sts ++ [st]).
Proof.
  intros [H0 H1 H2 H3]. constructor; [done|done|intros; apply elem_of_app; auto|].
  intros H. destruct (H3 H) as [n Hn]. exists n. apply elem_of_app. auto.
Qed.

Lemma dialing_ok_same d d' sts : dialing_ok d sts -> Watcher.ok (di_watcher d') ->
  di_input d' = di_input d -> di_stop d' = di_stop d ->
  (di_sending d' <= di_sending d)%nat -> dialing_ok d' sts.
Proof. intros [H0 H1 H2 H3] Hw E1 E2 E3. constructor; rewrite ?E1, ?E2; try done. intros. apply H3. lia. Qed.

Lemma elem_of_snoc {A} (x : A) l : x ∈ l ++ [x].
Proof. apply elem_of_app. right. by left. Qed.

Lemma dialing_ok_step d sts st d' : dialing_ok d sts -> dialing_step d st = Ret d' -> dialing_ok d' (sts ++ [st]).
Proof.
  intros Hd. pose proof (dialing_ok_more d sts st Hd) as Hd1. pose proof (do_watcher _ _ Hd) as H0.
  pose proof (do_input _ _ Hd) as H1. pose proof (do_stop _ _ Hd1) as H2. pose proof (do_sending _ _ Hd1) as H3.
  destruct st; cbn [dialing_step].
  - destruct (on_watcher d Watcher.Tick) as [d1| |] eqn:E; try done. intros [= <-].
    apply (on_watcher_same _ sts) in E as (E0 & E1 & E2 & _); [|done].
    constructor; simpl; rewrite ?E1, ?E2; try done.
    destruct n as [|n]; [lia|]. intros _. exists n. apply elem_of_snoc.
  - destruct (di_sending d) as [|k] eqn:Ek; [done|]. destruct (di_input d) eqn:Ei; [done|]. case_decide; [|done].
    intros [= <-]. eapply dialing_ok_same; [exact Hd1|done|by rewrite Ei|done|simpl; lia].
  - case_decide; [|done]. intros E. apply (on_watcher_same _ sts) in E as (E0 & E1 & E2 & E3); [|done].
    eapply dialing_ok_same; [exact Hd1|done..|lia].
  - case_decide; [|done]. intros [= <-]. by eapply dialing_ok_same.
  - case_decide as E; [|done]. intros [= <-]. constructor; simpl; naive_solver.
  - case_decide; [|done]. intros [= <-]. by eapply dialing_ok_same.
  - case_decide; [|done]. intros [= <-]. constructor; simpl; try done. intros _. apply elem_of_snoc.
  - case_decide; [|done]. destruct (on_watcher d _) as [d1| |] eqn:E; try done. intros [= <-].
    apply (on_watcher_same _ sts) in E as (E0 & E1 & E2 & E3); [|done].
    eapply dialing_ok_same; [exact Hd1|done..|simpl; lia].
  - intros E. apply (on_watcher_same _ sts) in E as (E0 & E1 & E2 & E3); [|done].
    eapply dialing_ok_same; [exact Hd1|done..|lia].
  - case_decide; [|done]. destruct (on_watcher d _) as [d1| |] eqn:E; try done. intros [= <-].
    apply (on_watcher_same _ sts) in E as (E0 & E1 & E2 & E3); [|done].
    eapply dialing_ok_same; [exact Hd1|done..|simpl; lia].
Qed.

(** The step that panics is a send. *)
Lemma step_panics d st why : Watcher.ok (di_watcher d) -> dialing_step d st = Panic why ->
  st = Send /\ why = "send on closed channel" /\ di_input d = true /\ (0 < di_sending d)%nat.
Proof.
  intros Hok. assert (forall s, on_watcher d s <> Panic why) as Hw.
  { intros s. unfold on_watcher. pose proof (Watcher.watcher_step_safe _ s why Hok).
    destruct (Watcher.watcher_step _ _); simpl; congruence. }
  assert (forall s (f : Dialing -> outcome Dialing), (forall d', exists d'', f d' = Ret d'') ->
    (on_watcher d s ≫= f) <> Panic why) as Hf.
  { intros s f Hd. specialize (Hw s). destruct (on_watcher d s) as [d'| |]; simpl; [|congruence|done].
    by destruct (Hd d') as [d'' ->]. }
  destruct st; cbn [dialing_step].
  2: { destruct (di_sending d); [done|]. destruct (di_input d); [|by case_decide]. intros [= <-]. by split_and!; [..|lia]. }
  all: try (case_decide; [|done]); try done; intros HP.
  all: try destruct (Hw _ HP).
  all: destruct (Hf _ _ (fun d' => ex_intro _ _ eq_refl) HP).
Qed.

Lemma run_panics d pre sts why : dialing_ok d pre -> dialing_run d sts = Panic why ->
  why = "send on closed channel" /\ Waited ∈ pre ++ sts /\ exists n, Tick (S n) ∈ pre ++ sts.
Proof.
  revert d pre. induction sts as [|st sts IH]; intros d pre Hd; [done|]. simpl.
  destruct (dialing_step d st) as [d1|w|w] eqn:E; simpl; [|intros [= ->]|done].
  - intros Hr. specialize (IH d1 (pre ++ [st]) (dialing_ok_step _ _ _ _ Hd E) Hr).
    by rewrite <- app_assoc in IH.
  - apply step_panics in E as (-> & -> & Ei & Es); [|by destruct Hd]. destruct Hd as [_ H1 H2 H3]. split; [done|].
    split; [apply elem_of_app; left; auto|]. destruct (H3 Es) as [n Hn]. exists n. apply elem_of_app. by left.
Qed.

End DialingFacts.

(** Stop of the dialing can panic the process: it stops the queue manager, which closes
    its input channel, before it stops the watcher, whose next round sends an attempt on the
    closed channel. It does so only then: the dialing panics in no history without a Stop
    that reached the manager and a round with an attempt. *)
Theorem dialing_stop_panics :
  Dialing.dialing_run Dialing.started
    [Dialing.CallStop; Dialing.Waited; Dialing.LoopStops; Dialing.Tick 1; Dialing.Send]
  = Panic "send on closed channel" /\
  forall sts why, Dialing.dialing_run Dialing.started sts = Panic why ->
    why = "send on closed channel" /\ Dialing.Waited ∈ sts /\ exists n, Dialing.Tick (S n) ∈ sts.
Proof.
  split; [done|]. intros sts why. apply (run_panics Dialing.started []).
  constructor; simpl; try done; [|lia]. constructor; simpl; try done; lia.
Qed.

(** ** Witnesses *)

Lemma watcher_stops_witness :
  exists w, Watcher.watcher_run Watcher.MakeWatcher [Watcher.Start; Watcher.Tick; Watcher.CallStop] = Ret w /\
    exists w', Watcher.watcher_run w (Watcher.finish w) = Ret w' /\ Watcher.wt_stops w' = 1%nat /\ Watcher.wt_polls w' = 1%nat.
Proof.
  eexists. split; [reflexivity|].
  destruct (watcher_stops [Watcher.Start; Watcher.Tick; Watcher.CallStop]) as [_ Hr].
  destruct (Hr _ eq_refl) as (_ & H & _). apply H; discriminate.
Defined.

(** A second Stop finds closeOnce taken, and waits: it does not close again. *)
Example second_stop_waits :
  Watcher.watcher_run Watcher.MakeWatcher [Watcher.Start; Watcher.CallStop; Watcher.CallStop] = Block "closeOnce".
Proof. reflexivity. Qed.

(** A pool that is resized while it works, and one without a buffer. *)
Definition demo_steps : list (Pool.Step (J := Z)) :=
  [Pool.DoExec 1; Pool.DoExec 2; Pool.Take; Pool.Take; Pool.DoResize 1; Pool.Done 1; Pool.Killed;
   Pool.DoExec 3; Pool.DoClose; Pool.Done 0; Pool.Take; Pool.Done 0; Pool.Ends].

Definition demo_pool : Pool.Pool (J := Z) := Pool.MkPool [] 3 true 1 0 [] 0 0 [1; 2; 3] [2; 1; 3].

Lemma pool_runs_once_witness :
  Pool.pool_run (Pool.NewPool 2 3) demo_steps = Some demo_pool /\ Pool.pl_done demo_pool ≡ₚ [1; 2; 3].
Proof.
  assert (Pool.pool_run (Pool.NewPool 2 3) demo_steps = Some demo_pool) as E by (vm_compute; reflexivity).
  split; [exact E|]. destruct (pool_runs_once 2 3 demo_steps demo_pool E) as (_ & _ & _ & _ & H).
  apply H; [simpl; lia|reflexivity].
Defined.

Example unbuffered_pool :
  Pool.pl_running <$> Pool.pool_run (Pool.NewPool 1 0) [Pool.DoExec 7] = Some [7] /\
  Pool.pool_run (Pool.NewPool 1 0) [Pool.DoExec 7; Pool.DoExec 8] = None.
Proof. by split. Qed.

(** Shrunk to no workers, a pool leaves a job behind: Wait returns, and it never ran. *)
Example emptied_pool :
  exists p, Pool.pool_run (Pool.NewPool 1 2) [Pool.DoExec 7; Pool.DoResize 0; Pool.Killed] = Some p /\
    Pool.pl_wg p = 0 /\ Pool.pl_jobs p = [7] /\ Pool.pl_done p = [].
Proof. by eexists. Qed.

Definition demo_member : ExpiredMember := MkExpiredMember None 7 1 100.

Definition demo_job : TriggerJob := MkTriggerJob 5 1 2 (MkTriggerJobParameter 7 None 60) None.

#[local] Instance demo_jobs : JobServer := {|
  js_err _ := None; js_hooks _ := inr [demo_member]; js_jobs _ := inr [demo_job]; js_flow _ := ("job", None);
  js_waiting _ := inr []; js_ready _ := true; js_info _ := inr true |}.

Lemma expired_job_ends_witness : Expired.job 3 [] = (Some [demo_member], [SetExpired 500]).
Proof.
  destruct (expired_job_ends [] 0 2) as [H _]; [intros k Hk; lia|]. apply H. vm_compute. intros E. by apply E.
Defined.

Definition demo_triggered : option Trigger.Manager :=
  Eval vm_compute in
    Trigger.trigger_run (Trigger.NewManager "node") [Trigger.Schedule; Trigger.Send; Trigger.Listen; Trigger.Run 0].

Lemma trigger_jobs_run_once_witness :
  exists m, demo_triggered = Some m /\ settled (Trigger.tg_trace m) = [5].
Proof.
  destruct demo_triggered as [m|] eqn:E; [|discriminate]. exists m. split; [reflexivity|].
  assert (Trigger.trigger_run (Trigger.NewManager "node") [Trigger.Schedule; Trigger.Send; Trigger.Listen; Trigger.Run 0]
          = Some m) as Hr by (rewrite <- E; vm_compute; reflexivity).
  destruct (trigger_jobs_run_once "node" _ [] m m Hr eq_refl) as (_ & _ & _ & H & _).
  rewrite H. injection E as <-. reflexivity.
Defined.
