(* ===== verification/Witnesses.v ===== *)
(** * The theorems on a concrete manager

    A manager with the LRU cache and services with fixed answers, in which one attempt of an
    outbound task queue was created and distributed. Every theorem of the files Invariant,
    Lifecycle, LeaveRace, ManagerFacts and TeamFacts that has hypotheses is applied here. *)

From S2P Require Import Prelude Model Queue Attempt TaskChannel Resource World Agents.
From S2P Require Import Events Schema Manager Team Distribute Messages Dialing Frame Invariant.
From S2P Require Import MembersCache Lifecycle LeaveRace ManagerFacts TeamFacts.

#[local] Instance services : Services := demo_services (inr demo_settings).
#[local] Instance decoders : Decoders := demo_decoders.

Definition demo_member : MemberAttempt :=
  (zero_MemberAttempt 1) <| ma_QueueId := 5 |> <| ma_QueueUpdatedAt := 4 |>
    <| ma_MemberId := (Some 8) |> <| ma_Name := "member" |>.

(** The world after an operation that returns. *)
Definition after {A} (m : M LruCache A) (w : World LruCache) : World LruCache :=
  match m w with Ret (_, w') => w' | _ => w end.

Lemma after_minv {A} (m : M LruCache A) w : safe m -> minv w -> minv (after m w).
Proof.
  intros Hm Hw. unfold after. specialize (Hm w Hw). by destruct (m w) as [[? ?]| |].
Defined.

Definition created : World LruCache := after (CreateAttemptIfNotExists demo_member) NewQueueManager.
Definition distributed : World LruCache := after (DistributeAttempt 0) created.

Lemma created_minv : minv created.
Proof. apply after_minv; [apply safe_CreateAttemptIfNotExists|apply NewQueueManager_minv]. Defined.

Lemma distributed_minv : minv distributed.
Proof. apply after_minv; [apply safe_DistributeAttempt|apply created_minv]. Defined.

Definition attempt_of (w : World LruCache) : Attempt :=
  default (NewAttempt MemberDestinationFromBytes demo_member) (w_attempts w !! 0%nat).

Lemma distributed_attempts : w_attempts distributed = {[ 0%nat := attempt_of distributed ]}.
Proof. vm_compute. reflexivity. Defined.

Lemma distributed_lookup : w_attempts distributed !! 0%nat = Some (attempt_of distributed).
Proof. by rewrite distributed_attempts, lookup_singleton_eq. Defined.

Lemma distributed_queue : is_Some (at_queue (attempt_of distributed)).
Proof. vm_compute. by eexists. Defined.

Lemma distributed_cached : cached distributed !! 1 = Some 0%nat.
Proof. vm_compute. reflexivity. Defined.

Lemma distributed_ok : agent_ok distributed (attempt_of distributed).
Proof. vm_compute. exact I. Defined.

Lemma distributed_fit : fit distributed (attempt_of distributed).
Proof.
  split; [apply distributed_queue|apply distributed_ok|intros q ch _ H; vm_compute in H; discriminate|
    vm_compute; discriminate].
Defined.

Lemma distributed_only l : cached distributed !! 1 = Some l -> l = 0%nat.
Proof. intros H. rewrite distributed_cached in H. by injection H. Defined.

Lemma services_hang_up : reports_hang_up.
Proof. intros id cb mx wt per t res E. injection E as <-. by left. Defined.

(** The attempt as one of a manual distribution. *)
Definition manual_attempt : Attempt := (attempt_of distributed) <| at_manualDistribution := true |>.
Definition manual : World LruCache :=
  distributed <| w_attempts := (<[0%nat := manual_attempt]> (w_attempts distributed)) |>.

Lemma manual_minv : minv manual.
Proof.
  eapply frame_minv; [|apply distributed_minv].
  apply (frame_attempt distributed 0 (attempt_of distributed)); [apply distributed_lookup|].
  unfold manual_attempt. by destruct (attempt_of distributed).
Defined.

Lemma manual_lookup : w_attempts manual !! 0%nat = Some manual_attempt.
Proof. exact (lookup_insert_eq _ _ _). Defined.

Lemma manual_queue : at_queue manual_attempt = at_queue (attempt_of distributed).
Proof. unfold manual_attempt. by destruct (attempt_of distributed). Defined.

(** ** Invariant *)

Lemma leaving_once_witness :
  exists w1 a1 c, LeavingMember 0 manual = Ret (tt, w1) /\ cached w1 = ∅ /\ w_wg w1 = 0 /\
    LeavingMember 0 w1 = Ret (tt, w1 <| w_trace := (intercept_notice a1 ++ w_trace w1) |>
                                     <| w_membersCache := c |>) /\ oc_view c = ∅.
Proof.
  destruct distributed_queue as [q Hq].
  rewrite <- manual_queue in Hq.
  destruct (leaving_once manual 0 manual_attempt q manual_minv manual_lookup Hq)
    as (w1 & a1 & c & E1 & _ & _ & _ & Ec & Eg & _ & E2 & Ev & _); [vm_compute; exact I|].
  exists w1, a1, c. split; [exact E1|]. assert (cached w1 = ∅) as Ec' by (rewrite Ec; vm_compute; reflexivity).
  split; [exact Ec'|]. split; [rewrite Eg; vm_compute; reflexivity|]. split; [exact E2|congruence].
Defined.

(** It is announced as intercepted twice. *)
Example manual_announced_twice :
  length (List.filter (fun e => match e with NotificationIntercept _ _ _ 1 0 => true | _ => false end)
            (w_trace (after (_ ← LeavingMember 0; LeavingMember 0) manual))) = 2%nat.
Proof. vm_compute. reflexivity. Qed.

(** ** Lifecycle *)

Lemma distribute_outcome_witness :
  exists r, DistributeAttempt 0 created = Ret (r, distributed) /\
  match r with
  | inr (Some q) => frame created distributed /\
      exists t, w_trace distributed = EGo (JobRun (bq_id (qo_base q)) 0) :: t
  | _ => False
  end.
Proof.
  destruct (DistributeAttempt 0 created) as [[r w']| |] eqn:E; [|vm_compute in E; discriminate..].
  assert (distributed = w') as -> by (unfold distributed, after; rewrite E; reflexivity).
  exists r. split; [reflexivity|].
  pose proof (distribute_outcome created w' 0 (attempt_of created) r created_minv
                ltac:(vm_compute; reflexivity) E) as H.
  destruct r as [e|[q|]].
  - vm_compute in E. discriminate.
  - destruct H as (F & _ & t & Et). split; [exact F|]. by exists t.
  - vm_compute in E. discriminate.
Defined.

Lemma reporting_outcome_witness :
  exists err w', ReportingAttempt 1 (callback_of_status "success") true false distributed = Ret (err, w') /\
    exists w1, gone 1 w1 w'.
Proof.
  destruct (ReportingAttempt 1 (callback_of_status "success") true false distributed)
    as [[err w']| |] eqn:E; [|vm_compute in E; discriminate..].
  exists err, w'. split; [reflexivity|].
  destruct (reporting_outcome distributed w' 1 0 (callback_of_status "success") true err
              distributed_minv distributed_cached E) as [(_ & _ & H)|(w1 & cb & cfg & t & _ & _ & _ & G)].
  - vm_compute in H. discriminate.
  - exists w1. exact G.
Defined.

Lemma reporting_draft_witness :
  exists w', ReportingAttempt 1 (callback_of_status "") false true distributed = Ret (None, w') /\
    frame distributed w' /\
    w_attempts w' !! 0%nat = Some (UseDraft (callback_of_status "abandoned") (attempt_of distributed)).
Proof.
  pose proof (reporting_draft distributed 1 0 (attempt_of distributed) (callback_of_status "") false
                distributed_minv distributed_cached distributed_lookup) as H.
  destruct (ReportingAttempt 1 (callback_of_status "") false true distributed) as [[err w']| |] eqn:E;
    [|vm_compute in E; discriminate..].
  destruct H as (-> & F & Ea). exists w'. split; [reflexivity|]. split; [exact F|exact Ea].
Defined.

Lemma timeout_outcome_witness :
  exists w', TimeoutLeavingMember 0 distributed = Ret (tt, w') /\
    (gone 1 distributed w' \/ result_refused 1 distributed w').
Proof.
  destruct (timeout_outcome distributed 0 (attempt_of distributed) distributed_minv distributed_lookup
              distributed_ok) as (w' & E & H).
  destruct distributed_queue as [q Hq]. rewrite Hq in H.
  exists w'. split; [exact E|exact H].
Defined.

Lemma leaving_race_witness : races 0 ([Starting; Starting], distributed) (Panic wg_message).
Proof.
  destruct distributed_queue as [q Hq].
  apply (leaving_race distributed 0 0 (attempt_of distributed) q distributed_minv distributed_lookup Hq).
  - vm_compute. exact I.
  - apply distributed_cached.
  - vm_compute. reflexivity.
Defined.

(** ** ManagerFacts *)


Definition with_resource : World LruCache :=
  distributed <| w_resources := ({[ 7%nat := demo_resource ]}) |>.

Lemma resource_errors_witness :
  exists w', SetResourceError 7 "503" with_resource = Ret (tt, w') /\
    w_trace w' = ResourceSetError 1 1 "503" :: w_trace with_resource.
Proof.
  destruct (resource_errors 7 demo_resource "503" with_resource ltac:(vm_compute; reflexivity)
              ltac:(simpl; lia)) as (bad & w' & Eb & E & H).
  assert (bad = true) as -> by (vm_compute in Eb; congruence).
  exists w'. split; [exact E|apply H].
Defined.

Lemma domains_are_isolated_witness : refused (ResumeAttempt 1 2) distributed 404.
Proof.
  destruct (domains_are_isolated distributed 1 2 distributed_minv) as (_ & H & _); [|exact H].
  intros l a Hl Ha. rewrite distributed_cached in Hl. injection Hl as <-.
  rewrite distributed_lookup in Ha. injection Ha as <-. vm_compute. discriminate.
Defined.

Lemma accept_task_guard_witness : refused (App_AcceptAgentTask false 1 3 30) distributed 403.
Proof.
  pose proof (accept_task_guard distributed false 1 3 30 distributed_minv) as H.
  rewrite distributed_cached in H.
  destruct (H (attempt_of distributed) distributed_lookup) as [_ Hr]; [vm_compute; exact I|].
  apply Hr. intros g ag Hg. vm_compute in Hg. discriminate.
Defined.

(** ** TeamFacts *)

Lemma conversation_end_witness :
  exists q w', at_queue (attempt_of distributed) = Some q /\
    Team_Reporting (NewTeam demo_team) q 0 demo_agent false false distributed = Ret (tt, w') /\
    gone 1 distributed w'.
Proof.
  destruct (at_queue (attempt_of distributed)) as [q|] eqn:Eq; [|vm_compute in Eq; discriminate].
  destruct (conversation_end (SV := services) (NewTeam demo_team) q 0 demo_agent false false distributed
              (attempt_of distributed) distributed_minv distributed_lookup distributed_fit distributed_only)
    as (w' & E & H).
  assert (bq_processing (qo_base q) = false) as Hp by (vm_compute in Eq; injection Eq as <-; reflexivity).
  rewrite Hp in H. exists q, w'. split; [reflexivity|]. split; [exact E|exact H].
Defined.

Definition with_agent : World LruCache := distributed <| w_agents := ({[ 9%nat := demo_agent ]}) |>.

Lemma missed_agent_breaks_witness :
  exists w', Team_MissedAgent (NewTeam demo_team) (MkMissedAgent 1000 (Some 3) None) 0 9 None with_agent
             = Ret (tt, w') /\
    (as_Status ∘ ag_status) <$> w_agents w' !! 9%nat = Some AgentStatusBreakOut.
Proof.
  destruct (Team_MissedAgent (NewTeam demo_team) (MkMissedAgent 1000 (Some 3) None) 0 9 None with_agent)
    as [[[] w']| |] eqn:E; [|vm_compute in E; discriminate..].
  exists w'. split; [reflexivity|].
  rewrite (missed_agent_breaks (NewTeam demo_team) (MkMissedAgent 1000 (Some 3) None) 0 9 None demo_agent
             with_agent w' tt ltac:(vm_compute; reflexivity) E).
  vm_compute. reflexivity.
Defined.
