(* ===== verification/JsonWitnesses.v ===== *)
(** * Payloads the theorems about JSON apply to

    A destination with every kind of member, a map, a queue with a payload, and the payload that
    the comment above QueueInboundSettings shows. *)

From stdpp Require Import sorting.
From S2P Require Import Prelude Model Resource Json JsonFacts Unmarshal UnmarshalFacts Queue Settings.
From S2P Require Import Attempt Calls World Payloads PayloadFacts.

(** A text with the quotes written as apostrophes. *)
Fixpoint quoted (s : string) : string :=
  match s with
  | EmptyString => EmptyString
  | String c r => String (if Ascii.eqb c "'" then ascii_of_N 34 else c) (quoted r)
  end.

Definition demo_destination : IMThreadCommunication :=
  MkIMThreadCommunication "300"
    (MkIMThreadInfo "t-1" "a <b> & c" [MkIMMemberInfo "bot" "Support" "bot" "9" "" 0; MkIMMemberInfo "viber" "Ann" "viber" "300" "m-2" (-1)]
       "hi" (Some (MkIMChannel "Support" "viber")))
    "9" "300" "m-2" "17" 5 0.

Lemma demo_destination_utf8 : im_utf8 demo_destination.
Proof.
  repeat split; try (apply ascii_name; reflexivity).
  - repeat constructor; apply ascii_name; reflexivity.
  - simpl in H. injection H as <-. apply ascii_name; reflexivity.
  - simpl in H. injection H as <-. apply ascii_name; reflexivity.
Qed.

Lemma im_round_trip_witness : unmarshal_im (Json demo_destination) = (demo_destination, None).
Proof.
  apply im_round_trip; [apply demo_destination_utf8|].
  split; [repeat apply Forall_cons_2; try apply Forall_nil_2|]; unfold member_int, in_int; simpl; lia.
Defined.

Lemma im_communication_witness :
  mc_Destination (MemberDestinationFromBytes (Json demo_destination)) = "300" /\
  mc_Thread (MemberDestinationFromBytes (Json demo_destination)) = Some (marshal (json_thread (imd_Thread demo_destination))).
Proof. by rewrite (im_communication demo_destination demo_destination_utf8). Defined.

Definition demo_variables : strmap := {["b" := "2"; "a" := "1"]}.

Lemma map_round_trip_witness : MapFromJson (MapToJson_text (Some demo_variables)) = Some demo_variables.
Proof.
  apply map_round_trip. intros k v H. unfold demo_variables in H. apply lookup_insert_Some in H as [[<- <-]|[_ [<- <-]%lookup_singleton_Some]];
    split; apply ascii_name; reflexivity.
Defined.

Definition demo_inbound_queue (payload : string) : Queue := {|
  q_Id := 5; q_DomainId := 1; q_DomainName := "d"; q_Type := QueueTypeInboundCall; q_Name := "in";
  q_Strategy := ""; q_Payload := payload; q_UpdatedAt := 4; q_Variables := Some ∅; q_TeamId := None;
  q_RingtoneId := None; q_RingtoneType := None; q_SchemaId := None; q_DoSchemaId := None;
  q_AfterSchemaId := None; q_Processing := false; q_ProcessingSec := 30; q_ProcessingRenewalSec := 15;
  q_ProcessingAutosave := false; q_Endless := false; q_Hooks := []; q_GranteeId := None;
  q_HoldMusic := None; q_FormSchemaId := None; q_AmdPlaybackFile := None;
  q_IsProlongationEnabled := false; q_ProlongationRepeats := 0; q_ProlongationSec := 0;
  q_IsProlongationTimeoutRetry := false |}.

Definition large_payload : string := quoted "{'sticky_agent_sec': 65536, 'max_wait_time': 1e3, 'sticky_agent': true}".

(** The numbers that do not fit are left at zero, the waiting limit gets its default. *)
Lemma large_payload_read : exists o,
  NewQueue (H := json_decoders) (demo_inbound_queue large_payload) = Ret (inr o) /\
  qo_kind o = KInbound (MkQueueInboundSettings 0 "" 0 0 false 60 true 0 None false).
Proof. eexists. split; [vm_compute; reflexivity|reflexivity]. Qed.

(** The payload of the comment above QueueInboundSettings: its numbers are strings, which the
    integer fields do not take. *)
Definition documented_payload : string :=
  quoted "{'time_base_score': 'system', 'timeout_with_no_agents': '12', 'discard_abandoned_after': '1000'}".

Lemma documented_payload_ignored :
  QueueInboundSettingsFromBytes documented_payload = zero_inbound <| qi_TimeBaseScore := "system" |>.
Proof. vm_compute. reflexivity. Qed.

(** A key is found whatever its case, and the last member that fits wins. *)
Lemma payload_last_wins :
  qi_MaxWaitTime (QueueInboundSettingsFromBytes (quoted "{'max_wait_time': 10, 'MAX_WAIT_TIME': 20, 'max_wait_time': null}")) = 20.
Proof. vm_compute. reflexivity. Qed.
