(* ===== verification/RunWitnesses.v ===== *)
(** * The theorems about the goroutines, on a concrete manager

    The manager of the file Witnesses, with call, chat and message services that answer the
    same each time. *)

From S2P Require Import Prelude Model Queue Attempt TaskChannel Resource Calls World Agents.
From S2P Require Import Events Schema Manager Team Distribute Messages Dialing Frame Invariant.
From S2P Require Import MembersCache Lifecycle Sessions Calling CallInbound CallDial CallPredict Chat ChatQueue.
From S2P Require Import Im ImQueue ChatFacts RunFrame RunFacts Histories SessionFacts ChatRunFacts Witnesses.

#[local] Existing Instance services.
#[local] Instance demo_de : Decoders := demo_decoders.

(** Every call looks like [c]. *)
Definition demo_views (c : CallImpl) : CallViews := {|
  cq_view := fun _ _ => c; cq_newLeg := fun _ => "leg"; cq_newCall := fun _ => inr "call";
  cq_call := fun _ => inl demo_error; cq_connect := fun _ => inl demo_error; cq_confirm := fun _ => inr [];
  cq_recordAll := fun _ => false; cq_cdr := fun _ => ""; cq_bridgeSleep := fun _ => 0;
  cq_range := fun _ m => map_to_list m; cq_address := fun _ => 824633720832 |}.

Definition demo_call : CallImpl := zero_call "call" "node" CALL_DIRECTION_INBOUND None.

#[local] Instance ended_calls : CallViews := demo_views (demo_call <| ca_hangupAt := 7 |>).
#[local] Existing Instance demo_server.

Definition demo_im : ImServer := {|
  isv_now := fun t => 1000000000 * (1 + Z.of_nat (length t));
  isv_err := fun _ => None; isv_member := fun _ => inr "member" |}.

#[local] Existing Instance demo_im.

Definition demo_queue : QueueObject := is_Some_proj distributed_queue.

Definition demo_inbound : QueueInboundSettings := MkQueueInboundSettings 0 "" 0 0 false 0 false 0 None false.

Lemma wait_group_covers_members_witness :
  match for_each [Tick; RunQueue demo_queue 0 (RunInbound demo_inbound "call" []); Shutdown] exec distributed with
  | Ret (_, w') => 0 <= Z.of_nat (base.size (cached w')) <= w_wg w'
  | Panic s => s <> wg_message
  | Block _ => True
  end.
Proof.
  pose proof (wait_group_covers_members
    [Tick; RunQueue demo_queue 0 (RunInbound demo_inbound "call" []); Shutdown] distributed distributed_minv) as H.
  exact H.
Defined.

(** Nothing happens until the time is over: the attempt is closed. *)
Lemma stop_drains_witness :
  exists w', Manager_Stop [] true distributed = Ret (tt, w') /\ cached w' = ∅ /\ w_wg w' = 0.
Proof.
  destruct (stop_drains [] distributed distributed distributed_minv eq_refl) as (_ & Hs & Hr).
  destruct (Hr eq_refl services_hang_up) as (w' & E).
  { intros id l Hl. assert (cached distributed = {[ 1 := 0%nat ]}) as Ec by (vm_compute; reflexivity).
    rewrite Ec in Hl. apply lookup_singleton_Some in Hl as [<- <-].
    exists (attempt_of distributed). split; [apply distributed_lookup|apply distributed_fit]. }
  exists w'. split; [exact E|]. destruct (Hs w' E) as (_ & Hg & Hc).
  assert (cached w' = ∅) as Ec.
  { apply map_empty. intros id. apply eq_None_not_Some. intros H.
    destruct (Hc id H) as [Hn|(cb & mx & wt & per & t & e & _ & _ & He)]; discriminate. }
  split; [exact Ec|]. rewrite Hg, Ec. vm_compute. reflexivity.
Defined.

(** The caller hangs up: the attempt leaves. *)
Lemma goroutine_ends_witness :
  exists w', queue_run demo_queue 0 (RunInbound demo_inbound "call" []) distributed = Ret (RunLeft, w') /\
    exists a, w_attempts distributed !! 0%nat = Some a /\ gone (at_Id a) distributed w'.
Proof.
  destruct (queue_run demo_queue 0 (RunInbound demo_inbound "call" []) distributed) as [[[] w']| |] eqn:E;
    [|vm_compute in E; discriminate..].
  exists w'. split; [reflexivity|].
  pose proof (goroutine_ends demo_queue 0 (RunInbound demo_inbound "call" []) distributed w' RunLeft
                distributed_minv E) as H.
  exact H.
Defined.

(** The store refuses every call that returns only an error. *)
Definition refusing : Services := demo_services_err (inr demo_settings) (fun _ => Some demo_error).

Lemma inbound_drops_only_refused_witness :
  exists w', inbound_run (SV := refusing) demo_queue demo_inbound 0 "call" [] distributed = Ret (RunDropped, w') /\
    exists t e, w_trace w' = SetAttemptFindAgent 1 :: t /\ svc_error (Services := refusing) (w_trace w') = Some e.
Proof.
  destruct (inbound_run (SV := refusing) demo_queue demo_inbound 0 "call" [] distributed)
    as [[[] w']| |] eqn:E; try (vm_compute in E; discriminate).
  exists w'. split; [reflexivity|].
  destruct (inbound_drops_only_refused (SV := refusing) demo_queue demo_inbound 0 "call" [] distributed w'
              distributed_minv E) as (a & t & e & Ha & _ & Et & He).
  rewrite distributed_lookup in Ha. injection Ha as <-. exists t, e. split; [exact Et|exact He].
Defined.

(** The agents and the one attempt of a manager replaced. *)
Lemma replace_minv (w : World LruCache) l a a' g :
  w_attempts w = {[ l := a ]} -> at_Id a' = at_Id a -> minv w ->
  minv (w <| w_agents := g |> <| w_attempts := {[ l := a' ]} |>).
Proof.
  intros Ha Hid Hw. eapply frame_minv; [|exact Hw]. split; simpl; [by intros H; split|done|done| |done].
  intros k. rewrite Ha. destruct (decide (k = l)) as [->|Hne].
  - by rewrite !lookup_singleton_eq.
  - by rewrite !lookup_singleton_ne.
Defined.

(** A manager in which the attempt has an agent, at location 7. *)
Definition offered : World LruCache :=
  distributed <| w_agents := {[ 7%nat := demo_agent ]} |>
              <| w_attempts := {[ 0%nat := (attempt_of distributed) <| at_agent := (Some 7%nat) |> ]} |>.

Lemma offered_minv : minv offered.
Proof.
  assert (forall a g, at_Id (a <| at_agent := g |>) = at_Id a) as Hid by done.
  pose proof (replace_minv distributed 0%nat (attempt_of distributed)
    ((attempt_of distributed) <| at_agent := (Some 7%nat) |>) {[ 7%nat := demo_agent ]}
    distributed_attempts (Hid _ _) distributed_minv) as H.
  exact H.
Defined.

Definition demo_agentTeam : agentTeam := NewTeam demo_team.

Lemma offline_missed_stays_witness :
  exists x w', offline_finish demo_queue 0 demo_agentTeam (MkLegLoop "call" 7 true) offered = Ret (x, w') /\
    x = RunDropped /\ cached w' = cached offered /\ w_wg w' = w_wg offered.
Proof.
  destruct (offline_finish demo_queue 0 demo_agentTeam (MkLegLoop "call" 7 true) offered)
    as [[x w']| |] eqn:E; [|vm_compute in E; discriminate..].
  exists x, w'. split; [reflexivity|].
  apply (offline_missed_stays demo_queue 0 demo_agentTeam (MkLegLoop "call" 7 true) offered w' x);
    [exact offered_minv|intros t; vm_compute; split; discriminate|exact E].
Defined.

Definition demo_amd : QueueAmdSettings :=
  MkAmd true false [] false false 0 0 0 0 65500 0 0 0 0 None.

Definition demo_leg : CallRequest := MkCallRequest None [] 0 "" (Some ∅) 0 "" "" "" "" [] "" "".

Definition demo_progressive : ProgressiveCallQueueSettings :=
  MkProgressiveCallQueueSettings false false false 0 false 0 false 0 false (Some demo_amd) None "".

Lemma machine_calls_no_agent_witness :
  let p := MkProgLoop false true None 7 in
  prog_answer demo_queue demo_progressive 0 demo_agentTeam "call" p CALL_STATE_DETECT_AMD offered =
  Ret (inr p, offered <| w_trace := (CallPeek "call" :: w_trace offered) |>).
Proof.
  intros p. apply (machine_calls_no_agent demo_queue demo_progressive 0 demo_agentTeam "call" p demo_amd offered);
    reflexivity.
Defined.

Lemma amd_sleep_wraps_witness :
  exists rq', (SetAmdCall (qo_base demo_queue) (Some demo_amd) "park" demo_leg).2 = rq' /\
    exists n, n < 100 /\ last (cr_Applications rq') = Some ("sleep", fmt_d n).
Proof.
  destruct (amd_sleep_wraps (qo_base demo_queue) demo_amd "park" demo_leg)
    as (rq' & n & E & L & _ & H); [reflexivity|reflexivity|vm_compute; split; congruence|].
  exists rq'. split; [by rewrite E|]. exists n. split; [|exact L]. apply H. vm_compute. discriminate.
Defined.

(** ** Chats *)

Definition one_chat : ChatState_ := demo_chat_state [OpNew 1 "conv" "inviter" "user" None].

Lemma one_chat_inv : chat_inv one_chat.
Proof.
  destruct (run_chat_runs [OpNew 1 "conv" "inviter" "user" None] _ NewChatManager_inv) as (u & s & E & H).
  assert (s = one_chat) as <-; [|exact H]. unfold one_chat, demo_chat_state. by rewrite E.
Defined.

Definition demo_chat_settings : InboundChatQueueSettings := MkInboundChatQueueSettings 0 0 0 300 false false.

(** The agent joins, the client leaves. *)
Lemma chat_conversation_removed_witness :
  let evs := [XAgent; XState; XServer (demo_chat_event "join_conversation"); XState;
              XServer (demo_chat_event "leave_conversation"); XState] in
  exists x st' w', chat_loop demo_queue demo_chat_settings 0 0 evs one_chat offered = Ret ((x, st'), w') /\
    x = RunReporting /\ forall k, stored st' k <> Some 0%nat.
Proof.
  intros evs.
  destruct (chat_loop demo_queue demo_chat_settings 0 0 evs one_chat offered) as [[[x st'] w']| |] eqn:E;
    [|vm_compute in E; discriminate..].
  assert (x = RunReporting) as Ex.
  { assert (match chat_loop demo_queue demo_chat_settings 0 0 evs one_chat offered with
            | Ret ((x, _), _) => x = RunReporting | _ => False end) as H by (vm_compute; reflexivity).
    rewrite E in H. exact H. }
  exists x, st', w'. split; [reflexivity|]. split; [exact Ex|].
  apply (chat_conversation_removed demo_queue demo_chat_settings 0 0 evs one_chat st' offered w' x one_chat_inv);
    [vm_compute; by eexists|exact E|by rewrite Ex].
Defined.

(** ** Instant messages *)

Definition one_session : ImState :=
  match NewSession 1 "thread" "bot" "300" "client" 1 NewClient with Ret (_, s) => s | _ => NewClient end.

Definition removal (id : string) : IMMessage := MkIMMessage "thread" "" 
  (Some (MkIMSystem "transfer" (MkIMSystemMetadata id "" "" ""))).

Lemma im_message_cancels_witness :
  exists s', im_event (removal "client") one_session = Ret (tt, s') /\
    exists x', im_heap s' !! 0%nat = Some x' /\ is_cancelled x' = true.
Proof.
  destruct (im_message_cancels (removal "client") one_session) as (s' & E & _ & H).
  { vm_compute. constructor; [by eexists|constructor]. }
  exists s'. split; [exact E|]. destruct (im_heap one_session !! 0%nat) as [x|] eqn:Hx; [|vm_compute in Hx; discriminate].
  destruct (H 0%nat x Hx) as (x' & Hx' & _ & Hc). exists x'. split; [exact Hx'|]. apply Hc. right.
  vm_compute in Hx. injection Hx as <-. split; [by left|]. split; [reflexivity|].
  exists (MkIMSystem "transfer" (MkIMSystemMetadata "client" "" "" "")), "client". vm_compute. split_and!; auto; discriminate.
Defined.

Lemma preview_within_limit_witness :
  exists r st', givePreview 0 demo_agent (imInviteDuration demo_agentTeam) one_session offered
    = Ret ((r, st'), offered) /\ exists h, im_trace st' = [GivePreview h "thread" "30" 35000].
Proof.
  destruct (im_heap one_session !! 0%nat) as [x|] eqn:Hx; [|vm_compute in Hx; discriminate].
  destruct (preview_within_limit 0 demo_agent demo_agentTeam one_session x offered Hx) as (r & st' & E & H);
    [vm_compute; split; congruence|].
  exists r, st'. split; [exact E|]. destruct H as [H _]. vm_compute in Hx. injection Hx as <-.
  eexists. exact H.
Defined.

Lemma silent_agent_never_idle_witness :
  exists x, im_heap one_session !! 0%nat = Some x /\
    isAgentIdle (MkInboundIMQueueSettings 60 60 60 300 false false) 1000000000 (Some 1%nat) x = false.
Proof.
  destruct (im_heap one_session !! 0%nat) as [x|] eqn:Hx; [|vm_compute in Hx; discriminate].
  exists x. split; [reflexivity|]. vm_compute in Hx. injection Hx as <-.
  apply silent_agent_never_idle; [reflexivity|vm_compute; discriminate|vm_compute; reflexivity].
Defined.

Definition demo_im_settings : InboundIMQueueSettings := MkInboundIMQueueSettings 60 60 60 300 false false.

Definition im_point : Type := ImLoop * ImState * World LruCache.

(** A step, if the loop takes the event. *)
Definition im_next (ev : MEvent) (p : im_point) : im_point :=
  match im_handle demo_queue demo_im_settings 0 0 demo_thread p.1.1 ev with
  | Some m => match m p.1.2 p.2 with Ret ((inr s, st), w) => (s, st, w) | _ => p end
  | None => p
  end.

Definition im_reached (p : im_point) : Prop :=
  im_reaches demo_queue demo_im_settings 0 0 demo_thread [] p.1.1 p.1.2.

Lemma im_next_reached ev p : im_reached p -> im_reached (im_next ev p).
Proof.
  intros Hp. unfold im_next.
  destruct (im_handle demo_queue demo_im_settings 0 0 demo_thread p.1.1 ev) as [m|] eqn:E; [|exact Hp].
  destruct (m p.1.2 p.2) as [[[[x|s] st] w]| |] eqn:Em; try exact Hp.
  exact (im_step _ _ _ _ _ _ _ _ _ _ _ _ _ _ Hp E Em).
Defined.

(** An agent is offered the thread and declines. *)
Definition declined_im : im_point :=
  im_next MState (im_next (MTask OpClose) (im_next MAgent
    (MkImLoop false None None None true false false false, one_session,
     offered <| w_attempts := {[ 0%nat := (attempt_of distributed) <| at_agent := (Some 7%nat) |>
                                            <| at_state := MemberStateWaitAgent |> ]} |>))).

Lemma waiting_without_preview_witness :
  exists x h h', im_heap declined_im.1.2 !! 0%nat = Some x /\ is_previewUserId x = "" /\
    im_trace declined_im.1.2 = [RemoveFromPreview h "thread" "30"; GivePreview h' "thread" "30" 35000] /\
    pending [] (im_trace declined_im.1.2) = [].
Proof.
  destruct (waiting_without_preview demo_queue demo_im_settings 0 0 demo_thread []
              declined_im.1.1 declined_im.1.2) as (x & t & Hx & Hp & Et & Hg).
  - unfold declined_im. do 3 apply im_next_reached.
    apply (im_start _ _ _ _ _ _ 1 "thread" "bot" "300" "client" 1 NewClient); vm_compute; reflexivity.
  - vm_compute. reflexivity.
  - rewrite app_nil_r in Et. exists x. eexists _, _. split; [exact Hx|]. split; [exact Hp|].
    split; [vm_compute; reflexivity|]. rewrite Et. exact Hg.
Defined.

(** ** An agent that declined a thread is counted twice *)

Definition is_missed (e : Effect) : bool :=
  match e with SetAttemptMissed _ _ _ _ _ | SetAttemptMissedAgent _ _ => true | _ => false end.

(** After an agent declined, the attempt is cancelled while no other agent was found: the
    store is told of the missed call by the decline and again by the end of the attempt. *)
Lemma im_declined_agent_missed_twice :
  match im_handle demo_queue demo_im_settings 0 0 demo_thread declined_im.1.1 MCancel with
  | Some m =>
      match m declined_im.1.2 declined_im.2 with
      | Ret ((inl RunLeft, _), w') =>
          match List.filter is_missed (w_trace w') with
          | [SetAttemptMissed 1 _ _ _ _; SetAttemptMissedAgent 1 _] => True
          | _ => False
          end
      | _ => False
      end
  | None => False
  end.
Proof. vm_compute. exact I. Qed.
