(* ===== verification/ApiFacts.v ===== *)
(** * The theorems about the gRPC interface *)

From S2P Require Import Prelude Model Queue Attempt TaskChannel Resource World Sessions Agents.
From S2P Require Import Events Schema Manager Team Distribute Messages Dialing Lifecycle Api.

(** ** The hooks a goroutine emits *)

(** Neither the hook that ends a stream nor the end of all subscriptions. *)
Definition no_hook (l : loc) (e : Effect) : Prop := e <> EmitHook l "leaving" /\ e <> HooksOff l.

Section Hookless.
Context {OC : Type -> Type} {HOC : ObjectCache OC} {SV : Services} {DE : Decoders}.

(** What an operation adds to the trace has no such hook. *)
Definition hookless {A} (l : loc) (m : M OC A) : Prop := forall w,
  match m w with
  | Ret (_, w') => exists es, w_trace w' = es ++ w_trace w /\ Forall (no_hook l) es
  | _ => True
  end.

Lemma hookless_silent {A} l (m : M OC A) :
  (forall w, match m w with Ret (_, w') => w_trace w' = w_trace w | _ => True end) -> hookless l m.
Proof.
  intros H w. specialize (H w). destruct (m w) as [[a w']| |]; [|done..]. exists []. by split.
Qed.

Lemma hookless_ret {A} l (a : A) : hookless l (mret a).
Proof. by apply hookless_silent. Qed.

Lemma hookless_bind {A B} l (m : M OC A) (f : A -> M OC B) :
  hookless l m -> (forall a, hookless l (f a)) -> hookless l (m ≫= f).
Proof.
  intros Hm Hf w. unfold mbind, M_bind. specialize (Hm w). destruct (m w) as [[a w1]| |]; [|done..].
  destruct Hm as (es & E1 & H1). specialize (Hf a w1). destruct (f a w1) as [[b w2]| |]; [|done..].
  destruct Hf as (es' & E2 & H2). exists (es' ++ es). rewrite E2, E1, app_assoc. split; [done|]. by apply Forall_app.
Qed.

Lemma hookless_bind_res {A B} l (m : M OC (result A)) (f : A -> M OC (result B)) :
  hookless l m -> (forall a, hookless l (f a)) -> hookless l (bind_res m f).
Proof. intros Hm Hf. apply hookless_bind; [done|]. intros [e|a]; [apply hookless_ret|apply Hf]. Qed.

Lemma hookless_then l (m k : M OC (option AppError)) : hookless l m -> hookless l k -> hookless l (then_ m k).
Proof. intros Hm Hk. apply hookless_bind; [done|]. intros [e|]; [apply hookless_ret|done]. Qed.

Lemma hookless_for_each {A} l (xs : list A) (f : A -> M OC unit) :
  (forall a, hookless l (f a)) -> hookless l (for_each xs f).
Proof.
  intros Hf. induction xs as [|a xs IH]; [apply hookless_ret|]. apply hookless_bind; [apply Hf|intros; apply IH].
Qed.

Lemma hookless_call {A} l e (f : trace -> A) : no_hook l e -> hookless l (call e f).
Proof. intros He w. simpl. exists [e]. split; [done|]. by constructor. Qed.

End Hookless.

Ltac head_of t := match t with ?f _ => head_of f | _ => t end.

Ltac silent_op := solve [apply hookless_silent; intros ?; cbv beta delta [lift panic ask get_attempt mod_attempt
  mod_attempt_o get_agent mod_agent get_resource mod_resource get_task put_task modify new_attempt new_agent
  new_task new_resource members_get members_add members_remove queues_get queues_add teams_get teams_add
  resources_get resources_add resources_remove agents_get agents_add wg_done wg_add GetMillis];
  repeat case_match; simplify_eq/=; done].

(** Walks a body, and the bodies of the operations it calls. *)
Ltac hookless_step :=
  match goal with
  | |- hookless _ (mret _) => apply hookless_ret
  | |- hookless _ (mbind _ _) => apply hookless_bind; [|intros]
  | |- hookless _ (bind_res _ _) => apply hookless_bind_res; [|intros]
  | |- hookless _ (then_ _ _) => apply hookless_then
  | |- hookless _ (for_each _ _) => apply hookless_for_each; intros
  | |- hookless _ (call _ _) => apply hookless_call; split; discriminate
  | |- hookless _ (emit _) => apply hookless_call; split; discriminate
  | |- hookless _ (call_err _) => apply hookless_call; split; discriminate
  | |- hookless _ (fun _ => Block _) => by intros ?
  | |- hookless _ (let '(_, _) := ?x in _) => destruct x
  | |- hookless _ (match ?x with _ => _ end) => destruct x
  | |- hookless _ _ => solve [auto with hookless nocore]
  | |- hookless _ _ => silent_op
  | |- hookless _ ?m => let h := head_of m in unfold h
  end.

Ltac hookless_op := intros; repeat (cbv beta zeta; hookless_step).

Create HintDb hookless.

Section TaskHooks.
Context {OC : Type -> Type} {HOC : ObjectCache OC} {SV : Services} {DE : Decoders}.

Lemma hookless_export_schema k l : hookless (OC := OC) k (export_schema l).
Proof. hookless_op. Qed.
#[local] Hint Resolve hookless_export_schema : hookless.

Lemma hookless_DoDistributeSchema k b l : hookless (OC := OC) k (DoDistributeSchema b l).
Proof. hookless_op. Qed.
#[local] Hint Resolve hookless_DoDistributeSchema : hookless.

Lemma hookless_SetState k l st : hookless (OC := OC) k (SetState l st).
Proof. hookless_op. Qed.
#[local] Hint Resolve hookless_SetState : hookless.

Lemma hookless_LeavingMember k l : hookless (OC := OC) k (LeavingMember l).
Proof. hookless_op. Qed.
#[local] Hint Resolve hookless_LeavingMember : hookless.

Lemma hookless_AgentTeamHook k nm a u : hookless (OC := OC) k (AgentTeamHook nm a u).
Proof. hookless_op. Qed.
#[local] Hint Resolve hookless_AgentTeamHook : hookless.

Lemma hookless_Team_Bridged k l ag : hookless (OC := OC) k (Team_Bridged l ag).
Proof. hookless_op. Qed.
#[local] Hint Resolve hookless_Team_Bridged : hookless.

Lemma hookless_NewDistributeEvent k l u q ag h m c t : hookless (OC := OC) k (NewDistributeEvent l u q ag h m c t).
Proof. hookless_op. Qed.
#[local] Hint Resolve hookless_NewDistributeEvent : hookless.

Lemma hookless_Team_Offering k l ag c m : hookless (OC := OC) k (Team_Offering l ag c m).
Proof. hookless_op. Qed.
#[local] Hint Resolve hookless_Team_Offering : hookless.

Lemma hookless_CancelAgentAttempt k tm l ag : hookless (OC := OC) k (CancelAgentAttempt tm l ag).
Proof. hookless_op. Qed.
#[local] Hint Resolve hookless_CancelAgentAttempt : hookless.

Lemma hookless_SetWrap k tm q l ag r : hookless (OC := OC) k (SetWrap tm q l ag r).
Proof. hookless_op. Qed.
#[local] Hint Resolve hookless_SetWrap : hookless.

Lemma hookless_Team_Reporting k tm q l ag s t : hookless (OC := OC) k (Team_Reporting tm q l ag s t).
Proof. hookless_op. Qed.
#[local] Hint Resolve hookless_Team_Reporting : hookless.

Lemma hookless_task_loop k l ag evs : hookless (OC := OC) k (task_loop l ag evs).
Proof. induction evs as [|[[]|] evs IH]; simpl; hookless_op; done. Qed.
#[local] Hint Resolve hookless_task_loop : hookless.

Lemma hookless_task_run_queue k q tm l ag t evs : hookless (OC := OC) k (task_run_queue q tm l ag t evs).
Proof. hookless_op. Qed.

End TaskHooks.

(** ** Streams *)

(** An event between joining and leaving. *)
Definition is_mid (e : QueueEvent) : Prop :=
  match e with QOffering _ _ _ | QBridged _ | QMissed => True | QJoined _ _ | QLeaving _ => False end.

Section Streams.
Context {OC : Type -> Type} {HOC : ObjectCache OC} {SV : Services} {DE : Decoders} {SP : StreamPeer}.

Lemma st_unfold {S A B} (m : ST S OC A) (f : A -> ST S OC B) s w :
  (m ≫= f) s w = match m s w with
                 | Ret ((a, s'), w') => f a s' w'
                 | Panic y => Panic y
                 | Block y => Block y
                 end.
Proof. unfold mbind, ST_bind, mbind, M_bind. by destruct (m s w) as [[[a s'] w']| |]. Qed.

Lemma up_unfold {S A} (m : M OC A) (s : S) w :
  up m s w = match m w with Ret (a, w') => Ret ((a, s), w') | Panic y => Panic y | Block y => Block y end.
Proof. unfold up, mbind, M_bind. by destruct (m w) as [[a w']| |]. Qed.

Lemma send_unfold e sent (w : World OC) : send_ e sent w = Ret ((tt, sent ++ [e]), w).
Proof. done. Qed.

Lemma send_leaving_ends l sent (w : World OC) stop sent' w' :
  send_leaving l sent w = Ret ((stop, sent'), w') ->
  stop = true /\ w' = w /\ exists a, w_attempts w !! l = Some a /\ sent' = sent ++ [QLeaving (Result a)].
Proof.
  unfold send_leaving. rewrite st_unfold, up_unfold. unfold get_attempt.
  destruct (w_attempts w !! l) as [a|]; [|done]. rewrite st_unfold, send_unfold. intros [= <- <- <-]. eauto.
Qed.

(** The agent of an attempt. *)
Definition agent_of (w : World OC) (l : loc) : option Agent :=
  a ← w_attempts w !! l; g ← at_agent a; w_agents w !! g.

(** What the stream of a call tells about the events before the attempt left: the agent is
    that of the attempt when the offer arrives, the id of its call comes with the hook. *)
Fixpoint told (l : loc) (evs : list (Received (OC := OC))) (w : World OC) : list QueueEvent :=
  match evs with
  | [] => []
  | (others, ev) :: evs =>
      match ev, agent_of (others w) l with
      | HOffering (Some (id :: _)), Some ag => [QOffering (ag_Id ag) id (ag_Name ag)]
      | HBridged true, _ => [QBridged 0]
      | _, _ => []
      end ++ told l evs (others w)
  end.

(** The manager after what the others did. *)
Definition others_did (evs : list (Received (OC := OC))) (w : World OC) : World OC :=
  foldl (fun w ev => ev.1 w) w evs.

Lemma attempt_agent_of l (w : World OC) r w' : attempt_agent l w = Ret (r, w') -> w' = w /\ r = agent_of w l.
Proof.
  unfold attempt_agent, agent_of, mbind, M_bind, option_bind, get_attempt, get_agent.
  destruct (w_attempts w !! l) as [a|]; [|done]. destruct (at_agent a) as [g|]; [|by intros [= <- <-]].
  destruct (w_agents w !! g) as [ag|]; [|done]. by intros [= <- <-].
Qed.

Lemma stream_loop_unfold (handle : HookEvent -> ST (list QueueEvent) OC bool) others ev evs sent (w : World OC) :
  stream_loop handle ((others, ev) :: evs) sent w =
  match handle ev sent (others w) with
  | Ret ((stop, sent'), w') => if stop : bool then Ret ((tt, sent'), w') else stream_loop handle evs sent' w'
  | Panic y => Panic y
  | Block y => Block y
  end.
Proof.
  cbn [stream_loop]. rewrite st_unfold, up_unfold. unfold modify. rewrite st_unfold.
  by destruct (handle ev sent (others w)) as [[[[|] s'] w']| |].
Qed.

(** One round of the select of a call stream. *)
Lemma call_hook_step l ev others sent (w : World OC) stop sent' w' :
  call_hook l ev sent (others w) = Ret ((stop, sent'), w') ->
  w' = others w /\
  if stop : bool
  then ev = HLeaving /\ exists a, w_attempts w' !! l = Some a /\ sent' = sent ++ [QLeaving (Result a)]
  else ev <> HLeaving /\ sent' = sent ++ told l [(others, ev)] w.
Proof.
  destruct ev as [|args|ok|[|]|]; simpl; rewrite ?app_nil_r.
  - intros (-> & -> & Ha)%send_leaving_ends. by split.
  - rewrite st_unfold, up_unfold. destruct (attempt_agent l (others w)) as [[o w1]| |] eqn:Ea; [|done..].
    apply attempt_agent_of in Ea as [-> ->]. unfold goes_on. rewrite st_unfold.
    destruct args as [[|id args]|], (agent_of (others w) l) as [ag|]; intros [= <- <- <-]; by rewrite ?app_nil_r.
  - intros [= <- <- <-]. by rewrite ?app_nil_r.
  - unfold goes_on. rewrite st_unfold, send_unfold. by intros [= <- <- <-].
  - intros [= <- <- <-]. by rewrite ?app_nil_r.
  - intros [= <- <- <-]. by rewrite ?app_nil_r.
Qed.

Lemma call_loop_ends l evs sent (w : World OC) r sent' w' :
  stream_loop (call_hook l) evs sent w = Ret ((r, sent'), w') ->
  exists pre others post a, evs = pre ++ (others, HLeaving) :: post /\ (HLeaving ∉ pre.*2) /\
    w' = others (others_did pre w) /\ w_attempts w' !! l = Some a /\
    sent' = sent ++ told l pre w ++ [QLeaving (Result a)].
Proof.
  revert sent w. induction evs as [|[others ev] evs IH]; intros sent w; [done|]. rewrite stream_loop_unfold.
  destruct (call_hook l ev sent (others w)) as [[[stop s1] w1]| |] eqn:Ec; [|done..].
  apply call_hook_step in Ec as [-> Hc]. destruct stop.
  - intros [= <- <- <-]. destruct Hc as (-> & a & Ha & ->). exists [], others, evs, a.
    split_and!; [done|apply not_elem_of_nil|done..].
  - intros (pre & g & post & a & -> & Hn & -> & Ha & ->)%IH. destruct Hc as [Hne ->].
    exists ((others, ev) :: pre), g, post, a. split_and!; [done| |done|done|].
    + simpl. rewrite elem_of_cons. naive_solver.
    + simpl. by rewrite app_nil_r, <- !app_assoc.
Qed.

Lemma told_mid l evs (w : World OC) : Forall is_mid (told l evs w).
Proof.
  revert w. induction evs as [|[others ev] evs IH]; intros w; [constructor|]. simpl. apply Forall_app. split; [|apply IH].
  repeat case_match; by repeat constructor.
Qed.

(** The select of a stream to an agent ends only with the hook. *)
Lemma agent_hook_stops l ev sent (w : World OC) sent' w' :
  agent_hook l ev sent w = Ret ((true, sent'), w') -> ev = HLeaving.
Proof.
  destruct ev as [| | |[|]|]; simpl; [done|intros [=]..| |done|done].
  rewrite st_unfold, up_unfold. destruct (attempt_agent l w) as [[o w1]| |]; [|done..].
  unfold goes_on. rewrite st_unfold, send_unfold. intros [=].
Qed.

Lemma agent_loop_ends l evs sent (w : World OC) r :
  stream_loop (agent_hook l) evs sent w = Ret r -> HLeaving ∈ evs.*2.
Proof.
  revert sent w. induction evs as [|[others ev] evs IH]; intros sent w; [done|]. rewrite stream_loop_unfold.
  destruct (agent_hook l ev sent (others w)) as [[[stop s1] w1]| |] eqn:Ec; [|done..]. destruct stop.
  - intros _. apply agent_hook_stops in Ec as ->. by left.
  - intros H. right. by eapply IH.
Qed.

End Streams.

(** C39. The stream of a call that joins a queue, whatever hooks it receives and whatever the
    other goroutines do to the manager before each: if it returns, then the request failed and
    nothing was sent; or the queue is full and that is all the stream said; or the first event
    could not be sent; or the call was distributed, the stream started with the id of its
    attempt, told each offer (with the agent the attempt had when the offer arrived) and each
    bridge, in order, and ended with the first hook that the attempt left, with the result
    the attempt had then, sent once and last. *)
Theorem call_stream_shape {OC} `{ObjectCache OC} `{Services} `{Decoders} `{StreamPeer}
    (rq : CallJoinToQueueRequest) (evs : list (Received (OC := OC))) (w w' : World OC) (r : option RpcError) (sent : list QueueEvent) :
  CallJoinToQueue rq evs [] w = Ret ((r, sent), w') ->
  (exists e, DistributeCall rq w = Ret (inl e, w') /\
     (e <> ErrQueueMaxWaitSize /\ r = Some (RApp e) /\ sent = [] \/
      e = ErrQueueMaxWaitSize /\ r = None /\ sent = [QLeaving "max_wait_size"])) \/
  exists l a w1, DistributeCall rq w = Ret (inr l, w1) /\ w_attempts w1 !! l = Some a /\
    ((exists s, r = Some (RText s) /\ sent = [QJoined (at_Id a) svc_node] /\ w' = w1) \/
     (exists pre others post a', r = None /\
        evs = pre ++ (others, HLeaving) :: post /\ (HLeaving ∉ pre.*2) /\
        w' = others (others_did pre w1) /\ w_attempts w' !! l = Some a' /\ Forall is_mid (told l pre w1) /\
        sent = QJoined (at_Id a) svc_node :: told l pre w1 ++ [QLeaving (Result a')])).
Proof.
  unfold CallJoinToQueue, join_stream. rewrite st_unfold, up_unfold.
  destruct (DistributeCall rq w) as [[[e|l] w1]| |] eqn:Ed; [| |done..].
  - intros Hr. left. exists e. case_decide as He.
    + rewrite st_unfold, send_unfold in Hr. injection Hr as <- <- <-. split; [done|]. by right.
    + injection Hr as <- <- <-. split; [done|]. by left.
  - rewrite st_unfold, up_unfold. unfold get_attempt at 1. destruct (w_attempts w1 !! l) as [a|] eqn:Ea; [|done].
    rewrite st_unfold. unfold send, mret, M_ret. simpl. intros Hr. right. exists l, a, w1. do 2 (split; [done|]).
    destruct (sp_err [QJoined (at_Id a) svc_node]) as [s|].
    { injection Hr as <- <- <-. left. by exists s. }
    right. rewrite st_unfold in Hr. destruct (stream_loop _ _ _ _) as [[[u s1] w2]| |] eqn:El; [|done..].
    apply call_loop_ends in El as (pre & others & post & a' & -> & Hn & -> & Ha' & ->).
    injection Hr as <- <- <-. exists pre, others, post, a'. split_and!; try done. apply told_mid.
Qed.

(** The stream of a task for an agent never ends: whatever the agent, the store and the
    clock do, the goroutine of the task emits neither the hook that the stream waits for nor
    ends its subscription, so a stream that receives only what the goroutine emits waits for
    ever, whatever the others do to the manager meanwhile, also after the task was closed and the attempt has left. *)
Theorem task_stream_never_ends {OC} `{ObjectCache OC} `{Services} `{Decoders} `{StreamPeer}
    (q : QueueObject) (tm : agentTeam) (l agent task : loc) (evs : list task_event) (w w' : World OC) (es : trace)
    (hooks : list (Received (OC := OC))) :
  task_run_queue q tm l agent task evs w = Ret (tt, w') -> w_trace w' = es ++ w_trace w ->
  (HLeaving ∈ hooks.*2 -> EmitHook l "leaving" ∈ es \/ HooksOff l ∈ es) ->
  forall sent (w0 : World OC) r, stream_loop (agent_hook l) hooks sent w0 <> Ret r.
Proof.
  intros Hr Ht Hh sent w0 r Hs. apply agent_loop_ends in Hs. apply Hh in Hs.
  pose proof (hookless_task_run_queue l q tm l agent task evs w) as Hq. rewrite Hr in Hq.
  destruct Hq as (es' & E & Hn). rewrite Ht in E. apply app_inv_tail in E as ->.
  rewrite Forall_forall in Hn. by destruct Hs as [Hs|Hs]; destruct (Hn _ Hs).
Qed.

(** An offer that a chat stream sees after the agent was taken off the attempt panics
    the process; the stream of a call passes over it. *)
Theorem chat_offer_panics {OC} `{ObjectCache OC} `{Services} `{StreamPeer} (l : loc) (a : Attempt)
    (args : list string) (sent : list QueueEvent) (w : World OC) :
  w_attempts w !! l = Some a -> at_agent a = None ->
  chat_hook l (HOffering (Some args)) sent w = Panic nil_deref /\
  call_hook l (HOffering (Some args)) sent w = Ret ((false, sent), w).
Proof.
  intros Ha Hg. assert (attempt_agent l w = Ret (None, w)) as Hn.
  { unfold attempt_agent, mbind, M_bind, get_attempt. by rewrite Ha, Hg. }
  split; simpl; rewrite st_unfold, up_unfold, Hn; unfold goes_on; by rewrite st_unfold.
Qed.

(** ** Requests *)

(** A status that ends the member has no next call, whatever the request says. *)
Lemma terminal_no_next_call rq : terminateMember (ar_Status rq) = true -> cb_NextCallAt (callback_of rq) = None.
Proof. intros Ht. simpl. rewrite decide_False; [done|]. rewrite Ht. naive_solver. Qed.

(** A transfer without exactly one destination is refused without a change. *)
Lemma transfer_one_target {OC} `{ObjectCache OC} `{Services} `{Decoders} d i a q (w : World OC) :
  ((a = 0) <-> (q = 0)) ->
  Transfer d i a q w = Ret (inl (RText "exactly one of agent_id or queue_id is required"), w).
Proof. intros Hone. unfold Transfer. by case_decide. Qed.

(** The answer of Online leaves out the preset of an agent that has one, and gives the zero
    value of one to an agent that has none. *)
Lemma online_preset_inverted {OC} `{ObjectCache OC} `{Services} `{Decoders} d i o sk p info (w w' : World OC) :
  AgentGoOnline d i o (Some sk) w = Ret (inr info, w') -> ao_StatusPreset info = Some p ->
  Api_Online d i o sk w =
  Ret (inr (ao_Timestamp info, AgentChannelsToCC (ao_Channel info), if decide (lk_Id p > 0) then None else Some p), w').
Proof.
  intros Hg Hp. unfold Api_Online, mbind, M_bind. rewrite Hg. unfold IsStatusPresetEmpty. rewrite Hp.
  destruct (decide (lk_Id p > 0)) as [Hp0|Hp0]; [by rewrite bool_decide_eq_true_2|].
  by rewrite bool_decide_eq_false_2.
Qed.
