(* ===== verification/ApiWitnesses.v ===== *)
(** * The theorems about the gRPC interface, on the manager of the file Witnesses *)

From S2P Require Import Prelude Model Queue Attempt TaskChannel Resource World Sessions Agents.
From S2P Require Import Events Schema Manager Team Distribute Messages Dialing Frame MembersCache Witnesses RunWitnesses.
From S2P Require Import Api ApiFacts.

#[local] Existing Instance services.
#[local] Instance api_decoders : Decoders := demo_decoders.

(** Every event arrives. *)
#[local] Instance demo_peer : StreamPeer := fun _ => None.

Definition demo_join : CallJoinToQueueRequest := MkCallJoinToQueueRequest 1 5 "call" None 0 0 0 None false.

(** What the others do while the call waits: an agent is found, who is offered the call; and
    the attempt is answered, and leaves with a result. *)
Definition on_attempt (f : Attempt -> Attempt) (w : World LruCache) : World LruCache :=
  w <| w_attempts := (alter f 1%nat (w_attempts w)) |>.

Definition finds_agent (w : World LruCache) : World LruCache :=
  on_attempt (SetAgent (Some 7%nat)) (w <| w_agents := {[ 7%nat := demo_agent ]} |>).

Definition demo_events : list (Received (OC := LruCache)) :=
  [(id, HOffering (Some ["leg"])); (finds_agent, HOffering (Some ["leg"])); (id, HBridged true);
   (on_attempt (SetResult "success"), HLeaving)].

(** The first offer arrives before the attempt has an agent, and is not told. *)
Lemma call_stream_shape_witness :
  exists w', CallJoinToQueue demo_join demo_events [] distributed =
      Ret ((None, [QJoined 2 "node"; QOffering 3 "leg" (ag_Name demo_agent); QBridged 0; QLeaving "success"]), w') /\
    exists a', w_attempts w' !! 1%nat = Some a' /\ Result a' = "success".
Proof.
  destruct (CallJoinToQueue demo_join demo_events [] distributed) as [[[r sent] w']| |] eqn:E;
    [|vm_compute in E; discriminate..].
  pose proof (call_stream_shape demo_join demo_events distributed w' r sent E) as H.
  assert (r = None /\ sent = [QJoined 2 "node"; QOffering 3 "leg" (ag_Name demo_agent); QBridged 0; QLeaving "success"])
    as [-> ->] by (vm_compute in E; injection E as <- <- _; by split).
  exists w'. split; [reflexivity|].
  destruct H as [(e & He & _)|(l & a & w1 & He & _ & [(s & [=] & _)|(pre & g & post & a' & _ & _ & _ & _ & Ha & _ & Hs)])].
  { exfalso. vm_compute in He. discriminate. }
  assert (l = 1%nat) as -> by (vm_compute in He; by injection He as <- _).
  exists a'. split; [exact Ha|]. injection Hs as _ Hs.
  apply (app_inj_2 [QOffering 3 "leg" (ag_Name demo_agent); QBridged 0] _ [QLeaving "success"]) in Hs as [_ Hs];
    [|reflexivity]. by injection Hs as <-.
Defined.

(** A manager with a task, at location 8, that the agent has closed. *)
Definition task_closed : World LruCache :=
  offered <| w_tasks := {[ 8%nat := demo_task ]} |>.

Lemma task_stream_never_ends_witness :
  exists w', task_run_queue demo_queue demo_agentTeam 0 7 8 [EvState TaskStateClosed] task_closed = Ret (tt, w') /\
    forall sent (w0 : World LruCache) r, stream_loop (agent_hook 0) [(id, HBridged true)] sent w0 <> Ret r.
Proof.
  destruct (task_run_queue demo_queue demo_agentTeam 0 7 8 [EvState TaskStateClosed] task_closed)
    as [[[] w']| |] eqn:E; [|vm_compute in E; discriminate..].
  exists w'. split; [reflexivity|].
  pose proof (hookless_task_run_queue 0 demo_queue demo_agentTeam 0 7 8 [EvState TaskStateClosed] task_closed) as Hq.
  rewrite E in Hq. destruct Hq as (es & Ht & _).
  apply (task_stream_never_ends demo_queue demo_agentTeam 0 7 8 [EvState TaskStateClosed] task_closed w' es
           [(id, HBridged true)] E Ht).
  intros H. apply elem_of_cons in H as [H|H]; [discriminate|by apply elem_of_nil in H].
Defined.

Lemma chat_offer_panics_witness :
  chat_hook 0 (HOffering (Some ["3"])) [] distributed = Panic nil_deref.
Proof.
  apply (chat_offer_panics 0 (attempt_of distributed) ["3"] [] distributed); [apply distributed_lookup|].
  vm_compute. reflexivity.
Defined.
