(* ===== verification/StoreRuns.v ===== *)
(** * The queue manager and the gRPC interface on the SQL store

    The theorems of Lifecycle and ApiFacts hold for every answer of the services. Here the
    store is the one of StoreOps: reports and joins are followed down to the statements and
    the answers of the database. *)

From S2P Require Import Prelude Model Queue Attempt TaskChannel Resource World Agents.
From S2P Require Import Events Schema Manager Team Distribute Messages Dialing Frame Invariant Lifecycle Sessions.
From S2P Require Import Sql StoreSql Calling Api ApiFacts StoreOps Store StoreFacts MembersCache Witnesses RunWitnesses.

Section Runs.
Context {DB : Database} {SJ : StoreJson}.

(** ** Reports *)

(** The statement of a report. *)
Definition report_stmt (id : Z) (cb : AttemptCallback) (maxAttempts waitBetween : Z) (perNum : bool) (t : list Stmt)
    : list Stmt := (end_reporting id cb maxAttempts waitBetween perNum t).2.

(** The error of the numbers a report adds to its member, if it adds any. *)
Definition comms_error (res : AttemptReportingResult) (cb : AttemptCallback) (t : list Stmt) : option string :=
  match rr_MemberId res, cb_AddCommunications cb with
  | Some id, _ :: _ => (Member_addCommunications id (cb_AddCommunications cb) t).1
  | _, _ => None
  end.

Definition add_comm_error (e : string) : AppError :=
  NewAppError "SqlMemberStore.Reporting" "store.sql_member.reporting.add_comm" e 500.

Lemma CallbackReporting_answer id cb m w p t :
  let s := report_stmt id cb m w p t in
  (exists st, s = st :: t /\ st_text st = Member_CallbackReporting_sql /\ st_on st = Master) /\
  (Member_CallbackReporting id cb m w p t).1 =
    match db_reporting s with
    | inl e => inl (reporting_error e)
    | inr res => match comms_error res cb s with Some e => inl (add_comm_error e) | None => inr res end
    end.
Proof.
  unfold report_stmt, Member_CallbackReporting, end_reporting, select, statement, mbind, DBM_bind, mret, DBM_ret.
  cbn [fst snd]. split; [by eexists|]. destruct (db_reporting _) as [e|res]; [done|]. unfold comms_error.
  destruct (rr_MemberId res) as [mid|]; [|done]. destruct (cb_AddCommunications cb) as [|x l]; [done|].
  by destruct (Member_addCommunications mid (x :: l) _) as [[e|] t'].
Qed.

(** ** Joining a queue *)

(** The statements after a call is distributed to a queue. *)
Definition join_stmt `{Services} (rq : CallJoinToQueueRequest) (t : list Stmt) : list Stmt :=
  (Member_DistributeCallToQueue svc_node (cj_QueueId rq) (cj_MemberCallId rq) (cj_Variables rq)
     (nonzero (cj_BucketId rq)) (cj_Priority rq) (nonzero (cj_StickyAgentId rq)) t).2.

End Runs.

(** C32. A report of a cached attempt on the SQL store. Its channel refuses it (which only a
    report of a user can meet, when the manager waits for channels to close), or the database
    gets the statement of the report, with a status. If the database refuses it, its error is returned and
    the attempt stays. If it takes it, the attempt leaves, counted out once, unless the report
    adds numbers to the member and these cannot be stored: then the report is in the
    database, but its error is returned and the attempt stays in the cache. *)
Theorem report_on_sql {OC} `{ObjectCache OC, !ObjectCacheLaws OC} `{Database} `{StoreJson} `{CallSettings} `{Decoders} (rest : Services)
    (w w' : World OC) (id : Z) (l : loc) (cb : AttemptCallback) (system : bool) (err : option AppError) :
  minv w -> cached w !! id = Some l ->
  ReportingAttempt (SV := sql_services rest) id cb system false w = Ret (err, w') ->
  frame w w' /\ err <> None /\ svc_waitChannelClose (Services := rest) && negb system = true \/
  exists w1 cb' m wt p t, frame w w1 /\ cb_Status cb' <> "" /\
    let s := report_stmt id cb' m wt p t in
    (exists st, s = st :: t /\ st_text st = Member_CallbackReporting_sql /\ st_on st = Master) /\
    match db_reporting s with
    | inl e => err = Some (reporting_error e) /\ w' = w1
    | inr res =>
        match comms_error res cb' s with
        | Some e => err = Some (add_comm_error e) /\ w' = w1
        | None => gone id w1 w'
        end
    end.
Proof.
  intros Hw Hc Hr. destruct (ReportingAttempt_cases (SV := sql_services rest) w w' id l cb system err Hw Hc Hr)
    as [Hf|(w0 & w1 & cb' & cfg & F0 & F1 & Hs & Et & Hm)]; [by left|]. right. set (t := w_trace w0) in *.
  exists w1, cb', (rc_MaxAttempts cfg), (rc_WaitBetween cfg), (rc_PerNumbers cfg), (db_trace t).
  split; [by etrans|]. split; [done|]. rewrite Et in Hm. cbn [svc_reporting sql_services answered call_of op_of] in Hm.
  unfold mbind, option_bind in Hm. cbn [op_of] in Hm.
  destruct (CallbackReporting_answer id cb' (rc_MaxAttempts cfg) (rc_WaitBetween cfg) (rc_PerNumbers cfg) (db_trace t))
    as [Hst Ha]. split; [done|]. rewrite Ha in Hm.
  destruct (db_reporting _) as [e|res]; [done|]. by destruct (comms_error _ _ _).
Qed.

(** A call that the database refuses to put into a queue: if the queue is full (the error
    MAXWS of the database) the stream says so in one leaving event and ends without an error;
    any other error is returned and nothing is sent. The manager is left as it was. *)
Theorem full_queue_stream {OC} `{ObjectCache OC} `{Database} `{StoreJson} `{CallSettings} `{Decoders} `{StreamPeer} (rest : Services)
    (rq : CallJoinToQueueRequest) (evs : list (Received (OC := OC))) (w : World OC) (e : SqlErr) :
  let s := join_stmt (H := sql_services rest) rq (db_trace (w_trace w)) in
  db_inboundCall s = inl e ->
  exists r sent eff, CallJoinToQueue (SV := sql_services rest) rq evs [] w = Ret ((r, sent), w <| w_trace := (eff :: w_trace w) |>) /\
    db_trace (eff :: w_trace w) = s /\
    ((exists m, e = PqError "MAXWS" m) /\ r = None /\ sent = [QLeaving "max_wait_size"] \/
     (forall m, e <> PqError "MAXWS" m) /\ sent = [] /\ exists a, r = Some (RApp a) /\ err_StatusCode a = 500).
Proof.
  intros s He. subst s. unfold CallJoinToQueue, join_stream. rewrite st_unfold, up_unfold.
  unfold DistributeCall, bind_res, mbind at 1, M_bind at 1, call.
  set (eff := DistributeCallToQueueStore _ _ _ _ _ _ _).
  assert (svc_inboundCall (Services := sql_services rest) (eff :: w_trace w) =
    inl (err_maxws "SqlMemberStore.DistributeCallToQueue" "store.sql_member.distribute_call.app_error"
          ("QueueId=" +:+ fmt_d (cj_QueueId rq) +:+ ", CallId=" +:+ cj_MemberCallId rq +:+ " ") e)) as Ea.
  { unfold join_stmt in He. cbn [svc_inboundCall sql_services answered eff call_of]. unfold mbind, option_bind. cbn [op_of].
    unfold Member_DistributeCallToQueue, select, statement, mbind, DBM_bind, mret, DBM_ret in *. cbn [fst snd] in *. by rewrite He. }
  change (w_trace (w <| w_trace := (eff :: w_trace w) |>)) with (eff :: w_trace w). rewrite Ea. cbn [mret M_ret].
  destruct (err_maxws_cases "SqlMemberStore.DistributeCallToQueue" "store.sql_member.distribute_call.app_error"
    ("QueueId=" +:+ fmt_d (cj_QueueId rq) +:+ ", CallId=" +:+ cj_MemberCallId rq +:+ " ") e) as [[-> Hn]|[-> Hm]].
  - rewrite decide_False by (unfold ErrQueueMaxWaitSize, err500, err_with, NewAppError; congruence).
    eexists _, _, eff. split; [reflexivity|]. split; [reflexivity|]. right. split; [done|]. split; [done|]. by eexists.
  - rewrite decide_True by done. eexists _, _, eff. split; [reflexivity|]. split; [reflexivity|]. by left.
Qed.
