(* ===== verification/StoreWitnesses.v ===== *)
(** * The theorems of StoreRuns on a database that takes reports and refuses all else *)

From S2P Require Import Prelude Model Queue Attempt TaskChannel Resource World Sessions Agents.
From S2P Require Import Events Schema Manager Team Distribute Messages Dialing Frame Lifecycle MembersCache Witnesses RunWitnesses.
From S2P Require Import Sql StoreSql Calling Api ApiWitnesses StoreOps Store StoreRuns.

(** The error of a queue that is full. *)
Definition full : SqlErr := PqError "MAXWS" "max wait size".

Definition demo_report : AttemptReportingResult :=
  MkAttemptReportingResult 0 None None None None None None None None (Some 7).

#[local] Instance demo_database : Database := {|
  db_exec _ := Some full; db_affected _ := inl full; db_int _ := inl full; db_str _ := inl full; db_bool _ := inl full;
  db_ints _ := inl full; db_strs _ := inl full; db_members _ := inl full; db_member _ := inl full;
  db_inboundCall _ := inl full; db_callAgent _ := inl full; db_taskAgent _ := inl full; db_inboundChat _ := inl full;
  db_inboundIM _ := inl full; db_leaving _ := inl full; db_missed _ := inl full; db_renewal _ := inl full;
  db_timeouts _ := inl full; db_reporting _ := inr demo_report; db_history _ := inl full; db_expired _ := inl full;
  db_flip _ := inl full; db_waiting _ := inl full; db_reserved _ := inl full; db_onlineAtomic _ := inl full;
  db_agent _ := inl full; db_online _ := inl full; db_noAnswer _ := inl full; db_channels _ := inl full;
  db_hashKeys _ := inl full; db_trigger _ := inl full; db_call _ := inl full; db_cluster _ := inl full;
  db_gateway _ := inl full; db_resource _ := inl full; db_resourceError _ := inl full; db_queue _ := inl full;
  db_team _ := inl full; db_jobs _ := inl full; db_millis _ := 0;
|}.

#[local] Instance demo_json : StoreJson := {|
  json_map _ := "{}"; json_params _ := "{}"; json_comms _ := inr "[]";
|}.

#[local] Instance demo_settings_ : CallSettings := MkCallSettings false "" "".

#[local] Instance store_decoders : Decoders := demo_decoders.
#[local] Instance store_peer : StreamPeer := fun _ => None.

(** A report with a number for its member. *)
Definition demo_callback (comms : list MemberCommunication) : AttemptCallback :=
  (callback_of_status "success") <| cb_AddCommunications := comms |>.

Definition demo_number : MemberCommunication :=
  MkMemberCommunication "100" (MkCommunication 1 "phone" None) 0 None "" 0 None None.

(** The report is stored, its number is not: the error is returned and the attempt stays. *)
Lemma report_on_sql_witness :
  exists w', ReportingAttempt (SV := sql_services services) 1 (demo_callback [demo_number]) true false distributed =
    Ret (Some (add_comm_error (SqlErr_Error full)), w') /\
    bool_decide (cached w' !! 1 = Some 0%nat) = true /\
    exists w1 cb m wt p t, frame distributed w1 /\ w' = w1 /\
      comms_error demo_report cb (report_stmt 1 cb m wt p t) <> None.
Proof.
  destruct (ReportingAttempt (SV := sql_services services) 1 (demo_callback [demo_number]) true false distributed)
    as [[err w']| |] eqn:E; [|vm_compute in E; discriminate..].
  pose proof (report_on_sql services distributed w' 1 0 (demo_callback [demo_number]) true err
                distributed_minv distributed_cached E) as H.
  exists w'.
  assert (err = Some (add_comm_error (SqlErr_Error full)) /\ bool_decide (cached w' !! 1 = Some 0%nat) = true)
    as [-> Hc] by (vm_compute in E; injection E as <- <-; split; vm_compute; reflexivity).
  split; [reflexivity|]. split; [exact Hc|].
  destruct H as [(_ & _ & H)|(w1 & cb & m & wt & p & t & F & _ & _ & H)]; [vm_compute in H; discriminate|].
  exists w1, cb, m, wt, p, t. split; [exact F|]. cbn [db_reporting demo_database] in H.
  destruct (comms_error demo_report cb (report_stmt 1 cb m wt p t)) as [x|]; [split; [apply H|discriminate]|].
  exfalso. revert Hc. rewrite bool_decide_eq_true, (go_cached _ _ _ H), lookup_delete_eq. discriminate.
Defined.

(** The queue is full. *)
Lemma full_queue_stream_witness :
  exists sent w', CallJoinToQueue (SV := sql_services services) demo_join [(id, HLeaving)] [] distributed =
    Ret ((None, sent), w') /\ sent = [QLeaving "max_wait_size"].
Proof.
  pose proof (full_queue_stream services demo_join [(id, HLeaving)] distributed full) as H0.
  destruct (H0 ltac:(reflexivity)) as (r & sent & eff & E & _ & [(_ & -> & ->)|[H _]]); [|exfalso; exact (H _ eq_refl)].
  eexists _, _. split; [exact E|reflexivity].
Defined.
