(* ===== verification/CallFacts.v ===== *)
(** * CallFacts: theorems about the call manager

    A history of the manager is a list of steps ([call_req]): events of the switch, requests
    of the queues, goroutines of Invite, ring timers. The commands that only pass through to
    the switch (hold, playback and the like) are represented by a tone and by the variables
    of the other leg. [Inv] is the invariant of the calls;
    [later] says what no step undoes. *)

From S2P Require Import Prelude Lru Model Queue Attempt World Calls CallManager.
Import Lru Lru.Spec Lru.LruFacts.

(** ** Steps *)

Inductive call_req :=
| RqNewCall (rq : CallRequest)
| RqNewLeg (l : loc) (rq : CallRequest)
| RqInvite (l : loc)
| RqInviteGo (l : loc)
| RqHangup (l : loc) (cause : string) (reporting : bool) (vars : gomap)
| RqHangupMany (cause : string) (ids : list string)
| RqHangupById (id node : string)
| RqTimer (l : loc)
| RqBridge (l other : loc)
| RqInbound (call : CallInfo) (ringtone : string) (vars : gomap)
| RqConnect (call : CallInfo) (ringtone : string)
| RqTone (l : loc) (tone : option string) (leg : string)
| RqVariables (l : loc) (vars : gomap)
| RqEvent (d : CallActionData)
| RqRequest (l : loc) (f : CallRequest -> CallRequest)
| RqReceive (l : loc).

Section Facts.
Context {SW : Switch} {CJ : CallJson}.

(** A step and the state a queue received in it. *)
Definition call_do (r : call_req) : CM (option (loc * CallState)) :=
  match r with
  | RqNewCall rq => _ ← CM_NewCall rq; mret None
  | RqNewLeg l rq => _ ← Call_NewCall l rq; mret None
  | RqInvite l => _ ← Invite l; mret None
  | RqInviteGo l =>
      _ ← cm_modify (fun s => s <| cm_jobs := (filter (fun l' => l' <> l) (cm_jobs s)) |>);
      _ ← Invite_go l; mret None
  | RqHangup l cause reporting vars => _ ← Hangup l cause reporting vars; mret None
  | RqHangupMany cause ids => _ ← CM_HangupManyCall cause ids; mret None
  | RqHangupById id node => _ ← HangupById id node; mret None
  | RqTimer l => _ ← timer_fires l; mret None
  | RqBridge l other => _ ← Call_Bridge l other; mret None
  | RqInbound call ringtone vars => _ ← CM_InboundCallQueue call ringtone vars; mret None
  | RqConnect call ringtone => _ ← ConnectCall call ringtone; mret None
  | RqTone l tone leg => _ ← BroadcastTone l tone leg; mret None
  | RqVariables l vars => _ ← SetOtherChannelVar l vars; mret None
  | RqEvent d => _ ← handleCallAction d; mret None
  | RqRequest l f =>
      _ ← mod_call l (fun c => c <| ca_callRequest := (f <$> ca_callRequest c) |>); mret None
  | RqReceive l => st ← State_recv l; mret ((fun st => (l, st)) <$> st)
  end.

(** A call is invited once, and not after it was cancelled; a goroutine runs if Invite has
    started it. *)
Definition allowed (r : call_req) (s : CMState) : Prop :=
  match r with
  | RqInvite l => exists c, cm_heap s !! l = Some c /\ ca_state c = CALL_STATE_NEW /\ ca_hangupCh c = false
  | RqInviteGo l => l ∈ cm_jobs s
  | _ => True
  end.

Inductive call_steps : CMState -> list (loc * CallState) -> CMState -> Prop :=
| steps_refl s : call_steps s [] s
| steps_next s rcv s1 r out s2 :
    call_steps s rcv s1 -> allowed r s1 -> call_do r s1 = Ret (out, s2) ->
    call_steps s (rcv ++ option_list out) s2.

(** ** Running an operation *)

Definition runs {A} (s : CMState) (m : CM A) (Q : A -> CMState -> Prop) : Prop :=
  match m s with Ret (a, s') => Q a s' | _ => True end.

Lemma runs_bind {A B} s (m : CM A) (k : A -> CM B) (Q' : A -> CMState -> Prop) Q :
  runs s m Q' -> (forall a s', Q' a s' -> runs s' (k a) Q) -> runs s (m ≫= k) Q.
Proof.
  unfold runs. intros Hm Hk. cbv [mbind CM_bind]. destruct (m s) as [[a s']| |]; auto.
  apply Hk, Hm.
Qed.

Lemma runs_mono {A} s (m : CM A) (Q Q' : A -> CMState -> Prop) :
  runs s m Q -> (forall a s', Q a s' -> Q' a s') -> runs s m Q'.
Proof. unfold runs. intros Hm HQ. destruct (m s) as [[a s']| |]; auto. Qed.

Lemma runs_ret {A} s (a : A) (Q : A -> CMState -> Prop) : Q a s -> runs s (mret a) Q.
Proof. done. Qed.

Lemma runs_get s l (Q : CallImpl -> CMState -> Prop) :
  (forall c, cm_heap s !! l = Some c -> Q c s) -> runs s (get_call l) Q.
Proof. unfold runs, get_call. intros H. destruct (cm_heap s !! l); auto. Qed.

Lemma get_call_eq s l c : cm_heap s !! l = Some c -> get_call l s = Ret (c, s).
Proof. unfold get_call. by intros ->. Qed.

(** ** The invariant *)

Definition hangups (l : list CallState) : nat := length (filter (fun s => s = CALL_STATE_HANGUP) l).

(** The states a queue received of the call at [l]. *)
Definition received (l : loc) (rcv : list (loc * CallState)) : list CallState :=
  (filter (fun x => x.1 = l) rcv).*2.

Record call_ok (n : nat) (c : CallImpl) : Prop := CallOk {
  ok_open : ca_hangupAt c = 0 -> ca_hangup c = None;
  ok_closed : ca_hangupAt c <> 0 -> ca_hangupCh c = true;
  ok_once : ca_state c <> CALL_STATE_NEW -> ca_hangupCh c = true -> ca_hangupAt c <> 0;
  ok_sent : (n + hangups (ca_chState c))%nat = if decide (ca_hangupAt c = 0) then 0%nat else 1%nat;
  ok_out : ca_state c = CALL_STATE_NEW -> ca_direction c = CALL_DIRECTION_OUTBOUND;
  ok_timer : ca_ringTimeout c <> None -> ca_callRequest c <> None;
}.

(** A call the manager may hand out. *)
Definition active (c : CallImpl) : Prop := ca_state c <> CALL_STATE_NEW /\ ca_hangupAt c = 0.

Record Inv (rcv : list (loc * CallState)) (s : CMState) : Prop := MkInv {
  i_heap : forall l c, cm_heap s !! l = Some c -> call_ok (hangups (received l rcv)) c;
  i_next : forall l, (cm_next s <= l)%nat -> cm_heap s !! l = None /\ received l rcv = [];
  i_lru : wf (cm_calls s);
  i_size : size (cm_calls s) = MAX_CALL_CACHE;
  i_cached : forall k l e, find k (live (cm_calls s)) = Some (l, e) ->
    exists c, cm_heap s !! l = Some c /\ ca_id c = k /\ active c;
  i_jobs : forall l, l ∈ cm_jobs s -> exists c, cm_heap s !! l = Some c /\ ca_state c <> CALL_STATE_NEW;
}.

(** What happened to a call is not undone. *)
Record call_later (c c' : CallImpl) : Prop := CallLater {
  la_id : ca_id c' = ca_id c;
  la_started : ca_state c <> CALL_STATE_NEW -> ca_state c' <> CALL_STATE_NEW;
  la_hangup : ca_hangupAt c <> 0 ->
    ca_hangupAt c' = ca_hangupAt c /\ ca_hangup c' = ca_hangup c /\ ca_hangupCh c' = ca_hangupCh c /\
    ca_reportingAt c' = ca_reportingAt c /\ ca_transferTo c' = ca_transferTo c /\
    ca_transferFrom c' = ca_transferFrom c /\ ca_transferToAgentId c' = ca_transferToAgentId c /\
    ca_transferFromAttemptId c' = ca_transferFromAttemptId c /\
    ca_transferToAttemptId c' = ca_transferToAttemptId c /\ ca_variables c' = ca_variables c;
}.

Definition later (s s' : CMState) : Prop :=
  forall l c, cm_heap s !! l = Some c -> exists c', cm_heap s' !! l = Some c' /\ call_later c c'.

#[local] Instance call_later_preorder : PreOrder call_later.
Proof.
  split.
  - intros c. by split.
  - intros c1 c2 c3 [I1 S1 H1] [I2 S2 H2]. split; [congruence|auto|].
    intros H. destruct (H1 H) as (? & ? & ? & ? & ? & ? & ? & ? & ? & ?).
    destruct H2 as (? & ? & ? & ? & ? & ? & ? & ? & ? & ?); [congruence|].
    repeat split; congruence.
Qed.

#[local] Instance later_preorder : PreOrder later.
Proof.
  split.
  - intros s l c H. by exists c.
  - intros s1 s2 s3 H1 H2 l c Hc. destruct (H1 l c Hc) as (c2 & Hc2 & L2).
    destruct (H2 l c2 Hc2) as (c3 & Hc3 & L3). exists c3. split; [done|by etrans].
Qed.

Definition good (rcv : list (loc * CallState)) (s s' : CMState) : Prop := Inv rcv s' /\ later s s'.

Lemma good_refl rcv s : Inv rcv s -> good rcv s s.
Proof. by split. Qed.

Lemma good_trans rcv s1 s2 s3 : good rcv s1 s2 -> good rcv s2 s3 -> good rcv s1 s3.
Proof. intros [_ L1] [I2 L2]. split; [done|by etrans]. Qed.

(** An operation that keeps the invariant, from every state with the invariant. *)
Definition sound {A} (m : CM A) : Prop := forall rcv s, Inv rcv s -> runs s m (fun _ s' => good rcv s s').

Lemma sound_bind {A B} (m : CM A) (k : A -> CM B) :
  sound m -> (forall a, sound (k a)) -> sound (m ≫= k).
Proof.
  intros Hm Hk rcv s HI. eapply runs_bind; [apply Hm, HI|]. intros a s' G.
  eapply runs_mono; [apply Hk, G|]. intros b s'' G'. exact (good_trans _ _ _ _ G G').
Qed.

Lemma sound_ret {A} (a : A) : sound (mret a).
Proof. intros rcv s HI. by apply runs_ret, good_refl. Qed.

Lemma sound_get (l : loc) : sound (get_call l).
Proof. intros rcv s HI. apply runs_get. intros c _. by apply good_refl. Qed.

(** Only the trace, the proxy and the like change. *)
Lemma good_same rcv s s' :
  Inv rcv s -> cm_heap s' = cm_heap s -> cm_next s' = cm_next s -> cm_calls s' = cm_calls s ->
  cm_jobs s' = cm_jobs s -> good rcv s s'.
Proof.
  intros [H N W Z C J] Eh En Ec Ej. split.
  - split; rewrite ?Eh, ?En, ?Ec, ?Ej; assumption.
  - intros l c Hc. exists c. by rewrite Eh.
Qed.

Lemma sound_call {A} e (ans : cmds -> A) : sound (cm_call e ans).
Proof. intros rcv s HI. by apply good_same. Qed.

Lemma sound_ask {A} (ans : cmds -> A) : sound (cm_ask ans).
Proof. intros rcv s HI. by apply good_same. Qed.

Lemma sound_cm_get : sound cm_get.
Proof. intros rcv s HI. by apply good_same. Qed.

(** ** Changes of the heap *)

(** An update of a call that is not its end. *)
Record call_upd (c c' : CallImpl) : Prop := CallUpd {
  up_later : call_later c c';
  up_at : ca_hangupAt c' = ca_hangupAt c;
  up_hangup : ca_hangup c' = ca_hangup c;
  up_ch : ca_state c <> CALL_STATE_NEW \/ ca_hangupCh c' = false \/ ca_state c' = CALL_STATE_NEW;
  up_closed : ca_hangupCh c = true -> ca_hangupCh c' = true;
  up_open : ca_state c <> CALL_STATE_NEW -> ca_hangupCh c' = ca_hangupCh c;
  up_sent : hangups (ca_chState c') = hangups (ca_chState c);
  up_dir : ca_direction c' = ca_direction c;
  up_timer : (ca_ringTimeout c <> None -> ca_callRequest c <> None) ->
    ca_ringTimeout c' <> None -> ca_callRequest c' <> None;
}.

Lemma upd_ok n c c' : call_ok n c -> call_upd c c' -> call_ok n c'.
Proof.
  intros [O C N S D T] [L A H Ch Cl Op Se Di Ti]. destruct L as [_ Ls _].
  split; rewrite ?A, ?H, ?Se, ?Di; auto.
  - intros Hs Hc. destruct (decide (ca_state c = CALL_STATE_NEW)) as [E|E].
    + destruct Ch as [?|[?|?]]; congruence.
    + apply N; [done|]. by rewrite <- Op.
  - intros E. apply D. destruct (decide (ca_state c = CALL_STATE_NEW)) as [|E']; [done|].
    by apply Ls in E'.
Qed.

Lemma later_put s l c c' :
  cm_heap s !! l = Some c -> call_later c c' -> later s (s <| cm_heap := (<[l := c']> (cm_heap s)) |>).
Proof.
  intros Hl L l0 c0 H0. csimpl. destruct (decide (l = l0)) as [<-|Hne].
  - rewrite lookup_insert_eq. exists c'. by simplify_eq.
  - rewrite lookup_insert_ne by done. by exists c0.
Qed.

(** The fields of the state that a change of one call concerns. *)
Lemma heap_put s l c c' (P : CallImpl -> Prop) l0 :
  cm_heap s !! l = Some c -> (P c -> P c') ->
  (exists c0, cm_heap s !! l0 = Some c0 /\ P c0) ->
  exists c0, <[l := c']> (cm_heap s) !! l0 = Some c0 /\ P c0.
Proof.
  intros Hl HP (c0 & H0 & HP0). destruct (decide (l = l0)) as [<-|Hne].
  - rewrite lookup_insert_eq. exists c'. simplify_eq. auto.
  - rewrite lookup_insert_ne by done. by exists c0.
Qed.

Lemma good_put rcv s l c c' :
  Inv rcv s -> cm_heap s !! l = Some c -> call_upd c c' ->
  good rcv s (s <| cm_heap := (<[l := c']> (cm_heap s)) |>).
Proof.
  intros [H N W Z C J] Hl U. pose proof (up_later _ _ U) as L.
  split; [|by apply (later_put s l c)]. split; csimpl.
  - intros l0 c0. destruct (decide (l = l0)) as [<-|Hne].
    + rewrite lookup_insert_eq. intros [= <-]. by apply (upd_ok _ c), U; apply H.
    + rewrite lookup_insert_ne by done. apply H.
  - intros l0 Hle. destruct (N l0 Hle) as [E R]. split; [|done].
    rewrite lookup_insert_ne; [done|]. intros <-. congruence.
  - done.
  - done.
  - intros k l0 e Hf. eapply (heap_put s l c); [done| |by apply (C k l0 e)].
    intros [Ei [As At]]. split; [by rewrite (la_id _ _ L)|].
    split; [by apply (la_started _ _ L)|by rewrite (up_at _ _ U)].
  - intros l0 Hj. eapply (heap_put s l c); [done|apply (la_started _ _ L)|auto].
Qed.

Lemma sound_new c0 : call_ok 0 c0 -> sound (new_call c0).
Proof.
  intros O rcv s [H N W Z C J]. unfold runs, new_call. destruct (N (cm_next s)) as [En Er]; [lia|].
  assert (forall (P : CallImpl -> Prop) l0, (exists c, cm_heap s !! l0 = Some c /\ P c) ->
    exists c, <[cm_next s := c0]> (cm_heap s) !! l0 = Some c /\ P c) as Hk.
  { intros P l0 (c & Hc & HP). exists c. split; [|done]. rewrite lookup_insert_ne; [done|].
    intros <-. congruence. }
  split.
  - split; csimpl.
    + intros l c. destruct (decide (cm_next s = l)) as [<-|Hne].
      * rewrite lookup_insert_eq. intros [= <-]. by rewrite Er.
      * rewrite lookup_insert_ne by done. apply H.
    + intros l Hle. rewrite lookup_insert_ne by lia. apply N. lia.
    + done.
    + done.
    + intros k l e Hf. by apply Hk, (C k l e).
    + intros l Hj. by apply Hk, J.
  - intros l c Hc. csimpl. apply Hk. by exists c.
Qed.

(** ** Changes of the cache *)

Lemma get_contents now k (c : Cache string loc) :
  wf c ->
  wf (Get now k c).2 /\ size (Get now k c).2 = size c /\
  (forall k' ve, find k' (live (Get now k c).2) = Some ve -> find k' (live c) = Some ve) /\
  (forall v, (Get now k c).1 = Some v ->
    exists e, find k (live c) = Some (v, e) /\ find k (live (Get now k c).2) = Some (v, e)).
Proof.
  intros W. destruct (Get_spec now k c W) as [W' E].
  destruct (step_params now (GetOp k) c) as [Hz _]. simpl in Hz.
  destruct (Get now k c) as [r c']. simpl in *.
  split; [done|]. split; [done|]. unfold get in E. destruct (find k (live c)) as [[v e]|] eqn:Ef.
  2:{ injection E as -> ->. by split. }
  case_decide; injection E as -> ->.
  - split; [|done]. intros k' ve. destruct (decide (k = k')) as [<-|Hne].
    + by rewrite find_remove_eq.
    + by rewrite find_remove_ne.
  - split.
    2:{ intros v' [= <-]. exists e. simpl. by rewrite decide_True. }
    intros k' ve. simpl.
    case_decide as Hk; [subst k'; intros; congruence|]. by rewrite find_remove_ne.
Qed.

Lemma remove_contents k (c : Cache string loc) :
  wf c ->
  wf (Remove k c) /\ size (Remove k c) = size c /\ find k (live (Remove k c)) = None /\
  (forall k' ve, find k' (live (Remove k c)) = Some ve -> k <> k' /\ find k' (live c) = Some ve).
Proof.
  intros W. destruct (Remove_spec k c W) as [W' ->]. split; [done|].
  split; [apply (step_params 0 (RemoveOp k) c)|].
  split; [apply find_remove_eq|]. intros k' ve. destruct (decide (k = k')) as [<-|Hne].
  - by rewrite find_remove_eq.
  - by rewrite find_remove_ne.
Qed.

Lemma add_contents now k v (c : Cache string loc) :
  wf c ->
  wf (AddWithDefaultExpires now k v c) /\ size (AddWithDefaultExpires now k v c) = size c /\
  (0 < size c -> exists e, find k (live (AddWithDefaultExpires now k v c)) = Some (v, e)) /\
  (forall k' v' e, find k' (live (AddWithDefaultExpires now k v c)) = Some (v', e) ->
     (k' = k /\ v' = v) \/ find k' (live c) = Some (v', e)).
Proof.
  intros W. unfold AddWithDefaultExpires.
  destruct (Add_spec now k v (defaultExpiry c) c W) as [W' ->]. split; [done|].
  split; [apply (step_params now (AddOp k v (defaultExpiry c)) c)|]. split.
  { intros Hz. unfold add, cap. destruct (Z.to_nat (size c)) eqn:E; [lia|]. simpl.
    rewrite decide_True by done. by eexists. }
  intros k' v' e Hf%find_take. simpl in Hf. case_decide as Hk.
  - left. split; congruence.
  - right. by rewrite find_remove_ne in Hf.
Qed.

Lemma good_cache rcv s c' :
  Inv rcv s -> wf c' -> size c' = size (cm_calls s) ->
  (forall k l e, find k (live c') = Some (l, e) ->
    exists c, cm_heap s !! l = Some c /\ ca_id c = k /\ active c) ->
  good rcv s (s <| cm_calls := c' |>).
Proof.
  intros [H N W Z C J] W' Z' C'. split; [split; csimpl; congruence || done|]. intros l c Hc. by exists c.
Qed.

(** What the cache gives is a call in its own name that has not ended. *)
Lemma runs_calls_get rcv s id :
  Inv rcv s ->
  runs s (calls_get id) (fun r s' => good rcv s s' /\ cm_heap s' = cm_heap s /\
    forall l, r = Some l -> exists c, cm_heap s' !! l = Some c /\ ca_id c = id /\ active c).
Proof.
  intros HI. unfold runs, calls_get.
  destruct (get_contents (cm_secs (cm_trace s)) id (cm_calls s) (i_lru _ _ HI)) as (W' & Z' & Hsub & Hr).
  destruct (Get _ _ _) as [r c']. simpl in *. split; [|split; [done|]].
  - apply good_cache; [done|done|done|]. intros k l e Hf. apply (i_cached _ _ HI k l e). auto.
  - csimpl. intros l ->. destruct (Hr l eq_refl) as (e & Hf & _). by apply (i_cached _ _ HI id l e).
Qed.

Lemma good_save rcv s l c :
  Inv rcv s -> cm_heap s !! l = Some c -> active c ->
  runs s (saveToCacheCall l) (fun _ s' => good rcv s s' /\ cm_heap s' = cm_heap s).
Proof.
  intros HI Hl Ha. unfold saveToCacheCall.
  eapply runs_bind; [apply (runs_get s l (fun c0 s' => s' = s /\ c0 = c)); intros; by simplify_eq|].
  intros ? ? [-> ->]. unfold runs, cm_modify. split; [|done].
  destruct (add_contents (cm_secs (cm_trace s)) (ca_id c) l (cm_calls s) (i_lru _ _ HI)) as (W' & Z' & _ & Hf).
  apply good_cache; [done|done|done|]. intros k l' e H'.
  destruct (Hf k l' e H') as [[-> ->]|H0]; [by exists c|by apply (i_cached _ _ HI k l' e)].
Qed.

(** ** The setters *)

Lemma hangups_app l1 l2 : hangups (l1 ++ l2) = (hangups l1 + hangups l2)%nat.
Proof. unfold hangups. by rewrite filter_app, length_app. Qed.

Lemma hangups_send l st : st <> CALL_STATE_HANGUP -> hangups (l ++ [st]) = hangups l.
Proof.
  intros Hst. rewrite hangups_app. unfold hangups at 2. rewrite filter_cons_False by done.
  simpl. lia.
Qed.

Lemma upd_setState st c :
  ca_state c <> CALL_STATE_NEW -> st <> CALL_STATE_HANGUP -> st <> CALL_STATE_NEW ->
  call_upd c (Call_setState st c).
Proof.
  intros Hc Hh Hn. split; try done.
  - by left.
  - by apply hangups_send.
Qed.

(** Fields that do not concern the end of a call. *)
Definition same_life (c c' : CallImpl) : Prop :=
  call_later c c' /\ ca_hangupAt c' = ca_hangupAt c /\ ca_hangup c' = ca_hangup c /\
  ca_hangupCh c' = ca_hangupCh c /\ ca_state c' = ca_state c /\ ca_chState c' = ca_chState c /\
  ca_direction c' = ca_direction c /\
  ((ca_ringTimeout c <> None -> ca_callRequest c <> None) ->
   ca_ringTimeout c' <> None -> ca_callRequest c' <> None).

Lemma upd_same c c' : same_life c c' -> call_upd c c'.
Proof.
  intros (L & A & H & Ch & St & Se & D & T). split; try done.
  - destruct (decide (ca_state c = CALL_STATE_NEW)); [right; right; congruence|by left].
  - by rewrite Ch.
  - by rewrite Se.
Qed.

Lemma upd_trans c1 c2 c3 :
  ca_state c1 <> CALL_STATE_NEW -> call_upd c1 c2 -> call_upd c2 c3 -> call_upd c1 c3.
Proof.
  intros Hc [L1 A1 H1 C1 Cl1 O1 S1 D1 T1] [L2 A2 H2 C2 Cl2 O2 S2 D2 T2].
  pose proof (la_started _ _ L1 Hc) as Hc2.
  split; [by etrans|congruence|congruence|by left|auto| |congruence|congruence|auto].
  intros _. rewrite O2, O1; done.
Qed.

Lemma upd_send st c c' :
  ca_state c <> CALL_STATE_NEW -> same_life c c' -> st <> CALL_STATE_HANGUP -> st <> CALL_STATE_NEW ->
  call_upd c (Call_setState st c').
Proof.
  intros Hc S Hh Hn. pose proof (upd_same _ _ S) as U. eapply upd_trans; [done|exact U|].
  apply upd_setState; [|done|done]. by apply (la_started _ _ (up_later _ _ U)).
Qed.

Ltac same_life :=
  repeat split; try done; csimpl; try congruence; intros HT ?; apply HT; congruence.

Lemma same_stop_timer c : same_life c (stop_timer c).
Proof. unfold stop_timer. destruct (ca_ringTimeout c) eqn:E; same_life. Qed.

Lemma same_life_trans c1 c2 c3 : same_life c1 c2 -> same_life c2 c3 -> same_life c1 c3.
Proof.
  intros (L1 & A1 & H1 & C1 & S1 & Q1 & D1 & T1) (L2 & A2 & H2 & C2 & S2 & Q2 & D2 & T2).
  split; [by etrans|]. repeat split; try congruence. auto.
Qed.

Lemma upd_setActive ts c : ca_state c <> CALL_STATE_NEW -> call_upd c (setActive ts c).
Proof.
  intros Hc. unfold setActive. case_decide; [|by apply upd_same; same_life].
  apply upd_send; try done. eapply same_life_trans; [|apply same_stop_timer]. same_life.
Qed.

Lemma upd_setBridge ts id c : ca_state c <> CALL_STATE_NEW -> call_upd c (setBridge ts id c).
Proof.
  intros Hc. unfold setBridge. apply upd_send; try done.
  eapply same_life_trans; [|apply same_stop_timer]. same_life.
Qed.

Lemma upd_setRinging ts info c c' :
  ca_state c <> CALL_STATE_NEW -> setRinging ts info c = Ret c' -> call_upd c c'.
Proof.
  intros Hc. unfold setRinging. cbv [mbind outcome_bind]. simpl.
  destruct (ca_ringTimeout c) eqn:Et; [|destruct (ca_callRequest c) as [rq|] eqn:Eq; [|done]];
    intros [= <-]; (apply upd_send; [done| |done|done]).
  - same_life.
  - case_decide; same_life.
Qed.

Lemma upd_setProgress ts c :
  ca_state c <> CALL_STATE_NEW -> (ca_ringTimeout c <> None -> ca_callRequest c <> None) ->
  exists c', setProgress ts c = Ret c' /\ call_upd c c'.
Proof.
  intros Hc HT. unfold setProgress. cbv [mbind outcome_bind].
  case_decide; [|eexists; split; [done|by apply upd_same; same_life]].
  destruct (ca_ringTimeout c) eqn:Et; [destruct (ca_callRequest c) as [rq|] eqn:Eq|].
  - eexists. split; [done|]. apply upd_same. case_decide; same_life.
  - by destruct HT.
  - eexists. split; [done|]. apply upd_same. same_life.
Qed.

(** ** The end of a call *)

(** A call that has started and not ended: its hangup does not panic. *)
Lemma setHangup_ok n c now e :
  call_ok n c -> active c -> now <> 0 ->
  exists c', setHangup now e c = Ret c' /\ call_ok n c' /\ call_later c c' /\
    ca_hangup c' = Some e /\ ca_hangupAt c' <> 0 /\ ca_state c' = CALL_STATE_HANGUP.
Proof.
  intros [O C N S D T] [As At] Hnow. unfold setHangup. rewrite decide_True by done. cbv zeta.
  set (c1 := stop_timer _).
  set (c2 := c1 <| ca_hangupAt := _ |>).
  set (c3 := match hu_ReportingAt e with Some t => _ | None => _ end).
  assert (ca_hangupCh c3 = false /\ ca_hangup c3 = Some e /\ ca_hangupAt c3 <> 0 /\
          ca_chState c3 = ca_chState c /\ ca_id c3 = ca_id c /\
          ca_ringTimeout c3 = ca_ringTimeout c1 /\ ca_callRequest c3 = ca_callRequest c)
    as (E1 & E2 & E3 & E4 & E5 & E6 & E7).
  { assert (ca_hangupCh c = false) as Hch.
    { destruct (ca_hangupCh c) eqn:E; [|done]. by destruct (N As eq_refl). }
    subst c3 c2 c1. destruct (hu_ReportingAt e); unfold stop_timer; csimpl;
      destruct (ca_ringTimeout c); csimpl; repeat split; try done;
      destruct (decide (hu_Timestamp e = 0)); done. }
  assert (ca_ringTimeout c1 <> None -> ca_ringTimeout c <> None) as Hto.
  { subst c1. unfold stop_timer. csimpl. destruct (ca_ringTimeout c) eqn:E; csimpl; congruence. }
  clearbody c3. unfold close_hangup. csimpl. rewrite E1. cbv [mbind outcome_bind].
  eexists. split; [done|]. unfold Call_setState. csimpl. rewrite E4. split; [|split].
  - split; csimpl; try done.
    + rewrite hangups_app, decide_False by done. rewrite decide_True in S by done.
      change (hangups [CALL_STATE_HANGUP]) with 1%nat. lia.
    + rewrite E6, E7. auto.
  - by split.
  - done.
Qed.

Hypothesis clock : forall t, 1000000 <= sw_now t.

Lemma millis_running t : Z.quot (sw_now t) 1000000 <> 0.
Proof.
  assert (Z.quot 1000000 1000000 <= Z.quot (sw_now t) 1000000) as H
    by (apply Z.quot_le_mono; [lia|apply clock]).
  rewrite Z.quot_same in H; lia.
Qed.

(** The call and the cache after a hangup. *)
Lemma good_end rcv s l c c' :
  Inv rcv s -> cm_heap s !! l = Some c -> ca_state c <> CALL_STATE_NEW ->
  call_ok (hangups (received l rcv)) c' -> call_later c c' ->
  good rcv s (s <| cm_calls := (Remove (ca_id c) (cm_calls s)) |>
                <| cm_heap := (<[l := c']> (cm_heap s)) |>).
Proof.
  intros [H N W Z C J] Hl Hs O L. destruct (remove_contents (ca_id c) _ W) as (W' & Z' & _ & Hsub).
  split; [|by apply (later_put s l c)]. split; csimpl.
  - intros l0 c0. destruct (decide (l = l0)) as [<-|Hne].
    + rewrite lookup_insert_eq. by intros [= <-].
    + rewrite lookup_insert_ne by done. apply H.
  - intros l0 Hle. destruct (N l0 Hle) as [E R]. split; [|done].
    rewrite lookup_insert_ne; [done|]. intros <-. congruence.
  - done.
  - congruence.
  - intros k l0 e Hf. destruct (Hsub _ _ Hf) as [Hk Hf']. destruct (C _ _ _ Hf') as (c0 & H0 & E0 & A0).
    exists c0. split; [|done]. rewrite lookup_insert_ne; [done|]. intros <-. congruence.
  - intros l0 Hj. eapply (heap_put s l c); [done|apply (la_started _ _ L)|auto].
Qed.

(** The hangup of a call that has started never closes its channel twice. *)
Lemma setHangup_returns rcv s l c e :
  Inv rcv s -> cm_heap s !! l = Some c -> ca_state c <> CALL_STATE_NEW ->
  exists s', Call_setHangup l e s = Ret (tt, s') /\ good rcv s s' /\
    exists c', cm_heap s' !! l = Some c' /\ ca_hangupAt c' <> 0 /\
      ca_hangup c' = (if decide (ca_hangupAt c = 0) then Some e else ca_hangup c).
Proof.
  intros HI Hl Hs. unfold Call_setHangup, removeFromCacheCall, mod_call_o, get_call, put_call, cm_modify.
  cbv [mbind CM_bind]. rewrite Hl. case_decide as Ha.
  - simpl. rewrite !Hl. simpl. rewrite Hl.
    destruct (setHangup_ok (hangups (received l rcv)) c
                (Z.quot (sw_now (cm_trace s)) 1000000) e)
      as (c' & E & O & L & Eh & Ea & _);
      [by apply (i_heap _ _ HI)|done|apply millis_running|].
    rewrite E. eexists. split; [done|]. split; [exact (good_end rcv s l c c' HI Hl Hs O L)|].
    exists c'. csimpl. by rewrite lookup_insert_eq.
  - exists s. split; [done|]. split; [by apply good_refl|]. by exists c.
Qed.

Lemma setHangup_trace l e s s' : Call_setHangup l e s = Ret (tt, s') -> cm_trace s' = cm_trace s.
Proof.
  unfold Call_setHangup, removeFromCacheCall, mod_call_o, get_call, put_call, cm_modify, cm_millis, cm_ask.
  cbv [mbind CM_bind]. destruct (cm_heap s !! l) as [c|] eqn:Hl; [|done]. case_decide; [|by intros [= ->]].
  rewrite Hl. csimpl. rewrite Hl. destruct (setHangup _ _ _); [|done|done]. by intros [= <-].
Qed.

Lemma runs_setHangup rcv s l c e :
  Inv rcv s -> cm_heap s !! l = Some c -> ca_state c <> CALL_STATE_NEW ->
  runs s (Call_setHangup l e) (fun _ s' => good rcv s s').
Proof.
  intros HI Hl Hs. destruct (setHangup_returns rcv s l c e HI Hl Hs) as (s' & E & G & _).
  unfold runs. by rewrite E.
Qed.

(** ** The operations *)

Lemma runs_get_bind {B} s l (k : CallImpl -> CM B) Q :
  (forall c, cm_heap s !! l = Some c -> runs s (k c) Q) -> runs s (get_call l ≫= k) Q.
Proof.
  intros H. eapply runs_bind; [apply (runs_get s l (fun c s' => s' = s /\ cm_heap s !! l = Some c)); done|].
  intros c s' [-> Hc]. auto.
Qed.

Lemma runs_mod s l c f :
  cm_heap s !! l = Some c ->
  runs s (mod_call l f) (fun _ s' => s' = s <| cm_heap := (<[l := f c]> (cm_heap s)) |>).
Proof. intros Hl. apply runs_get_bind. intros c0 H0. by simplify_eq. Qed.

Lemma mod_call_good rcv s l c f :
  Inv rcv s -> cm_heap s !! l = Some c -> call_upd c (f c) ->
  runs s (mod_call l f) (fun _ s' => good rcv s s').
Proof.
  intros HI Hl U. apply runs_get_bind. intros c0 H0. simplify_eq. by apply (good_put rcv s l c).
Qed.

Lemma mod_call_o_good rcv s l c f :
  Inv rcv s -> cm_heap s !! l = Some c -> (forall c', f c = Ret c' -> call_upd c c') ->
  runs s (mod_call_o l f) (fun _ s' => good rcv s s').
Proof.
  intros HI Hl U. apply runs_get_bind. intros c0 H0. simplify_eq.
  destruct (f c) as [c'| |] eqn:E; [|done|done]. by apply (good_put rcv s l c); auto.
Qed.

Lemma upd_cancel cause c : call_upd c (setCancel cause c).
Proof.
  split; try done. destruct (decide (ca_state c = CALL_STATE_NEW)); [by right; right|by left].
Qed.

Lemma upd_close c c' : ca_state c = CALL_STATE_NEW -> ca_hangupAt c = 0 -> close_hangup c = Ret c' -> call_upd c c'.
Proof.
  intros Hn Ha. unfold close_hangup. destruct (ca_hangupCh c) eqn:E; [done|]. intros [= <-].
  split; try done. by right; right.
Qed.

Lemma state_new c : state_num (ca_state c) < state_num CALL_STATE_INVITE -> ca_state c = CALL_STATE_NEW.
Proof. by destruct (ca_state c). Qed.

Lemma new_not_hung n c : call_ok n c -> ca_state c = CALL_STATE_NEW -> ca_hangupCh c = false -> ca_hangupAt c = 0.
Proof.
  intros O Hn Hc. destruct (decide (ca_hangupAt c = 0)) as [|Ha]; [done|].
  rewrite (ok_closed _ _ O Ha) in Hc. done.
Qed.

(** The hangup of a call that has started returns and sends one command. *)
Lemma Hangup_returns rcv s l c cause reporting vars :
  Inv rcv s -> cm_heap s !! l = Some c -> ca_state c <> CALL_STATE_NEW ->
  exists err s', Hangup l cause reporting vars s = Ret (err, s') /\
    cm_trace s' = SwHangupCall (ca_node c) (ca_id c)
      (if decide (cause = "") then CALL_HANGUP_NORMAL_CLEARING else cause) reporting vars :: cm_trace s.
Proof.
  intros HI Hl Hs. unfold Hangup. cbv [mbind CM_bind]. rewrite (get_call_eq s l c Hl).
  rewrite decide_False by (intros H; apply Hs, state_new, H).
  set (cause' := if decide (cause = "") then _ else _).
  unfold cm_call_err, cm_call. set (s1 := s <| cm_trace := _ |>).
  assert (good rcv s s1) as [I1 _] by by apply good_same.
  rewrite (get_call_eq s1 l c Hl).
  destruct (sw_err (cm_trace s1)) as [e|]; [|by exists None, s1].
  case_decide; [|by exists (Some e), s1]. unfold cm_millis, cm_ask.
  destruct (setHangup_returns rcv s1 l c
    (local_hangup (Z.quot (sw_now (cm_trace s1)) 1000000) cause' None) I1 Hl Hs) as (s2 & E & _).
  rewrite E. exists (Some e), s2. split; [done|].
  by rewrite (setHangup_trace _ _ _ _ E).
Qed.

Lemma sound_Hangup l cause reporting vars : sound (Hangup l cause reporting vars).
Proof.
  intros rcv s HI. unfold Hangup. apply runs_get_bind. intros c Hl. case_decide as Hn.
  - apply state_new in Hn. eapply runs_bind.
    + by apply (runs_mod s l c).
    + intros _ s1 ->. rewrite decide_True by done.
      assert (good rcv s (s <| cm_heap := (<[l := setCancel cause c]> (cm_heap s)) |>)) as G.
      { apply (good_put rcv s l c); [done|done|apply upd_cancel]. }
      set (s1 := s <| cm_heap := _ |>) in *.
      eapply runs_bind; [|intros ? s2 G2; apply runs_ret; exact G2].
      eapply runs_mono; [|intros ? s2 G2; exact (good_trans _ _ _ _ G G2)].
      apply (mod_call_o_good rcv s1 l (setCancel cause c)); [apply G|by apply lookup_insert_eq|].
      intros c' E. apply upd_close; [done| |done].
      destruct G as [I1 _]. apply (new_not_hung (hangups (received l rcv))); [|done|].
      * apply (i_heap _ _ I1). by apply lookup_insert_eq.
      * unfold close_hangup in E. by destruct (ca_hangupCh (setCancel cause c)).
  - assert (ca_state c <> CALL_STATE_NEW) as Hs by (intros E; apply Hn; rewrite E; done).
    eapply runs_bind; [apply (sound_call _ _ rcv s HI)|]. intros err s1 G. cbv beta in G.
    eapply runs_mono; [|intros ? s2 G2; exact (good_trans _ _ _ _ G G2)].
    destruct G as [I1 L1]. destruct (L1 l c Hl) as (c1 & Hl1 & La).
    apply runs_get_bind. intros c0 H0. simplify_eq.
    destruct err; [|by apply runs_ret, good_refl].
    eapply runs_bind; [|intros ? s2 G2; apply runs_ret; exact G2].
    case_decide; [|by apply runs_ret, good_refl].
    eapply runs_bind; [apply (sound_ask _ rcv s1 I1)|]. intros now s2 G.
    eapply runs_mono; [|intros ? s3 G3; exact (good_trans _ _ _ _ G G3)].
    destruct G as [I2 L2]. destruct (L2 l c1 Hl1) as (c2 & Hl2 & La2).
    apply (runs_setHangup rcv s2 l c2); [done|done|]. by apply (la_started _ _ La2), (la_started _ _ La).
Qed.

Lemma good_jobs rcv s js :
  Inv rcv s ->
  (forall l, l ∈ js -> exists c, cm_heap s !! l = Some c /\ ca_state c <> CALL_STATE_NEW) ->
  good rcv s (s <| cm_jobs := js |>).
Proof. intros [H N W Z C J] J'. split; [by split|]. intros l c Hc. by exists c. Qed.

Lemma upd_invite n c :
  call_ok n c -> ca_hangupCh c = false -> call_upd c (c <| ca_state := CALL_STATE_INVITE |>).
Proof. intros O Hc. split; try done. by right; left. Qed.

(** Invite of a new call: the call is in the cache, its goroutine is started. *)
Lemma runs_Invite rcv s l c :
  Inv rcv s -> cm_heap s !! l = Some c -> ca_state c = CALL_STATE_NEW -> ca_hangupCh c = false ->
  runs s (Invite l) (fun r s' => r = None /\ good rcv s s').
Proof.
  intros HI Hl Hn Hc. pose proof (i_heap _ _ HI _ _ Hl) as O.
  pose proof (new_not_hung _ _ O Hn Hc) as Ha.
  unfold runs, Invite, saveToCacheCall, get_call, put_call, cm_modify. cbv [mbind CM_bind].
  rewrite Hl. simpl. rewrite Hl. rewrite decide_False by (rewrite (ok_out _ _ O Hn); tauto).
  cbn [mret CM_ret]. split; [done|].
  set (c' := c <| ca_state := CALL_STATE_INVITE |>).
  assert (good rcv s (s <| cm_heap := (<[l := c']> (cm_heap s)) |>)) as G1.
  { by eapply good_put, upd_invite. }
  set (s1 := s <| cm_heap := _ |>) in *.
  assert (cm_heap s1 !! l = Some c') as Hl1 by apply lookup_insert_eq.
  destruct (add_contents (cm_secs (cm_trace s)) (ca_id c) l (cm_calls s) (i_lru _ _ HI)) as (W' & Z' & _ & Hf).
  assert (good rcv s1 (s1 <| cm_calls :=
            (AddWithDefaultExpires (cm_secs (cm_trace s)) (ca_id c) l (cm_calls s)) |>)) as G2.
  { apply good_cache; [apply G1|done|done|]. intros k l' e H'.
    destruct (Hf k l' e H') as [[-> ->]|H0]; [by exists c'|].
    by apply (i_cached _ _ (proj1 G1) k l' e). }
  set (s2 := s1 <| cm_calls := _ |>) in *.
  assert (good rcv s2 (s2 <| cm_jobs := (cm_jobs s ++ [l]) |>)) as G3.
  { apply good_jobs; [apply G2|]. intros l0 [Hj|Hj]%elem_of_app.
    - by apply (i_jobs _ _ (proj1 G2)).
    - apply list_elem_of_singleton in Hj as ->. by exists c'. }
  exact (good_trans _ _ _ _ G1 (good_trans _ _ _ _ G2 G3)).
Qed.

(** A state a queue receives moves from the channel to what was received. *)
Lemma received_app l rcv rcv' : received l (rcv ++ rcv') = received l rcv ++ received l rcv'.
Proof. unfold received. by rewrite filter_app, fmap_app. Qed.

Lemma received_other l l' st : l <> l' -> received l' [(l, st)] = [].
Proof. intros H. unfold received. by rewrite filter_cons_False. Qed.

Lemma received_own l st : received l [(l, st)] = [st].
Proof. unfold received. by rewrite filter_cons_True. Qed.

Lemma recv_ok n c st rest :
  call_ok n c -> ca_chState c = st :: rest ->
  call_ok (n + hangups [st]) (c <| ca_chState := rest |>).
Proof.
  intros [O C N S D T] E. split; csimpl; try done.
  rewrite <- S, E. change (st :: rest) with ([st] ++ rest). rewrite hangups_app. lia.
Qed.

Lemma good_recv rcv s l c st rest :
  Inv rcv s -> cm_heap s !! l = Some c -> ca_chState c = st :: rest ->
  let s' := s <| cm_heap := (<[l := c <| ca_chState := rest |>]> (cm_heap s)) |> in
  Inv (rcv ++ [(l, st)]) s' /\ later s s'.
Proof.
  intros [H N W Z C J] Hl E. split; [|by eapply later_put]. split; csimpl.
  - intros l0 c0. rewrite received_app, hangups_app. destruct (decide (l = l0)) as [<-|Hne].
    + rewrite lookup_insert_eq, received_own. intros [= <-]. by apply recv_ok; [apply H|].
    + rewrite lookup_insert_ne, received_other by done. rewrite Nat.add_0_r. apply H.
  - intros l0 Hle. destruct (N l0 Hle) as [E0 R0].
    assert (l <> l0) by (intros <-; congruence).
    rewrite lookup_insert_ne, received_app, received_other, R0 by done. done.
  - done.
  - done.
  - intros k l0 e Hf. eapply (heap_put s l c); [done|done|by apply (C k l0 e)].
  - intros l0 Hj. eapply (heap_put s l c); [done|done|auto].
Qed.

Lemma sound_timer l : sound (timer_fires l).
Proof.
  intros rcv s HI. unfold timer_fires. apply runs_get_bind. intros c Hl.
  destruct (ca_ringTimeout c) as [[]|] eqn:Et; try (by apply runs_ret, good_refl).
  assert (good rcv s (s <| cm_heap := (<[l := c <| ca_ringTimeout := (Some TimerStopped) |>]> (cm_heap s)) |>)) as G.
  { apply (good_put rcv s l c); [done|done|]. apply upd_same. same_life. }
  eapply runs_bind; [apply (runs_ret (A := unit) _ tt (fun _ s' => good rcv s s')), G|].
  intros ? s1 G1. eapply runs_mono; [|intros ? s2 G2; exact (good_trans _ _ _ _ G1 G2)].
  apply sound_bind; [apply sound_get| |apply G1]. intros c1. case_decide; [|apply sound_ret].
  apply sound_bind; [apply sound_Hangup|]. intros. apply sound_ret.
Qed.

Lemma sound_call_err e : sound (cm_call_err e).
Proof. apply sound_call. Qed.

(** Programs of sound parts. *)
Ltac sound_step :=
  lazymatch goal with
  | |- sound (mbind _ (new_call _)) => fail
  | |- sound (mbind _ _) => apply sound_bind; [|intros ?]
  | |- sound (mret _) => apply sound_ret
  | |- sound (get_call _) => apply sound_get
  | |- sound (cm_call_err _) => apply sound_call_err
  | |- sound (cm_call _ _) => apply sound_call
  | |- sound (cm_ask _) => apply sound_ask
  | |- sound cm_millis => apply sound_ask
  | |- sound cm_get => apply sound_cm_get
  | |- sound (Hangup _ _ _ _) => apply sound_Hangup
  | |- sound (match ?x with _ => _ end) => destruct x
  end.

Ltac sound_all := repeat sound_step.

Lemma sound_mod_same l f : (forall c, same_life c (f c)) -> sound (mod_call l f).
Proof.
  intros Hf rcv s HI. apply runs_get_bind. intros c Hl.
  by apply (good_put rcv s l c), upd_same, Hf.
Qed.

Lemma sound_Bridge l other : sound (Call_Bridge l other).
Proof. unfold Call_Bridge. sound_all. apply sound_mod_same. intros c. same_life. Qed.

Lemma call_ok_zero id node rq : call_ok 0 (zero_call id node CALL_DIRECTION_OUTBOUND (Some rq)).
Proof. by split. Qed.

Lemma sound_newCall rq api : sound (newCall CALL_DIRECTION_OUTBOUND rq api).
Proof. unfold newCall. sound_all; apply sound_new, call_ok_zero. Qed.

Lemma sound_CM_NewCall rq : sound (CM_NewCall rq).
Proof. unfold CM_NewCall, cm_ok, getApiConnection. sound_all. apply sound_newCall. Qed.

Lemma sound_Call_NewCall l rq : sound (Call_NewCall l rq).
Proof. unfold Call_NewCall. sound_all. apply sound_newCall. Qed.

Lemma sound_calls_get id : sound (calls_get id).
Proof.
  intros rcv s HI. eapply runs_mono; [by apply (runs_calls_get rcv)|]. by intros ? ? [? _].
Qed.

Lemma sound_HangupMany cause ids : sound (CM_HangupManyCall cause ids).
Proof.
  induction ids as [|id ids IH]; simpl; sound_all; [apply sound_calls_get|apply IH].
Qed.

Lemma sound_UpdateCid l : sound (UpdateCid l).
Proof. unfold UpdateCid. sound_all. Qed.

Lemma sound_rejoin l : sound (rejoin l).
Proof.
  unfold rejoin. sound_all; [apply sound_UpdateCid|]. apply sound_mod_same. intros c. same_life.
Qed.

Lemma call_ok_adopt call cli parent : call_ok 0 (adopt call cli parent).
Proof. by split. Qed.

(** A new call of the switch is kept and saved, perhaps after a command. *)
Lemma sound_adopt {A B} call cli parent (mid : CM A) (r : loc -> B) :
  (forall rcv s, Inv rcv s -> runs s mid (fun _ s' => good rcv s s' /\ cm_heap s' = cm_heap s)) ->
  sound (l ← new_call (adopt call cli parent); _ ← mid; _ ← saveToCacheCall l; mret (r l)).
Proof.
  intros Hmid rcv s HI. set (c := adopt call cli parent).
  assert (runs s (new_call c) (fun l s' => good rcv s s' /\ cm_heap s' !! l = Some c)) as H.
  { pose proof (sound_new c (call_ok_adopt call cli parent) rcv s HI) as G. unfold runs, new_call in *.
    split; [exact G|]. csimpl. apply lookup_insert_eq. }
  eapply runs_bind; [exact H|]. intros l s1 [G1 Hl]. cbv beta.
  eapply runs_bind; [by apply (Hmid rcv), G1|]. intros ? s2 [G2 E2]. cbv beta.
  eapply runs_bind.
  - apply (good_save rcv s2 l c); [apply G2|by rewrite E2|done].
  - intros ? s3 [G3 _]. apply runs_ret. exact (good_trans _ _ _ _ G1 (good_trans _ _ _ _ G2 G3)).
Qed.

Lemma sound_Inbound call ringtone vars : sound (CM_InboundCallQueue call ringtone vars).
Proof.
  unfold CM_InboundCallQueue, getApiConnectionById. sound_all; [apply sound_calls_get|apply sound_rejoin|].
  refine (sound_adopt _ _ _ (mret tt) (fun l => (Some l, None : option AppError)) _). intros rcv s0 HI. apply runs_ret. by split; [apply good_refl|].
Qed.

Lemma sound_Connect call ringtone : sound (ConnectCall call ringtone).
Proof.
  unfold ConnectCall, getApiConnectionById. sound_all; [apply sound_calls_get|apply sound_rejoin|].
  refine (sound_adopt _ _ _ (cm_call_err _) (fun l => (Some l, None : option AppError)) _). intros rcv s0 HI. by split; [apply good_same|].
Qed.

(** Events reach calls that have started and not ended. *)
Lemma runs_event rcv s l c e :
  Inv rcv s -> cm_heap s !! l = Some c -> active c ->
  runs s (call_event l e) (fun _ s' => good rcv s s').
Proof.
  intros HI Hl [Hs Ha]. destruct e; simpl.
  - apply (mod_call_o_good rcv s l c); [done|done|]. intros c'. by apply upd_setRinging.
  - apply (mod_call_o_good rcv s l c); [done|done|]. intros c' E.
    destruct (upd_setProgress timestamp c Hs (ok_timer _ _ (i_heap _ _ HI _ _ Hl))) as (c1 & E1 & U).
    congruence.
  - apply (mod_call_good rcv s l c); [done|done|]. by apply upd_setActive.
  - apply (mod_call_good rcv s l c); [done|done|]. by apply upd_setState.
  - apply (mod_call_good rcv s l c); [done|done|]. by apply upd_setBridge.
  - apply (mod_call_good rcv s l c); [done|done|]. apply upd_send; [done| |done|done]. same_life.
  - by apply (runs_setHangup rcv s l c).
  - by apply runs_ret, good_refl.
Qed.

Lemma sound_handle d : sound (handleCallAction d).
Proof.
  intros rcv s HI. eapply runs_bind; [by apply (runs_calls_get rcv)|]. intros v s1 (G & _ & Hv).
  cbv beta. eapply runs_mono; [|intros ? s2 G2; exact (good_trans _ _ _ _ G G2)].
  destruct v as [l|]; [|apply runs_ret, good_refl, G].
  destruct (Hv l eq_refl) as (c & Hl & _ & A). apply (runs_event rcv s1 l c); [apply G|done|done].
Qed.

Lemma runs_Invite_go rcv s l c :
  Inv rcv s -> cm_heap s !! l = Some c -> ca_state c <> CALL_STATE_NEW ->
  runs s (Invite_go l) (fun _ s' => good rcv s s').
Proof.
  intros HI Hl Hs. apply runs_get_bind. intros c0 H0. simplify_eq.
  eapply runs_bind; [apply (sound_call _ _ rcv s HI)|]. intros [[cause code] err] s1 G. cbv beta in G.
  eapply runs_mono; [|intros ? s2 G2; exact (good_trans _ _ _ _ G G2)].
  destruct err; [|apply runs_ret, good_refl, G]. destruct G as [I1 L1].
  destruct (L1 l c Hl) as (c1 & Hl1 & La). apply (runs_setHangup rcv s1 l c1); [done|done|].
  by apply (la_started _ _ La).
Qed.

(** ** Histories *)

Lemma step_keeps rcv s r out s' :
  Inv rcv s -> allowed r s -> call_do r s = Ret (out, s') ->
  Inv (rcv ++ option_list out) s' /\ later s s'.
Proof.
  intros HI HA E. assert (runs s (call_do r) (fun out s' => Inv (rcv ++ option_list out) s' /\ later s s')) as H.
  2:{ unfold runs in H. by rewrite E in H. }
  clear E. assert (forall {A} (m : CM A), runs s m (fun _ s' => good rcv s s') ->
    runs s (_ ← m; mret None) (fun out s' => Inv (rcv ++ option_list out) s' /\ later s s')) as Hnone.
  { intros A m Hm. eapply runs_bind; [exact Hm|]. intros ? s1 G. apply runs_ret. simpl.
    by rewrite app_nil_r. }
  destruct r; simpl in *; try apply Hnone.
  - by apply sound_CM_NewCall.
  - by apply sound_Call_NewCall.
  - destruct HA as (c & Hl & Hn & Hc). eapply runs_mono; [by apply (runs_Invite rcv s l c)|].
    by intros ? ? [_ ?].
  - destruct (i_jobs _ _ HI l HA) as (c & Hl & Hs).
    set (s1 := s <| cm_jobs := (filter (fun l' => l' <> l) (cm_jobs s)) |>).
    assert (good rcv s s1) as G.
    { apply good_jobs; [done|]. intros l0 [_ Hj]%list_elem_of_filter. by apply (i_jobs _ _ HI). }
    pose proof (runs_Invite_go rcv s1 l c (proj1 G) Hl Hs) as H1.
    unfold runs in *. cbv [mbind CM_bind cm_modify]. fold s1.
    destruct (Invite_go l s1) as [[[] s2]| |]; [|done|done]. cbn [mret CM_ret]. simpl.
    exact (good_trans _ _ _ _ G H1).
  - by apply sound_Hangup.
  - by apply sound_HangupMany.
  - apply (sound_bind (getApiConnectionById node)); [| |done].
    + unfold getApiConnectionById. sound_all.
    + intros []; sound_all.
  - by apply sound_timer.
  - by apply sound_Bridge.
  - by apply sound_Inbound.
  - by apply sound_Connect.
  - unfold BroadcastTone. assert (sound (BroadcastTone l tone leg)) as H by (unfold BroadcastTone; sound_all).
    by apply H.
  - assert (sound (SetOtherChannelVar l vars)) as H by (unfold SetOtherChannelVar; sound_all).
    by apply H.
  - by apply sound_handle.
  - apply sound_mod_same; [|done]. intros c. repeat split; try done. csimpl.
    intros HT Ht E. apply fmap_None in E. by apply HT.
  - unfold State_recv, Call_recv. unfold runs, get_call. cbv [mbind CM_bind].
    destruct (cm_heap s !! l) as [c|] eqn:Hl; [|done].
    destruct (ca_chState c) as [|st rest] eqn:Ec; simpl.
    + rewrite app_nil_r. by apply good_refl.
    + by apply (good_recv rcv s l c).
Qed.

Lemma Inv_init node : Inv [] (NewCallManager node).
Proof.
  split; simpl; try done.
  - apply NewLruWithParams_wf.
  - intros l Hl. by apply not_elem_of_nil in Hl.
Qed.

Lemma steps_keep s rcv s' rcv0 :
  call_steps s rcv s' -> Inv rcv0 s -> Inv (rcv0 ++ rcv) s' /\ later s s'.
Proof.
  intros H HI. induction H as [s|s rcv s1 r out s2 Hs IH HA E].
  - by rewrite app_nil_r.
  - destruct (IH HI) as [I1 L1]. rewrite app_assoc.
    destruct (step_keeps _ _ _ _ _ I1 HA E) as [I2 L2]. split; [done|by etrans].
Qed.

Lemma reachable_inv node rcv s : call_steps (NewCallManager node) rcv s -> Inv rcv s.
Proof. intros H. apply (steps_keep _ _ _ [] H), Inv_init. Qed.

(** What a timer does. *)
Lemma timer_fires_spec rcv s l c :
  Inv rcv s -> cm_heap s !! l = Some c -> ca_state c <> CALL_STATE_NEW ->
  exists s', timer_fires l s = Ret (tt, s') /\
    cm_trace s' =
      (if decide (ca_ringTimeout c = Some TimerRunning /\ state_num (ca_state c) < state_num CALL_STATE_ACCEPT)
       then SwHangupCall (ca_node c) (ca_id c) CALL_HANGUP_NO_ANSWER false None :: cm_trace s
       else cm_trace s).
Proof.
  intros HI Hl Hs.
  unfold timer_fires. cbv [mbind CM_bind]. rewrite (get_call_eq s l c Hl).
  destruct (ca_ringTimeout c) as [[]|] eqn:Et;
    [|exists s; split; [done|]; by rewrite decide_False by (intros [[=] _]).. ].
  set (c1 := c <| ca_ringTimeout := (Some TimerStopped) |>).
  assert (good rcv s (s <| cm_heap := (<[l := c1]> (cm_heap s)) |>)) as [I1 _].
  { apply (good_put rcv s l c); [done|done|]. apply upd_same. same_life. }
  unfold put_call, cm_modify. set (s1 := s <| cm_heap := _ |>) in *.
  assert (cm_heap s1 !! l = Some c1) as Hl1 by apply lookup_insert_eq.
  unfold ring_timeout. cbv [mbind CM_bind]. rewrite (get_call_eq s1 l c1 Hl1).
  change (ca_state c1) with (ca_state c). case_decide as Hn.
  2:{ exists s1. split; [done|]. by rewrite decide_False by tauto. }
  rewrite decide_True by done.
  destruct (Hangup_returns rcv s1 l c1 CALL_HANGUP_NO_ANSWER false None I1 Hl1 Hs)
    as (err & s2 & E & Et2). rewrite E. by exists s2.
Qed.

(** A call that is answered and then rings: its timer runs. *)
Lemma late_ringing c rq t1 t2 info :
  ca_acceptAt c = 0 -> ca_ringTimeout c = None -> ca_callRequest c = Some rq -> 0 < cr_Timeout rq ->
  exists c2, setRinging t2 info (setActive t1 c) = Ret c2 /\ ca_ringTimeout c2 = Some TimerRunning /\
    ca_state c2 = CALL_STATE_RINGING /\ ca_acceptAt c2 = t1 /\ ca_hangup c2 = ca_hangup c /\
    ca_node c2 = ca_node c /\ ca_id c2 = ca_id c.
Proof.
  intros Ha Ht Hq Hto. unfold setActive, stop_timer. rewrite decide_True by done. csimpl. rewrite Ht.
  unfold setRinging. cbv [mbind outcome_bind]. csimpl. rewrite Ht, Hq, decide_True by lia.
  by eexists.
Qed.

Definition is_ringing (e : CallEvent) : Prop := match e with EvRinging _ _ => True | _ => False end.

#[local] Instance is_ringing_dec e : Decision (is_ringing e).
Proof. destruct e; simpl; apply _. Defined.

(** ** Theorems *)

(** C7. Whatever the switch reports, the queues ask and the timers do, in any order (a call
    being invited once and not after it was cancelled): of a call that has started, the
    hangup channel is closed exactly if its end is recorded, the queues have been sent the
    state hangup exactly once by then and never before, and an end reported now, again or
    for the first time, does not panic. *)
Theorem hangup_once node rcv s l c :
  call_steps (NewCallManager node) rcv s -> cm_heap s !! l = Some c -> ca_state c <> CALL_STATE_NEW ->
  (ca_hangupCh c = true <-> ca_hangupAt c <> 0) /\
  (is_Some (ca_hangup c) -> ca_hangupAt c <> 0) /\
  hangups (received l rcv ++ ca_chState c) = (if decide (ca_hangupAt c = 0) then 0%nat else 1%nat) /\
  forall e, exists s', Call_setHangup l e s = Ret (tt, s').
Proof.
  intros R Hl Hs. pose proof (reachable_inv _ _ _ R) as HI. pose proof (i_heap _ _ HI _ _ Hl) as O.
  split; [split; [by apply O|by apply O]|]. split; [|split].
  - intros [h Hh] E. apply O in E. congruence.
  - rewrite hangups_app. apply O.
  - intros e. destruct (setHangup_returns rcv s l c e HI Hl Hs) as (s' & E & _). by exists s'.
Qed.

(** C8. The end of a call is final: however the history goes on, the cause and the code of
    the first hangup, its time, the reporting time, the transfer and the variables stay; and
    the manager never hands the call out again, so no event changes it. *)
Theorem hangup_is_final node rcv s l c rcv' s' :
  call_steps (NewCallManager node) rcv s -> cm_heap s !! l = Some c -> ca_hangupAt c <> 0 ->
  call_steps s rcv' s' ->
  exists c', cm_heap s' !! l = Some c' /\ call_later c c' /\ ca_hangupAt c' = ca_hangupAt c /\
    HangupCause c' = HangupCause c /\ HangupCauseCode c' = HangupCauseCode c /\ Call_Err c' = Call_Err c /\
    forall id s'', GetCall id s' <> Ret (Some l, s'').
Proof.
  intros R Hl Ha R'. pose proof (reachable_inv _ _ _ R) as HI.
  destruct (steps_keep _ _ _ _ R' HI) as [HI' L]. destruct (L l c Hl) as (c' & Hl' & La).
  exists c'. destruct (la_hangup _ _ La Ha) as (E1 & E2 & _).
  unfold Call_Err, HangupCause, HangupCauseCode. rewrite E2. do 6 (split; [done|]).
  intros id s'' E. pose proof (runs_calls_get _ s' id HI') as H. unfold GetCall in E.
  unfold runs in H. rewrite E in H. destruct H as (_ & Eh & H).
  destruct (H l eq_refl) as (c2 & H2 & _ & _ & A2). rewrite Eh in H2. congruence.
Qed.

(** The ring timer hangs a call up exactly if it is running and the state of the call is
    before accept; then the switch is asked to hang the call up with NO_ANSWER. In every
    other case it sends nothing. *)
Theorem ring_timer_hangs_up node rcv s l c :
  call_steps (NewCallManager node) rcv s -> cm_heap s !! l = Some c -> ca_state c <> CALL_STATE_NEW ->
  exists s', timer_fires l s = Ret (tt, s') /\
    cm_trace s' =
      (if decide (ca_ringTimeout c = Some TimerRunning /\ state_num (ca_state c) < state_num CALL_STATE_ACCEPT)
       then SwHangupCall (ca_node c) (ca_id c) CALL_HANGUP_NO_ANSWER false None :: cm_trace s
       else cm_trace s).
Proof. intros R. apply (timer_fires_spec rcv), (reachable_inv _ _ _ R). Qed.

(** A cached call that joins a queue again loses its bridge and stays in the cache. *)
Lemma rejoin_returns s l c :
  cm_heap s !! l = Some c ->
  exists err s', rejoin l s = Ret ((Some l, err), s') /\ cm_calls s' = cm_calls s /\
    cm_heap s' = <[l := ResetBridge c]> (cm_heap s) /\
    exists t, cm_trace s' = t ++ cm_trace s.
Proof.
  intros Hl. unfold rejoin, UpdateCid, mod_call, put_call, cm_modify, cm_call_err, cm_call.
  cbv [mbind CM_bind]. rewrite (get_call_eq s l c Hl). case_decide.
  - rewrite (get_call_eq s l c Hl). destruct (in_To (ca_info c)) as [t|].
    + set (s1 := s <| cm_trace := _ |>). rewrite (get_call_eq s1 l c Hl).
      do 2 eexists. split; [done|]. repeat split. by exists [SwUpdateCid (ca_node c) (ca_id c) (ep_Number t) (ep_Name t)].
    + cbn [mret CM_ret]. rewrite (get_call_eq s l c Hl). do 2 eexists. split; [done|].
      repeat split. by exists [].
  - cbn [mret CM_ret]. rewrite (get_call_eq s l c Hl). do 2 eexists. split; [done|].
    repeat split. by exists [].
Qed.

(** C28. A call that joins a queue: the switch is asked for it first; if the connection or the
    switch answers with an error, the calls and the cache stay as they were. Otherwise the
    manager holds a call of that id, not ended, not bridged, that events will reach: the one
    it already had, or a new one in the state accept. *)
Theorem inbound_call_joins node rcv s call ringtone vars :
  call_steps (NewCallManager node) rcv s ->
  exists r err s', CM_InboundCallQueue call ringtone vars s = Ret ((r, err), s') /\
    match r with
    | None => is_Some err /\ cm_heap s' = cm_heap s /\ cm_calls s' = cm_calls s
    | Some l => exists c e cli,
        cm_heap s' !! l = Some c /\ ca_id c = ci_Id call /\ active c /\ ca_bridgeAt c = 0 /\
        ca_bridgedId c = None /\ find (ci_Id call) (live (cm_calls s')) = Some (l, e) /\
        SwJoinQueue cli (ci_Id call) ringtone
          (UnionStringMaps [entries vars; join_vars (cm_nodeId s)]) ∈ cm_trace s' /\
        (cm_heap s !! l = None -> ca_state c = CALL_STATE_ACCEPT /\ ca_node c = cli /\ err = None)
    end.
Proof.
  intros R. pose proof (reachable_inv _ _ _ R) as HI.
  unfold CM_InboundCallQueue, getApiConnectionById, cm_call_err, cm_call, cm_get.
  cbv [mbind CM_bind]. cbn [mret CM_ret]. set (s1 := s <| cm_trace := _ |>).
  unfold conn_result. destruct (sw_getById (cm_trace s1)) as [e|cli].
  { do 3 eexists. split; [done|]. by split. }
  change (cm_nodeId s1) with (cm_nodeId s). set (s2 := s1 <| cm_trace := _ |>).
  destruct (sw_err (cm_trace s2)) as [e|].
  { do 3 eexists. split; [done|]. by split. }
  set (cmd := SwJoinQueue cli _ _ _) in *.
  assert (cmd ∈ cm_trace s2) as Hcmd by (left).
  pose proof (get_contents (cm_secs (cm_trace s2)) (ci_Id call) (cm_calls s2) (i_lru _ _ HI)) as (W & Z & Hsub & Hr).
  unfold calls_get. destruct (Get _ _ _) as [[l|] cc]; simpl in W, Z, Hr, Hsub.
  - destruct (Hr l eq_refl) as (e & Hf & Hf'). destruct (i_cached _ _ HI _ _ _ Hf) as (c & Hl & Hi & Ha).
    set (s3 := s2 <| cm_calls := cc |>).
    destruct (rejoin_returns s3 l c Hl) as (err & s4 & E & Ec & Eh & t & Et). rewrite E.
    do 3 eexists. split; [done|]. exists (ResetBridge c), e, cli. rewrite Eh, Ec, lookup_insert_eq, Et.
    do 6 (split; [done|]). split; [apply elem_of_app; right; exact Hcmd|]. intros Hn. congruence.
  - set (s3 := s2 <| cm_calls := cc |>). unfold new_call, saveToCacheCall, cm_modify.
    cbv [mbind CM_bind]. set (s4 := s3 <| cm_heap := _ |> <| cm_next := _ |>).
    rewrite (get_call_eq s4 (cm_next s3) (adopt call cli None)) by apply lookup_insert_eq.
    destruct (add_contents (cm_secs (cm_trace s4)) (ca_id (adopt call cli None)) (cm_next s3) (cm_calls s4) W)
      as (_ & _ & Hfind & _).
    destruct Hfind as [e He].
    { change (cm_calls s4) with cc. rewrite Z. change (cm_calls s2) with (cm_calls s).
      rewrite (i_size _ _ HI). done. }
    do 3 eexists. split; [done|]. exists (adopt call cli None), e, cli. csimpl.
    rewrite lookup_insert_eq. by do 7 (split; [done|]).
Qed.

(** Events are handled in goroutines of their own, so the switch's order is not kept. If
    the active event of an invited call is handled before its ringing event, the timer starts
    after the call was answered, and hangs the answered call up. *)
Theorem late_ringing_hangs_up node rcv s l c rq t1 t2 info :
  call_steps (NewCallManager node) rcv s -> cm_heap s !! l = Some c ->
  ca_state c = CALL_STATE_INVITE -> ca_acceptAt c = 0 -> ca_ringTimeout c = None ->
  ca_callRequest c = Some rq -> 0 < cr_Timeout rq -> 0 < t1 ->
  exists s1 s2 s3 c2,
    call_event l (EvActive t1) s = Ret (tt, s1) /\ call_event l (EvRinging t2 info) s1 = Ret (tt, s2) /\
    timer_fires l s2 = Ret (tt, s3) /\
    cm_heap s2 !! l = Some c2 /\ Call_Answered c2 = true /\ HangupCause c2 = HangupCause c /\
    cm_trace s3 = SwHangupCall (ca_node c) (ca_id c) CALL_HANGUP_NO_ANSWER false None :: cm_trace s.
Proof.
  intros R Hl Hs Ha Ht Hq Hto Ht1. pose proof (reachable_inv _ _ _ R) as HI.
  destruct (late_ringing c rq t1 t2 info) as (c2 & Er & Et & Es & Ea & Eh & En & Ei); try done.
  assert (ca_state c <> CALL_STATE_NEW) as Hn by congruence.
  set (c1 := setActive t1 c) in *. set (s1 := s <| cm_heap := (<[l := c1]> (cm_heap s)) |>).
  assert (cm_heap s1 !! l = Some c1) as Hl1 by apply lookup_insert_eq.
  assert (call_upd c c1) as U1 by by apply upd_setActive.
  destruct (good_put rcv s l c c1 HI Hl U1) as [I1 _].
  assert (call_upd c1 c2) as U2.
  { apply (upd_setRinging t2 info); [|done]. by apply (la_started _ _ (up_later _ _ U1)). }
  set (s2 := s1 <| cm_heap := (<[l := c2]> (cm_heap s1)) |>).
  assert (cm_heap s2 !! l = Some c2) as Hl2 by apply lookup_insert_eq.
  destruct (good_put rcv s1 l c1 c2 I1 Hl1 U2) as [I2 _].
  destruct (timer_fires_spec rcv s2 l c2 I2 Hl2) as (s3 & E3 & T3); [by rewrite Es|].
  rewrite decide_True in T3 by (by rewrite Es).
  exists s1, s2, s3, c2. split; [|split; [|split; [done|split; [done|]]]].
  - simpl. unfold mod_call, put_call, cm_modify. cbv [mbind CM_bind]. by rewrite (get_call_eq s l c Hl).
  - simpl. unfold mod_call_o. cbv [mbind CM_bind]. rewrite (get_call_eq s1 l c1 Hl1). by rewrite Er.
  - unfold Call_Answered, HangupCause. rewrite Ea, Eh, T3, En, Ei. split; [|done].
    by apply bool_decide_eq_true; lia.
Qed.

(** The hangup of a call before its Invite closes the hangup channel each time: a second
    one panics; and if the call is invited all the same, its end panics. *)
Theorem cancelled_call_panics s l c cause e :
  cm_heap s !! l = Some c -> ca_state c = CALL_STATE_NEW -> ca_direction c = CALL_DIRECTION_OUTBOUND ->
  ca_hangupCh c = false -> ca_hangupAt c = 0 ->
  exists s1 s2, Hangup l cause false None s = Ret (None, s1) /\
    Hangup l cause false None s1 = Panic "close of closed channel" /\
    Invite l s1 = Ret (None, s2) /\
    Call_setHangup l e s2 = Panic "close of closed channel".
Proof.
  intros Hl Hs Hd Hc Ha.
  set (c1 := setCancel cause c <| ca_hangupCh := true |>).
  set (s1 := s <| cm_heap := (<[l := c1]> (cm_heap s)) |>).
  assert (cm_heap s1 !! l = Some c1) as Hl1 by apply lookup_insert_eq.
  assert (Hangup l cause false None s = Ret (None, s1)) as E1.
  { unfold Hangup, mod_call, mod_call_o, put_call, cm_modify. cbv [mbind CM_bind].
    rewrite (get_call_eq s l c Hl), decide_True by (by rewrite Hs). rewrite (get_call_eq s l c Hl).
    rewrite decide_True by done. rewrite (get_call_eq _ l (setCancel cause c)) by apply lookup_insert_eq.
    unfold close_hangup. csimpl. rewrite Hc. cbn [mret CM_ret]. subst s1. csimpl.
    by rewrite insert_insert_eq. }
  exists s1. eexists. split; [done|]. split; [|split].
  - unfold Hangup, mod_call, mod_call_o, put_call, cm_modify. cbv [mbind CM_bind].
    rewrite (get_call_eq s1 l c1 Hl1), decide_True by (simpl; by rewrite Hs).
    rewrite (get_call_eq s1 l c1 Hl1).
    rewrite decide_True by done. by rewrite (get_call_eq _ l (setCancel cause c1)) by apply lookup_insert_eq.
  - unfold Invite, saveToCacheCall, put_call, cm_modify. cbv [mbind CM_bind].
    rewrite (get_call_eq s1 l c1 Hl1). rewrite (get_call_eq _ l c1) by done.
    rewrite decide_False by (simpl; rewrite Hd; tauto). cbn [mret CM_ret]. done.
  - set (c2 := c1 <| ca_state := CALL_STATE_INVITE |>).
    unfold Call_setHangup, removeFromCacheCall, mod_call_o, cm_modify, cm_millis, cm_ask.
    cbv [mbind CM_bind].
    rewrite !(get_call_eq _ l c2) by apply lookup_insert_eq.
    rewrite decide_True by done. rewrite !(get_call_eq _ l c2) by apply lookup_insert_eq.
    unfold setHangup. rewrite decide_True by done. unfold close_hangup, stop_timer. csimpl.
    by destruct (ca_ringTimeout c), (hu_ReportingAt e).
Qed.

(** C29. An event of a call that has started and not ended is handled without a panic, with
    one exception: the request of a call that joined a queue from the switch is nil, and a
    ringing event for such a call reads its timeout, which panics. *)
Theorem event_panics_only_adopted node rcv s l c e :
  call_steps (NewCallManager node) rcv s -> cm_heap s !! l = Some c -> active c ->
  if decide (is_ringing e /\ ca_callRequest c = None)
  then call_event l e s = Panic nil_deref
  else exists s', call_event l e s = Ret (tt, s').
Proof.
  intros R Hl [Hs Ha]. pose proof (reachable_inv _ _ _ R) as HI.
  pose proof (ok_timer _ _ (i_heap _ _ HI _ _ Hl)) as HT.
  assert (forall f, exists s', mod_call l f s = Ret (tt, s')) as Hm.
  { intros f. unfold mod_call. cbv [mbind CM_bind]. rewrite (get_call_eq s l c Hl). by eexists. }
  destruct e; simpl call_event; try (rewrite decide_False by (intros [[] _]); auto).
  - unfold mod_call_o. cbv [mbind CM_bind]. rewrite (get_call_eq s l c Hl).
    unfold setRinging. cbv [mbind outcome_bind]. csimpl.
    destruct (ca_callRequest c) as [rq|] eqn:Eq.
    + rewrite decide_False by (intros [_ [=]]). destruct (ca_ringTimeout c); by eexists.
    + rewrite decide_True by done. destruct (ca_ringTimeout c); [by destruct HT|done].
  - destruct (upd_setProgress timestamp c Hs HT) as (c' & E & _). unfold mod_call_o.
    cbv [mbind CM_bind]. rewrite (get_call_eq s l c Hl), E. by eexists.
  - destruct (setHangup_returns rcv s l c e HI Hl Hs) as (s' & E & _). by exists s'.
  - by exists s.
Qed.

End Facts.

(** The connections appended to the pool, newest first. *)
Definition pooled (t : cmds) : list string :=
  omap (fun e => match e with PoolAppend n => Some n | _ => None end) t.

(** The questions before the one for the proxy are answered. *)
Definition answers (v : Client) : bool :=
  match cl_connect v, cl_version v, cl_sps v, cl_cdr v with
  | None, inr _, inr _, inr _ => true
  | _, _, _, _ => false
  end.

(** A connection enters the pool exactly if it connects and answers every question
    without an error, where the socket of the flow is asked for only while it is not known.
    The first address of the CDR and of the flow is kept. A connection that fails at the
    question for the proxy is left out of the pool, but it has overwritten the proxy that
    every new call uses. *)
Theorem register_connection_outcome (v : Client) (s : CMState) :
  let s' := registerConnection v s in
  pooled (cm_trace s') =
    (if answers v && bool_decide ((cl_proxy v).2 = None) &&
        (bool_decide (cm_flowSocketUri s <> "") || bool_decide ((cl_socket v).2 = None))
     then [cl_name v] else []) ++ pooled (cm_trace s) /\
  cm_proxy s' = (if answers v then (cl_proxy v).1 else cm_proxy s) /\
  (cm_cdr s = "" \/ cm_cdr s' = cm_cdr s) /\
  (cm_flowSocketUri s = "" \/ cm_flowSocketUri s' = cm_flowSocketUri s) /\
  cm_calls s' = cm_calls s /\ cm_heap s' = cm_heap s.
Proof.
  unfold registerConnection, answers.
  destruct (cl_connect v), (cl_version v), (cl_sps v), (cl_cdr v);
    try (repeat split; auto; fail).
  destruct (cl_proxy v) as [px [e|]], (cl_socket v) as [so [e'|]], (decide (cm_cdr s = ""));
    csimpl; repeat case_decide; csimpl; repeat case_bool_decide; repeat split; auto; congruence.
Qed.
