(* ===== verification/CallWitnesses.v ===== *)
(** * CallWitnesses: the theorems of CallFacts on a concrete call manager

    A switch with fixed answers, histories that are played step by step, and the theorems
    applied to them. *)

From S2P Require Import Prelude Lru Model Queue Attempt World Calls CallManager CallFacts.

(** ** Playing a history *)

Section Play.
Context {SW : Switch} {CJ : CallJson}.

Definition allowedb (r : call_req) (s : CMState) : bool :=
  match r with
  | RqInvite l =>
      match cm_heap s !! l with
      | Some c => bool_decide (ca_state c = CALL_STATE_NEW) && negb (ca_hangupCh c)
      | None => false
      end
  | RqInviteGo l => bool_decide (l ∈ cm_jobs s)
  | _ => true
  end.

Lemma allowedb_ok r s : allowedb r s = true -> allowed r s.
Proof.
  destruct r; simpl; try done.
  - destruct (cm_heap s !! l) as [c|]; [|done]. intros [E1 E2]%andb_true_iff.
    apply bool_decide_eq_true in E1. apply negb_true_iff in E2. by exists c.
  - apply bool_decide_eq_true.
Qed.

Fixpoint play (rs : list call_req) (rcv : list (loc * CallState)) (s : CMState)
    : option (list (loc * CallState) * CMState) :=
  match rs with
  | [] => Some (rcv, s)
  | r :: rs =>
      if allowedb r s then
        match call_do r s with
        | Ret (out, s') => play rs (rcv ++ option_list out) s'
        | _ => None
        end
      else None
  end.

Lemma play_steps s0 rs rcv s rcv' s' :
  call_steps s0 rcv s -> play rs rcv s = Some (rcv', s') -> call_steps s0 rcv' s'.
Proof.
  revert rcv s. induction rs as [|r rs IH]; intros rcv s H; simpl; [by intros [= <- <-]|].
  destruct (allowedb r s) eqn:Ea; [|done]. destruct (call_do r s) as [[out s1]| |] eqn:E; [|done|done].
  apply IH. eapply steps_next; [done|by apply allowedb_ok|done].
Qed.

Definition played (rs : list call_req) (s : CMState) : list (loc * CallState) * CMState :=
  default ([], s) (play rs [] s).

Lemma played_steps rs s :
  is_Some (play rs [] s) -> call_steps s (played rs s).1 (played rs s).2.
Proof.
  intros [[rcv s'] E]. unfold played. rewrite E. simpl. eapply play_steps; [apply steps_refl|done].
Qed.

End Play.

(** ** A switch *)

#[local] Instance demo_switch : Switch := {|
  sw_now := fun t => 1700000000000000000 + Z.of_nat (length t) * 1000000;
  sw_err := fun _ => None;
  sw_newCall := fun _ => ("", 0, None);
  sw_get := fun _ => inr "fs1";
  sw_getById := fun _ => inr "fs1";
  sw_all := fun _ => [Some true];
  sw_uuid := fun _ => "u1";
|}.

#[local] Instance demo_json : CallJson := fun _ e => e.

Lemma demo_clock t : 1000000 <= sw_now t.
Proof. simpl. lia. Qed.

(** ** Histories *)

Definition demo_request : CallRequest :=
  MkCallRequest (Some "call-1") ["sofia/agent"] 0 "100" None 30 "" "" "" "default" [] "" "".

Definition event (e : CallEvent) : call_req :=
  RqEvent (MkCallActionData "call-1" 0 "" None (Some e)).

Definition dialed : list call_req := [RqNewCall demo_request; RqInvite 0%nat; RqInviteGo 0%nat].

Definition ringing : list call_req := dialed ++ [event (EvRinging 1700000001000 zero_info)].

Definition ended : list call_req :=
  ringing ++ [RqReceive 0%nat; event (EvActive 1700000002000);
              event (EvHangup (local_hangup 1700000003000 "NORMAL_CLEARING" (Some 200)))].

Definition start : CMState := NewCallManager "node-1".

Definition call_of (rs : list call_req) : CallImpl :=
  default (zero_call "" "" CALL_DIRECTION_INBOUND None) (cm_heap (played rs start).2 !! 0%nat).

Lemma plays rs : is_Some (play rs [] start) -> call_steps start (played rs start).1 (played rs start).2.
Proof. apply played_steps. Qed.

(** ** Witnesses *)

Lemma hangup_once_witness :
  hangups (received 0 (played ended start).1 ++ ca_chState (call_of ended)) = 1%nat /\
  (ca_hangupCh (call_of ended) = true <-> ca_hangupAt (call_of ended) <> 0).
Proof.
  destruct (hangup_once demo_clock "node-1" (played ended start).1 (played ended start).2 0%nat (call_of ended))
    as (A & _ & B & _); [apply plays; vm_compute; eauto|vm_compute; reflexivity|vm_compute; discriminate|].
  split; [exact B|exact A].
Defined.

(** The history goes on with another hangup event and a hangup of the queue. *)
Definition after_end : list call_req :=
  [event (EvHangup (local_hangup 1700000009000 "USER_BUSY" (Some 486)));
   RqHangup 0%nat "NO_ANSWER" false None; RqReceive 0%nat].

Lemma hangup_is_final_witness :
  exists c', cm_heap (played after_end (played ended start).2).2 !! 0%nat = Some c' /\
    HangupCause c' = "NORMAL_CLEARING" /\ HangupCauseCode c' = 200.
Proof.
  destruct (hangup_is_final demo_clock "node-1" (played ended start).1 (played ended start).2 0%nat
    (call_of ended) (played after_end (played ended start).2).1 (played after_end (played ended start).2).2)
    as (c' & H & _ & _ & E1 & E2 & _);
    [apply plays; vm_compute; eauto|vm_compute; reflexivity|vm_compute; discriminate
    |apply played_steps; vm_compute; eauto|].
  exists c'. split; [exact H|]. split; [exact E1|exact E2].
Defined.

Lemma ring_timer_hangs_up_witness :
  exists s', timer_fires 0 (played ringing start).2 = Ret (tt, s') /\
    cm_trace s' = SwHangupCall "fs1" "call-1" "NO_ANSWER" false None :: cm_trace (played ringing start).2.
Proof.
  destruct (ring_timer_hangs_up demo_clock "node-1" (played ringing start).1 (played ringing start).2 0%nat
    (call_of ringing)) as (s' & E & T);
    [apply plays; vm_compute; eauto|vm_compute; reflexivity|vm_compute; discriminate|].
  exists s'. split; [exact E|exact T].
Defined.

Definition demo_info : CallInfo :=
  MkCallInfo "call-9" "active" 1 "inbound" "300" None 0 "fs1" "555" "Caller" 1700000000500 0 1700000000100.

Lemma inbound_call_joins_witness :
  exists r err s', CM_InboundCallQueue demo_info "music" None start = Ret ((r, err), s') /\
    r = Some 0%nat /\ err = None.
Proof.
  destruct (inbound_call_joins demo_clock "node-1" [] start demo_info "music" None (steps_refl _))
    as (r & err & s' & E & _).
  exists r, err, s'. split; [exact E|]. vm_compute in E. injection E as <- <- _. split; reflexivity.
Defined.

Lemma late_ringing_hangs_up_witness :
  exists s1 s2 s3 c2,
    call_event 0 (EvActive 1700000002000) (played dialed start).2 = Ret (tt, s1) /\
    call_event 0 (EvRinging 1700000001000 zero_info) s1 = Ret (tt, s2) /\
    timer_fires 0 s2 = Ret (tt, s3) /\ cm_heap s2 !! 0%nat = Some c2 /\ Call_Answered c2 = true /\
    cm_trace s3 = SwHangupCall "fs1" "call-1" "NO_ANSWER" false None :: cm_trace (played dialed start).2.
Proof.
  destruct (late_ringing_hangs_up demo_clock "node-1" (played dialed start).1 (played dialed start).2 0%nat
    (call_of dialed) (default demo_request (ca_callRequest (call_of dialed)))
    1700000002000 1700000001000 zero_info) as (s1 & s2 & s3 & c2 & A & B & C & D & E & _ & F);
    [apply plays; vm_compute; eauto|vm_compute; reflexivity..|].
  exists s1, s2, s3, c2. split; [exact A|]. split; [exact B|]. split; [exact C|]. split; [exact D|].
  split; [exact E|exact F].
Defined.

Lemma cancelled_call_panics_witness :
  exists s1 s2, Hangup 0 "NO_ANSWER" false None (played [RqNewCall demo_request] start).2 = Ret (None, s1) /\
    Hangup 0 "NO_ANSWER" false None s1 = Panic "close of closed channel" /\
    Invite 0 s1 = Ret (None, s2) /\
    Call_setHangup 0 (local_hangup 0 "USER_BUSY" None) s2 = Panic "close of closed channel".
Proof.
  apply (cancelled_call_panics _ 0%nat (call_of [RqNewCall demo_request])); vm_compute; reflexivity.
Defined.

Lemma event_panics_only_adopted_witness :
  call_event 0 (EvRinging 1 zero_info) (played [RqInbound demo_info "music" None] start).2 = Panic nil_deref.
Proof.
  exact (event_panics_only_adopted demo_clock "node-1" (played [RqInbound demo_info "music" None] start).1
    (played [RqInbound demo_info "music" None] start).2 0%nat (call_of [RqInbound demo_info "music" None])
    (EvRinging 1 zero_info) ltac:(apply plays; vm_compute; eauto) ltac:(vm_compute; reflexivity)
    ltac:(split; [vm_compute; discriminate|vm_compute; reflexivity])).
Defined.
