(* ===== verification/SwitchFacts.v ===== *)
(** * The theorems about the connection to the switch *)

From S2P Require Import Prelude Lru Model Queue Attempt World Calls CallManager CallFacts CallWitnesses SwitchConn.

Lemma switchErrToSipCode_cases e :
  switchErrToSipCode e = 500 \/ exists i, list_find (fun p => p.1 = e) switchCodeToSip = Some (i, (e, switchErrToSipCode e)).
Proof.
  unfold switchErrToSipCode. destruct (list_find _ _) as [[i [k v]]|] eqn:E; [|by left].
  right. exists i. pose proof (list_find_Some (fun p => p.1 = e) switchCodeToSip i (k, v)) as [H _].
  destruct (H E) as (_ & Hk & _). simpl in Hk. by subst k.
Qed.

(** The only refusal that becomes the code of a success is a normal clearing. *)
Lemma switch_code_success e : switchErrToSipCode e = 200 <-> e = 16.
Proof.
  split; [|by intros ->]. intros H. destruct (switchErrToSipCode_cases e) as [E|[i E]]; [congruence|].
  rewrite H in E. apply list_find_Some in E as (Hi & _ & _). apply list_elem_of_lookup_2 in Hi.
  assert (Forall (fun p => p.2 = 200 -> p.1 = 16) switchCodeToSip) as Hf by (repeat constructor; simpl; lia).
  rewrite Forall_forall in Hf. exact (Hf _ Hi eq_refl).
Qed.

Section Originate.
Context {FS : FsApi} {CJ : CallJson} (rest : Switch).
Hypothesis clock : forall t, 1000000 <= sw_now (Switch := rest) t.

#[local] Instance the_switch : Switch := conn_switch rest.

Lemma conn_clock t : 1000000 <= sw_now t.
Proof. apply clock. Qed.

(** What a call is like after its origination was answered. *)
Definition originated (t : list FsRequest) (c c' : CallImpl) : Prop :=
  match fs_err t, fs_error t with
  | Some _, _ => ca_hangupAt c' <> 0 /\ HangupCause c' = "" /\ HangupCauseCode c' = 500
  | None, Some e => ca_hangupAt c' <> 0 /\ HangupCause c' = fe_Message e /\
                    HangupCauseCode c' = switchErrToSipCode (fs_errorCode t)
  | None, None => c' = c
  end.

Lemma Invite_go_originated rcv s l c rq :
  Inv rcv s -> cm_heap s !! l = Some c -> ca_state c <> CALL_STATE_NEW -> ca_hangupAt c = 0 ->
  ca_callRequest c = Some rq ->
  exists s' c', Invite_go l s = Ret (tt, s') /\ cm_heap s' !! l = Some c' /\
    originated (FsOriginate (originate_request rq) :: requests (cm_trace s)) c c'.
Proof.
  intros HI Hl Hs H0 Hrq. unfold Invite_go, mbind, CM_bind, get_call. rewrite Hl.
  unfold cm_call. cbn [sw_newCall the_switch conn_switch]. rewrite Hrq.
  set (s1 := s <| cm_trace := _ |>).
  assert (Inv rcv s1) as HI1 by (destruct HI; by constructor).
  assert (cm_heap s1 !! l = Some c) as Hl1 by done.
  change (requests (cm_trace s1)) with (FsOriginate (originate_request rq) :: requests (cm_trace s)).
  set (t := FsOriginate (originate_request rq) :: requests (cm_trace s)).
  unfold originated, NewCallContext.
  destruct (fs_err t) as [e|] eqn:Ee; [|destruct (fs_error t) as [e|] eqn:Er].
  - destruct (setHangup_returns conn_clock rcv s1 l c (local_hangup 0 "" (Some 500)) HI1 Hl1 Hs)
      as (s' & E & _ & c' & Hc' & Ha & Hh). rewrite decide_True in Hh by done.
    exists s', c'. unfold HangupCause, HangupCauseCode. rewrite Hh. by split_and!.
  - destruct (setHangup_returns conn_clock rcv s1 l c
      (local_hangup 0 (fe_Message e) (Some (switchErrToSipCode (fs_errorCode t)))) HI1 Hl1 Hs)
      as (s' & E & _ & c' & Hc' & Ha & Hh). rewrite decide_True in Hh by done.
    exists s', c'. unfold HangupCause, HangupCauseCode. rewrite Hh. by split_and!.
  - by exists s1, c.
Qed.

(** C40. A call and the answer of the switch to its origination, in every reachable state of
    the call manager: the goroutine of Invite returns; a transport error ends the call with
    code 500, a refusal with the message of the switch and the SIP code of its error, and
    otherwise the call goes on. A refused call has no error for the queue exactly if the
    switch refused it with a normal clearing, whose code is that of a success. *)
Theorem originate_outcome node rcv s l c rq :
  call_steps (NewCallManager node) rcv s -> cm_heap s !! l = Some c ->
  ca_state c <> CALL_STATE_NEW -> ca_hangupAt c = 0 -> ca_callRequest c = Some rq ->
  let t := FsOriginate (originate_request rq) :: requests (cm_trace s) in
  exists s' c', Invite_go l s = Ret (tt, s') /\ cm_heap s' !! l = Some c' /\ originated t c c' /\
    (fs_err t = None -> is_Some (fs_error t) -> (Call_Err c' = None <-> fs_errorCode t = 16)).
Proof.
  intros R Hl Hs H0 Hrq t. pose proof (reachable_inv conn_clock _ _ _ R) as HI.
  destruct (Invite_go_originated rcv s l c rq HI Hl Hs H0 Hrq) as (s' & c' & E & Hc' & Ho).
  exists s', c'. split_and!; [done..|]. intros Ht [e He]. fold t in Ho. unfold originated in Ho.
  rewrite Ht, He in Ho. destruct Ho as (_ & _ & Hcode). unfold Call_Err. rewrite Hcode.
  assert (switchErrToSipCode (fs_errorCode t) <> 0) as Hn.
  { destruct (switchErrToSipCode_cases (fs_errorCode t)) as [->|[i Ei]]; [lia|].
    apply list_find_Some in Ei as (Hi & _ & _). apply list_elem_of_lookup_2 in Hi.
    assert (Forall (fun p => p.2 <> 0) switchCodeToSip) as Hf by (repeat constructor; simpl; lia).
    rewrite Forall_forall in Hf. exact (Hf _ Hi). }
  rewrite <- switch_code_success. case_decide; split; try done; intros; lia.
Qed.

End Originate.

(** The rate of calls a connection is limited to: no limit for a switch that reports
    none; otherwise the reported rate modulo 65536, and a rate that is a multiple of 65536
    panics with a division by zero. *)
Theorem connection_rate (sps : Z) :
  (SetConnectionSps sps = Ret None <-> sps <= 0) /\
  (SetConnectionSps sps = Panic "integer divide by zero" <-> 0 < sps /\ sps mod 65536 = 0) /\
  (0 < sps < 65536 -> SetConnectionSps sps = Ret (Some (Z.quot 1000000000 sps))).
Proof.
  unfold SetConnectionSps, NewRateLimiter, u16. change (2 ^ 16) with 65536.
  destruct (decide (sps > 0)) as [Hp|Hp]; [destruct (decide (sps mod 65536 = 0)) as [Hz|Hz]|]; simpl; split_and!.
  - split; [done|lia].
  - split; [lia|done].
  - intros ?. rewrite Z.mod_small in Hz by lia. lia.
  - split; [done|lia].
  - split; [done|lia].
  - intros ?. by rewrite Z.mod_small by lia.
  - split; [lia|done].
  - split; [done|lia].
  - lia.
Qed.

(** ** A call that the switch refuses *)

#[local] Instance demo_fs : FsApi := {|
  fs_err _ := None; fs_error _ := Some (MkFsError "USER_BUSY" "busy"); fs_errorCode _ := 17;
  fs_data _ := ""; fs_string _ := ""; fs_ok _ := true |}.

#[local] Instance demo_unmarshal : CallJson := fun _ e => e.

#[local] Instance refusing_switch : Switch := conn_switch demo_switch.

Definition invited : list call_req := [RqNewCall demo_request; RqInvite 0%nat].

Lemma originate_outcome_witness :
  exists s' c', Invite_go 0 (played invited start).2 = Ret (tt, s') /\ cm_heap s' !! 0%nat = Some c' /\
    HangupCauseCode c' = 486.
Proof.
  destruct (cm_heap (played invited start).2 !! 0%nat) as [c|] eqn:Hl; [|vm_compute in Hl; discriminate].
  pose proof Hl as Hc. vm_compute in Hc. injection Hc as Hc.
  destruct (ca_callRequest c) as [rq|] eqn:Hq; [|subst c; discriminate].
  destruct (originate_outcome demo_switch demo_clock "node-1" (played invited start).1 (played invited start).2 0%nat c
    rq) as (s' & c' & E & Hc' & Ho & _);
    [apply played_steps; vm_compute; eauto|exact Hl|subst c; discriminate|by subst c|exact Hq|].
  exists s', c'. split; [exact E|]. split; [exact Hc'|]. destruct Ho as (_ & _ & H). exact H.
Defined.
